(* ===== verification/_CoqProject ===== *)
-Q . S2P
Prelude.v
GoStrings.v
GoStrconv.v
GoNet.v
GoUrl.v
GoStringsFacts.v
GoUrlFacts.v
GoUrlParse.v
GoBase64.v
GoJson.v
GoJsonFacts.v
VolumeID.v
VolumeIDFacts.v
VolumeIDRoundTrip.v
LegacyID.v
VolumeTypes.v
VolumeInfoJson.v
Params.v
ParamsFacts.v
Chap.v
Prog.v
Interleaving.v
Threads.v
Driver.v
Server.v
Backend.v
Controller.v
ControllerFacts.v
StorageContract.v
Concurrency.v
LifeCycle.v
ControllerOps.v
GoPath.v
Host.v
ConnectorFile.v
Iscsiadm.v
Devices.v
Connector.v
IscsiFacts.v
DeviceFacts.v
NodeParams.v
Node.v
NodeService.v
NodeFacts.v
NodeOps.v
NodeOrder.v
NodeLife.v
KubeApi.v
Kube.v
KubeEvents.v
KubeFacts.v
KubeOps.v
GoQuote.v
Logging.v
GoDuration.v
Main.v
PowerShell.v
PowerShellFacts.v
WinRMScripts.v
WinRM.v
WinRMFacts.v
Cmdlets.v
ShareCmdlets.v
WindowsServer.v
Startup.v
Runtime.v
