(* ===== verification/Prelude.v ===== *)
(** * A CSI driver for Windows storage servers: the development

    The driver gives Kubernetes volumes on a Windows storage server: iSCSI disks, NFS
    and SMB shares.  One program runs as the controller (it makes, exports, publishes,
    expands, snapshots and deletes volumes by PowerShell scripts sent over WinRM) or as
    a node plugin (it logs in to targets, formats, mounts and takes back).  With
    Kubernetes integration the controller also provisions claims and attaches volumes
    itself, instead of the usual sidecars.

    ** How the program is modelled

    A Go function without effects is a function; a fallible one returns [res]: a value,
    an error (a gRPC status, an error of the operating system, or a text) or a panic.
    The text of an error is its format.  A function with effects is a program over a
    service ([Prog.v]): a tree of requests, each with a continuation from the response,
    so that a theorem about it holds for all responses.  [safe m s p Q] says that under
    monitor [m] the program makes allowed requests only, whatever admissible responses
    come, and ends in [Q]; [only P p] is its case without a state; [interp] links a
    program with the programs that implement its service.  A method with a receiver
    passes it along ([method]).  Strings are bytes, integers are [Z] with their widths
    written out, maps are [gmap].  A context is taken as live, except where the code
    reacts to one that is done; log lines are left out, except in [Logging.v].

    ** Parts

    - Go's library, as far as the program uses it: [GoStrings], [GoStrconv], [GoNet],
      [GoUrl], [GoBase64], [GoJson], [GoPath], [GoQuote], [GoDuration]; lemmas in
      [GoStringsFacts], [GoUrlFacts], [GoUrlParse], [GoJsonFacts] (any value that is
      written as JSON is read back).
    - Volume ids, [pkg/iscsi/volumeid.go]: [VolumeID] (the URI form), [VolumeIDFacts] and
      [VolumeIDRoundTrip]; [LegacyID] (the JSON form, [encodeVolID], [decodeAnyVolumeID],
      snapshot ids of [controllerserver.go]); [VolumeTypes] (descriptions, LUN values,
      the backend selector) and [VolumeInfoJson] (the JSON text of a description).
    - Parameters and secrets, first part of [controllerserver.go]: [Params],
      [ParamsFacts], [Chap].
    - The driver, [driver.go], [leader_election.go], [identityserver.go], [utils.go]:
      [Driver]; the gRPC server, [server.go]: [Server], with the goroutine that serves, the
      one that stops it and the driver as threads over one world ([Threads]: pools of
      threads and what each relies on and guarantees); the command, [cmd/csiplugin/main.go]:
      [Main]; both, linked with the back end from the environment and its probe: [Startup];
      the interceptor, the election, the run directory and the goroutines of the health and
      registration endpoints: [Runtime].
    - The interface [Backend] of [driver.go]: [Backend], one request per method.
      Above it, the controller service of [controllerserver.go]: [Controller], a
      definition per RPC; [ControllerFacts], [ControllerOps]; [StorageContract],
      what the controller gets from a server that remembers; [Concurrency], two
      creations at once ([Interleaving]: programs that take turns, rely and guarantee), and
      [LifeCycle], a volume from its creation to its deletion.  Below it, two
      implementations: [Logging] ([logging_backend.go]) and the WinRM back end
      ([backend_winrm.go], [backend_fileshare.go]): [PowerShell], [WinRMScripts] (each
      script as format and arguments), [WinRM] (the methods, [winrm_backend], and
      [newWinRMBackendFromEnv]), with [PowerShellFacts] and [WinRMFacts].  What the scripts
      do there: [Cmdlets] (disks and targets) and [ShareCmdlets] (snapshots and file
      shares), each script as a program over the cmdlets it calls; [WindowsServer], a server
      the cmdlets of which do what is documented of them or fail, under the controller and
      the scripts.
    - The iSCSI library, [pkg/iscsilib]: [Host] (what is asked of the operating system),
      [ConnectorFile] (the JSON file of a connector), [Iscsiadm], [Devices], [Connector];
      [IscsiFacts] (with what a host keeps of sessions and records), [DeviceFacts].
    - The node service, [nodeserver.go] and [fsstats_linux.go]: [NodeParams], [Node],
      [NodeService]; [NodeFacts], [NodeOps], [NodeOrder]; [NodeLife], unstaging on a host that
      keeps files, sessions and records.
    - The built-in Kubernetes agent, [internal_kubernetes.go]: [KubeApi] (objects and
      requests), [Kube] (the reconcilers), [KubeEvents] (events, queues, workers, start
      of both modes); [KubeFacts], [KubeOps] (the reconcilers linked with the controller).

    ** What the theorems show

    - Ids: what is encoded is decoded, for the three protocols and both forms; what is
      decoded is valid; the two forms are not confused.  So are the file of a connector
      and the JSON of a description.
    - Input: what is accepted of paths, sizes, NFS options and CHAP secrets.
    - Controller: creation removes nothing; deletion unmaps before it deletes and
      succeeds only when all is gone; a disk is exported behind CHAP; repeated and
      concurrent creation gives the same volume; publishing, expansion and shares do what the
      request says; a volume that is deleted leaves nothing on a storage
      server that keeps its contract, whatever it has served; nor, by the scripts, on the
      Windows server, except for the disks' folder, as long as lookups do not fail.
    - WinRM: a linked program sends scripts of its own requests only, and their arguments
      stay data; results have their types whatever the host prints.  Logging: the logging
      back end is transparent and shows no CHAP secret.
    - iSCSI and node: waits end; logout and login are complete and in order; devices go
      after they are flushed and offline; the node reads what the controller publishes;
      passwords under their own keys stay out of plain mount options; staging and unstaging
      are in order; what staging has left on file unstaging takes back, once and for all, on
      a host whose [iscsiadm] says of absence what is true.
    - Kubernetes: storage goes only for a deletable volume without attachment; a failed
      provision is rolled back; finalizers enclose attachment; an event of a last
      attachment wakes the deletion it held up.
    - Start-up and end: from the command line on, what is sent, and what is served in which
      mode and after what; in every interleaving the server is registered before it serves
      and its socket is cleared; once it is stopped the wait of the driver ends.

    ** Bounds and fuel

    Functions on texts that are not structural have the length of the text as fuel,
    each step taking a byte or more ([range], [Replacer], [ParseDuration], JSON with its
    nesting limit).  [wait_loop] recurses on the retries that are left.  [poll] of the
    node has fuel for every pause until its deadline; [stuck] marks where it ran out,
    and [NodeOps.waits_end] shows that it does not while the clock runs.  [run_worker]
    has the number of keys it takes as fuel, as the code's loop has no end.

    ** Parameters

    Which runes above U+00FF are printable ([GoQuote]), the JSON text of a time
    ([parse_time], [time_text] of [WinRM]), the key functions of client-go
    ([KubeEvents]), the value of a resource quantity (a field in [KubeApi]), the
    environment, files and host name (arguments), how secrets are stripped from a request
    that is logged ([StripSecrets] in [Runtime]), case folding, [Join-Path] and
    [[guid]::TryParse] of PowerShell ([Cmdlets], [ShareCmdlets]), the environment and full
    names of the Windows server ([WindowsServer]).  The answers of the host, of the API
    server, of the WinRM client and of PowerShell are the responses of their services.

    ** Not modelled

    What goes on inside of a socket, the gRPC and HTTP libraries, client-go and its election
    (the calls of them are modelled, and what they call back); the flag package (the values
    of the flags are given).  They are input and output, or third-party.  The environment is
    read as a map; a driver's back end is taken as wired when the controller runs.  Helpers
    of log lines, and variables that only give tests a place to hook in, are left out.
    PowerShell has its rules of quoting and the scripts as programs over cmdlets; that a text
    of [WinRMScripts] runs as its program of [Cmdlets] is read off, as there is no semantics
    of the language here.  A script that goes on after the driver gave it up is left out.

    ** Plan

    The life of a file share on the Windows server; what other pairs of RPCs on one volume
    do to each other. *)
From Stdlib Require Export ZArith Lia Ascii String.
From stdpp Require Export base tactics numbers option list strings gmap sorting.

#[global] Open Scope string_scope.
#[global] Open Scope list_scope.
#[global] Open Scope Z_scope.
#[global] Arguments String.append : simpl nomatch.

(** ** Notation: comparisons of Go strings and bytes *)

Declare Scope go_scope.
Delimit Scope go_scope with go.
Infix "==" := String.eqb (at level 70, no associativity) : go_scope.
Notation "a != b" := (negb (String.eqb a b)) (at level 70, no associativity) : go_scope.
Infix "=b" := Ascii.eqb (at level 70, no associativity) : go_scope.
#[global] Open Scope go_scope.

(** ** Automation *)

Create HintDb godb.

(** [go_bool] turns boolean equations on strings, bytes and integers into
    propositions. *)
Ltac go_bool :=
  repeat match goal with
  | H : String.eqb _ _ = true |- _ => apply String.eqb_eq in H
  | H : String.eqb _ _ = false |- _ => apply String.eqb_neq in H
  | H : Ascii.eqb _ _ = true |- _ => apply Ascii.eqb_eq in H
  | H : Ascii.eqb _ _ = false |- _ => apply Ascii.eqb_neq in H
  | H : negb _ = true |- _ => apply negb_true_iff in H
  | H : negb _ = false |- _ => apply negb_false_iff in H
  | H : andb _ _ = true |- _ => apply andb_true_iff in H; destruct H
  | H : orb _ _ = false |- _ => apply orb_false_iff in H; destruct H
  | H : (_ <? _)%Z = true |- _ => apply Z.ltb_lt in H
  | H : (_ <? _)%Z = false |- _ => apply Z.ltb_ge in H
  | H : (_ <=? _)%Z = true |- _ => apply Z.leb_le in H
  | H : (_ <=? _)%Z = false |- _ => apply Z.leb_gt in H
  | H : (_ =? _)%Z = true |- _ => apply Z.eqb_eq in H
  | H : (_ =? _)%Z = false |- _ => apply Z.eqb_neq in H
  end.

(** ** Go's two's-complement integers *)

(** A [w]-bit signed conversion: Go's [int32(x)] is [wrap_signed 32 x]. *)
Definition wrap_signed (w : Z) (x : Z) : Z :=
  (x + 2 ^ (w - 1)) mod 2 ^ w - 2 ^ (w - 1).

Definition int32_of (x : Z) : Z := wrap_signed 32 x.
Definition int64_of (x : Z) : Z := wrap_signed 64 x.
Definition in_int32 (x : Z) : Prop := - 2 ^ 31 <= x < 2 ^ 31.
Definition in_int64 (x : Z) : Prop := - 2 ^ 63 <= x < 2 ^ 63.

Lemma wrap_signed_id w x :
  0 < w -> - 2 ^ (w - 1) <= x < 2 ^ (w - 1) -> wrap_signed w x = x.
Proof.
  intros Hw Hx. unfold wrap_signed.
  assert (2 ^ w = 2 * 2 ^ (w - 1)) as E
    by (rewrite <- Z.pow_succ_r by lia; f_equal; lia).
  rewrite Z.mod_small; lia.
Qed.

Lemma int32_of_id x : in_int32 x -> int32_of x = x.
Proof. intros H. apply wrap_signed_id; [lia | exact H]. Qed.

Lemma int64_of_id x : in_int64 x -> int64_of x = x.
Proof. intros H. apply wrap_signed_id; [lia | exact H]. Qed.

Lemma int32_of_range x : in_int32 (int32_of x).
Proof.
  unfold in_int32, int32_of, wrap_signed.
  pose proof (Z.mod_pos_bound (x + 2 ^ (32 - 1)) (2 ^ 32)).
  change (2 ^ (32 - 1)) with (2 ^ 31) in *. lia.
Qed.

(** ** Results *)

(** gRPC status codes the program returns ([google.golang.org/grpc/codes]). *)
Inductive Code :=
| InvalidArgument | NotFound | AlreadyExists | FailedPrecondition
| Unimplemented | Internal | Unavailable.

#[export] Instance Code_eq_dec : EqDecision Code.
Proof. solve_decision. Defined.

(** What the code can find out about an error of the operating system:
    [os.IsNotExist], [os.IsTimeout], the exit status of an [exec.ExitError]. *)
Inductive os_kind := NotExist | Timeout | ExitStatus (status : Z) | OtherKind.

#[export] Instance os_kind_eq_dec : EqDecision os_kind.
Proof. solve_decision. Defined.

(** A Go [error].  [StatusErr] is [status.Error]/[status.Errorf], [PlainErr]
    is [errors.New]/[fmt.Errorf].  Both carry the text of the call: the format
    string, without the values interpolated into it.  [OsErr] is an error whose
    kind or whole text the code looks at. *)
Inductive error :=
| StatusErr (c : Code) (format : string)
| PlainErr (format : string)
| OsErr (kind : os_kind) (text : string).

#[export] Instance error_eq_dec : EqDecision error.
Proof. solve_decision. Defined.

(** The outcome of a Go function with a final [error] result.  [Panicked] is a
    run-time panic (an index out of range, a nil dereference). *)
Inductive res (A : Type) :=
| Ok (a : A)
| Err (e : error)
| Panicked.
Arguments Ok {_} _.
Arguments Err {_} _.
Arguments Panicked {_}.

#[export] Instance res_eq_dec {A} `{EqDecision A} : EqDecision (res A).
Proof. solve_decision. Defined.

#[export] Instance res_ret : MRet res := fun A a => Ok a.
#[export] Instance res_bind : MBind res := fun A B f m =>
  match m with Ok a => f a | Err e => Err e | Panicked => Panicked end.
#[export] Instance res_fmap : FMap res := fun A B f m =>
  match m with Ok a => Ok (f a) | Err e => Err e | Panicked => Panicked end.

Definition is_Ok {A} (r : res A) : bool :=
  match r with Ok _ => true | _ => false end.

Lemma res_bind_Ok {A B} (m : res A) (f : A -> res B) (b : B) :
  (m ≫= f) = Ok b <-> exists a, m = Ok a /\ f a = Ok b.
Proof. split; [destruct m; simpl; naive_solver|]. intros (a & -> & H). exact H. Qed.

(** [simplify_res] inverts hypotheses [m ≫= f = Ok b] into their steps. *)
Ltac simplify_res :=
  repeat match goal with
  | H : (_ ≫= _) = Ok _ |- _ => apply res_bind_Ok in H; destruct H as (? & ? & ?)
  | H : Ok _ = Ok _ |- _ => injection H as H
  | H : Err _ = Ok _ |- _ => discriminate H
  | H : Panicked = Ok _ |- _ => discriminate H
  | p : _ * _ |- _ => destruct p
  | H : (_, _) = (_, _) |- _ => injection H as ? ?
  | x := _ |- _ => subst x
  end; simplify_eq.

(** A closed decidable proposition, by evaluation. *)
Ltac by_decide := refine (bool_decide_eq_true_1 _ _); vm_compute; reflexivity.
