(* ===== verification/GoStrings.v ===== *)
(** * Go strings: the part of [strings], [unicode] and [unicode/utf8] the
    program uses.  A Go string is its bytes; runes are decoded from them. *)
From S2P Require Import Prelude.

(** ** Bytes *)

Definition code (c : ascii) : N := N_of_ascii c.
Definition byte_between (lo hi : N) (c : ascii) : bool :=
  (N.leb lo (code c) && N.leb (code c) hi)%bool.
Definition is_digit (c : ascii) : bool := byte_between 48 57 c.
Definition is_upper (c : ascii) : bool := byte_between 65 90 c.
Definition is_lower (c : ascii) : bool := byte_between 97 122 c.
Definition is_alpha (c : ascii) : bool := (is_upper c || is_lower c)%bool.
Definition is_alnum (c : ascii) : bool := (is_alpha c || is_digit c)%bool.

(** Every byte of [s] satisfies [f]. *)
Fixpoint str_all (f : ascii -> bool) (s : string) : bool :=
  match s with
  | EmptyString => true
  | String c s' => (f c && str_all f s')%bool
  end.

Fixpoint str_drop (n : nat) (s : string) : string :=
  match n, s with
  | O, _ => s
  | S n', String _ s' => str_drop n' s'
  | S _, EmptyString => EmptyString
  end.

Fixpoint str_take (n : nat) (s : string) : string :=
  match n, s with
  | S n', String c s' => String c (str_take n' s')
  | _, _ => EmptyString
  end.

Fixpoint str_rev_app (s acc : string) : string :=
  match s with
  | EmptyString => acc
  | String c s' => str_rev_app s' (String c acc)
  end.
Definition str_rev (s : string) : string := str_rev_app s "".

(** The byte at index [i], as [s[i]] when it is in range. *)
Definition byte_at (i : nat) (s : string) : option ascii := String.get i s.

(** ** Searching *)

Fixpoint HasPrefix (s p : string) : bool :=
  match p, s with
  | EmptyString, _ => true
  | String a p', String b s' => ((a =b b) && HasPrefix s' p')%bool
  | String _ _, EmptyString => false
  end.

Definition HasSuffix (s p : string) : bool := HasPrefix (str_rev s) (str_rev p).

Definition TrimPrefix (s p : string) : string :=
  if HasPrefix s p then str_drop (String.length p) s else s.

Fixpoint Index (s sub : string) : option nat :=
  if HasPrefix s sub then Some O
  else match s with
       | EmptyString => None
       | String _ s' => S <$> Index s' sub
       end.

Definition Contains (s sub : string) : bool :=
  match Index s sub with Some _ => true | None => false end.

Fixpoint IndexByte (s : string) (c : ascii) : option nat :=
  match s with
  | EmptyString => None
  | String a s' => if a =b c then Some O else S <$> IndexByte s' c
  end.

Fixpoint LastIndexByte (s : string) (c : ascii) : option nat :=
  match s with
  | EmptyString => None
  | String a s' =>
      match LastIndexByte s' c with
      | Some i => Some (S i)
      | None => if a =b c then Some O else None
      end
  end.

Definition ContainsByte (s : string) (c : ascii) : bool :=
  negb (str_all (fun a => negb (a =b c)) s).

(** [strings.ContainsAny] with an ASCII set of bytes. *)
Definition ContainsAny (s : string) (set : string) : bool :=
  negb (str_all (fun a => negb (ContainsByte set a)) s).

(** [strings.Cut] with a one-byte separator. *)
Fixpoint CutByte (s : string) (c : ascii) : string * string * bool :=
  match s with
  | EmptyString => (EmptyString, EmptyString, false)
  | String a s' =>
      if a =b c then (EmptyString, s', true)
      else let '(l, r, ok) := CutByte s' c in (String a l, r, ok)
  end.

(** [strings.Split] with a one-byte separator. *)
Fixpoint SplitByte (s : string) (c : ascii) : list string :=
  match s with
  | EmptyString => [EmptyString]
  | String a s' =>
      if a =b c then EmptyString :: SplitByte s' c
      else match SplitByte s' c with
           | [] => [String a EmptyString]
           | x :: xs => String a x :: xs
           end
  end.

Definition Join (l : list string) (sep : string) : string := String.concat sep l.

(** [strings.ReplaceAll] of a one-byte pattern. *)
Fixpoint ReplaceByte (s : string) (c : ascii) (new : string) : string :=
  match s with
  | EmptyString => EmptyString
  | String a s' => (if a =b c then new else String a "") +:+ ReplaceByte s' c new
  end.

(** ** Trimming bytes of a cutset *)

Fixpoint TrimLeftBytes (f : ascii -> bool) (s : string) : string :=
  match s with
  | String c s' => if f c then TrimLeftBytes f s' else s
  | EmptyString => EmptyString
  end.

Definition TrimRightBytes (f : ascii -> bool) (s : string) : string :=
  str_rev (TrimLeftBytes f (str_rev s)).

(** [strings.TrimLeft], [TrimRight] and [Trim] with an ASCII cutset. *)
Definition TrimLeft (s cutset : string) : string := TrimLeftBytes (ContainsByte cutset) s.
Definition TrimRight (s cutset : string) : string := TrimRightBytes (ContainsByte cutset) s.
Definition Trim (s cutset : string) : string := TrimRight (TrimLeft s cutset) cutset.

(** ** Runes *)

(** [utf8.RuneError], the rune of an invalid byte. *)
Definition RuneError : N := 65533.

Definition is_cont (c : ascii) : bool := byte_between 128 191 c.
Definition cont_bits (c : ascii) : N := N.land (code c) 63.

(** [utf8.DecodeRuneInString], with what follows the rune: an ill-formed
    sequence is [RuneError] and one byte long. *)
Definition DecodeRune (s : string) : option (N * string) :=
  match s with
  | EmptyString => None
  | String b0 s1 =>
      let bad := Some (RuneError, s1) in
      if byte_between 0 127 b0 then Some (code b0, s1)
      else if byte_between 194 223 b0 then
        match s1 with
        | String b1 s2 =>
            if is_cont b1
            then Some (N.land (code b0) 31 * 64 + cont_bits b1, s2)%N else bad
        | EmptyString => bad
        end
      else if byte_between 224 239 b0 then
        match s1 with
        | String b1 (String b2 s3) =>
            let lo := if N.eqb (code b0) 224 then 160%N else 128%N in
            let hi := if N.eqb (code b0) 237 then 159%N else 191%N in
            if (byte_between lo hi b1 && is_cont b2)%bool
            then Some (N.land (code b0) 15 * 4096 + cont_bits b1 * 64 + cont_bits b2, s3)%N
            else bad
        | _ => bad
        end
      else if byte_between 240 244 b0 then
        match s1 with
        | String b1 (String b2 (String b3 s4)) =>
            let lo := if N.eqb (code b0) 240 then 144%N else 128%N in
            let hi := if N.eqb (code b0) 244 then 143%N else 191%N in
            if (byte_between lo hi b1 && is_cont b2 && is_cont b3)%bool
            then Some (N.land (code b0) 7 * 262144 + cont_bits b1 * 4096
                       + cont_bits b2 * 64 + cont_bits b3, s4)%N
            else bad
        | _ => bad
        end
      else bad
  end.

(** [utf8.AppendRune]: the encoding of a rune, [RuneError]'s for a surrogate
    or a value out of range. *)
Definition byte_of (n : N) : ascii := ascii_of_N n.
Definition EncodeRune (r : N) : string :=
  if N.leb r 127 then String (byte_of r) ""
  else if N.leb r 2047 then
    String (byte_of (192 + N.shiftr r 6)) (String (byte_of (128 + N.land r 63)) "")
  else if ((N.leb 55296 r && N.leb r 57343) || N.ltb 1114111 r)%bool then
    String (byte_of 239) (String (byte_of 191) (String (byte_of 189) ""))
  else if N.leb r 65535 then
    String (byte_of (224 + N.shiftr r 12))
      (String (byte_of (128 + N.land (N.shiftr r 6) 63))
         (String (byte_of (128 + N.land r 63)) ""))
  else
    String (byte_of (240 + N.shiftr r 18))
      (String (byte_of (128 + N.land (N.shiftr r 12) 63))
         (String (byte_of (128 + N.land (N.shiftr r 6) 63))
            (String (byte_of (128 + N.land r 63)) ""))).

(** The (index, rune) pairs of [for i, r := range s]; [fuel] bounds the number
    of runes and [String.length s] is enough, since a rune is at least a byte. *)
Fixpoint range_from (fuel : nat) (i : nat) (s : string) : list (nat * N) :=
  match fuel, DecodeRune s with
  | S fuel', Some (r, rest) =>
      (i, r) :: range_from fuel' (i + (String.length s - String.length rest)) rest
  | _, _ => []
  end.
Definition range (s : string) : list (nat * N) := range_from (String.length s) 0 s.

(** [unicode.IsSpace] (White_Space) and [unicode.IsControl] (category Cc). *)
Definition IsSpace (r : N) : bool :=
  ((N.leb 9 r && N.leb r 13) || N.eqb r 32 || N.eqb r 133 || N.eqb r 160
   || N.eqb r 5760 || (N.leb 8192 r && N.leb r 8202) || N.eqb r 8232
   || N.eqb r 8233 || N.eqb r 8239 || N.eqb r 8287 || N.eqb r 12288)%bool.
Definition IsControl (r : N) : bool :=
  (N.leb r 31 || (N.leb 127 r && N.leb r 159))%bool.

(** [strings.ContainsFunc]. *)
Definition ContainsFunc (s : string) (f : N -> bool) : bool :=
  existsb (fun ir => f (snd ir)) (range s).

(** ** TrimSpace *)

(** One leading white-space rune removed, if there is one. *)
Definition strip_space (s : string) : option string :=
  match DecodeRune s with
  | Some (r, rest) => if IsSpace r then Some rest else None
  | None => None
  end.

Fixpoint trim_left_space (fuel : nat) (s : string) : string :=
  match fuel, strip_space s with
  | S fuel', Some rest => trim_left_space fuel' rest
  | _, _ => s
  end.
Definition TrimLeftSpace (s : string) : string := trim_left_space (String.length s) s.

(** [utf8.DecodeLastRuneInString] on the reversed bytes [r] of a string: at
    most four bytes back to one that starts a rune, which must be decoded to
    its end. The result is the rune and the reversed bytes before it. *)
Definition starts_rune (c : ascii) : bool := negb (is_cont c).
Definition decode_exact (b : string) : option N :=
  match DecodeRune b with
  | Some (r, EmptyString) => Some r
  | _ => None
  end.
Definition DecodeLastRune (s : string) : option (N * string) :=
  match s with
  | EmptyString => None
  | String b1 r1 =>
      let bad := Some (RuneError, r1) in
      let try (b r : string) :=
        match decode_exact b with Some x => Some (x, r) | None => bad end in
      if starts_rune b1 then try (String b1 "") r1
      else match r1 with
      | EmptyString => bad
      | String b2 r2 =>
      if starts_rune b2 then try (String b2 (String b1 "")) r2
      else match r2 with
      | EmptyString => bad
      | String b3 r3 =>
      if starts_rune b3 then try (String b3 (String b2 (String b1 ""))) r3
      else match r3 with
      | EmptyString => bad
      | String b4 r4 =>
      if starts_rune b4
      then try (String b4 (String b3 (String b2 (String b1 "")))) r4 else bad
      end end end
  end.

Definition strip_last_space (s : string) : option string :=
  match DecodeLastRune s with
  | Some (r, rest) => if IsSpace r then Some rest else None
  | None => None
  end.
Fixpoint trim_last_space (fuel : nat) (s : string) : string :=
  match fuel, strip_last_space s with
  | S fuel', Some rest => trim_last_space fuel' rest
  | _, _ => s
  end.
Definition TrimRightSpace (s : string) : string :=
  str_rev (trim_last_space (String.length s) (str_rev s)).

(** [strings.TrimSpace]. *)
Definition TrimSpace (s : string) : string := TrimRightSpace (TrimLeftSpace s).

(** [strings.Fields]: the maximal runs of runes that are not white space. *)
Fixpoint fields_from (fuel : nat) (cur s : string) : list string :=
  let flush := if cur == "" then [] else [cur] in
  match fuel, DecodeRune s with
  | S fuel', Some (r, rest) =>
      let rune := str_take (String.length s - String.length rest) s in
      if IsSpace r then flush ++ fields_from fuel' "" rest
      else fields_from fuel' (cur +:+ rune) rest
  | _, _ => flush
  end.
Definition Fields (s : string) : list string := fields_from (String.length s) "" s.

(** ** Letter case

    [strings.ToLower] and [strings.EqualFold] are used by the program only to
    compare a string with ASCII words ([EqualFold]: snapshot GUIDs).  Outside
    ASCII, the runes that Unicode maps to an ASCII letter are U+0130 and U+212A
    (lower case) and U+017F and U+212A (folding); every other rune is left as
    it is, where Go maps letters such as U+00C9 to another rune that is not
    ASCII either, so no such comparison can tell the difference. *)
Definition lower_rune (r : N) : N :=
  if (N.leb 65 r && N.leb r 90)%bool then (r + 32)%N
  else if N.eqb r 304 then 105%N
  else if N.eqb r 8490 then 107%N
  else r.
Definition fold_rune (r : N) : N :=
  if (N.leb 65 r && N.leb r 90)%bool then (r + 32)%N
  else if N.eqb r 383 then 115%N
  else if N.eqb r 8490 then 107%N
  else r.
Definition map_runes (f : N -> N) (s : string) : string :=
  String.concat "" (map (fun ir => EncodeRune (f (snd ir))) (range s)).
Definition ToLower (s : string) : string := map_runes lower_rune s.
Definition EqualFold (a b : string) : bool := map_runes fold_rune a == map_runes fold_rune b.

Example TrimSpace_ex : TrimSpace "  ab c
 " = "ab c".
Proof. vm_compute. reflexivity. Qed.
Example ToLower_ex : ToLower "IQN.2024-x" = "iqn.2024-x".
Proof. vm_compute. reflexivity. Qed.
Example Fields_ex : Fields " tcp:  [1] a,1 iqn:x " = ["tcp:"; "[1]"; "a,1"; "iqn:x"].
Proof. vm_compute. reflexivity. Qed.

(** ** [strings.Replacer]

    The replacement of the first pair, in the order of the arguments, whose old
    string (never empty here) starts the text, and what follows it. *)
Fixpoint replace_here (pairs : list (string * string)) (s : string) : option (string * string) :=
  match pairs with
  | [] => None
  | (old, new) :: rest =>
      if HasPrefix s old then Some (new, str_drop (String.length old) s) else replace_here rest s
  end.
Fixpoint replace_from (fuel : nat) (pairs : list (string * string)) (s : string) : string :=
  match fuel, s with
  | S f, String c s' =>
      match replace_here pairs s with
      | Some (new, rest) => new ++ replace_from f pairs rest
      | None => String c (replace_from f pairs s')
      end
  | _, _ => s
  end.
(** Every step of the scan drops a byte at least. *)
Definition Replacer (pairs : list (string * string)) (s : string) : string :=
  replace_from (String.length s) pairs s.
