(* ===== verification/GoStrconv.v ===== *)
(** * Go's [strconv]: decimal integers and booleans. *)
From S2P Require Import Prelude GoStrings.
From Stdlib Require Import DecimalString DecimalZ DecimalFacts Decimal.

(** An unsigned decimal literal: one digit or more and nothing else. *)
Definition parse_digits (s : string) : option Z :=
  match NilZero.uint_of_string s with
  | Some d => Some (Z.of_uint d)
  | None => None
  end.

(** A literal with an optional sign. *)
Definition signed_digits (s : string) : option Z :=
  match s with
  | String c s' =>
      if c =b "-" then option_map Z.opp (parse_digits s')
      else if c =b "+" then parse_digits s'
      else parse_digits s
  | EmptyString => None
  end.

(** [strconv.ParseInt(s, 10, w)], [None] for a syntax or a range error. *)
Definition ParseInt (w : Z) (s : string) : option Z :=
  match signed_digits s with
  | Some z => if ((- 2 ^ (w - 1) <=? z) && (z <? 2 ^ (w - 1)))%bool then Some z else None
  | None => None
  end.

(** [strconv.Atoi], [int] being 64 bits wide. *)
Definition Atoi (s : string) : option Z := ParseInt 64 s.

(** [strconv.ParseUint(s, 10, w)]: no sign is accepted. *)
Definition ParseUint (w : Z) (s : string) : option Z :=
  match parse_digits s with
  | Some z => if (z <? 2 ^ w)%Z then Some z else None
  | None => None
  end.

(** [strconv.Itoa] and [strconv.FormatInt(i, 10)]. *)
Definition Itoa (z : Z) : string := NilZero.string_of_int (Z.to_int z).

(** [strconv.ParseBool]. *)
Definition ParseBool (s : string) : option bool :=
  if existsb (String.eqb s) ["1"; "t"; "T"; "TRUE"; "true"; "True"] then Some true
  else if existsb (String.eqb s) ["0"; "f"; "F"; "FALSE"; "false"; "False"] then Some false
  else None.

Lemma parse_digits_uint d :
  parse_digits (NilZero.string_of_uint d) = Some (Z.of_uint d).
Proof.
  unfold parse_digits. destruct d; [reflexivity|..];
    rewrite NilZero.usu by discriminate; reflexivity.
Qed.

Lemma string_of_uint_all (f : ascii -> bool) d :
  (forall c, is_digit c = true -> f c = true) ->
  str_all f (NilZero.string_of_uint d) = true.
Proof.
  intros Hf. assert (forall d, str_all f (NilEmpty.string_of_uint d) = true) as H.
  { clear d. induction d; simpl; rewrite ?Hf; auto. }
  destruct d; [simpl; rewrite Hf; auto|..]; apply H.
Qed.

(** The digits of a literal are not empty and start with a digit. *)
Lemma string_of_uint_cons d :
  exists c s, NilZero.string_of_uint d = String c s /\ is_digit c = true.
Proof. destruct d; simpl; eauto. Qed.

Lemma Itoa_all (f : ascii -> bool) z :
  f "-"%char = true -> (forall c, is_digit c = true -> f c = true) ->
  str_all f (Itoa z) = true.
Proof.
  intros Hm Hf. unfold Itoa. destruct (Z.to_int z); simpl;
    [apply string_of_uint_all; auto|].
  rewrite Hm. apply string_of_uint_all; auto.
Qed.

Lemma Itoa_nonempty z : Itoa z <> "".
Proof.
  unfold Itoa. destruct (Z.to_int z) as [d|d]; simpl; [|discriminate].
  destruct (string_of_uint_cons d) as (c & s & -> & _). discriminate.
Qed.

Lemma signed_digits_Itoa z : signed_digits (Itoa z) = Some z.
Proof.
  unfold Itoa. pose proof (DecimalZ.of_to z) as E.
  destruct (Z.to_int z) as [d|d]; simpl.
  - destruct (string_of_uint_cons d) as (c & s & Hs & Hc).
    pose proof (parse_digits_uint d) as Hp. rewrite Hs in Hp |- *. simpl.
    replace z with (Z.of_uint d) by exact E.
    destruct (c =b "-") eqn:E1; [go_bool; subst; discriminate|].
    destruct (c =b "+") eqn:E2; [go_bool; subst; discriminate|].
    exact Hp.
  - rewrite parse_digits_uint. simpl. f_equal. exact E.
Qed.

(** Reading back what was printed. *)
Lemma ParseInt_Itoa w z :
  - 2 ^ (w - 1) <= z < 2 ^ (w - 1) -> ParseInt w (Itoa z) = Some z.
Proof.
  intros Hz. unfold ParseInt.
  rewrite signed_digits_Itoa.
  destruct ((_ <=? z) && (z <? _))%bool eqn:B; [reflexivity|].
  apply andb_false_iff in B as [B|B]; go_bool; lia.
Qed.

Lemma ParseUint_Itoa w z : 0 <= z < 2 ^ w -> ParseUint w (Itoa z) = Some z.
Proof.
  intros Hz. unfold ParseUint, Itoa.
  assert (exists d, Z.to_int z = Pos d /\ Z.of_uint d = z) as (d & -> & Hd).
  { pose proof (DecimalZ.of_to z) as H. destruct z as [|q|q]; [by exists (D0 Nil)| |lia].
    simpl in *. by eexists. }
  cbn [NilZero.string_of_int]. rewrite parse_digits_uint, Hd. by rewrite (proj2 (Z.ltb_lt _ _)) by lia.
Qed.

Lemma Atoi_Itoa z : in_int64 z -> Atoi (Itoa z) = Some z.
Proof. apply (ParseInt_Itoa 64). Qed.

Lemma ParseInt_range w s z :
  ParseInt w s = Some z -> - 2 ^ (w - 1) <= z < 2 ^ (w - 1).
Proof.
  unfold ParseInt. intros H. repeat case_match; simplify_eq; go_bool; lia.
Qed.

Lemma Atoi_range s z : Atoi s = Some z -> in_int64 z.
Proof. apply (ParseInt_range 64). Qed.

Lemma parse_digits_nonneg s z : parse_digits s = Some z -> 0 <= z.
Proof.
  unfold parse_digits. destruct (NilZero.uint_of_string s); intros; simplify_eq.
  unfold Z.of_uint. lia.
Qed.

Lemma ParseUint_range w s z : ParseUint w s = Some z -> 0 <= z < 2 ^ w.
Proof.
  unfold ParseUint. destruct (parse_digits s) eqn:E; [|discriminate].
  apply parse_digits_nonneg in E. case_match; intros; simplify_eq; go_bool; lia.
Qed.

Example Atoi_ex : map Atoi ["3260"; "-1"; "+7"; "007"; ""; "-"; "1_0"; "9223372036854775808"]
  = [Some 3260; Some (-1); Some 7; Some 7; None; None; None; None].
Proof. vm_compute. reflexivity. Qed.
Example Itoa_ex : map Itoa [0; 10; -42] = ["0"; "10"; "-42"].
Proof. vm_compute. reflexivity. Qed.

(** ** The shape of a printed integer: a sign, and no leading zero *)

Definition significant (t : string) : Prop :=
  t = "0" \/ exists c t', t = String c t' /\ is_digit c = true /\ (c =b "0") = false
                          /\ str_all is_digit t' = true.

Lemma nzhead_significant d :
  nzhead d = d -> d <> Nil -> significant (NilZero.string_of_uint d).
Proof.
  intros Hz Hn. right. destruct d as [|d|d|d|d|d|d|d|d|d|d]; [done|..].
  { exfalso. exact (nzhead_nonzero _ _ Hz). }
  all: eexists _, _; split; [reflexivity|]; split; [done|]; split; [done|].
  all: clear; induction d; simpl; auto.
Qed.
Lemma unorm_significant d : unorm d = d -> significant (NilZero.string_of_uint d).
Proof.
  intros H. assert (nzhead d = Nil \/ nzhead d <> Nil) as [E|E]
    by (destruct (nzhead d); [by left|by right..]).
  - left. apply unorm_0 in E. by rewrite <- H, E.
  - apply nzhead_significant; [|intros ->; done]. by rewrite <- unorm_nzhead.
Qed.

Lemma Itoa_shape z : exists sgn t, Itoa z = sgn +:+ t /\ (sgn = "" \/ sgn = "-") /\ significant t.
Proof.
  assert (norm (Z.to_int z) = Z.to_int z) as H by (by rewrite <- DecimalZ.to_of, DecimalZ.of_to).
  unfold Itoa. destruct (Z.to_int z) as [d|d]; simpl in *.
  - exists "", (NilZero.string_of_uint d). split; [done|]. split; [by left|].
    injection H as H. by apply unorm_significant.
  - exists "-", (NilZero.string_of_uint d). split; [done|]. split; [by right|].
    destruct (nzhead d) eqn:E; try discriminate H; injection H as <-;
      (apply nzhead_significant; [exact E|discriminate]).
Qed.
