(* ===== verification/GoNet.v ===== *)
(** * Go's [net]: host and port strings, IP literals. *)
From S2P Require Import Prelude GoStrings GoStrconv.

(** [net.SplitHostPort]; [None] is its error. *)
Definition SplitHostPort (hostport : string) : option (string * string) :=
  match LastIndexByte hostport ":" with
  | None => None
  | Some i =>
      let port := str_drop (S i) hostport in
      if HasPrefix hostport "[" then
        match IndexByte hostport "]" with
        | None => None
        | Some e =>
            if Nat.eqb (S e) i then
              if (ContainsByte (str_drop 1 hostport) "["
                  || ContainsByte (str_drop (S e) hostport) "]")%bool
              then None
              else Some (str_take (e - 1) (str_drop 1 hostport), port)
            else None
        end
      else
        let host := str_take i hostport in
        if (ContainsByte host ":" || ContainsByte hostport "["
            || ContainsByte hostport "]")%bool
        then None
        else Some (host, port)
  end.

(** [net.JoinHostPort]. *)
Definition JoinHostPort (host port : string) : string :=
  if ContainsByte host ":" then "[" +:+ host +:+ "]:" +:+ port
  else host +:+ ":" +:+ port.

(** ** [netip.ParseAddr] *)

Definition hex_val (c : ascii) : option N :=
  if is_digit c then Some (code c - 48)%N
  else if byte_between 97 102 c then Some (code c - 87)%N
  else if byte_between 65 70 c then Some (code c - 55)%N
  else None.

(** The four decimal fields of an IPv4 address: [pos] fields are complete,
    [val] is the current one, of [digs] digits so far. *)
Fixpoint ipv4_fields (s : string) (pos : nat) (val : N) (digs : nat) : bool :=
  match s with
  | EmptyString => (Nat.eqb pos 3 && negb (Nat.eqb digs 0))%bool
  | String c s' =>
      if is_digit c then
        if (Nat.eqb digs 1 && N.eqb val 0)%bool then false
        else let v := (val * 10 + (code c - 48))%N in
             if N.ltb 255 v then false else ipv4_fields s' pos v (S digs)
      else if c =b "." then
        if (Nat.eqb digs 0 || Nat.eqb pos 3)%bool then false
        else ipv4_fields s' (S pos) 0 0
      else false
  end.
Definition parse_ipv4 (s : string) : bool := ipv4_fields s 0 0 0.

(** The hexadecimal digits that start [s], at most four, and what follows. *)
Fixpoint hex_group (n : nat) (s : string) : nat * string :=
  match s with
  | String c s' =>
      match hex_val c with
      | Some _ => let '(k, r) := hex_group (S n) s' in (k, r)
      | None => (n, s)
      end
  | EmptyString => (n, s)
  end.

(** The 16-bit groups of an IPv6 address from byte [i] on; [ellipsis] says
    whether [::] was seen.  Nine rounds suffice: each adds two bytes. *)
Fixpoint ipv6_groups (fuel : nat) (i : nat) (ellipsis : bool) (s : string) : bool :=
  let finish (i : nat) (ellipsis : bool) :=
    if Nat.ltb i 16 then ellipsis else negb ellipsis in
  match fuel with
  | O => false
  | S fuel' =>
      if Nat.leb 16 i then (s == "") && finish i ellipsis else
      let '(k, rest) := hex_group 0 s in
      if (Nat.eqb k 0 || Nat.ltb 4 k)%bool then false
      else if HasPrefix rest "." then
        if (negb ellipsis && negb (Nat.eqb i 12))%bool then false
        else if Nat.ltb 16 (i + 4) then false
        else parse_ipv4 s && finish (i + 4)%nat ellipsis
      else match rest with
      | EmptyString => finish (i + 2)%nat ellipsis
      | String c s1 =>
          if negb (c =b ":") then false
          else match s1 with
          | EmptyString => false
          | String c1 s2 =>
              if c1 =b ":" then
                if ellipsis then false
                else if s2 == "" then finish (i + 2)%nat true
                else ipv6_groups fuel' (i + 2) true s2
              else ipv6_groups fuel' (i + 2) ellipsis s1
          end
      end
  end%bool.

(** [netip.ParseAddr] of a text whose first of [. : %] is a colon; the zone
    after [%] must not be empty. *)
Definition parse_ipv6 (s : string) : bool :=
  let '(addr, zone, has_zone) := CutByte s "%" in
  if (has_zone && (zone == ""))%bool then false
  else if HasPrefix addr "::"
  then let r := str_drop 2 addr in
       if r == "" then true else ipv6_groups 9 0 true r
  else ipv6_groups 9 0 false addr.

Inductive addr_kind := Addr4 | Addr6.
Fixpoint addr_kind_of (s : string) : option addr_kind :=
  match s with
  | EmptyString => None
  | String c s' =>
      if c =b "." then Some Addr4
      else if c =b ":" then Some Addr6
      else if c =b "%" then None
      else addr_kind_of s'
  end.
Definition ParseAddr (s : string) : option addr_kind :=
  match addr_kind_of s with
  | Some Addr4 => if parse_ipv4 s then Some Addr4 else None
  | Some Addr6 => if parse_ipv6 s then Some Addr6 else None
  | None => None
  end.

(** [net.ParseIP(s) != nil]: an address without a zone. *)
Definition is_ip (s : string) : bool :=
  match ParseAddr s with
  | Some _ => negb (ContainsByte s "%")
  | None => false
  end.

Example is_ip_ex :
  map is_ip ["10.0.0.1"; "::1"; "fe80::1"; "fe80::1%eth0"; "1:2:3:4:5:6:7:8"; "::ffff:1.2.3.4";
             "::"; "1::"; "1:2:3:4:5:6:7::"; "1:2:3:4:5:6:1.2.3.4"]
  = [true; true; true; false; true; true; true; true; true; true].
Proof. vm_compute. reflexivity. Qed.
Example is_ip_ex2 :
  map is_ip ["host:3260"; "1:2:3:4:5:6:7:8:9"; "1:2:3"; "10.0.0.256"; "1:::2"; "::1::"; "12345::";
             "1:2:3:4:5:6:7:8::"; "::1:2:3:4:5:6:7:8"; ":1"; "1:"; "01.2.3.4"]
  = repeat false 12.
Proof. vm_compute. reflexivity. Qed.
Example SplitHostPort_ex :
  map SplitHostPort ["h:1"; "[::1]:80"; "::1"; "h"; "[::1]"; ":5"; "a:b:c"; "[a]b:1"; "a]:1"]
  = [Some ("h", "1"); Some ("::1", "80"); None; None; None; Some ("", "5"); None; None; None].
Proof. vm_compute. reflexivity. Qed.
