(* ===== verification/GoUrl.v ===== *)
(** * Go's [net/url]: escaping, query strings and [url.Parse] (Go 1.26). *)
From S2P Require Import Prelude GoStrings GoNet.

(** ** Escaping *)

Inductive encoding := encodePathSegment | encodeQueryComponent | encodeHost
                    | encodeZone | encodePath | encodeUserPassword | encodeFragment.
Definition encoding_eqb (a b : encoding) : bool :=
  match a, b with
  | encodePathSegment, encodePathSegment | encodeQueryComponent, encodeQueryComponent
  | encodeHost, encodeHost | encodeZone, encodeZone | encodePath, encodePath
  | encodeUserPassword, encodeUserPassword | encodeFragment, encodeFragment => true
  | _, _ => false
  end.
Definition is_host_mode (m : encoding) : bool :=
  match m with encodeHost | encodeZone => true | _ => false end.

Definition dquote : ascii := ascii_of_N 34.

Definition shouldEscape (c : ascii) (m : encoding) : bool :=
  if is_alnum c then false
  else if (is_host_mode m && (ContainsByte "!$&'()*+,;=:[]<>" c || (c =b dquote)))%bool then false
  else if ContainsByte "-_.~" c then false
  else if ContainsByte "$&+,/:;=?@" c then
    match m with
    | encodePath => c =b "?"
    | encodePathSegment => ContainsByte "/;,?" c
    | encodeUserPassword => ContainsByte "@/?:" c
    | encodeQueryComponent => true
    | encodeFragment => false
    | encodeHost | encodeZone => true
    end
  else if (encoding_eqb m encodeFragment && ContainsByte "!()*" c)%bool then false
  else true.

Definition upperhex (n : N) : ascii :=
  match String.get (N.to_nat n) "0123456789ABCDEF" with Some c => c | None => "0"%char end.

Definition pct (c : ascii) : string :=
  String "%" (String (upperhex (code c / 16)) (String (upperhex (N.modulo (code c) 16)) "")).

Definition escape_byte (m : encoding) (c : ascii) : string :=
  if (encoding_eqb m encodeQueryComponent && (c =b " "))%bool then "+"
  else if shouldEscape c m then pct c
  else String c "".

Fixpoint escape (m : encoding) (s : string) : string :=
  match s with
  | EmptyString => EmptyString
  | String c s' => escape_byte m c +:+ escape m s'
  end.
Definition PathEscape (s : string) : string := escape encodePathSegment s.
Definition QueryEscape (s : string) : string := escape encodeQueryComponent s.

Definition unhex2 (a b : ascii) : option N :=
  match hex_val a, hex_val b with
  | Some x, Some y => Some (x * 16 + y)%N
  | _, _ => None
  end.

Definition is_space_byte (n : N) : bool := N.eqb n 32.

(** [unescape]; [None] is an [EscapeError] or an [InvalidHostError]. *)
Fixpoint unescape (m : encoding) (s : string) : option string :=
  match s with
  | EmptyString => Some EmptyString
  | String c s' =>
      if c =b "%" then
        match s' with
        | String a (String b s'') =>
            match unhex2 a b with
            | None => None
            | Some v =>
                let is25 := N.eqb v 37 in
                if (encoding_eqb m encodeHost && N.ltb v 128 && negb is25)%bool then None
                else if (encoding_eqb m encodeZone && negb is25 && negb (is_space_byte v)
                         && shouldEscape (ascii_of_N v) encodeHost)%bool then None
                else option_map (String (ascii_of_N v)) (unescape m s'')
            end
        | _ => None
        end
      else if c =b "+" then
        option_map
          (String (if encoding_eqb m encodeQueryComponent then " "%char else "+"%char))
          (unescape m s')
      else if (is_host_mode m && N.ltb (code c) 128 && shouldEscape c m)%bool then None
      else option_map (String c) (unescape m s')
  end.
Definition PathUnescape (s : string) : option string := unescape encodePathSegment s.
Definition QueryUnescape (s : string) : option string := unescape encodeQueryComponent s.

(** ** Query strings *)

(** [url.Values]. *)
Abbreviation Values := (gmap string (list string)).

Definition Values_Set (k v : string) (q : Values) : Values := <[k := [v]]> q.
Definition Values_Get (k : string) (q : Values) : string :=
  match q !! k with Some (v :: _) => v | _ => "" end.
Definition Values_Add (kv : string * string) (q : Values) : Values :=
  <[kv.1 := (match q !! kv.1 with Some l => l | None => [] end) ++ [kv.2]]> q.

Definition key_le (a b : string * list string) : Prop := String.leb a.1 b.1 = true.
#[export] Instance key_le_dec a b : Decision (key_le a b).
Proof. unfold key_le. apply _. Defined.

(** The keys in byte order ([slices.Sorted]). *)
Definition sorted_values (q : Values) : list (string * list string) :=
  merge_sort key_le (map_to_list q).

Definition query_pairs (l : list (string * list string)) : list (string * string) :=
  mbind (fun kvs : string * list string => map (pair kvs.1) kvs.2) l.

Definition encode_pair (kv : string * string) : string :=
  QueryEscape kv.1 +:+ "=" +:+ QueryEscape kv.2.

(** [Values.Encode]. *)
Definition Values_Encode (q : Values) : string :=
  Join (map encode_pair (query_pairs (sorted_values q))) "&".

(** One [key=value] of a query string; [None] is dropped. *)
Definition parse_pair (p : string) : option (string * string) :=
  if ContainsByte p ";" then None
  else if p == "" then None
  else let '(k, v, _) := CutByte p "=" in
       match QueryUnescape k, QueryUnescape v with
       | Some k', Some v' => Some (k', v')
       | _, _ => None
       end.

Definition add_pair (q : Values) (p : string) : Values :=
  match parse_pair p with Some kv => Values_Add kv q | None => q end.

(** [ParseQuery] with its error ignored, as [URL.Query] does.  A query of more
    than 10000 parameters is refused as a whole ([urlmaxqueryparams]). *)
Definition ParseQuery (query : string) : Values :=
  let ps := SplitByte query "&" in
  if (10000 <? Z.of_nat (length ps))%Z then ∅ else fold_left add_pair ps ∅.

(** ** [url.Parse] *)

Record URL := { Scheme : string; Opaque : string; Host : string; Path : string; RawQuery : string }.
Definition URL_Query (u : URL) : Values := ParseQuery (RawQuery u).

(** [getScheme]: the scheme and the rest; [None] is "missing protocol scheme". *)
Fixpoint getScheme_from (first : bool) (raw s acc : string) : option (string * string) :=
  match s with
  | EmptyString => Some ("", raw)
  | String c s' =>
      if is_alpha c then getScheme_from false raw s' (acc +:+ String c "")
      else if (is_digit c || ContainsByte "+-." c)%bool then
        if first then Some ("", raw) else getScheme_from false raw s' (acc +:+ String c "")
      else if c =b ":" then if first then None else Some (acc, s')
      else Some ("", raw)
  end.
Definition getScheme (raw : string) : option (string * string) := getScheme_from true raw raw "".

Definition is_ctl (c : ascii) : bool := (N.ltb (code c) 32 || N.eqb (code c) 127)%bool.

Definition validOptionalPort (port : string) : bool :=
  match port with
  | EmptyString => true
  | String c p => ((c =b ":") && str_all is_digit p)%bool
  end.

(** [parseHost]: [host], [host:port] or [[IPv6]:port]. *)
Definition parseHost (host : string) : option string :=
  match LastIndexByte host "[" with
  | Some (S _) => None
  | Some O =>
      match LastIndexByte host "]" with
      | None => None
      | Some e =>
          let colonPort := str_drop (S e) host in
          if negb (validOptionalPort colonPort) then None else
          let hostname := str_take (e - 1) (str_drop 1 host) in
          let un := match Index hostname "%25" with
                    | Some z =>
                        match unescape encodeHost (str_take z hostname),
                              unescape encodeZone (str_drop z hostname) with
                        | Some a, Some b => Some (a +:+ b)
                        | _, _ => None
                        end
                    | None => unescape encodeHost hostname
                    end in
          match un with
          | None => None
          | Some h => match ParseAddr h with
                      | Some Addr6 => Some ("[" +:+ h +:+ "]" +:+ colonPort)
                      | _ => None
                      end
          end
      end
  | None =>
      match IndexByte host ":" with
      | Some i => if validOptionalPort (str_drop i host) then unescape encodeHost host else None
      | None => unescape encodeHost host
      end
  end.

Definition validUserinfo (s : string) : bool :=
  str_all (fun c => (is_alnum c || ContainsByte "-._:~!$&'()*+,;=%@" c)%bool) s.

(** [parseAuthority], the user information being checked and dropped. *)
Definition parseAuthority (authority : string) : option string :=
  match LastIndexByte authority "@" with
  | None => parseHost authority
  | Some i =>
      match parseHost (str_drop (S i) authority) with
      | None => None
      | Some h =>
          let userinfo := str_take i authority in
          if negb (validUserinfo userinfo) then None else
          let '(user, pass, _) := CutByte userinfo ":" in
          match unescape encodeUserPassword user, unescape encodeUserPassword pass with
          | Some _, Some _ => Some h
          | _, _ => None
          end
      end
  end.

(** [parse(rawURL, false)] of a text without a fragment. *)
Definition parse_url (raw : string) : option URL :=
  if negb (str_all (fun c => negb (is_ctl c)) raw) then None
  else if raw == "*" then
    Some {| Scheme := ""; Opaque := ""; Host := ""; Path := "*"; RawQuery := "" |}
  else match getScheme raw with
  | None => None
  | Some (scheme0, rest0) =>
      let scheme := ToLower scheme0 in
      let '(rest, rawQuery, _) := CutByte rest0 "?" in
      if (negb (HasPrefix rest "/") && (scheme != ""))%bool then
        Some {| Scheme := scheme; Opaque := rest; Host := ""; Path := ""; RawQuery := rawQuery |}
      else if (negb (HasPrefix rest "/")
               && ContainsByte (fst (fst (CutByte rest "/"))) ":")%bool then None
      else
        let with_authority :=
          (((scheme != "") || negb (HasPrefix rest "///")) && HasPrefix rest "//")%bool in
        let '(authority, path) :=
          if with_authority then
            let a := str_drop 2 rest in
            match IndexByte a "/" with
            | Some i => (Some (str_take i a), str_drop i a)
            | None => (Some a, "")
            end
          else (None, rest) in
        match (match authority with Some a => parseAuthority a | None => Some "" end),
              unescape encodePath path with
        | Some host, Some p =>
            Some {| Scheme := scheme; Opaque := ""; Host := host; Path := p; RawQuery := rawQuery |}
        | _, _ => None
        end
  end.

(** [url.Parse]: the fragment is cut off and must be well escaped. *)
Definition Parse (raw : string) : option URL :=
  let '(u, frag, _) := CutByte raw "#" in
  match parse_url u with
  | None => None
  | Some url =>
      match unescape encodeFragment frag with Some _ => Some url | None => None end
  end.

Example Parse_ex :
  Parse "iscsi://10.0.0.1:3260/iqn.x%3Aa/lun/0?name=a+b" =
  Some {| Scheme := "iscsi"; Opaque := ""; Host := "10.0.0.1:3260"; Path := "/iqn.x:a/lun/0";
          RawQuery := "name=a+b" |}.
Proof. vm_compute. reflexivity. Qed.
Example Parse_hosts :
  map (fun s => Host <$> Parse s)
    ["nfs://[::1]:2049/a"; "nfs://::1/a"; "nfs://u:p@h/a"; "nfs://h%20/a"; "nfs:///a"; "nfs:a"]
  = [Some "[::1]:2049"; None; Some "h"; None; Some ""; Some ""].
Proof. vm_compute. reflexivity. Qed.
Example Encode_ex :
  Values_Encode (Values_Set "vhdxPath" "D:\a b" (Values_Set "name" "x&y" ∅)) =
  "name=x%26y&vhdxPath=D%3A%5Ca+b".
Proof. vm_compute. reflexivity. Qed.
