(* ===== verification/GoStringsFacts.v ===== *)
(** * Lemmas on Go strings, escaping and query strings. *)
From S2P Require Import Prelude GoStrings GoNet GoUrl.

(** ** Append *)

Lemma app_empty_r s : s +:+ "" = s.
Proof. induction s as [|c s IH]; simpl; congruence. Qed.
Lemma app_assoc_s a b c : (a +:+ b) +:+ c = a +:+ (b +:+ c).
Proof. induction a as [|x a IH]; simpl; congruence. Qed.
Lemma app_empty_inv a b : a +:+ b = "" -> a = "" /\ b = "".
Proof. destruct a; simpl; [done|discriminate]. Qed.
Lemma length_app_s a b : String.length (a +:+ b) = (String.length a + String.length b)%nat.
Proof. induction a as [|x a IH]; simpl; congruence. Qed.
#[export] Hint Rewrite app_empty_r app_assoc_s length_app_s : godb.

(** A decidable property of bytes is checked on the 256 of them. *)
Definition all_bytes : list ascii := map ascii_of_nat (seq 0 256).
Lemma bytes_all (P : ascii -> bool) : forallb P all_bytes = true -> forall c, P c = true.
Proof.
  intros H c. rewrite forallb_forall in H. apply H, in_map_iff.
  exists (nat_of_ascii c). split; [apply ascii_nat_embedding|].
  apply in_seq. pose proof (nat_ascii_bounded c). lia.
Qed.
Lemma bytes_impl (P Q : ascii -> bool) :
  forallb (fun c => implb (P c) (Q c)) all_bytes = true -> forall c, P c = true -> Q c = true.
Proof.
  intros H c Hc. pose proof (bytes_all (fun c => implb (P c) (Q c)) H c) as E.
  simpl in E. by rewrite Hc in E.
Qed.
Ltac by_bytes := vm_compute; reflexivity.

(** ** str_all *)

Lemma str_all_app f a b : str_all f (a +:+ b) = (str_all f a && str_all f b)%bool.
Proof. induction a as [|x a IH]; simpl; [done|]. by rewrite IH, andb_assoc. Qed.
Lemma str_all_impl (f g : ascii -> bool) s :
  (forall c, f c = true -> g c = true) -> str_all f s = true -> str_all g s = true.
Proof.
  intros H. induction s as [|c s IH]; simpl; [done|].
  intros [H1 H2]%andb_true_iff. rewrite (H c), IH by done. done.
Qed.
Lemma str_all_Join f sep l :
  str_all f sep = true -> Forall (fun s => str_all f s = true) l -> str_all f (Join l sep) = true.
Proof.
  intros Hs H. unfold Join. induction H as [|x l Hx Hl IH]; [done|].
  destruct l as [|y l]; [done|]. simpl in *. by rewrite !str_all_app, Hx, Hs, IH.
Qed.

Lemma ContainsByte_false s c :
  ContainsByte s c = false <-> str_all (fun a => negb (a =b c)) s = true.
Proof. unfold ContainsByte. apply negb_false_iff. Qed.

(** ** Cutting, splitting, taking *)

Notation free c := (fun a => negb (Ascii.eqb a c)).

Lemma CutByte_free s c : str_all (free c) s = true -> CutByte s c = (s, "", false).
Proof.
  induction s as [|a s IH]; simpl; [done|]. intros [H1 H2]%andb_true_iff.
  apply negb_true_iff in H1. rewrite H1, IH by done. done.
Qed.
Lemma CutByte_app a b c :
  str_all (free c) a = true -> CutByte (a +:+ String c b) c = (a, b, true).
Proof.
  induction a as [|x a IH]; simpl.
  - by rewrite Ascii.eqb_refl.
  - intros [H1 H2]%andb_true_iff. apply negb_true_iff in H1. rewrite H1, IH by done. done.
Qed.
Lemma SplitByte_free s c : str_all (free c) s = true -> SplitByte s c = [s].
Proof.
  induction s as [|a s IH]; simpl; [done|]. intros [H1 H2]%andb_true_iff.
  apply negb_true_iff in H1. rewrite H1, IH by done. done.
Qed.
Lemma SplitByte_app a b c :
  str_all (free c) a = true -> SplitByte (a +:+ String c b) c = a :: SplitByte b c.
Proof.
  induction a as [|x a IH]; simpl.
  - by rewrite Ascii.eqb_refl.
  - intros [H1 H2]%andb_true_iff. apply negb_true_iff in H1. rewrite H1, IH by done. done.
Qed.
(** Splitting a join gives the list back. *)
Lemma SplitByte_Join l c :
  Forall (fun s => str_all (free c) s = true) l -> l <> [] ->
  SplitByte (Join l (String c "")) c = l.
Proof.
  intros H. induction H as [|x l Hx Hl IH]; [done|]. intros _. unfold Join in *.
  destruct l as [|y l]; [by apply SplitByte_free|].
  change (String.concat (String c "") (x :: y :: l))
    with (x +:+ String c (String.concat (String c "") (y :: l))).
  rewrite SplitByte_app by done. f_equal. by apply IH.
Qed.
Lemma IndexByte_free s c : str_all (free c) s = true -> IndexByte s c = None.
Proof.
  induction s as [|a s IH]; simpl; [done|]. intros [H1 H2]%andb_true_iff.
  apply negb_true_iff in H1. rewrite H1, IH by done. done.
Qed.
Lemma IndexByte_app a b c :
  str_all (free c) a = true -> IndexByte (a +:+ String c b) c = Some (String.length a).
Proof.
  induction a as [|x a IH]; simpl.
  - by rewrite Ascii.eqb_refl.
  - intros [H1 H2]%andb_true_iff. apply negb_true_iff in H1. rewrite H1, IH by done. done.
Qed.
Lemma LastIndexByte_free s c : str_all (free c) s = true -> LastIndexByte s c = None.
Proof.
  induction s as [|a s IH]; simpl; [done|]. intros [H1 H2]%andb_true_iff.
  apply negb_true_iff in H1. by rewrite IH, H1 by done.
Qed.
Lemma LastIndexByte_app a b c :
  str_all (free c) b = true -> LastIndexByte (a +:+ String c b) c = Some (String.length a).
Proof.
  intros H. induction a as [|x a IH]; simpl.
  - by rewrite LastIndexByte_free, Ascii.eqb_refl.
  - by rewrite IH.
Qed.
Lemma str_take_app a b : str_take (String.length a) (a +:+ b) = a.
Proof. induction a as [|x a IH]; simpl; [by destruct b|congruence]. Qed.
Lemma str_drop_app a b : str_drop (String.length a) (a +:+ b) = b.
Proof. by induction a as [|x a IH]. Qed.
Lemma HasPrefix_app p s : HasPrefix (p +:+ s) p = true.
Proof. induction p as [|a p IH]; simpl; [by destruct s|]. by rewrite Ascii.eqb_refl. Qed.

(** ** Reversal *)

Lemma str_rev_app_acc s acc : str_rev_app s acc = str_rev s +:+ acc.
Proof.
  unfold str_rev. revert acc. induction s as [|c s IH]; intros acc; simpl; [done|].
  rewrite (IH (String c acc)), (IH (String c "")), app_assoc_s. done.
Qed.
Lemma str_rev_cons c s : str_rev (String c s) = str_rev s +:+ String c "".
Proof. unfold str_rev at 1. simpl. by rewrite str_rev_app_acc. Qed.
Lemma str_rev_append a b : str_rev (a +:+ b) = str_rev b +:+ str_rev a.
Proof.
  induction a as [|c a IH]; simpl; [by rewrite app_empty_r|].
  by rewrite !str_rev_cons, IH, app_assoc_s.
Qed.
Lemma str_rev_involutive s : str_rev (str_rev s) = s.
Proof.
  induction s as [|c s IH]; [done|]. by rewrite str_rev_cons, str_rev_append, IH.
Qed.
Lemma str_all_rev f s : str_all f (str_rev s) = str_all f s.
Proof.
  induction s as [|c s IH]; [done|]. rewrite str_rev_cons, str_all_app, IH. simpl.
  by rewrite andb_true_r, andb_comm.
Qed.
Lemma str_rev_inj a b : str_rev a = str_rev b -> a = b.
Proof. intros H. by rewrite <- (str_rev_involutive a), H, str_rev_involutive. Qed.

(** A text that contains a piece contains it whatever follows. *)
Lemma HasPrefix_left s p t : HasPrefix s p = true -> HasPrefix (s +:+ t) p = true.
Proof.
  revert s. induction p as [|a p IH]; intros s H; [by destruct s, t|]. destruct s as [|b s]; [done|].
  cbn in H |- *. apply andb_prop in H as [-> H]. by apply IH.
Qed.
Lemma Contains_left s t sub : Contains s sub = true -> Contains (s +:+ t) sub = true.
Proof.
  unfold Contains. destruct (Index s sub) as [n|] eqn:E; [intros _|done].
  assert (is_Some (Index (s +:+ t) sub)) as [? ->]; [|done]. revert n E.
  induction s as [|c s IH]; intros n E.
  - destruct sub as [|a sub]; [|done]. cbn [String.append]. destruct t; by eexists.
  - cbn [Index String.append] in E |- *. destruct (HasPrefix (String c s) sub) eqn:Ep.
    + apply (HasPrefix_left _ _ t) in Ep. cbn [String.append] in Ep. rewrite Ep. by eexists.
    + destruct (HasPrefix (String c (s +:+ t)) sub); [by eexists|].
      destruct (Index s sub) as [k|]; [|done]. destruct (IH k eq_refl) as [? ->]. by eexists.
Qed.
