(* ===== verification/GoUrlFacts.v ===== *)
(** * Round trips of escaping, query strings and [url.Parse]. *)
From S2P Require Import Prelude GoStrings GoNet GoUrl GoStringsFacts.

(** ** Escaping *)

(** What escapes a byte for [m] is read back by [m']. *)
Definition reads_back (m m' : encoding) (c : ascii) : bool :=
  match escape_byte m c with
  | String a "" =>
      (negb (is_host_mode m') && negb (a =b "%")
       && (if a =b "+" then (if encoding_eqb m' encodeQueryComponent then " "%char else "+"%char) =b c
           else a =b c))%bool
  | String p (String a (String b "")) =>
      ((p =b "%") && negb (is_host_mode m')
       && match unhex2 a b with Some v => ascii_of_N v =b c | None => false end)%bool
  | _ => false
  end.

Lemma unescape_escape_byte m m' c s :
  reads_back m m' c = true ->
  unescape m' (escape_byte m c +:+ s) = option_map (String c) (unescape m' s).
Proof.
  unfold reads_back. intros H.
  destruct (escape_byte m c) as [|a [|b [|d [|]]]]; try discriminate.
  - apply andb_true_iff in H as [[Hh Hp]%andb_true_iff H].
    rewrite negb_true_iff in Hh, Hp. simpl. rewrite Hp. destruct (a =b "+").
    + apply Ascii.eqb_eq in H. by rewrite H.
    + rewrite Hh. simpl. apply Ascii.eqb_eq in H. by rewrite H.
  - apply andb_true_iff in H as [[Hp Hh]%andb_true_iff H]. rewrite negb_true_iff in Hh.
    simpl. rewrite Hp. destruct (unhex2 b d) as [v|]; [|discriminate].
    apply Ascii.eqb_eq in H.
    destruct m'; simpl in *; try discriminate; by rewrite H.
Qed.

Lemma unescape_escape_with m m' s t :
  (forall c, reads_back m m' c = true) ->
  unescape m' (escape m s +:+ t) = option_map (String.append s) (unescape m' t).
Proof.
  intros H. induction s as [|c s IH]; simpl.
  - by destruct (unescape m' t).
  - rewrite app_assoc_s, unescape_escape_byte, IH by done. by destruct (unescape m' t).
Qed.

Lemma reads_back_query c : reads_back encodeQueryComponent encodeQueryComponent c = true.
Proof. revert c. apply bytes_all. by_bytes. Qed.
Lemma reads_back_segment c : reads_back encodePathSegment encodePathSegment c = true.
Proof. revert c. apply bytes_all. by_bytes. Qed.
Lemma reads_back_path c : reads_back encodePathSegment encodePath c = true.
Proof. revert c. apply bytes_all. by_bytes. Qed.

Lemma QueryUnescape_QueryEscape s : QueryUnescape (QueryEscape s) = Some s.
Proof.
  unfold QueryUnescape, QueryEscape. rewrite <- (app_empty_r (escape _ s)).
  rewrite unescape_escape_with by apply reads_back_query. simpl. by rewrite app_empty_r.
Qed.
Lemma PathUnescape_PathEscape s : PathUnescape (PathEscape s) = Some s.
Proof.
  unfold PathUnescape, PathEscape. rewrite <- (app_empty_r (escape _ s)).
  rewrite unescape_escape_with by apply reads_back_segment. simpl. by rewrite app_empty_r.
Qed.

(** The bytes of an escaped text. *)
Lemma escape_all m (P : ascii -> bool) s :
  forallb (fun c => str_all P (escape_byte m c)) all_bytes = true -> str_all P (escape m s) = true.
Proof.
  intros H. pose proof (bytes_all (fun c => str_all P (escape_byte m c)) H) as Hb. simpl in Hb.
  induction s as [|c s IH]; simpl; [done|]. by rewrite str_all_app, Hb, IH.
Qed.

(** Bytes of an escaped query component, and of an escaped segment. *)
Definition query_byte (c : ascii) : bool := (is_alnum c || ContainsByte "-_.~+%" c)%bool.
Definition segment_byte (c : ascii) : bool := (is_alnum c || ContainsByte "-_.~$&+:=@%" c)%bool.

Lemma QueryEscape_bytes s : str_all query_byte (QueryEscape s) = true.
Proof. apply escape_all. by_bytes. Qed.
Lemma PathEscape_bytes s : str_all segment_byte (PathEscape s) = true.
Proof. apply escape_all. by_bytes. Qed.
Lemma QueryEscape_free c s : query_byte c = false -> str_all (free c) (QueryEscape s) = true.
Proof.
  intros H. apply (str_all_impl query_byte); [|apply QueryEscape_bytes].
  intros a Ha. apply negb_true_iff. destruct (Ascii.eqb_spec a c); congruence.
Qed.

(** ** Query strings *)

Lemma parse_pair_encode k v : parse_pair (encode_pair (k, v)) = Some (k, v).
Proof.
  unfold parse_pair, encode_pair. simpl.
  assert (ContainsByte (QueryEscape k +:+ String "=" (QueryEscape v)) ";" = false) as ->.
  { apply ContainsByte_false. rewrite str_all_app. simpl. by rewrite !QueryEscape_free. }
  destruct (String.eqb_spec (QueryEscape k +:+ String "=" (QueryEscape v)) "") as [E|_].
  { by apply app_empty_inv in E as [_ E]. }
  rewrite CutByte_app by (by apply QueryEscape_free). by rewrite !QueryUnescape_QueryEscape.
Qed.

Lemma fold_add_pairs l q :
  fold_left add_pair (map encode_pair l) q = fold_left (fun q kv => Values_Add kv q) l q.
Proof.
  revert q. induction l as [|[k v] l IH]; intros q; simpl; [done|].
  unfold add_pair at 2. rewrite parse_pair_encode. apply IH.
Qed.

Lemma fold_add_key k vs q :
  vs <> [] ->
  fold_left (fun q kv => Values_Add kv q) (map (pair k) vs) q
  = <[k := (match q !! k with Some l => l | None => [] end) ++ vs]> q.
Proof.
  revert q. induction vs as [|v vs IH]; intros q Hne; [done|]. simpl.
  destruct vs as [|v' vs]; [done|].
  rewrite IH by done. unfold Values_Add. simpl. rewrite lookup_insert_eq.
  by rewrite insert_insert_eq, <- app_assoc.
Qed.

Lemma fold_add_values (l : list (string * list string)) q :
  NoDup l.*1 -> Forall (fun kvs => kvs.2 <> [] /\ q !! kvs.1 = None) l ->
  fold_left (fun q kv => Values_Add kv q) (query_pairs l) q = list_to_map l ∪ q.
Proof.
  revert q. induction l as [|[k vs] l IH]; intros q Hnd Hl; simpl.
  - by rewrite (left_id_L ∅ (∪)).
  - rewrite fmap_cons, NoDup_cons in Hnd. destruct Hnd as [Hk Hnd].
    apply Forall_cons in Hl as [[Hvs Hq] Hl]. simpl in *.
    change (query_pairs ((k, vs) :: l)) with (map (pair k) vs ++ query_pairs l).
    rewrite fold_left_app, fold_add_key, Hq by done. simpl.
    rewrite IH; [|done|].
    + rewrite <- insert_union_r; [by rewrite insert_union_l|].
      by apply not_elem_of_list_to_map.
    + rewrite Forall_forall in *. intros [k' vs'] Hin. simpl.
      destruct (Hl _ Hin) as [? ?]. split; [done|]. simpl in *.
      rewrite lookup_insert_ne; [done|]. intros ->. apply Hk.
      apply list_elem_of_fmap. by exists (k', vs').
Qed.

Lemma encode_pair_free c kv :
  query_byte c = false -> c <> "="%char -> str_all (free c) (encode_pair kv) = true.
Proof.
  intros Hc He. destruct kv as [k v]. unfold encode_pair. cbn [fst snd String.append].
  rewrite str_all_app. cbn [str_all].
  rewrite !QueryEscape_free, andb_true_r by done.
  apply negb_true_iff, Ascii.eqb_neq. congruence.
Qed.

(** Values whose lists are not empty, and not too many for one query. *)
Definition small_values (q : Values) : Prop :=
  map_Forall (fun _ vs => vs <> []) q
  /\ Z.of_nat (length (query_pairs (sorted_values q))) <= 10000.

(** [ParseQuery] reads back what [Values.Encode] writes. *)
Lemma ParseQuery_Encode q : small_values q -> ParseQuery (Values_Encode q) = q.
Proof.
  intros [Hne Hlen]. unfold ParseQuery, Values_Encode.
  set (ps := query_pairs (sorted_values q)) in *.
  assert (sorted_values q ≡ₚ map_to_list q) as Hp by apply merge_sort_Permutation.
  assert (fold_left (fun q kv => Values_Add kv q) ps ∅ = q) as Hf.
  { unfold ps. rewrite fold_add_values.
    - rewrite (right_id_L ∅ (∪)). transitivity (list_to_map (M := Values) (map_to_list q)).
      + apply list_to_map_proper; [|done]. rewrite Hp. apply NoDup_fst_map_to_list.
      + apply list_to_map_to_list.
    - rewrite Hp. apply NoDup_fst_map_to_list.
    - rewrite Hp. apply Forall_forall. intros [k vs] Hin. apply elem_of_map_to_list in Hin.
      split; [exact (Hne k vs Hin)|apply lookup_empty]. }
  clearbody ps. destruct ps as [|kv ps]; [by simpl in Hf; subst|].
  rewrite SplitByte_Join.
  - assert ((10000 <? Z.of_nat (length (map encode_pair (kv :: ps))))%Z = false) as ->.
    { apply Z.ltb_ge. by rewrite length_map. }
    by rewrite fold_add_pairs.
  - apply Forall_forall. intros s [x [-> _]]%list_elem_of_fmap. by apply encode_pair_free.
  - done.
Qed.

Lemma Values_Encode_free c q :
  query_byte c = false -> c <> "="%char -> c <> "&"%char ->
  str_all (free c) (Values_Encode q) = true.
Proof.
  intros Hc He Ha. unfold Values_Encode. apply str_all_Join.
  - cbn [str_all]. rewrite andb_true_r. apply negb_true_iff, Ascii.eqb_neq. congruence.
  - apply Forall_forall. intros s [x [-> _]]%list_elem_of_fmap. by apply encode_pair_free.
Qed.
