(* ===== verification/GoUrlParse.v ===== *)
(** * [url.Parse] and the path of a URI built from its parts. *)
From S2P Require Import Prelude GoStrings GoNet GoUrl GoStringsFacts GoUrlFacts.

(** ** TrimSpace of a text that starts with a visible ASCII byte *)

Definition visible (c : ascii) : bool := (byte_between 0 127 c && negb (IsSpace (code c)))%bool.

Lemma DecodeRune_visible c s : visible c = true -> DecodeRune (String c s) = Some (code c, s).
Proof. intros [H _]%andb_true_iff. unfold DecodeRune. by rewrite H. Qed.
Lemma visible_not_space c : visible c = true -> IsSpace (code c) = false.
Proof. intros [_ H]%andb_true_iff. by apply negb_true_iff. Qed.
Lemma visible_starts c : visible c = true -> starts_rune c = true.
Proof. revert c. apply bytes_impl. by_bytes. Qed.

Lemma decode_exact_visible c b s :
  visible c = true -> decode_exact (String c (String b s)) = None.
Proof. intros H. unfold decode_exact. by rewrite DecodeRune_visible. Qed.

Lemma strip_last_space_visible x c r :
  visible c = true -> strip_last_space (x +:+ String c "") = Some r ->
  exists x', r = x' +:+ String c "".
Proof.
  intros Hc. unfold strip_last_space, DecodeLastRune.
  pose proof (visible_starts c Hc) as Hs. pose proof (visible_not_space c Hc) as Hn.
  assert (IsSpace RuneError = false) as He by reflexivity.
  destruct x as [|b1 x]; cbn [String.append].
  { rewrite Hs. unfold decode_exact. rewrite DecodeRune_visible, Hn by done. discriminate. }
  destruct (starts_rune b1).
  { intros H. repeat case_match; simplify_eq; eauto. }
  destruct x as [|b2 x]; cbn [String.append].
  { rewrite Hs, decode_exact_visible, He by done. discriminate. }
  destruct (starts_rune b2).
  { intros H. repeat case_match; simplify_eq; eauto. }
  destruct x as [|b3 x]; cbn [String.append].
  { rewrite Hs, decode_exact_visible, He by done. discriminate. }
  destruct (starts_rune b3).
  { intros H. repeat case_match; simplify_eq; eauto. }
  destruct x as [|b4 x]; cbn [String.append].
  { rewrite Hs, decode_exact_visible, He by done. discriminate. }
  destruct (starts_rune b4); [|cbn; discriminate].
  intros H. repeat case_match; simplify_eq; eauto.
Qed.

Lemma trim_last_space_visible fuel x c :
  visible c = true -> exists x', trim_last_space fuel (x +:+ String c "") = x' +:+ String c "".
Proof.
  intros Hc. revert x. induction fuel as [|fuel IH]; intros x; simpl; [by exists x|].
  destruct (strip_last_space (x +:+ String c "")) as [r|] eqn:E; [|by exists x].
  apply strip_last_space_visible in E as [x' ->]; [|done]. apply IH.
Qed.

Lemma TrimSpace_visible c s : visible c = true -> exists t, TrimSpace (String c s) = String c t.
Proof.
  intros Hc. unfold TrimSpace, TrimLeftSpace. simpl. unfold strip_space.
  rewrite DecodeRune_visible, visible_not_space by done.
  unfold TrimRightSpace. rewrite str_rev_cons.
  destruct (trim_last_space_visible (String.length (String c s)) (str_rev s) c Hc) as [x' ->].
  exists (str_rev x'). by rewrite str_rev_append.
Qed.
Lemma TrimSpace_visible_nonempty c s : visible c = true -> TrimSpace (String c s) <> "".
Proof. intros H. destruct (TrimSpace_visible c s H) as [t ->]. discriminate. Qed.

(** ** Paths *)

(** Segments that a slash-separated path keeps apart. *)
Definition plain_segment (s : string) : Prop := s <> "" /\ str_all (free "/"%char) s = true.

Lemma TrimLeftBytes_first f c s : f c = false -> TrimLeftBytes f (String c s) = String c s.
Proof. intros H. simpl. by rewrite H. Qed.

Lemma Join_cons x y l sep : Join (x :: y :: l) sep = x +:+ sep +:+ Join (y :: l) sep.
Proof. reflexivity. Qed.

(** A text of plain segments starts and ends with a byte that is not a slash. *)
Lemma plain_first s : plain_segment s -> exists c t, s = String c t /\ (c =b "/") = false.
Proof.
  intros [H1 H2]. destruct s as [|c t]; [done|]. exists c, t. split; [done|].
  cbn [str_all] in H2. apply andb_true_iff in H2 as [H2 _]. by apply negb_true_iff.
Qed.
Lemma plain_rev s : plain_segment s -> plain_segment (str_rev s).
Proof.
  intros [H1 H2]. split; [|by rewrite str_all_rev].
  intros E. apply H1, str_rev_inj. by rewrite E.
Qed.
Lemma Join_first l :
  Forall plain_segment l -> l <> [] ->
  exists c t, Join l "/" = String c t /\ (c =b "/") = false.
Proof.
  intros H Hne. destruct H as [|x l Hx Hl]; [done|].
  destruct (plain_first x Hx) as (c & t & -> & Hc).
  destruct l as [|y l]; [by exists c, t|]. eexists c, _. split; [reflexivity|done].
Qed.
Lemma Join_last l :
  Forall plain_segment l -> l <> [] ->
  exists c t, str_rev (Join l "/") = String c t /\ (c =b "/") = false.
Proof.
  intros H. induction H as [|x l Hx Hl IH]; [done|]. intros _.
  destruct l as [|y l]; [by apply plain_first, plain_rev|].
  destruct IH as (c & t & E & Hc); [done|].
  rewrite Join_cons, str_rev_append, (str_rev_append "/"), E. by eexists c, _.
Qed.

Lemma Trim_slash l : Forall plain_segment l -> l <> [] -> Trim ("/" +:+ Join l "/") "/" = Join l "/".
Proof.
  intros Hl Hne. unfold Trim, TrimLeft, TrimRight, TrimRightBytes.
  destruct (Join_first l Hl Hne) as (c & t & E & Hc).
  destruct (Join_last l Hl Hne) as (d & r & E' & Hd).
  assert (forall a, (a =b "/") = false -> ContainsByte "/" a = false) as Hb.
  { intros a Ha. unfold ContainsByte. cbn [str_all]. by rewrite Ascii.eqb_sym, Ha. }
  change ("/" +:+ Join l "/") with (String "/" (Join l "/")). cbn [TrimLeftBytes].
  change (ContainsByte "/" "/"%char) with true. cbn iota.
  rewrite E, TrimLeftBytes_first, <- E, E', TrimLeftBytes_first, <- E' by auto.
  apply str_rev_involutive.
Qed.

Lemma filter_all {A} (P : A -> Prop) `{!forall x, Decision (P x)} (l : list A) :
  Forall P l -> filter P l = l.
Proof. induction 1 as [|x l Hx Hl IH]; [done|]. rewrite filter_cons_True by done. by f_equal. Qed.

Lemma plain_nonempty l : Forall plain_segment l -> Forall (fun s => s <> "") l.
Proof. intros H. eapply Forall_impl; [exact H|]. by intros s [? _]. Qed.

(** The path segments of a joined path. *)
Lemma split_slash_path l :
  Forall plain_segment l -> l <> [] ->
  filter (fun s => s <> "") (SplitByte (Trim ("/" +:+ Join l "/") "/") "/") = l.
Proof.
  intros Hl Hne. rewrite Trim_slash, SplitByte_Join by
    (done || (eapply Forall_impl; [exact Hl|by intros s [_ ?]])).
  by apply filter_all, plain_nonempty.
Qed.

Lemma unescape_path_Join l :
  unescape encodePath (Join (map PathEscape l) "/") = Some (Join l "/").
Proof.
  unfold Join. induction l as [|x l IH]; [done|]. destruct l as [|y l]; simpl map in *.
  - simpl. unfold PathEscape. rewrite <- (app_empty_r (escape _ x)).
    rewrite unescape_escape_with by apply reads_back_path. simpl. by rewrite app_empty_r.
  - change (String.concat "/" (PathEscape x :: PathEscape y :: map PathEscape l))
      with (escape encodePathSegment x +:+ String "/" (String.concat "/" (PathEscape y :: map PathEscape l))).
    rewrite unescape_escape_with by apply reads_back_path.
    assert (forall r, unescape encodePath (String "/" r)
                      = option_map (String "/") (unescape encodePath r)) as -> by done.
    simpl map in IH. by rewrite IH.
Qed.

(** ** Parse *)

(** A host that [url.Parse] keeps as it is. *)
Definition host_byte (c : ascii) : bool := (negb (is_ctl c) && negb (ContainsByte "/?#@" c))%bool.
Definition uri_host (h : string) : Prop :=
  h <> "" /\ str_all host_byte h = true /\ parseHost h = Some h.
#[export] Instance uri_host_dec h : Decision (uri_host h).
Proof. unfold uri_host. apply _. Defined.

Definition known_scheme (p : string) : Prop := p = "iscsi" \/ p = "nfs" \/ p = "smb".

Definition path_byte (c : ascii) : bool := (segment_byte c || (c =b "/"))%bool.
Definition query_text_byte (c : ascii) : bool := (query_byte c || ContainsByte "=&" c)%bool.

Definition with_query (uri query : string) : string :=
  if query != "" then uri +:+ "?" +:+ query else uri.

Lemma PathEscape_Join_bytes l : str_all path_byte (Join (map PathEscape l) "/") = true.
Proof.
  apply str_all_Join; [done|]. apply Forall_forall. intros s [x [-> _]]%list_elem_of_fmap.
  eapply str_all_impl; [|apply PathEscape_bytes]. intros c. revert c. apply bytes_impl. by_bytes.
Qed.
Lemma QueryEscape_text s : str_all query_text_byte (QueryEscape s) = true.
Proof.
  eapply str_all_impl; [|apply QueryEscape_bytes]. intros c. revert c. apply bytes_impl. by_bytes.
Qed.
Lemma Values_Encode_bytes q : str_all query_text_byte (Values_Encode q) = true.
Proof.
  unfold Values_Encode. apply str_all_Join; [done|]. apply Forall_forall.
  intros s [[k v] [-> _]]%list_elem_of_fmap. unfold encode_pair. cbn [fst snd].
  by rewrite !str_all_app, !QueryEscape_text.
Qed.

(** The bytes of [proto://host/path?query]. *)
Definition raw_byte (c : ascii) : bool :=
  (host_byte c || path_byte c || query_text_byte c || (c =b "?"))%bool.

Lemma raw_bytes (P : ascii -> bool) s :
  forallb (fun c => implb (P c) (raw_byte c)) all_bytes = true -> str_all P s = true ->
  str_all raw_byte s = true.
Proof. intros H. apply str_all_impl. by apply bytes_impl. Qed.

Lemma raw_byte_ok c : raw_byte c = true -> negb (is_ctl c) = true /\ negb (c =b "#") = true.
Proof.
  revert c. assert (forall c, implb (raw_byte c) (negb (is_ctl c) && negb (c =b "#")) = true) as H.
  { apply bytes_all. by_bytes. }
  intros c Hc. specialize (H c). rewrite Hc in H. by apply andb_true_iff in H.
Qed.

(** A host does not start with a slash. *)
Lemma host_cons host : uri_host host -> exists c t, host = String c t /\ (c =b "/") = false.
Proof.
  intros (Hne & Hb & _). destruct host as [|c t]; [done|]. exists c, t.
  split; [done|]. cbn [str_all] in Hb. apply andb_true_iff in Hb as [Hb _].
  apply negb_true_iff. clear Hne. revert c Hb. apply bytes_impl. by_bytes.
Qed.

Section uri.
Context (proto host path query p : string).
Hypothesis proto_known : known_scheme proto.
Hypothesis host_good : uri_host host.
Hypothesis path_rooted : path = "" \/ exists t, path = String "/" t.
Hypothesis path_bytes : str_all path_byte path = true.
Hypothesis path_value : unescape encodePath path = Some p.
Hypothesis query_bytes : str_all query_text_byte query = true.

Let rest := host +:+ path.
Let uri := with_query (proto +:+ "://" +:+ rest) query.

Lemma uri_split : uri = proto +:+ "://" +:+ with_query rest query.
Proof. unfold uri, with_query. destruct (_ == _); cbn [negb]; [done|]. by rewrite !app_assoc_s. Qed.

Lemma uri_bytes : str_all raw_byte uri = true.
Proof.
  rewrite uri_split.
  assert (str_all raw_byte rest = true) as Hr.
  { unfold rest. by rewrite str_all_app, (raw_bytes host_byte host), (raw_bytes path_byte path)
      by (by_bytes || apply host_good || done). }
  assert (str_all raw_byte (with_query rest query) = true) as E.
  { unfold with_query. destruct (_ == _); cbn [negb]; [done|].
    by rewrite !str_all_app, Hr, (raw_bytes query_text_byte query) by (by_bytes || done). }
  destruct proto_known as [-> | [-> | ->]]; cbn; by rewrite E.
Qed.

Lemma uri_free c : raw_byte c = false -> str_all (free c) uri = true.
Proof.
  intros H. eapply str_all_impl; [|apply uri_bytes]. intros a Ha.
  apply negb_true_iff. destruct (Ascii.eqb_spec a c); congruence.
Qed.

Lemma rest_free_query : str_all (free "?"%char) rest = true.
Proof.
  unfold rest. rewrite str_all_app. rewrite !andb_true_iff. split.
  - eapply str_all_impl; [|apply host_good]. apply bytes_impl. by_bytes.
  - eapply str_all_impl; [|apply path_bytes]. apply bytes_impl. by_bytes.
Qed.

Lemma with_query_slashes : with_query ("//" +:+ rest) query = "//" +:+ with_query rest query.
Proof. unfold with_query. destruct (_ == _); done. Qed.

Lemma CutByte_query : CutByte (with_query ("//" +:+ rest) query) "?" =
  ("//" +:+ rest, query, query != "").
Proof.
  pose proof rest_free_query as H.
  assert (str_all (free "?"%char) ("//" +:+ rest) = true) as H' by (by rewrite str_all_app, H).
  unfold with_query. destruct (String.eqb_spec query "") as [->|]; cbn [negb].
  - by rewrite CutByte_free.
  - change ("?" +:+ query) with (String "?" query). by rewrite CutByte_app.
Qed.

Lemma getScheme_uri : getScheme uri = Some (proto, "//" +:+ with_query rest query).
Proof. rewrite uri_split. by destruct proto_known as [-> | [-> | ->]]. Qed.

Lemma Index_uri : Index uri "://" = Some (String.length proto).
Proof.
  rewrite uri_split. destruct proto_known as [-> | [-> | ->]]; simpl;
    by destruct (with_query rest query).
Qed.

Lemma authority_path :
  (match IndexByte rest "/" with
   | Some i => (Some (str_take i rest), str_drop i rest)
   | None => (Some rest, "")
   end) = (Some host, path).
Proof.
  assert (str_all (free "/"%char) host = true) as Hh.
  { eapply str_all_impl; [|apply host_good]. apply bytes_impl. by_bytes. }
  unfold rest. destruct path_rooted as [-> | [t ->]].
  - by rewrite app_empty_r, IndexByte_free.
  - by rewrite IndexByte_app, str_take_app, str_drop_app.
Qed.

Lemma parseAuthority_host : parseAuthority host = Some host.
Proof.
  unfold parseAuthority. rewrite LastIndexByte_free; [apply host_good|].
  eapply str_all_impl; [|apply host_good]. apply bytes_impl. by_bytes.
Qed.

(** [url.Parse] finds the parts again. *)
Lemma Parse_uri :
  Parse uri = Some {| Scheme := proto; Opaque := ""; Host := host; Path := p; RawQuery := query |}.
Proof.
  unfold Parse. rewrite (CutByte_free uri) by (by apply uri_free). cbn [unescape].
  unfold parse_url.
  assert (str_all (fun c => negb (is_ctl c)) uri = true) as ->.
  { eapply str_all_impl; [|apply uri_bytes]. apply bytes_impl. by_bytes. }
  assert ((uri == "*") = false) as ->.
  { rewrite uri_split. by destruct proto_known as [-> | [-> | ->]]. }
  rewrite getScheme_uri, <- with_query_slashes, CutByte_query.
  assert (ToLower proto = proto) as ->.
  { by destruct proto_known as [-> | [-> | ->]]. }
  assert ((proto == "") = false) as -> by (by destruct proto_known as [-> | [-> | ->]]).
  assert (HasPrefix ("//" +:+ rest) "/" = true) as -> by done.
  assert (HasPrefix ("//" +:+ rest) "//" = true) as -> by (by rewrite HasPrefix_app).
  cbn [negb andb orb]. change (str_drop 2 ("//" +:+ rest)) with rest.
  rewrite authority_path, parseAuthority_host, path_value. done.
Qed.

Lemma uri_first : exists c t, uri = String c t /\ visible c = true.
Proof. rewrite uri_split. destruct proto_known as [-> | [-> | ->]]; by eexists _, _. Qed.

Lemma uri_nonblank : TrimSpace uri <> "".
Proof. destruct uri_first as (c & t & E & H). rewrite E. by apply TrimSpace_visible_nonempty. Qed.

Lemma uri_after_scheme :
  str_drop (String.length proto + 3) uri = with_query rest query
  /\ str_take (String.length proto) uri = proto
  /\ (String.length proto + 3 < String.length uri)%nat.
Proof.
  rewrite uri_split. destruct (host_cons host host_good) as (c & t & -> & _). split; [|split].
  - by destruct proto_known as [-> | [-> | ->]].
  - apply str_take_app.
  - rewrite !length_app_s. unfold with_query, rest. destruct (_ == _); cbn [negb];
      simpl; rewrite ?length_app_s; simpl; lia.
Qed.
End uri.
