(* ===== verification/GoBase64.v ===== *)
(** * Go's [base64.RawURLEncoding]: the URL alphabet, without padding. *)
From S2P Require Import Prelude GoStrings.

Definition alphabet : string :=
  "ABCDEFGHIJKLMNOPQRSTUVWXYZabcdefghijklmnopqrstuvwxyz0123456789-_".
Definition b64_char (n : N) : ascii :=
  match String.get (N.to_nat n) alphabet with Some c => c | None => "A"%char end.
Definition b64_val (c : ascii) : option N :=
  if is_upper c then Some (code c - 65)%N
  else if is_lower c then Some (code c - 71)%N
  else if is_digit c then Some (code c + 4)%N
  else if c =b "-" then Some 62%N
  else if c =b "_" then Some 63%N
  else None.

Fixpoint b64_encode (s : string) : string :=
  match s with
  | EmptyString => EmptyString
  | String a EmptyString =>
      let x := code a in
      String (b64_char (x / 4)) (String (b64_char (N.modulo x 4 * 16)) "")
  | String a (String b EmptyString) =>
      let x := code a in let y := code b in
      String (b64_char (x / 4))
        (String (b64_char (N.modulo x 4 * 16 + y / 16))
           (String (b64_char (N.modulo y 16 * 4)) ""))
  | String a (String b (String c rest)) =>
      let x := code a in let y := code b in let z := code c in
      String (b64_char (x / 4))
        (String (b64_char (N.modulo x 4 * 16 + y / 16))
           (String (b64_char (N.modulo y 16 * 4 + z / 64))
              (String (b64_char (N.modulo z 64)) (b64_encode rest))))
  end.

(** Line breaks are skipped anywhere in the text. *)
Fixpoint drop_newlines (s : string) : string :=
  match s with
  | EmptyString => EmptyString
  | String c s' =>
      if (N.eqb (code c) 10 || N.eqb (code c) 13)%bool
      then drop_newlines s' else String c (drop_newlines s')
  end.

Definition byte0 (p q : N) : ascii := ascii_of_N (p * 4 + q / 16).
Definition byte1 (q r : N) : ascii := ascii_of_N (N.modulo q 16 * 16 + r / 4).
Definition byte2 (r t : N) : ascii := ascii_of_N (N.modulo r 4 * 64 + t).

(** Groups of four characters; a last group of two or three, whose unused bits
    are ignored; a single last character is an error. *)
Fixpoint b64_groups (s : string) : option string :=
  match s with
  | EmptyString => Some EmptyString
  | String a (String b EmptyString) =>
      match b64_val a, b64_val b with
      | Some p, Some q => Some (String (byte0 p q) "")
      | _, _ => None
      end
  | String a (String b (String c EmptyString)) =>
      match b64_val a, b64_val b, b64_val c with
      | Some p, Some q, Some r => Some (String (byte0 p q) (String (byte1 q r) ""))
      | _, _, _ => None
      end
  | String a (String b (String c (String d rest))) =>
      match b64_val a, b64_val b, b64_val c, b64_val d, b64_groups rest with
      | Some p, Some q, Some r, Some t, Some out =>
          Some (String (byte0 p q) (String (byte1 q r) (String (byte2 r t) out)))
      | _, _, _, _, _ => None
      end
  | String _ EmptyString => None
  end.

Definition EncodeToString (s : string) : string := b64_encode s.
Definition DecodeString (s : string) : option string := b64_groups (drop_newlines s).

(** ** Encoding and decoding are inverse *)

Ltac Zify.zify_post_hook ::= Z.to_euclidean_division_equations.

Lemma code_lt c : (code c < 256)%N.
Proof. apply N_ascii_bounded. Qed.

Definition sextets : list N := map N.of_nat (seq 0 64).
Lemma sextet_in n : (n < 64)%N -> In n sextets.
Proof.
  intros H. unfold sextets. apply in_map_iff. exists (N.to_nat n).
  split; [lia|]. apply in_seq. lia.
Qed.

Lemma b64_val_char n : (n < 64)%N -> b64_val (b64_char n) = Some n.
Proof.
  intros H%sextet_in.
  assert (forallb (fun n => bool_decide (b64_val (b64_char n) = Some n)) sextets = true) as E
    by (vm_compute; reflexivity).
  rewrite forallb_forall in E. apply E in H. by apply bool_decide_eq_true in H.
Qed.

(** No character of the alphabet is a line break, a colon or a slash. *)
Definition b64_ok (c : ascii) : bool := match b64_val c with Some _ => true | None => false end.
Lemma b64_char_ok n : b64_ok (b64_char n) = true.
Proof.
  unfold b64_char. destruct (String.get (N.to_nat n) alphabet) as [c|] eqn:E; [|reflexivity].
  assert (N.to_nat n < 64)%nat as Hn.
  { destruct (decide (N.to_nat n < 64)%nat) as [|Hge]; [done|]. exfalso.
    revert E. generalize (N.to_nat n) Hge. clear. intros m Hm.
    replace m with (64 + (m - 64))%nat by lia. generalize (m - 64)%nat. intros k.
    cbn. destruct k; discriminate. }
  assert (n < 64)%N as Hn' by lia. apply b64_val_char in Hn'.
  unfold b64_char in Hn'. rewrite E in Hn'. unfold b64_ok. rewrite Hn'. reflexivity.
Qed.

Lemma byte0_spec x y : (y < 16)%N -> (x < 256)%N -> byte0 (x / 4) (N.modulo x 4 * 16 + y) = ascii_of_N x.
Proof. intros. unfold byte0. f_equal. lia. Qed.
Lemma byte1_spec u y v : (y < 256)%N -> (v < 4)%N ->
  byte1 (u * 16 + y / 16) (N.modulo y 16 * 4 + v) = ascii_of_N y.
Proof. intros. unfold byte1. f_equal. lia. Qed.
Lemma byte2_spec u z : (z < 256)%N -> byte2 (u * 4 + z / 64) (N.modulo z 64) = ascii_of_N z.
Proof. intros. unfold byte2. f_equal. lia. Qed.

(** Induction three bytes at a time. *)
Lemma string_ind3 (P : string -> Prop) :
  P "" -> (forall a, P (String a "")) -> (forall a b, P (String a (String b ""))) ->
  (forall a b c s, P s -> P (String a (String b (String c s)))) -> forall s, P s.
Proof.
  intros H0 H1 H2 H3. fix IH 1. intros [|a [|b [|c s]]];
    [exact H0|exact (H1 a)|exact (H2 a b)|exact (H3 a b c s (IH s))].
Qed.

Lemma b64_encode_all (f : ascii -> bool) s :
  (forall c, b64_ok c = true -> f c = true) -> str_all f (b64_encode s) = true.
Proof.
  intros Hf. assert (forall n, f (b64_char n) = true) as Hc by (intros; apply Hf, b64_char_ok).
  induction s using string_ind3; cbn [b64_encode str_all]; rewrite ?Hc; auto.
Qed.

Lemma drop_newlines_id s :
  str_all (fun c => negb (N.eqb (code c) 10 || N.eqb (code c) 13)) s = true ->
  drop_newlines s = s.
Proof.
  induction s as [|c s IH]; simpl; [done|]. intros [H1 H2]%andb_true_iff.
  apply negb_true_iff in H1. rewrite H1, IH by done. done.
Qed.

Ltac code_bounds :=
  repeat match goal with
  | c : ascii |- _ =>
      lazymatch goal with
      | _ : (code c < 256)%N |- _ => fail
      | _ => pose proof (code_lt c)
      end
  end.

Lemma b64_groups_encode s : b64_groups (b64_encode s) = Some s.
Proof.
  induction s as [|a|a b|a b c s IH] using string_ind3; [done|..];
    code_bounds; cbn [b64_encode b64_groups]; rewrite !b64_val_char by lia; rewrite ?IH.
  - replace (N.modulo (code a) 4 * 16)%N with (N.modulo (code a) 4 * 16 + 0)%N by lia.
    rewrite byte0_spec by lia. unfold code. by rewrite ascii_N_embedding.
  - replace (N.modulo (code b) 16 * 4)%N with (N.modulo (code b) 16 * 4 + 0)%N by lia.
    rewrite byte0_spec, byte1_spec by lia. unfold code. by rewrite !ascii_N_embedding.
  - rewrite byte0_spec, byte1_spec, byte2_spec by lia.
    unfold code. by rewrite !ascii_N_embedding.
Qed.

(** Decoding what was encoded gives the bytes back. *)
Lemma DecodeString_EncodeToString s : DecodeString (EncodeToString s) = Some s.
Proof.
  unfold DecodeString, EncodeToString. rewrite drop_newlines_id; [apply b64_groups_encode|].
  apply b64_encode_all. intros c Hc.
  destruct (N.eqb (code c) 10) eqn:E1; [|destruct (N.eqb (code c) 13) eqn:E2; [|done]];
    apply N.eqb_eq in E1 || apply N.eqb_eq in E2;
    unfold code in *; apply (f_equal ascii_of_N) in E1 || apply (f_equal ascii_of_N) in E2;
    rewrite ascii_N_embedding in E1 || rewrite ascii_N_embedding in E2; subst c; discriminate Hc.
Qed.

Example b64_ex : map EncodeToString ["a"; "ab"; "abc"; "{?~"] = ["YQ"; "YWI"; "YWJj"; "ez9-"].
Proof. vm_compute. reflexivity. Qed.
Example b64_ex2 : map DecodeString ["YQ"; "Y"; "Y=Q"; "Y
Q"] = [Some "a"; None; None; Some "a"].
Proof. vm_compute. reflexivity. Qed.
