(* ===== verification/GoJson.v ===== *)
(** * Go's [encoding/json]: strings, the grammar of values, and decoding into
    the string and integer fields of a struct. *)
From S2P Require Import Prelude GoStrings GoStrconv GoNet.

(** ** Writing *)

Definition hex_digit (n : N) : ascii :=
  match String.get (N.to_nat n) "0123456789abcdef" with Some c => c | None => "0"%char end.
Definition u_escape (r : N) : string :=
  String "\" (String "u"
    (String (hex_digit (N.modulo (r / 4096) 16)) (String (hex_digit (N.modulo (r / 256) 16))
      (String (hex_digit (N.modulo (r / 16) 16)) (String (hex_digit (N.modulo r 16)) ""))))).

Definition backslash : ascii := "\"%char.
Definition esc2 (c : ascii) : string := String backslash (String c "").
Definition quote_mark : ascii := ascii_of_N 34.

(** The escape of an ASCII byte, HTML characters included
    ([appendString] with [escapeHTML]). *)
Definition quote_ascii (c : ascii) : string :=
  if ((c =b quote_mark) || (c =b backslash))%bool then esc2 c
  else if N.eqb (code c) 8 then esc2 "b"
  else if N.eqb (code c) 12 then esc2 "f"
  else if N.eqb (code c) 10 then esc2 "n"
  else if N.eqb (code c) 13 then esc2 "r"
  else if N.eqb (code c) 9 then esc2 "t"
  else if (N.ltb (code c) 32 || (c =b "<") || (c =b ">") || (c =b "&"))%bool
  then u_escape (code c)
  else String c "".

(** A rune: an invalid byte becomes [\ufffd]; U+2028 and U+2029 are escaped. *)
Definition quote_rune (raw : string) (r : N) : string :=
  match raw with
  | String c EmptyString =>
      if N.ltb (code c) 128 then quote_ascii c else u_escape RuneError
  | _ => if (N.eqb r 8232 || N.eqb r 8233)%bool then u_escape r else raw
  end.

Fixpoint quote_from (fuel : nat) (s : string) : string :=
  match fuel, DecodeRune s with
  | S fuel', Some (r, rest) =>
      quote_rune (str_take (String.length s - String.length rest) s) r +:+ quote_from fuel' rest
  | _, _ => EmptyString
  end.
Definition quote_body (s : string) : string := quote_from (String.length s) s.
Definition json_string (s : string) : string :=
  String quote_mark (quote_body s +:+ String quote_mark "").

(** ** Reading: values *)

Inductive json :=
| JNull
| JBool (b : bool)
| JNum (literal : string)
| JStr (s : string)
| JArr (l : list json)
| JObj (l : list (string * json)).

(** [json.Marshal] of a value, given as the value it stands for: an object has the members
    of a struct in the order of its fields. *)
Fixpoint json_text (j : json) : string :=
  match j with
  | JNull => "null"
  | JBool b => if b then "true" else "false"
  | JNum n => n
  | JStr s => json_string s
  | JArr l => "[" +:+ Join (map json_text l) "," +:+ "]"
  | JObj l => "{" +:+ Join (map (fun kv => json_string kv.1 +:+ ":" +:+ json_text kv.2) l) "," +:+ "}"
  end.
Definition JInt (z : Z) : json := JNum (Itoa z).
(** A slice, which is nil while it is empty, and a pointer. *)
Definition slice (l : list json) : json := match l with [] => JNull | _ => JArr l end.
Definition pointer {A} (f : A -> json) (p : option A) : json :=
  match p with Some a => f a | None => JNull end.
(** A string field with [omitempty]. *)
Definition omitempty (key value : string) : list (string * json) :=
  if value == "" then [] else [(key, JStr value)].

Definition is_ws (c : ascii) : bool :=
  (N.eqb (code c) 32 || N.eqb (code c) 9 || N.eqb (code c) 10 || N.eqb (code c) 13)%bool.
Definition skip_ws (s : string) : string := TrimLeftBytes is_ws s.

Definition hex4 (a b c d : ascii) : option N :=
  match hex_val a, hex_val b, hex_val c, hex_val d with
  | Some w, Some x, Some y, Some z => Some (w * 4096 + x * 256 + y * 16 + z)%N
  | _, _, _, _ => None
  end.
Definition is_surrogate (r : N) : bool := (N.leb 55296 r && N.leb r 57343)%bool.
(** [utf16.DecodeRune]. *)
Definition utf16_pair (hi lo : N) : option N :=
  if (N.leb 55296 hi && N.ltb hi 56320 && N.leb 56320 lo && N.ltb lo 57344)%bool
  then Some ((hi - 55296) * 1024 + (lo - 56320) + 65536)%N else None.

(** The rune that a [\u] escape of code unit [u] starts, [s] being the text after
    it: a high surrogate takes the escape of its low half with it. *)
Definition unit_rune (u : N) (s : string) : N * string :=
  if negb (is_surrogate u) then (u, s)
  else match s with
  | String p (String q (String a (String b (String c (String d rest))))) =>
      match (if ((p =b backslash) && (q =b "u"))%bool then hex4 a b c d else None) with
      | Some lo => match utf16_pair u lo with
                   | Some r => (r, rest)
                   | None => (RuneError, s)
                   end
      | None => (RuneError, s)
      end
  | _ => (RuneError, s)
  end.

Definition simple_escape (c : ascii) : option ascii :=
  if ((c =b quote_mark) || (c =b backslash) || (c =b "/"))%bool then Some c
  else if c =b "b" then Some (ascii_of_N 8)
  else if c =b "f" then Some (ascii_of_N 12)
  else if c =b "n" then Some (ascii_of_N 10)
  else if c =b "r" then Some (ascii_of_N 13)
  else if c =b "t" then Some (ascii_of_N 9)
  else None.

(** The text of a string literal after its opening quote, and what follows it. *)
Fixpoint unquote (fuel : nat) (s : string) : option (string * string) :=
  match fuel, s with
  | S fuel', String c s1 =>
      let cons (pre : string) (k : option (string * string)) :=
        match k with Some (t, rest) => Some (pre +:+ t, rest) | None => None end in
      if c =b quote_mark then Some ("", s1)
      else if c =b backslash then
        match s1 with
        | String e s2 =>
            if e =b "u" then
              match s2 with
              | String a (String b (String d (String g s3))) =>
                  match hex4 a b d g with
                  | Some u => let '(r, s4) := unit_rune u s3 in
                              cons (EncodeRune r) (unquote fuel' s4)
                  | None => None
                  end
              | _ => None
              end
            else match simple_escape e with
                 | Some x => cons (String x "") (unquote fuel' s2)
                 | None => None
                 end
        | EmptyString => None
        end
      else if N.ltb (code c) 32 then None
      else match DecodeRune s with
           | Some (r, rest) => cons (EncodeRune r) (unquote fuel' rest)
           | None => None
           end
  | _, _ => None
  end.

(** A number literal: sign, integer part without leading zeros, fraction, exponent. *)
Fixpoint span_digits (s : string) : string * string :=
  match s with
  | String c s' => if is_digit c then let '(d, r) := span_digits s' in (String c d, r) else ("", s)
  | EmptyString => ("", "")
  end.
Definition number_int (s : string) : option (string * string) :=
  match s with
  | String c s' =>
      if c =b "0" then Some ("0", s')
      else if is_digit c then Some (span_digits s) else None
  | EmptyString => None
  end.
Definition number_frac (s : string) : option (string * string) :=
  match s with
  | String c s' =>
      if c =b "." then
        let '(d, r) := span_digits s' in if d == "" then None else Some (String c d, r)
      else Some ("", s)
  | EmptyString => Some ("", "")
  end.
Definition number_exp (s : string) : option (string * string) :=
  match s with
  | String c s' =>
      if ((c =b "e") || (c =b "E"))%bool then
        let '(sgn, s2) := match s' with
                          | String x t => if ((x =b "+") || (x =b "-"))%bool
                                          then (String x "", t) else ("", s')
                          | EmptyString => ("", s')
                          end in
        let '(d, r) := span_digits s2 in
        if d == "" then None else Some (String c (sgn +:+ d), r)
      else Some ("", s)
  | EmptyString => Some ("", "")
  end.
Definition number_sign (s : string) : string * string :=
  match s with
  | String c t => if c =b "-" then ("-", t) else ("", s)
  | EmptyString => ("", s)
  end.
Definition number (s : string) : option (string * string) :=
  let '(sgn, s0) := number_sign s in
  match number_int s0 with
  | Some (i, s1) =>
      match number_frac s1 with
      | Some (f, s2) =>
          match number_exp s2 with
          | Some (e, s3) => Some (sgn +:+ i +:+ f +:+ e, s3)
          | None => None
          end
      | None => None
      end
  | None => None
  end.

Definition lbrace : ascii := "{"%char.
Definition rbrace : ascii := "}"%char.

(** A value and the text after it.  [depth] is the nesting depth left (Go stops
    at 10000); [fuel] decreases at each byte or separator. *)
Fixpoint value (fuel depth : nat) (s0 : string) : option (json * string) :=
  match fuel with
  | O => None
  | S fuel' =>
  let s := skip_ws s0 in
  match s with
  | EmptyString => None
  | String c s1 =>
      if c =b quote_mark then
        match unquote (String.length s1) s1 with
        | Some (t, rest) => Some (JStr t, rest) | None => None end
      else if c =b lbrace then
        match depth with
        | O => None
        | S depth' =>
            match skip_ws s1 with
            | String x rest => if x =b rbrace then Some (JObj [], rest)
                               else members fuel' depth' (String x rest) []
            | EmptyString => None
            end
        end
      else if c =b "[" then
        match depth with
        | O => None
        | S depth' =>
            match skip_ws s1 with
            | String x rest => if x =b "]" then Some (JArr [], rest)
                               else elements fuel' depth' (String x rest) []
            | EmptyString => None
            end
        end
      else if HasPrefix s "true" then Some (JBool true, str_drop 4 s)
      else if HasPrefix s "false" then Some (JBool false, str_drop 5 s)
      else if HasPrefix s "null" then Some (JNull, str_drop 4 s)
      else match number s with Some (n, rest) => Some (JNum n, rest) | None => None end
  end
  end
with elements (fuel depth : nat) (s : string) (acc : list json) : option (json * string) :=
  match fuel with
  | O => None
  | S fuel' =>
      match value fuel' depth s with
      | Some (v, r) =>
          match skip_ws r with
          | String x r' =>
              if x =b "," then elements fuel' depth r' (acc ++ [v])
              else if x =b "]" then Some (JArr (acc ++ [v]), r') else None
          | EmptyString => None
          end
      | None => None
      end
  end
with members (fuel depth : nat) (s0 : string) (acc : list (string * json)) : option (json * string) :=
  match fuel with
  | O => None
  | S fuel' =>
      match skip_ws s0 with
      | String q s1 =>
          if negb (q =b quote_mark) then None else
          match unquote (String.length s1) s1 with
          | Some (k, r0) =>
              match skip_ws r0 with
              | String x r1 =>
                  if negb (x =b ":") then None else
                  match value fuel' depth r1 with
                  | Some (v, r) =>
                      match skip_ws r with
                      | String y r' =>
                          if y =b "," then members fuel' depth r' (acc ++ [(k, v)])
                          else if y =b rbrace then Some (JObj (acc ++ [(k, v)]), r') else None
                      | EmptyString => None
                      end
                  | None => None
                  end
              | EmptyString => None
              end
          | None => None
          end
      | EmptyString => None
      end
  end.

Definition max_depth : nat := 100 * 100.
(** A whole text: one value and white space. *)
Definition parse_json (s : string) : option json :=
  match value (2 * String.length s + 2) max_depth s with
  | Some (v, rest) => if skip_ws rest == "" then Some v else None
  | None => None
  end.

(** ** Reading: struct fields

    A struct is decoded member by member into [out], the flag telling whether
    every value had the type of its field ([UnmarshalTypeError] does not stop
    the decoding). *)
Definition set_string (j : json) (cur : string) : string * bool :=
  match j with JStr s => (s, true) | JNull => (cur, true) | _ => (cur, false) end.
Definition set_int (w : Z) (j : json) (cur : Z) : Z * bool :=
  match j with
  | JNum n => match ParseInt w n with Some z => (z, true) | None => (cur, false) end
  | JNull => (cur, true)
  | _ => (cur, false)
  end.
Definition set_uint (w : Z) (j : json) (cur : Z) : Z * bool :=
  match j with
  | JNum n => match ParseUint w n with Some z => (z, true) | None => (cur, false) end
  | JNull => (cur, true)
  | _ => (cur, false)
  end.
Definition set_bool (j : json) (cur : bool) : bool * bool :=
  match j with JBool b => (b, true) | JNull => (cur, true) | _ => (cur, false) end.
(** A pointer is nil for [null]. *)
Definition set_int_ptr (w : Z) (j : json) (cur : option Z) : option Z * bool :=
  match j with
  | JNull => (None, true)
  | j => let '(z, ok) := set_int w j (match cur with Some z => z | None => 0%Z end) in (Some z, ok)
  end.
(** The elements of an array, each stored in the element that is there, or in a zero
    value. *)
Fixpoint set_elements {A} (set : json -> A -> A * bool) (zero : A) (l : list json) (cur : list A)
  : list A * bool :=
  match l with
  | [] => ([], true)
  | j :: rest =>
      let '(a, ok) := set j (match cur with c :: _ => c | [] => zero end) in
      let '(more, ok') := set_elements set zero rest (tail cur) in
      (a :: more, (ok && ok')%bool)
  end.
Definition set_list {A} (set : json -> A -> A * bool) (zero : A) (j : json) (cur : list A)
  : list A * bool :=
  match j with
  | JArr l => set_elements set zero l cur
  | JNull => ([], true)
  | _ => (cur, false)
  end.
(** A pointer to what [set] decodes: nil for [null], a zero value if there is none yet. *)
Definition set_ptr {A} (set : json -> A -> A * bool) (zero : A) (j : json) (cur : option A)
  : option A * bool :=
  match j with
  | JNull => (None, true)
  | j => let '(a, ok) := set j (default zero cur) in (Some a, ok)
  end.

(** A [time.Time], [parse_time] being its [UnmarshalJSON] of the text of a JSON string
    (which has no escapes in a time). *)
Definition set_time (parse_time : string -> option Z) (j : json) (cur : Z) : Z * bool :=
  match j with
  | JStr s => match parse_time s with Some t => (t, true) | None => (cur, false) end
  | JNull => (cur, true)
  | _ => (cur, false)
  end.

Section Struct.
Context {A : Type}.
(** A field: its name and how a value is stored in it. *)
Definition field : Type := string * (json -> A -> A * bool).

(** A field by how it is taken from the struct and put back. *)
Definition on {B} (get : A -> B) (put : B -> A -> A) (set : json -> B -> B * bool) (j : json) (a : A)
  : A * bool := let '(b, ok) := set j (get a) in (put b a, ok).

(** The exact name is preferred to one equal up to case. *)
Definition find_field (fs : list field) (k : string) : option (json -> A -> A * bool) :=
  match List.find (fun f => f.1 == k) fs with
  | Some f => Some f.2
  | None => match List.find (fun f => EqualFold f.1 k) fs with
            | Some f => Some f.2 | None => None end
  end.
Definition store (fs : list field) (st : A * bool) (kv : string * json) : A * bool :=
  match find_field fs kv.1 with
  | Some f => let '(a, ok) := f kv.2 st.1 in (a, (st.2 && ok)%bool)
  | None => st
  end.
(** [json.Unmarshal(s, &out)] with [out] initially [zero]; [None] is an error. *)
Definition unmarshal (fs : list field) (zero : A) (s : string) : option A :=
  match parse_json s with
  | Some (JObj l) => let '(a, ok) := fold_left (store fs) l (zero, true) in
                     if ok then Some a else None
  | Some JNull => Some zero
  | _ => None
  end.
(** A field that is a struct. *)
Definition set_struct (fs : list field) (j : json) (cur : A) : A * bool :=
  match j with
  | JObj l => fold_left (store fs) l (cur, true)
  | JNull => (cur, true)
  | _ => (cur, false)
  end.
End Struct.
