(* ===== verification/GoJsonFacts.v ===== *)
(** * JSON: what is written is read back. *)
From S2P Require Import Prelude GoStrings GoStrconv GoStringsFacts GoUrlParse GoJson.

(** ** Runes *)

(** What the decoder makes of a string: each ill-formed byte is U+FFFD. *)
Definition sanitize (s : string) : string := map_runes (fun r => r) s.
Definition valid_utf8 (s : string) : Prop := sanitize s = s.
#[export] Instance valid_utf8_dec s : Decision (valid_utf8 s).
Proof. unfold valid_utf8. apply _. Defined.

(** The shape of one decoded rune: an ASCII byte, an ill-formed byte, or a
    sequence that is decoded in the same way whatever follows it. *)
Inductive rune_shape : string -> N -> Prop :=
| shape_ascii c : byte_between 0 127 c = true -> rune_shape (String c "") (code c)
| shape_bad c : byte_between 0 127 c = false -> rune_shape (String c "") RuneError
| shape_multi c d raw r :
    byte_between 194 255 c = true ->
    (forall t, DecodeRune (String c (String d raw) +:+ t) = Some (r, t)) ->
    rune_shape (String c (String d raw)) r.

Lemma lead_byte lo hi c :
  (194 <= lo)%N -> byte_between lo hi c = true -> byte_between 194 255 c = true.
Proof.
  unfold byte_between. rewrite !andb_true_iff, !N.leb_le. intros ? [??]. split; [lia|].
  unfold code. pose proof (N_ascii_bounded c). lia.
Qed.

Lemma DecodeRune_shape s r rest :
  DecodeRune s = Some (r, rest) -> exists raw, s = raw +:+ rest /\ rune_shape raw r.
Proof.
  destruct s as [|b0 s]; [discriminate|]. unfold DecodeRune.
  destruct (byte_between 0 127 b0) eqn:E0.
  { intros [= <- <-]. exists (String b0 ""). split; [done|]. by constructor. }
  assert (Some (RuneError, s) = Some (r, rest) ->
          exists raw, String b0 s = raw +:+ rest /\ rune_shape raw r) as Hbad.
  { intros [= <- <-]. exists (String b0 ""). split; [done|]. by constructor. }
  destruct (byte_between 194 223 b0) eqn:E1.
  { destruct s as [|b1 s]; [done|]. destruct (is_cont b1) eqn:C1; [|done].
    intros [= <- <-]. exists (String b0 (String b1 "")). split; [done|]. constructor.
    - by eapply lead_byte, E1.
    - intros t. cbn [String.append DecodeRune]. by rewrite E0, E1, C1. }
  destruct (byte_between 224 239 b0) eqn:E2.
  { destruct s as [|b1 [|b2 s]]; try done. destruct (byte_between _ _ b1 && _)%bool eqn:C; [|done].
    intros [= <- <-]. exists (String b0 (String b1 (String b2 ""))). split; [done|]. constructor.
    - by eapply lead_byte, E2.
    - intros t. cbn [String.append DecodeRune]. by rewrite E0, E1, E2, C. }
  destruct (byte_between 240 244 b0) eqn:E3; [|done].
  destruct s as [|b1 [|b2 [|b3 s]]]; try done.
  destruct (byte_between _ _ b1 && _ && _)%bool eqn:C; [|done].
  intros [= <- <-]. exists (String b0 (String b1 (String b2 (String b3 "")))). split; [done|].
  constructor.
  - by eapply lead_byte, E3.
  - intros t. cbn [String.append DecodeRune]. by rewrite E0, E1, E2, E3, C.
Qed.

Lemma rune_shape_length raw r : rune_shape raw r -> (0 < String.length raw)%nat.
Proof. destruct 1; simpl; lia. Qed.

(** [DecodeRune] is total, and each rune makes the text shorter. *)
Lemma DecodeRune_total c s : exists r rest, DecodeRune (String c s) = Some (r, rest).
Proof. unfold DecodeRune. repeat case_match; eauto. Qed.

Lemma take_raw raw rest :
  str_take (String.length (raw +:+ rest) - String.length rest) (raw +:+ rest) = raw.
Proof.
  rewrite length_app_s. replace (_ + _ - _)%nat with (String.length raw) by lia.
  apply str_take_app.
Qed.

(** ** Quoting *)

Definition cons_text (pre : string) (k : option (string * string)) : option (string * string) :=
  match k with Some (t, rest) => Some (pre +:+ t, rest) | None => None end.

Lemma unquote_ascii fuel c t :
  byte_between 0 127 c = true ->
  unquote (S fuel) (quote_ascii c +:+ t) = cons_text (String c "") (unquote fuel t).
Proof.
  intros H. destruct c as [[] [] [] [] [] [] [] []]; try discriminate H; reflexivity.
Qed.

Lemma unquote_fffd fuel t :
  unquote (S fuel) (u_escape RuneError +:+ t) = cons_text (EncodeRune RuneError) (unquote fuel t).
Proof. reflexivity. Qed.

Lemma lead_plain c : byte_between 194 255 c = true ->
  (c =b quote_mark) = false /\ (c =b backslash) = false /\ N.ltb (code c) 32 = false.
Proof.
  intros H. assert (negb (c =b quote_mark) && negb (c =b backslash)
                    && negb (N.ltb (code c) 32) = true)%bool as E.
  { revert c H. apply bytes_impl. by_bytes. }
  rewrite !andb_true_iff, !negb_true_iff in E. tauto.
Qed.

Lemma unquote_rune fuel raw r t :
  rune_shape raw r ->
  unquote (S fuel) (quote_rune raw r +:+ t) = cons_text (EncodeRune r) (unquote fuel t).
Proof.
  destruct 1 as [c H|c H|c d raw r H Hd]; unfold quote_rune.
  - assert (N.ltb (code c) 128 = true) as -> by (revert c H; apply bytes_impl; by_bytes).
    rewrite unquote_ascii by done. f_equal. destruct c as [[] [] [] [] [] [] [] []];
      try discriminate H; reflexivity.
  - assert (N.ltb (code c) 128 = false) as ->.
    { apply negb_true_iff. rewrite <- negb_true_iff in H. revert c H. apply bytes_impl. by_bytes. }
    apply unquote_fffd.
  - destruct (N.eqb r 8232) eqn:E1; [apply N.eqb_eq in E1 as ->; reflexivity|].
    destruct (N.eqb r 8233) eqn:E2; [apply N.eqb_eq in E2 as ->; reflexivity|].
    destruct (lead_plain c H) as (H1 & H2 & H3). specialize (Hd t).
    cbn [orb]. change (String c (String d raw) +:+ t) with (String c (String d raw +:+ t)) in *.
    cbn [unquote]. by rewrite H1, H2, H3, Hd.
Qed.

Lemma quote_rune_length raw r : rune_shape raw r -> (0 < String.length (quote_rune raw r))%nat.
Proof.
  destruct 1 as [c|c|]; unfold quote_rune, quote_ascii, esc2, u_escape; repeat case_match; simpl; lia.
Qed.

(** The runes of a text, as [range] has them. *)
Definition runes_text (fuel : nat) (i : nat) (s : string) : string :=
  String.concat "" (map (fun ir => EncodeRune (snd ir)) (range_from fuel i s)).

Lemma concat_cons a l : String.concat "" (a :: l) = a +:+ String.concat "" l.
Proof. destruct l; simpl; [by rewrite app_empty_r|done]. Qed.

Lemma unquote_quote_from n s i fuel t :
  (String.length s <= n)%nat -> (String.length (quote_from n s) < fuel)%nat ->
  unquote fuel (quote_from n s +:+ String quote_mark t) = Some (runes_text n i s, t).
Proof.
  revert s i fuel. induction n as [|n IH]; intros s i fuel Hn Hf.
  { destruct fuel; [simpl in Hf; lia|]. reflexivity. }
  destruct s as [|c s].
  { destruct fuel; [simpl in Hf; lia|]. reflexivity. }
  destruct (DecodeRune_total c s) as (r & rest & E).
  destruct (DecodeRune_shape _ _ _ E) as (raw & Hs & Hsh).
  pose proof (rune_shape_length _ _ Hsh). pose proof (quote_rune_length _ _ Hsh).
  unfold runes_text. cbn [quote_from range_from] in *. rewrite E in *. rewrite Hs in *.
  rewrite take_raw in *. rewrite length_app_s in Hf, Hn.
  destruct fuel as [|fuel]; [lia|]. rewrite app_assoc_s, unquote_rune by done.
  rewrite (IH rest (i + (String.length (raw +:+ rest) - String.length rest))%nat) by lia.
  cbn [map cons_text snd]. rewrite concat_cons. reflexivity.
Qed.

Lemma unquote_json_string s t :
  let body := quote_body s +:+ String quote_mark t in
  unquote (String.length body) body = Some (sanitize s, t).
Proof.
  intros body. unfold body, quote_body.
  rewrite (unquote_quote_from _ _ 0); [|lia|rewrite length_app_s; simpl; lia]. reflexivity.
Qed.

(** ** Values *)

(** What is read back of a value: its strings made valid UTF-8. *)
Fixpoint json_read (j : json) : json :=
  match j with
  | JStr s => JStr (sanitize s)
  | JArr l => JArr (map json_read l)
  | JObj l => JObj (map (fun kv => (sanitize kv.1, json_read kv.2)) l)
  | _ => j
  end.
Definition member_text (kv : string * json) : string :=
  json_string kv.1 +:+ ":" +:+ json_text kv.2.
Definition member_read (kv : string * json) : string * json := (sanitize kv.1, json_read kv.2).

(** The values the program writes: their numbers are integers. *)
Inductive json_ok : json -> Prop :=
| ok_null : json_ok JNull
| ok_bool b : json_ok (JBool b)
| ok_int z : json_ok (JInt z)
| ok_str s : json_ok (JStr s)
| ok_arr l : Forall json_ok l -> json_ok (JArr l)
| ok_obj l : Forall (fun kv => json_ok kv.2) l -> json_ok (JObj l).
#[export] Hint Constructors json_ok : godb.

(** How deep a value is nested. *)
Fixpoint json_depth (j : json) : nat :=
  match j with
  | JArr l => S (foldr (fun x d => Nat.max (json_depth x) d) 0%nat l)
  | JObj l => S (foldr (fun kv d => Nat.max (json_depth kv.2) d) 0%nat l)
  | _ => 0%nat
  end.

(** Induction with the hypothesis for the elements and the members. *)
Lemma json_nested_ind (P : json -> Prop) :
  P JNull -> (forall b, P (JBool b)) -> (forall n, P (JNum n)) -> (forall s, P (JStr s)) ->
  (forall l, Forall P l -> P (JArr l)) -> (forall l, Forall (fun kv => P kv.2) l -> P (JObj l)) ->
  forall j, P j.
Proof.
  intros Hnull Hbool Hnum Hstr Harr Hobj. fix IH 1.
  intros [|b|n|s|l|l]; [exact Hnull|apply Hbool|apply Hnum|apply Hstr|apply Harr|apply Hobj];
    induction l; constructor; auto.
Qed.

Lemma depth_foldr {A} (f : A -> nat) l d :
  (foldr (fun x d => Nat.max (f x) d) 0%nat l <= d)%nat -> Forall (fun x => (f x <= d)%nat) l.
Proof. induction l as [|x l IH]; simpl; intros H; constructor; [lia|apply IH; lia]. Qed.

Lemma json_string_app s t :
  json_string s +:+ t = String quote_mark (quote_body s +:+ String quote_mark t).
Proof. unfold json_string. cbn [String.append]. by rewrite app_assoc_s. Qed.

Lemma value_string fuel d s t :
  value (S fuel) d (json_string s +:+ t) = Some (JStr (sanitize s), t).
Proof.
  rewrite json_string_app. cbn [value].
  change (skip_ws (String quote_mark ?x)) with (String quote_mark x). cbv beta iota.
  change (quote_mark =b quote_mark) with true. cbv iota.
  pose proof (unquote_json_string s t) as H. cbv zeta in H. by rewrite H.
Qed.

(** ** Numbers *)

(** A byte that ends a value: white space or punctuation. *)
Definition delim_byte (c : ascii) : bool :=
  (is_ws c || (c =b ",") || (c =b rbrace) || (c =b "]"))%bool.
(** What may follow a value. *)
Definition delim (t : string) : Prop :=
  t = "" \/ exists x t', t = String x t' /\ delim_byte x = true.

Lemma delim_byte_spec x : delim_byte x = true ->
  is_digit x = false /\ (x =b ".") = false /\ ((x =b "e") || (x =b "E"))%bool = false.
Proof.
  intros H. assert (negb (is_digit x) && negb (x =b ".") && negb ((x =b "e") || (x =b "E")) = true)%bool as E.
  { revert x H. apply bytes_impl. by_bytes. }
  rewrite !andb_true_iff, !negb_true_iff in E. tauto.
Qed.

Lemma span_digits_delim s t :
  str_all is_digit s = true -> delim t -> span_digits (s +:+ t) = (s, t).
Proof.
  intros Hs Ht. induction s as [|c s IH].
  - destruct Ht as [-> | (x & t' & -> & [H _]%delim_byte_spec)]; [done|].
    cbn [String.append span_digits]. by rewrite H.
  - cbn [str_all] in Hs. apply andb_true_iff in Hs as [Hc Hs].
    cbn [String.append span_digits]. by rewrite Hc, IH.
Qed.
Lemma number_int_significant s t :
  significant s -> delim t -> number_int (s +:+ t) = Some (s, t).
Proof.
  intros [-> | (c & s' & -> & Hc & Hz & Hs)] Ht; [done|].
  unfold number_int. cbn [String.append]. rewrite Hz, Hc.
  change (String c (s' +:+ t)) with (String c s' +:+ t). rewrite span_digits_delim; [done| |done].
  cbn [str_all]. by rewrite Hc.
Qed.
Lemma digit_first s t : significant s ->
  exists c r, s +:+ t = String c r /\ is_digit c = true.
Proof. intros [-> | (c & s' & -> & Hc & _)]; by eexists _, _. Qed.
Lemma digit_not_minus c : is_digit c = true -> (c =b "-") = false.
Proof. intros H. apply negb_true_iff. revert c H. apply bytes_impl. by_bytes. Qed.

Lemma number_Itoa z t : delim t -> number (Itoa z +:+ t) = Some (Itoa z, t).
Proof.
  intros Ht. destruct (Itoa_shape z) as (sgn & s & -> & Hsgn & Hs). unfold number.
  rewrite app_assoc_s.
  assert (number_sign (sgn +:+ s +:+ t) = (sgn, s +:+ t)) as ->.
  { destruct Hsgn as [-> | ->]; [|done]. cbn [String.append].
    destruct (digit_first s t Hs) as (c & r & -> & Hc). unfold number_sign. by rewrite digit_not_minus. }
  rewrite number_int_significant by done.
  destruct Ht as [-> | (x & t' & -> & (_ & H1 & H2)%delim_byte_spec)];
    unfold number_frac, number_exp; rewrite ?H1, ?H2; by rewrite !app_empty_r.
Qed.

(** A text that starts a number is not another value. *)
Definition number_start (c : ascii) : bool := (is_digit c || (c =b "-"))%bool.
Lemma number_start_spec c s : number_start c = true ->
  skip_ws (String c s) = String c s /\ (c =b quote_mark) = false /\ (c =b lbrace) = false
  /\ (c =b "[") = false /\ HasPrefix (String c s) "true" = false
  /\ HasPrefix (String c s) "false" = false /\ HasPrefix (String c s) "null" = false.
Proof.
  intros H. assert (forall d, number_start d = false -> (d =b c) = false) as Hd.
  { intros d Hd. apply Ascii.eqb_neq. congruence. }
  assert (is_ws c = false) as Hw.
  { apply negb_true_iff. clear Hd. revert c H. apply bytes_impl. by_bytes. }
  unfold skip_ws. cbn [TrimLeftBytes HasPrefix]. rewrite Hw.
  rewrite !(Ascii.eqb_sym c). by rewrite !Hd.
Qed.

Lemma Itoa_first z t : exists c r, Itoa z +:+ t = String c r /\ number_start c = true.
Proof.
  destruct (Itoa_shape z) as (sgn & s & -> & [-> | ->] & Hs); [|by eexists _, _].
  destruct (digit_first s t Hs) as (c & r & E & Hc). exists c, r. split; [done|].
  unfold number_start. by rewrite Hc.
Qed.
Lemma value_int fuel d z t : delim t -> value (S fuel) d (Itoa z +:+ t) = Some (JInt z, t).
Proof.
  intros Ht. pose proof (number_Itoa z t Ht) as Hn. destruct (Itoa_first z t) as (c & r & E & Hc).
  rewrite E in *. destruct (number_start_spec c r Hc) as (H1 & H2 & H3 & H4 & H5 & H6 & H7).
  cbn [value]. by rewrite H1, H2, H3, H4, H5, H6, H7, Hn.
Qed.

(** ** Arrays and objects *)

(** How the text of a value begins. *)
Definition value_start (c : ascii) : bool := negb (delim_byte c).
Lemma json_text_first j t : json_ok j ->
  exists c r, json_text j +:+ t = String c r /\ value_start c = true.
Proof.
  destruct 1 as [|[]|z| | |]; try by eexists _, _. destruct (Itoa_first z t) as (c & r & E & Hc).
  exists c, r. split; [exact E|]. clear E. revert c Hc. apply bytes_impl. by_bytes.
Qed.
Lemma value_start_spec c s : value_start c = true ->
  skip_ws (String c s) = String c s /\ (c =b "]") = false.
Proof.
  unfold value_start, delim_byte. rewrite negb_true_iff, !orb_false_iff. intros [[[H _] _] H']. split; [|done].
  unfold skip_ws. cbn [TrimLeftBytes]. by rewrite H.
Qed.
Lemma json_text_length j : json_ok j -> (0 < String.length (json_text j))%nat.
Proof.
  intros H. destruct (json_text_first j "" H) as (c & r & E & _).
  rewrite app_empty_r in E. rewrite E. simpl. lia.
Qed.

(** That [j] is read back from its text, with fuel for its length and depth for its nesting. *)
Definition reads_back (j : json) : Prop :=
  forall fuel d t, (json_depth j <= d)%nat -> (String.length (json_text j) <= fuel)%nat -> delim t ->
    value fuel d (json_text j +:+ t) = Some (json_read j, t).

Lemma delim_punct x t : (x = "," \/ x = rbrace \/ x = "]")%char ->
  delim (String x t) /\ skip_ws (String x t) = String x t.
Proof. intros [-> | [-> | ->]]; (split; [right; by eexists _, _|done]). Qed.

Lemma elements_text l fuel d acc t :
  Forall json_ok l -> Forall reads_back l -> Forall (fun j => (json_depth j <= d)%nat) l -> l <> [] ->
  (String.length (Join (map json_text l) ",") < fuel)%nat ->
  elements fuel d (Join (map json_text l) "," +:+ String "]" t) acc = Some (JArr (acc ++ map json_read l), t).
Proof.
  intros Ho Hr Hd Hne. revert fuel acc. induction l as [|j l IH]; intros fuel acc Hf; [done|].
  inversion Ho as [|?? Hj Ho']; inversion Hr as [|?? Rj Hr']; inversion Hd as [|?? Dj Hd']; subst.
  destruct fuel as [|fuel]; [lia|]. destruct l as [|j' l].
  - cbn [map] in *. change (Join [json_text j] ",") with (json_text j) in *. cbn [elements].
    destruct (delim_punct "]" t) as [Hdl Hws]; [auto|]. rewrite Rj by (done || lia). by rewrite Hws.
  - change (Join (map json_text (j :: j' :: l)) ",")
      with (json_text j +:+ String "," (Join (map json_text (j' :: l)) ",")) in *.
    rewrite length_app_s in Hf. rewrite app_assoc_s. cbn [String.append elements String.length] in *.
    set (rest := Join (map json_text (j' :: l)) ",") in *.
    destruct (delim_punct "," (rest +:+ String "]" t)) as [Hdl Hws]; [auto|].
    rewrite Rj by (done || lia). rewrite Hws. change ("," =b ",") with true. cbv iota.
    rewrite IH by (done || lia). by rewrite <- app_assoc.
Qed.

Lemma members_step fuel d kv x t acc :
  reads_back kv.2 -> (json_depth kv.2 <= d)%nat -> (String.length (json_text kv.2) <= fuel)%nat ->
  (x = "," \/ x = rbrace)%char ->
  members (S fuel) d (member_text kv +:+ String x t) acc =
  if x =b "," then members fuel d t (acc ++ [member_read kv])
  else Some (JObj (acc ++ [member_read kv]), t).
Proof.
  intros Hv Hd Hf Hx. destruct kv as [k v]. unfold member_text. cbn [fst snd] in *. rewrite !app_assoc_s.
  rewrite json_string_app. cbn [members].
  change (skip_ws (String quote_mark ?y)) with (String quote_mark y). cbv beta iota.
  change (quote_mark =b quote_mark) with true. cbn [negb].
  pose proof (unquote_json_string k (":" +:+ json_text v +:+ String x t)) as H.
  cbv zeta in H. rewrite H.
  change (skip_ws (":" +:+ ?y)) with (String ":" y). cbv beta iota.
  change (":" =b ":") with true. cbn [negb].
  destruct (delim_punct x t) as [Hdl Hws]; [tauto|]. rewrite Hv by done. rewrite Hws.
  by destruct Hx as [-> | ->].
Qed.

Lemma members_text l fuel d acc t :
  Forall (fun kv => reads_back kv.2) l -> Forall (fun kv => (json_depth kv.2 <= d)%nat) l -> l <> [] ->
  (String.length (Join (map member_text l) ",") < fuel)%nat ->
  members fuel d (Join (map member_text l) "," +:+ String rbrace t) acc
  = Some (JObj (acc ++ map member_read l), t).
Proof.
  intros Hr Hd Hne. revert fuel acc. induction l as [|kv l IH]; intros fuel acc Hf; [done|].
  inversion Hr as [|?? Rj Hr']; inversion Hd as [|?? Dj Hd']; subst.
  assert (String.length (json_text kv.2) <= String.length (member_text kv))%nat as Hlen.
  { unfold member_text. rewrite !length_app_s. lia. }
  destruct fuel as [|fuel]; [lia|]. destruct l as [|kv' l].
  - change (Join (map member_text [kv]) ",") with (member_text kv) in *.
    rewrite members_step by (done || lia || auto). done.
  - change (Join (map member_text (kv :: kv' :: l)) ",")
      with (member_text kv +:+ String "," (Join (map member_text (kv' :: l)) ",")) in *.
    rewrite length_app_s in Hf. rewrite app_assoc_s. cbn [String.append String.length] in *.
    rewrite members_step by (done || lia || auto).
    change (Ascii.eqb "," ",") with true. cbv iota. rewrite IH by (done || lia).
    by rewrite <- app_assoc.
Qed.

Lemma value_text j : json_ok j -> reads_back j.
Proof.
  revert j. apply (json_nested_ind (fun j => json_ok j -> reads_back j)).
  - intros _ [|fuel] d t _ Hf _; [simpl in Hf; lia|by destruct t].
  - intros [] _ [|fuel] d t _ Hf _; [simpl in Hf; lia|by destruct t|simpl in Hf; lia|by destruct t].
  - intros n Hn [|fuel] d t _ Hf Ht; [pose proof (json_text_length _ Hn); simpl in *; lia|].
    inversion Hn. by apply value_int.
  - intros s _ [|fuel] d t _ Hf _; [simpl in Hf; lia|]. apply value_string.
  - intros l IH Ho fuel d t Hd Hf Ht. inversion Ho as [| | | |? Hl|]; subst.
    assert (Forall reads_back l) as Hr by (rewrite !Forall_forall in *; auto).
    cbn [json_depth] in Hd. destruct d as [|d]; [lia|]. apply le_S_n, depth_foldr in Hd.
    cbn [json_text String.append String.length] in *. rewrite length_app_s in Hf.
    destruct fuel as [|fuel]; [lia|]. rewrite app_assoc_s. cbn [value].
    change (skip_ws (String "[" ?y)) with (String "[" y). cbv beta iota.
    change ("[" =b quote_mark) with false. change ("[" =b lbrace) with false. change ("[" =b "[") with true. cbv iota.
    destruct l as [|j l]; [done|].
    assert (exists c r, Join (map json_text (j :: l)) "," +:+ String "]" t = String c r /\ value_start c = true)
      as (c & r & E & Hc).
    { inversion Hl; subst. destruct l as [|j' l]; [by apply json_text_first|].
      change (Join (map json_text (j :: j' :: l)) ",")
        with (json_text j +:+ String "," (Join (map json_text (j' :: l)) ",")).
      rewrite app_assoc_s. by apply json_text_first. }
    change ("]" +:+ t) with (String "]" t). rewrite E.
    destruct (value_start_spec c r Hc) as [-> ->]. rewrite <- E. rewrite elements_text; [done..|].
    simpl in Hf |- *. lia.
  - intros l IH Ho fuel d t Hd Hf Ht. inversion Ho as [| | | | |? Hl]; subst.
    assert (Forall (fun kv => reads_back kv.2) l) as Hr by (rewrite !Forall_forall in *; auto).
    cbn [json_depth] in Hd. destruct d as [|d]; [lia|].
    apply le_S_n, (depth_foldr (fun kv : string * json => json_depth kv.2)) in Hd.
    cbn [json_text String.append String.length] in *. fold member_text in *.
    change (map (fun kv : string * json => _) l) with (map member_text l) in *. rewrite length_app_s in Hf.
    destruct fuel as [|fuel]; [lia|]. rewrite app_assoc_s. cbn [value].
    change (skip_ws (String "{" ?y)) with (String "{" y). cbv beta iota.
    change ("{" =b quote_mark) with false. change ("{" =b lbrace) with true. cbv iota.
    destruct l as [|kv l]; [done|].
    assert (exists r, Join (map member_text (kv :: l)) "," +:+ String "}" t = String quote_mark r) as (r & E).
    { destruct l; eexists; reflexivity. }
    change ("}" +:+ t) with (String "}" t). rewrite E.
    change (skip_ws (String quote_mark r)) with (String quote_mark r). cbv beta iota.
    change (quote_mark =b rbrace) with false. cbv iota. rewrite <- E.
    change "}"%char with rbrace. rewrite members_text; [done..|]. simpl in Hf |- *. lia.
Qed.

(** A whole text: what was written is read back, whatever white space follows it. *)
Lemma parse_json_text j ws :
  json_ok j -> (json_depth j <= max_depth)%nat -> str_all is_ws ws = true ->
  parse_json (json_text j +:+ ws) = Some (json_read j).
Proof.
  intros Ho Hd Hw. unfold parse_json. rewrite (value_text j Ho); [|done| |].
  - assert (skip_ws ws = "") as ->; [|done]. unfold skip_ws. clear Hd. induction ws as [|c ws IH]; [done|].
    cbn [str_all TrimLeftBytes] in *. apply andb_true_iff in Hw as [-> Hw]. auto.
  - rewrite length_app_s. lia.
  - destruct ws as [|c ws]; [by left|]. right. eexists _, _. split; [done|].
    cbn [str_all] in Hw. apply andb_true_iff in Hw as [Hc _]. unfold delim_byte. by rewrite Hc.
Qed.

(** Slices. *)
Lemma json_ok_slice l : Forall json_ok l -> json_ok (slice l).
Proof. intros H. destruct l; constructor. exact H. Qed.
Lemma map_json_ok {A} (f : A -> json) l : (forall a, json_ok (f a)) -> json_ok (slice (map f l)).
Proof. intros H. apply json_ok_slice. induction l; constructor; auto. Qed.
Lemma json_depth_slice l d :
  (json_depth (slice l) <= d)%nat -> Forall (fun x => (json_depth x <= d)%nat) l.
Proof.
  destruct l as [|j l]; [constructor|]. intros H.
  change (S (foldr (fun x d => Nat.max (json_depth x) d) 0%nat (j :: l)) <= d)%nat in H. apply depth_foldr. lia.
Qed.

(** An object of strings, integers and the like. *)
Definition flat (j : json) : Prop := json_ok j /\ json_depth j = 0%nat.
Lemma flat_str s : flat (JStr s).
Proof. split; [constructor|done]. Qed.
Lemma flat_int z : flat (JInt z).
Proof. split; [constructor|done]. Qed.
Lemma flat_bool b : flat (JBool b).
Proof. split; [constructor|done]. Qed.
#[export] Hint Resolve flat_str flat_int flat_bool : godb.
Lemma Forall_omitempty (P : json -> Prop) key s :
  P (JStr s) -> Forall (fun kv => P kv.2) (omitempty key s).
Proof. unfold omitempty. intros H. case_match; repeat constructor; done. Qed.
#[export] Hint Resolve Forall_omitempty : godb.
Ltac flat_members :=
  repeat first [apply Forall_nil; exact I | apply Forall_cons; split; [cbn [snd]; solve [auto with godb]|]
               | apply Forall_app; split | solve [auto with godb]].

Lemma flat_object l : Forall (fun kv => flat kv.2) l ->
  json_ok (JObj l) /\ (json_depth (JObj l) <= 1)%nat.
Proof.
  intros H. split; [constructor; eapply Forall_impl; [exact H|by intros ? [? _]]|].
  cbn [json_depth]. induction H as [|kv l [_ Hd] Hl IH]; simpl in *; [lia|]. rewrite Hd. simpl. exact IH.
Qed.
Lemma parse_json_object l :
  Forall (fun kv => flat kv.2) l -> parse_json (json_text (JObj l)) = Some (JObj (map member_read l)).
Proof.
  intros H. destruct (flat_object l H) as [Ho Hd]. rewrite <- (app_empty_r (json_text _)).
  rewrite parse_json_text; [done|done| |done]. etrans; [exact Hd|]. by apply Nat.leb_le.
Qed.

(** Storing a member of a known name. *)
Lemma store_member {A} (fs : list field) (a a' : A) b ok k v f :
  sanitize k = k -> find_field fs k = Some f -> f (json_read v) a = (a', ok) ->
  store fs (a, b) (member_read (k, v)) = (a', (b && ok)%bool).
Proof. intros H0 H1 H2. unfold store, member_read. cbn [fst snd]. by rewrite H0, H1, H2. Qed.

Lemma set_string_text s cur : valid_utf8 s -> set_string (json_read (JStr s)) cur = (s, true).
Proof. intros H. simpl. by rewrite H. Qed.
Lemma set_int_text w z cur :
  - 2 ^ (w - 1) <= z < 2 ^ (w - 1) -> set_int w (json_read (JInt z)) cur = (z, true).
Proof. intros H. simpl. by rewrite ParseInt_Itoa. Qed.
Lemma set_uint_text w z cur : 0 <= z < 2 ^ w -> set_uint w (json_read (JInt z)) cur = (z, true).
Proof. intros H. simpl. by rewrite ParseUint_Itoa. Qed.

Lemma set_bool_text b cur : set_bool (json_read (JBool b)) cur = (b, true).
Proof. done. Qed.
Lemma set_struct_text {A} (fs : list (field (A := A))) l cur :
  set_struct fs (json_read (JObj l)) cur = fold_left (store fs) (map member_read l) (cur, true).
Proof. done. Qed.
Lemma set_elements_text {A} (set : json -> A -> A * bool) zero (enc : A -> json) l :
  Forall (fun a => set (json_read (enc a)) zero = (a, true)) l ->
  set_elements set zero (map json_read (map enc l)) [] = (l, true).
Proof.
  induction 1 as [|b l Hb H IH]; [done|]. cbn [map set_elements tail]. rewrite Hb.
  etrans; [apply (f_equal (fun p => let '(more, ok) := p in (b :: more, true && ok)%bool) IH)|done].
Qed.

Lemma set_list_slice {A} (set : json -> A -> A * bool) zero (enc : A -> json) l :
  Forall (fun a => set (json_read (enc a)) zero = (a, true)) l ->
  set_list set zero (json_read (slice (map enc l))) [] = (l, true).
Proof. intros H. destruct l as [|a l]; [done|]. exact (set_elements_text set zero enc (a :: l) H). Qed.

(** [store_all] runs a decoding of members of known names, the values of which are in range. *)
Ltac store_all :=
  cbn [app map fold_left];
  repeat (erewrite store_member;
    [ | vm_compute; reflexivity | reflexivity
      | cbn [snd]; unfold on;
        first [ rewrite set_string_text by assumption | rewrite set_int_text by assumption
              | rewrite set_uint_text by assumption | rewrite set_bool_text ];
        cbn; reflexivity ]).

(** [store_as H] stores the next member, the value of which [H] reads. *)
Lemma on_text {A B} (get : A -> B) put set j (a : A) b ok :
  set j (get a) = (b, ok) -> on get put set j a = (put b a, ok).
Proof. unfold on. by intros ->. Qed.
Ltac store_as H :=
  erewrite store_member;
    [ | vm_compute; reflexivity | reflexivity
      | cbn [snd]; etrans; [eapply on_text; exact H|cbn; reflexivity] ].
Lemma set_time_text parse_time s t cur :
  valid_utf8 s -> parse_time s = Some t -> set_time parse_time (json_read (JStr s)) cur = (t, true).
Proof. intros H Ht. cbn. unfold valid_utf8 in H. by rewrite H, Ht. Qed.
