(* ===== verification/VolumeID.v ===== *)
(** * Volume identifiers ([pkg/iscsi/volumeid.go])

    The URI form of a CSI volume id: [EncodeVolumeID] prints it, [DecodeVolumeID]
    parses and validates it. *)
From S2P Require Import Prelude GoStrings GoStrconv GoNet GoUrl.

Abbreviation Protocol := string.
Definition ProtocolISCSI : Protocol := "iscsi".
Definition ProtocolNFS : Protocol := "nfs".
Definition ProtocolSMB : Protocol := "smb".

Record VolumeID := {
  Name : string;
  vProtocol : Protocol;
  ShareBackend : string;
  SharePath : string;
  TargetPortal : string;
  TargetName : string;
  TargetIQN : string;
  LUN : Z;
  VHDXPath : string;
  NfsServer : string;
  NfsExportPath : string;
  NfsAuthentication : string;
  NfsMountAuthentication : string;
  SmbServer : string;
  SmbShareName : string;
  CapacityBytes : Z;
  nameSpecified : bool;
  lunSpecified : bool
}.

#[export] Instance VolumeID_eq_dec : EqDecision VolumeID.
Proof. solve_decision. Defined.

(** ** Paths and hosts *)

(** A path segment, percent-decoded when it can be. *)
Definition unescape_segment (segment : string) : string :=
  match PathUnescape segment with Some decoded => decoded | None => segment end.

Definition pathSegments (path : string) : list string :=
  let raw := SplitByte (Trim path "/") "/" in
  map unescape_segment (filter (fun s => s <> "") raw).

Definition splitPath (path : string) : list string := pathSegments path.

Definition defaultPort (host port : string) : string :=
  if host == "" then ""
  else if ContainsByte host ":" then host
  else JoinHostPort host port.

Definition hostOnly (host : string) : string :=
  match SplitHostPort host with Some (h, _) => h | None => host end.

(** ** Encoding *)

Definition shouldEncodeLUN (v : VolumeID) : bool :=
  if negb (LUN v =? 0) then true
  else ((VHDXPath v != "") || negb (CapacityBytes v =? 0))%bool.

(** The escaped segments that [buildURI] keeps. *)
Definition uri_segments (segments : list string) : list string :=
  map PathEscape (filter (fun s => s <> "") (map TrimSpace segments)).

Definition buildURI (protocol : Protocol) (host : string) (segments : list string) (q : Values)
  : string :=
  let escaped := uri_segments segments in
  let uri := protocol +:+ "://" +:+ host in
  let uri := match escaped with [] => uri | _ => uri +:+ "/" +:+ Join escaped "/" end in
  let encoded := Values_Encode q in
  if encoded != "" then uri +:+ "?" +:+ encoded else uri.

(** [if v != "" { q.Set(k, v) }] *)
Definition set_nonempty (k v : string) (q : Values) : Values :=
  if v != "" then Values_Set k v q else q.

(** The parameters common to the three protocols. *)
Definition common_query (v : VolumeID) : Values :=
  let q := Values_Set "name" (Name v) ∅ in
  let q := if negb (CapacityBytes v =? 0)
           then Values_Set "capacityBytes" (Itoa (CapacityBytes v)) q else q in
  let q := set_nonempty "vhdxPath" (VHDXPath v) q in
  let q := set_nonempty "shareBackend" (ShareBackend v) q in
  let q := set_nonempty "sharePath" (SharePath v) q in
  set_nonempty "targetName" (TargetName v) q.

Definition EncodeVolumeID (vp : option VolumeID) : string :=
  match vp with
  | None => ""
  | Some v =>
      let q := common_query v in
      if vProtocol v == ProtocolISCSI then
        let host := TrimSpace (TargetPortal v) in
        let segments := [TrimSpace (TargetIQN v)] in
        let segments := if shouldEncodeLUN v then segments ++ ["lun"; Itoa (LUN v)]
                        else segments in
        buildURI ProtocolISCSI host segments q
      else if vProtocol v == ProtocolNFS then
        let host := TrimSpace (TargetPortal v) in
        let '(host, q) := if host == "" then (TrimSpace (NfsServer v), q)
                          else (host, Values_Set "targetPortal" (TargetPortal v) q) in
        let q := set_nonempty "nfsServer" (NfsServer v) q in
        let q := set_nonempty "nfsAuthentication" (NfsAuthentication v) q in
        let q := set_nonempty "nfsMountAuthentication" (NfsMountAuthentication v) q in
        buildURI ProtocolNFS host (splitPath (NfsExportPath v)) q
      else if vProtocol v == ProtocolSMB then
        let q := set_nonempty "smbServer" (SmbServer v) q in
        buildURI ProtocolSMB (TrimSpace (SmbServer v)) [TrimSpace (SmbShareName v)] q
      else buildURI (vProtocol v) "" [] q
  end.

(** ** Decoding *)

Definition NUL : ascii := ascii_of_N 0.

Definition ParseProtocolFromVolumeID (id : string) : res Protocol :=
  if TrimSpace id == "" then Err (PlainErr "missing scheme")
  else if ContainsByte id NUL then Err (PlainErr "invalid volume ID")
  else match Index id "://" with
  | None => Err (PlainErr "invalid scheme")
  | Some sep =>
      if Nat.eqb sep 0 then Err (PlainErr "missing scheme")
      else if Nat.leb (String.length id) (sep + 3) then Err (PlainErr "invalid volume ID")
      else if HasPrefix (str_drop (sep + 3) id) "/" then Ok ""
      else let proto := str_take sep id in
           if ((proto == ProtocolISCSI) || (proto == ProtocolNFS) || (proto == ProtocolSMB))%bool
           then Ok proto
           else Err (PlainErr "unknown protocol: %s")
  end.

Definition Validate (v : VolumeID) : res unit :=
  if (nameSpecified v && (TrimSpace (Name v) == ""))%bool then Err (PlainErr "name is required")
  else if (CapacityBytes v <? 0)%Z then Err (PlainErr "capacityBytes must be non-negative")
  else if vProtocol v == ProtocolISCSI then
    if TrimSpace (TargetPortal v) == "" then Err (PlainErr "targetPortal is required")
    else if TrimSpace (TargetIQN v) == "" then Err (PlainErr "targetIQN is required")
    else if negb (lunSpecified v) then Err (PlainErr "LUN is required")
    else Ok tt
  else if vProtocol v == ProtocolNFS then
    if TrimSpace (NfsServer v) == "" then Err (PlainErr "nfsServer is required")
    else if ((TrimSpace (NfsExportPath v) == "") || (TrimSpace (NfsExportPath v) == "/"))%bool
    then Err (PlainErr "nfsExportPath is required")
    else Ok tt
  else if vProtocol v == ProtocolSMB then
    if TrimSpace (SmbServer v) == "" then Err (PlainErr "smbServer is required")
    else if TrimSpace (SmbShareName v) == "" then Err (PlainErr "smbShareName is required")
    else Ok tt
  else Err (PlainErr "unknown protocol: %s").

(** The number after the first [lun] segment, [parts] being those after the IQN. *)
Fixpoint find_lun (parts : list string) : res (option Z) :=
  match parts with
  | p :: ((x :: _) as rest) =>
      if p == "lun" then
        match Atoi x with
        | Some lun => Ok (Some lun)
        | None => Err (PlainErr "invalid LUN: %w")
        end
      else find_lun rest
  | _ => Ok None
  end.

(** The [capacityBytes] parameter. *)
Definition decode_capacity (q : Values) : res Z :=
  let capRaw := TrimSpace (Values_Get "capacityBytes" q) in
  if capRaw != "" then
    match ParseInt 64 capRaw with
    | None => Err (PlainErr "invalid capacityBytes: %w")
    | Some capacity =>
        if (capacity <? 0)%Z then Err (PlainErr "capacityBytes must be non-negative")
        else Ok capacity
    end
  else Ok 0.

(** The fields every protocol has. *)
Definition decode_common (proto : Protocol) (q : Values) (capacity : Z) : VolumeID :=
  {| Name := match q !! "name" with Some _ => Values_Get "name" q | None => "" end;
     vProtocol := proto;
     ShareBackend := Values_Get "shareBackend" q;
     SharePath := Values_Get "sharePath" q;
     TargetPortal := ""; TargetName := Values_Get "targetName" q; TargetIQN := "";
     LUN := 0; VHDXPath := Values_Get "vhdxPath" q;
     NfsServer := ""; NfsExportPath := ""; NfsAuthentication := ""; NfsMountAuthentication := "";
     SmbServer := ""; SmbShareName := "";
     CapacityBytes := capacity;
     nameSpecified := bool_decide (is_Some (q !! "name"));
     lunSpecified := false |}.

(** [iscsi://host:port/iqn/lun/n?...] *)
Definition decode_iscsi (u : URL) (v : VolumeID) : res VolumeID :=
  let parts := pathSegments (Path u) in
  lun ← find_lun (tail parts);
  Ok {| Name := Name v; vProtocol := vProtocol v; ShareBackend := ShareBackend v;
        SharePath := SharePath v;
        TargetPortal := defaultPort (Host u) "3260";
        TargetName := TargetName v;
        TargetIQN := match parts with p :: _ => p | [] => "" end;
        LUN := match lun with Some n => n | None => 0 end;
        VHDXPath := VHDXPath v;
        NfsServer := ""; NfsExportPath := ""; NfsAuthentication := "";
        NfsMountAuthentication := ""; SmbServer := ""; SmbShareName := "";
        CapacityBytes := CapacityBytes v; nameSpecified := nameSpecified v;
        lunSpecified := match lun with Some _ => true | None => false end |}.

(** [nfs://server/export/path?...] *)
Definition decode_nfs (u : URL) (q : Values) (v : VolumeID) : VolumeID :=
  let server := Values_Get "nfsServer" q in
  {| Name := Name v; vProtocol := vProtocol v; ShareBackend := ShareBackend v;
     SharePath := SharePath v;
     TargetPortal := Values_Get "targetPortal" q;
     TargetName := TargetName v; TargetIQN := ""; LUN := 0; VHDXPath := VHDXPath v;
     NfsServer := if server == "" then hostOnly (Host u) else server;
     NfsExportPath := Path u;
     NfsAuthentication := Values_Get "nfsAuthentication" q;
     NfsMountAuthentication := Values_Get "nfsMountAuthentication" q;
     SmbServer := ""; SmbShareName := "";
     CapacityBytes := CapacityBytes v; nameSpecified := nameSpecified v; lunSpecified := false |}.

(** [smb://server/share?...] *)
Definition decode_smb (u : URL) (q : Values) (v : VolumeID) : VolumeID :=
  let server := Values_Get "smbServer" q in
  {| Name := Name v; vProtocol := vProtocol v; ShareBackend := ShareBackend v;
     SharePath := SharePath v; TargetPortal := ""; TargetName := TargetName v;
     TargetIQN := ""; LUN := 0; VHDXPath := VHDXPath v;
     NfsServer := ""; NfsExportPath := ""; NfsAuthentication := ""; NfsMountAuthentication := "";
     SmbServer := if server == "" then hostOnly (Host u) else server;
     SmbShareName := match pathSegments (Path u) with p :: _ => p | [] => "" end;
     CapacityBytes := CapacityBytes v; nameSpecified := nameSpecified v; lunSpecified := false |}.

Definition decode_fields (proto : Protocol) (u : URL) : res VolumeID :=
  let q := URL_Query u in
  capacity ← decode_capacity q;
  let out := decode_common proto q capacity in
  if proto == ProtocolISCSI then decode_iscsi u out
  else if proto == ProtocolNFS then Ok (decode_nfs u q out)
  else if proto == ProtocolSMB then Ok (decode_smb u q out)
  else Ok out.

Definition DecodeVolumeID (id : string) : res VolumeID :=
  if TrimSpace id == "" then Err (PlainErr "empty volume ID")
  else if ContainsByte id NUL then Err (PlainErr "invalid volume ID")
  else
    proto0 ← ParseProtocolFromVolumeID id;
    let proto := if proto0 == ""
                 then match Index id "://" with Some sep => str_take sep id | None => "" end
                 else proto0 in
    match Parse id with
    | None => Err (PlainErr "invalid volume ID: %w")
    | Some u =>
        out ← decode_fields proto u;
        _ ← Validate out;
        Ok out
    end.

Definition ValidateVolumeID (id : string) : res unit :=
  if TrimSpace id == "" then Err (PlainErr "empty volume ID")
  else if ContainsByte id NUL then Err (PlainErr "invalid volume ID")
  else _ ← DecodeVolumeID id; Ok tt.
