(* ===== verification/VolumeIDFacts.v ===== *)
(** * Volume identifiers: the lemmas the round trips share. *)
From S2P Require Import Prelude GoStrings GoStrconv GoNet GoUrl GoStringsFacts GoUrlFacts GoUrlParse.
From S2P Require Import VolumeID.

(** ** Queries of single values *)

Definition singles (n : nat) (q : Values) : Prop :=
  map_Forall (fun _ vs => exists v, vs = [v]) q /\ (size q <= n)%nat.

Lemma singles_empty : singles 0 ∅.
Proof. split; [apply map_Forall_empty|by rewrite map_size_empty]. Qed.
Lemma singles_Set n k v q : singles n q -> singles (S n) (Values_Set k v q).
Proof.
  intros [H1 H2]. split.
  - apply map_Forall_insert_2; [by eexists|done].
  - unfold Values_Set. rewrite map_size_insert. case_match; cbv [id]; lia.
Qed.
Lemma singles_set_nonempty n k v q : singles n q -> singles (S n) (set_nonempty k v q).
Proof.
  intros H. unfold set_nonempty. destruct (v == ""); cbn [negb]; [|by apply singles_Set].
  destruct H; split; [done|lia].
Qed.
Lemma singles_small n q : singles n q -> Z.of_nat n <= 10000 -> small_values q.
Proof.
  intros [H1 H2] Hn. split.
  - eapply map_Forall_impl; [exact H1|]. by intros k vs [v ->].
  - assert (length (query_pairs (sorted_values q)) = size q) as ->; [|lia].
    assert (sorted_values q ≡ₚ map_to_list q) as Hp by apply merge_sort_Permutation.
    transitivity (length (sorted_values q)); [|by rewrite Hp, length_map_to_list].
    assert (Forall (fun kvs => exists v, kvs.2 = [v]) (sorted_values q)) as HF.
    { rewrite Hp. apply Forall_forall. intros [k vs] Hin. apply elem_of_map_to_list in Hin. exact (H1 _ _ Hin). }
    clear -HF. induction HF as [|[k vs] l [v Hv] Hl IH]; [done|]. simpl in Hv. subst vs.
    change (query_pairs ((k, [v]) :: l)) with ((k, v) :: query_pairs l). simpl. by rewrite IH.
Qed.

Lemma lookup_set_nonempty_ne k k' v q : k <> k' -> set_nonempty k v q !! k' = q !! k'.
Proof.
  intros H. unfold set_nonempty. destruct (_ == _); cbn [negb]; [done|]. by apply lookup_insert_ne.
Qed.
Lemma Get_set_nonempty k v q : q !! k = None -> Values_Get k (set_nonempty k v q) = v.
Proof.
  intros H. unfold set_nonempty, Values_Get. destruct (String.eqb_spec v "") as [->|]; cbn [negb].
  - by rewrite H.
  - unfold Values_Set. by rewrite lookup_insert_eq.
Qed.
Lemma Get_ext k q q' : q !! k = q' !! k -> Values_Get k q = Values_Get k q'.
Proof. unfold Values_Get. by intros ->. Qed.
Lemma lookup_Set_ne k k' v q : k <> k' -> Values_Set k v q !! k' = q !! k'.
Proof. apply lookup_insert_ne. Qed.
Lemma Get_Set k v q : Values_Get k (Values_Set k v q) = v.
Proof. unfold Values_Get, Values_Set. by rewrite lookup_insert_eq. Qed.

Lemma Get_through k x q q0 :
  q !! k = set_nonempty k x q0 !! k -> q0 !! k = None -> Values_Get k q = x.
Proof. intros H1 H2. rewrite <- (Get_set_nonempty k x q0 H2). by apply Get_ext. Qed.

(** [query_lookup] evaluates a lookup through parameters set under other keys. *)
Ltac query_lookup :=
  repeat first
    [ rewrite lookup_set_nonempty_ne by done
    | rewrite lookup_Set_ne by done ].

(** ** The common parameters *)

Section common.
Context (v : VolumeID).

Lemma singles_common : singles 6 (common_query v).
Proof.
  unfold common_query. do 4 apply singles_set_nonempty.
  destruct (CapacityBytes v =? 0); cbn [negb].
  - destruct (singles_Set _ "name" (Name v) _ singles_empty). split; [done|lia].
  - do 2 apply singles_Set. apply singles_empty.
Qed.

Lemma common_absent k :
  k ∉ ["name"; "capacityBytes"; "vhdxPath"; "shareBackend"; "sharePath"; "targetName"] ->
  common_query v !! k = None.
Proof.
  intros H. rewrite !not_elem_of_cons in H. destruct H as (? & ? & ? & ? & ? & ? & _).
  unfold common_query. query_lookup.
  destruct (CapacityBytes v =? 0); cbn [negb]; query_lookup; apply lookup_empty.
Qed.

Lemma common_name : common_query v !! "name" = Some [Name v].
Proof.
  unfold common_query. query_lookup.
  destruct (CapacityBytes v =? 0); cbn [negb]; query_lookup; apply lookup_insert_eq.
Qed.
Lemma common_capacity :
  Values_Get "capacityBytes" (common_query v)
  = if CapacityBytes v =? 0 then "" else Itoa (CapacityBytes v).
Proof.
  unfold common_query. rewrite !(Get_ext "capacityBytes" (set_nonempty _ _ _) _)
    by (by apply lookup_set_nonempty_ne).
  destruct (CapacityBytes v =? 0); cbn [negb]; [|apply Get_Set].
  unfold Values_Get. query_lookup. by rewrite lookup_empty.
Qed.
End common.

(** ** Reading the common parameters back *)

Definition common_keys : list string :=
  ["name"; "capacityBytes"; "vhdxPath"; "shareBackend"; "sharePath"; "targetName"].

(** A query with the common parameters of [v]. *)
Definition common_like (v : VolumeID) (q : Values) : Prop :=
  forall k, k ∈ common_keys -> q !! k = common_query v !! k.

Lemma common_like_refl v : common_like v (common_query v).
Proof. by intros k. Qed.
Lemma common_like_nonempty v k x q :
  k ∉ common_keys -> common_like v q -> common_like v (set_nonempty k x q).
Proof. intros Hk H k' Hk'. rewrite lookup_set_nonempty_ne; [by apply H|]. by intros ->. Qed.
Lemma common_like_Set v k x q :
  k ∉ common_keys -> common_like v q -> common_like v (Values_Set k x q).
Proof. intros Hk H k' Hk'. rewrite lookup_Set_ne; [by apply H|]. by intros ->. Qed.

Lemma common_get v k x q1 q2 :
  common_query v !! k = set_nonempty k x q1 !! k -> q1 !! k = None ->
  q2 !! k = common_query v !! k -> Values_Get k q2 = x.
Proof.
  intros H1 H2 H3. rewrite <- (Get_set_nonempty k x q1 H2). apply Get_ext. congruence.
Qed.

Ltac absent :=
  query_lookup; try (destruct (_ =? 0); cbn [negb]; query_lookup); apply lookup_empty.

Section common_like.
Context (v : VolumeID) (q : Values).
Hypothesis like : common_like v q.

Lemma like_vhdx : Values_Get "vhdxPath" q = VHDXPath v.
Proof.
  eapply common_get; [unfold common_query; query_lookup; reflexivity|absent|apply like; set_solver].
Qed.
Lemma like_backend : Values_Get "shareBackend" q = ShareBackend v.
Proof.
  eapply common_get; [unfold common_query; query_lookup; reflexivity|absent|apply like; set_solver].
Qed.
Lemma like_share : Values_Get "sharePath" q = SharePath v.
Proof.
  eapply common_get; [unfold common_query; query_lookup; reflexivity|absent|apply like; set_solver].
Qed.
Lemma like_target : Values_Get "targetName" q = TargetName v.
Proof.
  eapply common_get; [unfold common_query; query_lookup; reflexivity|absent|apply like; set_solver].
Qed.
Lemma like_name : q !! "name" = Some [Name v].
Proof. rewrite like by set_solver. apply common_name. Qed.

(** The fields shared by the protocols, those of the others empty. *)
Definition common_part (proto : Protocol) : VolumeID :=
  {| Name := Name v; vProtocol := proto; ShareBackend := ShareBackend v;
     SharePath := SharePath v; TargetPortal := ""; TargetName := TargetName v;
     TargetIQN := ""; LUN := 0; VHDXPath := VHDXPath v; NfsServer := "";
     NfsExportPath := ""; NfsAuthentication := ""; NfsMountAuthentication := "";
     SmbServer := ""; SmbShareName := ""; CapacityBytes := CapacityBytes v;
     nameSpecified := true; lunSpecified := false |}.

Lemma decode_common_like proto : decode_common proto q (CapacityBytes v) = common_part proto.
Proof.
  unfold decode_common, common_part.
  rewrite like_vhdx, like_backend, like_share, like_target.
  unfold Values_Get. rewrite like_name. f_equal.
Qed.
End common_like.

(** ** Texts TrimSpace leaves alone *)

Lemma strip_last_visible c s : visible c = true -> strip_last_space (String c s) = None.
Proof.
  intros H. unfold strip_last_space, DecodeLastRune. rewrite visible_starts by done.
  unfold decode_exact. by rewrite DecodeRune_visible, visible_not_space.
Qed.
Lemma TrimSpace_id s : str_all visible s = true -> TrimSpace s = s.
Proof.
  intros H. unfold TrimSpace. assert (TrimLeftSpace s = s) as ->.
  { unfold TrimLeftSpace. destruct s as [|c s]; [done|]. cbn [str_all] in H.
    apply andb_true_iff in H as [Hc _]. simpl. unfold strip_space.
    by rewrite DecodeRune_visible, visible_not_space. }
  unfold TrimRightSpace. rewrite <- (str_rev_involutive s) at 3. f_equal.
  rewrite <- str_all_rev in H. destruct (str_rev s) as [|c t]; [by destruct s|].
  cbn [str_all] in H. apply andb_true_iff in H as [Hc _].
  destruct (String.length s); simpl; [done|]. by rewrite strip_last_visible.
Qed.
Lemma TrimSpace_Itoa z : TrimSpace (Itoa z) = Itoa z.
Proof. apply TrimSpace_id, Itoa_all; [done|]. apply bytes_impl. by_bytes. Qed.

Lemma decode_capacity_like v q :
  common_like v q -> 0 <= CapacityBytes v < 2 ^ 63 -> decode_capacity q = Ok (CapacityBytes v).
Proof.
  intros H Hc. unfold decode_capacity.
  rewrite (Get_ext _ q (common_query v)) by (apply H; set_solver). rewrite common_capacity.
  destruct (Z.eqb_spec (CapacityBytes v) 0) as [->|Hne]; [done|].
  rewrite TrimSpace_Itoa.
  destruct (String.eqb_spec (Itoa (CapacityBytes v)) "") as [E|_];
    [by destruct (Itoa_nonempty (CapacityBytes v))|].
  cbn [negb]. rewrite ParseInt_Itoa by lia.
  destruct (Z.ltb_spec (CapacityBytes v) 0); [lia|done].
Qed.

(** ** A built URI is parsed back to its parts *)

Definition uri_path (l : list string) : string :=
  match l with [] => "" | _ => "/" +:+ Join l "/" end.

Lemma buildURI_eq proto host segments q :
  buildURI proto host segments q
  = with_query (proto +:+ "://" +:+ (host +:+ uri_path (uri_segments segments))) (Values_Encode q).
Proof.
  unfold buildURI, with_query, uri_path. destruct (uri_segments segments).
  - by rewrite app_empty_r.
  - by rewrite !app_assoc_s.
Qed.

(** The segments that reach the path, and the path they make. *)
Definition kept_segments (segments : list string) : list string :=
  filter (fun s => s <> "") (map TrimSpace segments).

Lemma uri_path_rooted l : uri_path l = "" \/ exists t, uri_path l = String "/" t.
Proof. destruct l; [by left|right; by eexists]. Qed.
Lemma uri_path_bytes l : str_all path_byte (uri_path (map PathEscape l)) = true.
Proof.
  destruct l as [|s l]; [done|].
  change (uri_path (map PathEscape (s :: l))) with ("/" +:+ Join (map PathEscape (s :: l)) "/").
  by rewrite str_all_app, PathEscape_Join_bytes.
Qed.
Lemma uri_path_value l : unescape encodePath (uri_path (map PathEscape l)) = Some (uri_path l).
Proof.
  destruct l as [|s l]; [done|].
  change (uri_path (map PathEscape (s :: l))) with (String "/" (Join (map PathEscape (s :: l)) "/")).
  assert (forall r, unescape encodePath (String "/" r)
                    = option_map (String "/") (unescape encodePath r)) as -> by done.
  by rewrite unescape_path_Join.
Qed.

Lemma DecodeVolumeID_buildURI proto host segments q :
  known_scheme proto -> uri_host host ->
  DecodeVolumeID (buildURI proto host segments q) =
  out ← decode_fields proto
          {| Scheme := proto; Opaque := ""; Host := host;
             Path := uri_path (kept_segments segments); RawQuery := Values_Encode q |};
  _ ← Validate out; Ok out.
Proof.
  intros Hp Hh. rewrite buildURI_eq. unfold uri_segments. fold (kept_segments segments).
  set (path := uri_path (map PathEscape (kept_segments segments))).
  pose proof (uri_path_rooted (map PathEscape (kept_segments segments))) as Hr.
  pose proof (uri_path_bytes (kept_segments segments)) as Hb.
  pose proof (uri_path_value (kept_segments segments)) as Hv. fold path in Hr, Hb, Hv.
  pose proof (Values_Encode_bytes q) as Hqb.
  set (uri := with_query _ _).
  pose proof (uri_nonblank proto host path (Values_Encode q) Hp) as Hnb.
  pose proof (uri_free proto host path (Values_Encode q) Hp Hh Hb Hqb NUL eq_refl) as Hnul.
  pose proof (Index_uri proto host path (Values_Encode q) Hp) as Hix.
  destruct (uri_after_scheme proto host path (Values_Encode q) Hp Hh) as (Hd & Ht & Hl).
  pose proof (Parse_uri proto host path (Values_Encode q) (uri_path (kept_segments segments))
                Hp Hh Hr Hb Hv Hqb) as HP.
  fold uri in Hnb, Hnul, Hix, Hd, Ht, Hl, HP. apply ContainsByte_false in Hnul.
  unfold DecodeVolumeID, ParseProtocolFromVolumeID. apply String.eqb_neq in Hnb.
  rewrite Hnb, Hnul, Hix, Hd, Ht, HP.
  assert (Nat.eqb (String.length proto) 0 = false) as ->
    by (by destruct Hp as [-> | [-> | ->]]).
  apply Nat.leb_gt in Hl. rewrite Hl.
  assert (HasPrefix (with_query (host +:+ path) (Values_Encode q)) "/" = false) as ->.
  { destruct (host_cons host Hh) as (c & t & -> & Hc). unfold with_query.
    destruct (Values_Encode q == ""); cbn [negb String.append HasPrefix]; by rewrite Ascii.eqb_sym, Hc. }
  by destruct Hp as [-> | [-> | ->]].
Qed.

(** ** The segments of a path come back *)

(** A segment that survives: it has no slash, is not empty, and is not percent-decoded
    a second time ([url.Parse] has decoded the path already). *)
Definition stable_segment (s : string) : Prop := plain_segment s /\ unescape_segment s = s.
#[export] Instance stable_segment_dec s : Decision (stable_segment s).
Proof. unfold stable_segment, plain_segment. apply _. Defined.

Lemma pathSegments_uri_path l : Forall stable_segment l -> pathSegments (uri_path l) = l.
Proof.
  intros H. destruct l as [|s l]; [done|].
  change (uri_path (s :: l)) with ("/" +:+ Join (s :: l) "/"). unfold pathSegments.
  rewrite split_slash_path; [|by eapply Forall_impl; [exact H|intros ? []]|done].
  induction H as [|x l' [_ Hx] Hl IH]; [done|]. simpl. by rewrite Hx, IH.
Qed.

Lemma Itoa_stable z : stable_segment (Itoa z).
Proof.
  split; [split|].
  - apply Itoa_nonempty.
  - apply Itoa_all; [done|]. apply bytes_impl. by_bytes.
  - unfold unescape_segment, PathUnescape.
    assert (forall s, str_all (free "%"%char) s = true -> unescape encodePathSegment s = Some s) as H.
    { induction s as [|c s IH]; [done|]. cbn [str_all]. intros [H1 H2]%andb_true_iff.
      apply negb_true_iff in H1. cbn [unescape]. rewrite H1, IH by done.
      cbn [encoding_eqb is_host_mode andb option_map]. destruct (c =b "+") eqn:E; [|done].
      by apply Ascii.eqb_eq in E as ->. }
    rewrite H; [done|]. apply Itoa_all; [done|]. apply bytes_impl. by_bytes.
Qed.
