(* ===== verification/VolumeIDRoundTrip.v ===== *)
(** * Volume identifiers: what [EncodeVolumeID] writes, [DecodeVolumeID] reads. *)
From S2P Require Import Prelude GoStrings GoStrconv GoNet GoUrl GoStringsFacts GoUrlFacts GoUrlParse.
From S2P Require Import VolumeID VolumeIDFacts.

Module Iscsi.

(** What decoding adds: the default port and the two presence flags; the
    fields of the other protocols are not written. *)
Definition canonical (v : VolumeID) : VolumeID :=
  {| Name := Name v; vProtocol := ProtocolISCSI; ShareBackend := ShareBackend v;
     SharePath := SharePath v; TargetPortal := defaultPort (TargetPortal v) "3260";
     TargetName := TargetName v; TargetIQN := TargetIQN v; LUN := LUN v;
     VHDXPath := VHDXPath v; NfsServer := ""; NfsExportPath := ""; NfsAuthentication := "";
     NfsMountAuthentication := ""; SmbServer := ""; SmbShareName := "";
     CapacityBytes := CapacityBytes v; nameSpecified := true; lunSpecified := true |}.

(** The ids the driver makes: a LUN is written, the portal is a host that
    [url.Parse] keeps, the IQN is one stable path segment. *)
Definition encodable (v : VolumeID) : Prop :=
  vProtocol v = ProtocolISCSI
  /\ uri_host (TargetPortal v) /\ TrimSpace (TargetPortal v) = TargetPortal v
  /\ stable_segment (TargetIQN v) /\ TrimSpace (TargetIQN v) = TargetIQN v
  /\ shouldEncodeLUN v = true
  /\ - 2 ^ 63 <= LUN v < 2 ^ 63 /\ 0 <= CapacityBytes v < 2 ^ 63
  /\ Validate (canonical v) = Ok tt.

#[export] Instance iscsi_encodable_dec v : Decision (encodable v).
Proof. unfold encodable. apply _. Defined.

Lemma iscsi_decode_fields v :
  encodable v ->
  decode_fields ProtocolISCSI
    {| Scheme := ProtocolISCSI; Opaque := ""; Host := TargetPortal v;
       Path := uri_path [TargetIQN v; "lun"; Itoa (LUN v)];
       RawQuery := Values_Encode (common_query v) |} = Ok (canonical v).
Proof.
  intros (_ & _ & _ & Hs & _ & _ & Hl & Hc & _). unfold decode_fields, URL_Query. cbn [RawQuery].
  rewrite ParseQuery_Encode by (eapply singles_small; [apply singles_common|lia]).
  rewrite (decode_capacity_like v) by (done || apply common_like_refl). cbn [mbind res_bind].
  rewrite decode_common_like by apply common_like_refl.
  change (ProtocolISCSI == ProtocolISCSI) with true. cbn iota.
  unfold decode_iscsi. cbn [Path Host].
  rewrite pathSegments_uri_path; cycle 1.
  { repeat constructor; try apply Hs; try apply Itoa_stable; try discriminate. }
  cbn [tail find_lun]. change ("lun" == "lun") with true. cbn iota. by rewrite Atoi_Itoa.
Qed.

(** C16: an iSCSI volume id is decoded to the volume it was made from. *)
Theorem iscsi_decode_encode (v : VolumeID) :
  encodable v -> DecodeVolumeID (EncodeVolumeID (Some v)) = Ok (canonical v).
Proof.
  intros H. pose proof H as (Hp & Hh & Ht & Hs & Hq & He & _ & _ & Hv).
  unfold EncodeVolumeID. rewrite Hp, Ht, Hq, He. cbn [app].
  change (ProtocolISCSI == ProtocolISCSI) with true. cbn iota.
  rewrite DecodeVolumeID_buildURI by (done || by left).
  assert (kept_segments [TargetIQN v; "lun"; Itoa (LUN v)]
          = [TargetIQN v; "lun"; Itoa (LUN v)]) as ->.
  { unfold kept_segments. cbn [map]. rewrite Hq, TrimSpace_Itoa.
    rewrite filter_all; [done|]. repeat constructor; try apply Hs; try apply Itoa_nonempty. done. }
  rewrite iscsi_decode_fields by done. cbn [mbind res_bind]. by rewrite Hv.
Qed.

Definition example_id : VolumeID :=
  {| Name := "pvc 1&2"; vProtocol := ProtocolISCSI; ShareBackend := ""; SharePath := "";
     TargetPortal := "10.0.0.5"; TargetName := "tgt=a"; TargetIQN := "iqn.1991-05.com.microsoft:t 1";
     LUN := 3; VHDXPath := "D:\vols\pvc;1.vhdx"; NfsServer := ""; NfsExportPath := "";
     NfsAuthentication := ""; NfsMountAuthentication := ""; SmbServer := ""; SmbShareName := "";
     CapacityBytes := 10737418240; nameSpecified := true; lunSpecified := true |}.

Lemma iscsi_decode_encode_witness :
  encodable example_id
  /\ DecodeVolumeID (EncodeVolumeID (Some example_id)) = Ok (canonical example_id).
Proof.
  assert (encodable example_id) as H by by_decide.
  exact (conj H (iscsi_decode_encode example_id H)).
Defined.

(** A segment is percent-decoded twice: [url.Parse] decodes the path and
    [pathSegments] decodes each segment again, so a name that holds an escape
    sequence comes back changed. *)
Example double_decoding :
  exists v, vProtocol v = ProtocolISCSI /\ Validate v = Ok tt /\ TargetIQN v = "iqn.a%41"
  /\ exists w, DecodeVolumeID (EncodeVolumeID (Some v)) = Ok w /\ TargetIQN w = "iqn.aA".
Proof.
  exists {| Name := "n"; vProtocol := ProtocolISCSI; ShareBackend := ""; SharePath := "";
     TargetPortal := "h:1"; TargetName := "t"; TargetIQN := "iqn.a%41";
     LUN := 3; VHDXPath := ""; NfsServer := ""; NfsExportPath := "";
     NfsAuthentication := ""; NfsMountAuthentication := ""; SmbServer := ""; SmbShareName := "";
     CapacityBytes := 1; nameSpecified := true; lunSpecified := true |}.
  split; [done|]. split; [done|]. split; [done|]. eexists. split; by vm_compute.
Qed.
End Iscsi.

Module Nfs.

(** The server part of the URI: the portal if there is one. *)
Definition uri_server (v : VolumeID) : string :=
  if TargetPortal v == "" then NfsServer v else TargetPortal v.

(** The export path is rebuilt from its segments. *)
Definition export_path (v : VolumeID) : string :=
  uri_path (kept_segments (splitPath (NfsExportPath v))).

Definition canonical (v : VolumeID) : VolumeID :=
  {| Name := Name v; vProtocol := ProtocolNFS; ShareBackend := ShareBackend v;
     SharePath := SharePath v; TargetPortal := TargetPortal v;
     TargetName := TargetName v; TargetIQN := ""; LUN := 0;
     VHDXPath := VHDXPath v;
     NfsServer := if NfsServer v == "" then hostOnly (uri_server v) else NfsServer v;
     NfsExportPath := export_path v; NfsAuthentication := NfsAuthentication v;
     NfsMountAuthentication := NfsMountAuthentication v; SmbServer := ""; SmbShareName := "";
     CapacityBytes := CapacityBytes v; nameSpecified := true; lunSpecified := false |}.

Definition encodable (v : VolumeID) : Prop :=
  vProtocol v = ProtocolNFS
  /\ TrimSpace (TargetPortal v) = TargetPortal v /\ TrimSpace (NfsServer v) = NfsServer v
  /\ uri_host (uri_server v)
  /\ 0 <= CapacityBytes v < 2 ^ 63
  /\ Validate (canonical v) = Ok tt.

#[export] Instance nfs_encodable_dec v : Decision (encodable v).
Proof. unfold encodable. apply _. Defined.

(** The parameters of an NFS id. *)
Definition query (v : VolumeID) : Values :=
  set_nonempty "nfsMountAuthentication" (NfsMountAuthentication v)
    (set_nonempty "nfsAuthentication" (NfsAuthentication v)
       (set_nonempty "nfsServer" (NfsServer v)
          (set_nonempty "targetPortal" (TargetPortal v) (common_query v)))).

Lemma query_small v : small_values (query v).
Proof.
  apply (singles_small 10); [|lia]. unfold query.
  do 4 apply singles_set_nonempty. apply singles_common.
Qed.
Lemma query_like v : common_like v (query v).
Proof.
  unfold query. do 4 (apply common_like_nonempty; [set_solver|]). apply common_like_refl.
Qed.
Lemma absent v k : k ∉ common_keys -> common_query v !! k = None.
Proof. apply common_absent. Qed.

Lemma query_get v :
  Values_Get "targetPortal" (query v) = TargetPortal v
  /\ Values_Get "nfsServer" (query v) = NfsServer v
  /\ Values_Get "nfsAuthentication" (query v) = NfsAuthentication v
  /\ Values_Get "nfsMountAuthentication" (query v) = NfsMountAuthentication v.
Proof.
  unfold query. split_and!; eapply Get_through; query_lookup; try reflexivity;
    query_lookup; apply absent; set_solver.
Qed.

Lemma EncodeVolumeID_nfs v :
  encodable v ->
  EncodeVolumeID (Some v)
  = buildURI ProtocolNFS (uri_server v) (splitPath (NfsExportPath v)) (query v).
Proof.
  intros (Hp & Ht & Hs & _). unfold EncodeVolumeID. rewrite Hp, Ht, Hs.
  change (ProtocolNFS == ProtocolISCSI) with false.
  change (ProtocolNFS == ProtocolNFS) with true. cbn iota. unfold uri_server, query.
  unfold set_nonempty. by destruct (TargetPortal v == "").
Qed.

(** C32: an NFS volume id is decoded to the volume it was made from, with its
    export path in normal form. *)
Theorem nfs_decode_encode (v : VolumeID) :
  encodable v -> DecodeVolumeID (EncodeVolumeID (Some v)) = Ok (canonical v).
Proof.
  intros H. pose proof H as (Hp & _ & _ & Hh & Hc & Hv). rewrite EncodeVolumeID_nfs by done.
  rewrite DecodeVolumeID_buildURI by (done || by right; left).
  unfold decode_fields, URL_Query. cbn [RawQuery]. rewrite ParseQuery_Encode by apply query_small.
  rewrite (decode_capacity_like v) by (done || apply query_like). cbn [mbind res_bind].
  rewrite decode_common_like by apply query_like.
  change (ProtocolNFS == ProtocolISCSI) with false.
  change (ProtocolNFS == ProtocolNFS) with true. cbn iota. unfold decode_nfs.
  destruct (query_get v) as (-> & -> & -> & ->). cbn [Path Host].
  fold (export_path v). cbn -[Validate uri_server export_path canonical String.eqb].
  change (Validate _) with (Validate (canonical v)). by rewrite Hv.
Qed.

Definition example_id : VolumeID :=
  {| Name := "share one"; vProtocol := ProtocolNFS; ShareBackend := ""; SharePath := "E:\\s";
     TargetPortal := ""; TargetName := ""; TargetIQN := ""; LUN := 0; VHDXPath := "";
     NfsServer := "fs1.example:2049"; NfsExportPath := "exports//a b/%25";
     NfsAuthentication := "sys,krb5"; NfsMountAuthentication := "krb5";
     SmbServer := ""; SmbShareName := ""; CapacityBytes := 0;
     nameSpecified := true; lunSpecified := false |}.

Lemma nfs_decode_encode_witness :
  encodable example_id
  /\ DecodeVolumeID (EncodeVolumeID (Some example_id)) = Ok (canonical example_id).
Proof.
  assert (encodable example_id) as H by by_decide.
  exact (conj H (nfs_decode_encode example_id H)).
Defined.
End Nfs.

Module Smb.

Definition canonical (v : VolumeID) : VolumeID :=
  {| Name := Name v; vProtocol := ProtocolSMB; ShareBackend := ShareBackend v;
     SharePath := SharePath v; TargetPortal := ""; TargetName := TargetName v; TargetIQN := "";
     LUN := 0; VHDXPath := VHDXPath v; NfsServer := ""; NfsExportPath := "";
     NfsAuthentication := ""; NfsMountAuthentication := "";
     SmbServer := SmbServer v; SmbShareName := SmbShareName v;
     CapacityBytes := CapacityBytes v; nameSpecified := true; lunSpecified := false |}.

Definition encodable (v : VolumeID) : Prop :=
  vProtocol v = ProtocolSMB
  /\ uri_host (SmbServer v) /\ TrimSpace (SmbServer v) = SmbServer v
  /\ stable_segment (SmbShareName v) /\ TrimSpace (SmbShareName v) = SmbShareName v
  /\ 0 <= CapacityBytes v < 2 ^ 63
  /\ Validate (canonical v) = Ok tt.

#[export] Instance smb_encodable_dec v : Decision (encodable v).
Proof. unfold encodable. apply _. Defined.

Lemma smb_query_get v :
  Values_Get "smbServer" (set_nonempty "smbServer" (SmbServer v) (common_query v)) = SmbServer v.
Proof. apply Get_set_nonempty, common_absent. set_solver. Qed.

(** An SMB volume id is decoded to the volume it was made from. *)
Theorem smb_decode_encode (v : VolumeID) :
  encodable v -> DecodeVolumeID (EncodeVolumeID (Some v)) = Ok (canonical v).
Proof.
  intros (Hp & Hh & Ht & Hs & Hn & Hc & Hv). unfold EncodeVolumeID. rewrite Hp, Ht, Hn.
  change (ProtocolSMB == ProtocolISCSI) with false. change (ProtocolSMB == ProtocolNFS) with false.
  change (ProtocolSMB == ProtocolSMB) with true. cbn iota.
  rewrite DecodeVolumeID_buildURI by (done || by right; right).
  assert (kept_segments [SmbShareName v] = [SmbShareName v]) as ->.
  { unfold kept_segments. cbn [map]. rewrite Hn. apply filter_all. repeat constructor. apply Hs. }
  set (q := set_nonempty "smbServer" _ _).
  assert (common_like v q) as Hl
    by (apply common_like_nonempty; [set_solver|apply common_like_refl]).
  unfold decode_fields, URL_Query. cbn [RawQuery].
  rewrite ParseQuery_Encode
    by (apply (singles_small 7); [apply singles_set_nonempty, singles_common|lia]).
  rewrite (decode_capacity_like v) by done. cbn [mbind res_bind].
  rewrite decode_common_like by done.
  change (ProtocolSMB == ProtocolISCSI) with false. change (ProtocolSMB == ProtocolNFS) with false.
  change (ProtocolSMB == ProtocolSMB) with true. cbn iota. unfold decode_smb. cbn [Path Host].
  rewrite pathSegments_uri_path by (by repeat constructor; apply Hs). unfold q.
  rewrite smb_query_get. destruct (String.eqb_spec (SmbServer v) "") as [E|E].
  { by destruct Hh as [Hh _]. }
  cbn [mbind res_bind]. change (Validate _) with (Validate (canonical v)). by rewrite Hv.
Qed.

Definition example_id : VolumeID :=
  {| Name := "share"; vProtocol := ProtocolSMB; ShareBackend := "b"; SharePath := "E:\\s";
     TargetPortal := ""; TargetName := ""; TargetIQN := ""; LUN := 0; VHDXPath := "";
     NfsServer := ""; NfsExportPath := ""; NfsAuthentication := ""; NfsMountAuthentication := "";
     SmbServer := "[fe80::1]:445"; SmbShareName := "My Share$"; CapacityBytes := 7;
     nameSpecified := true; lunSpecified := false |}.

Lemma smb_decode_encode_witness :
  encodable example_id
  /\ DecodeVolumeID (EncodeVolumeID (Some example_id)) = Ok (canonical example_id).
Proof.
  assert (encodable example_id) as H by by_decide.
  exact (conj H (smb_decode_encode example_id H)).
Defined.
End Smb.

Module Decoded.

(** What every id that [DecodeVolumeID] accepts satisfies. *)
Definition well_formed (v : VolumeID) : Prop :=
  (vProtocol v = ProtocolISCSI \/ vProtocol v = ProtocolNFS \/ vProtocol v = ProtocolSMB)
  /\ 0 <= CapacityBytes v < 2 ^ 63
  /\ (nameSpecified v = true -> TrimSpace (Name v) <> "")
  /\ (vProtocol v = ProtocolISCSI ->
        lunSpecified v = true /\ - 2 ^ 63 <= LUN v < 2 ^ 63
        /\ TrimSpace (TargetPortal v) <> "" /\ TrimSpace (TargetIQN v) <> "")
  /\ (vProtocol v = ProtocolNFS -> TrimSpace (NfsServer v) <> ""
        /\ TrimSpace (NfsExportPath v) <> "" /\ TrimSpace (NfsExportPath v) <> "/")
  /\ (vProtocol v = ProtocolSMB ->
        TrimSpace (SmbServer v) <> "" /\ TrimSpace (SmbShareName v) <> "").

Lemma find_lun_range parts n : find_lun parts = Ok (Some n) -> in_int64 n.
Proof.
  induction parts as [|p [|x parts] IH]; cbn [find_lun]; try discriminate.
  destruct (p == "lun"); [|exact IH]. destruct (Atoi x) eqn:E; [|discriminate].
  intros [= <-]. by apply Atoi_range in E.
Qed.

Lemma decode_capacity_range q n : decode_capacity q = Ok n -> 0 <= n < 2 ^ 63.
Proof.
  unfold decode_capacity. destruct (_ != ""); [|intros [= <-]; lia].
  destruct (ParseInt 64 _) eqn:E; [|discriminate]. apply ParseInt_range in E.
  destruct (Z.ltb_spec z 0); [discriminate|]. intros [= <-]. lia.
Qed.

Lemma decode_fields_spec proto u v :
  decode_fields proto u = Ok v ->
  vProtocol v = proto /\ CapacityBytes v < 2 ^ 63 /\ - 2 ^ 63 <= LUN v < 2 ^ 63.
Proof.
  unfold decode_fields. intros H. apply res_bind_Ok in H as (c & Hc & H).
  apply decode_capacity_range in Hc.
  destruct (proto == ProtocolISCSI).
  - unfold decode_iscsi in H. apply res_bind_Ok in H as (l & Hl & H). simplify_eq. simpl.
    destruct l as [n|]; [apply find_lun_range in Hl; unfold in_int64 in Hl|];
      (split_and!; [done|lia..]).
  - repeat case_match; simplify_eq; simpl; (split_and!; [done|lia..]).
Qed.

Lemma Validate_spec v : Validate v = Ok tt ->
  0 <= CapacityBytes v /\ (nameSpecified v = true -> TrimSpace (Name v) <> "")
  /\ ((vProtocol v = ProtocolISCSI /\ lunSpecified v = true
        /\ TrimSpace (TargetPortal v) <> "" /\ TrimSpace (TargetIQN v) <> "")
      \/ (vProtocol v = ProtocolNFS /\ TrimSpace (NfsServer v) <> ""
          /\ TrimSpace (NfsExportPath v) <> "" /\ TrimSpace (NfsExportPath v) <> "/")
      \/ (vProtocol v = ProtocolSMB
          /\ TrimSpace (SmbServer v) <> "" /\ TrimSpace (SmbShareName v) <> "")).
Proof.
  unfold Validate. intros H.
  destruct (nameSpecified v && _)%bool eqn:Hn; [discriminate|].
  apply andb_false_iff in Hn.
  repeat case_match; try discriminate; go_bool; (split; [lia|]); (split; [intros; destruct Hn; go_bool; congruence|]); eauto 10.
Qed.

Lemma DecodeVolumeID_Ok id v :
  DecodeVolumeID id = Ok v ->
  exists proto u sep, Index id "://" = Some sep /\ proto = str_take sep id
    /\ (ParseProtocolFromVolumeID id = Ok proto
        \/ (ParseProtocolFromVolumeID id = Ok "" /\ HasPrefix (str_drop (sep + 3) id) "/" = true))
    /\ decode_fields proto u = Ok v /\ Validate v = Ok tt.
Proof.
  unfold DecodeVolumeID. intros H. destruct (_ == ""); [discriminate|].
  destruct (ContainsByte _ _); [discriminate|]. apply res_bind_Ok in H as (p & Hp & H).
  destruct (Parse id) as [u|]; [|discriminate].
  apply res_bind_Ok in H as (w & Hw & H). apply res_bind_Ok in H as ([] & Hv & [= ->]).
  pose proof Hp as Hp'. unfold ParseProtocolFromVolumeID in Hp'.
  destruct (TrimSpace id == ""); [discriminate|]. destruct (ContainsByte id NUL); [discriminate|].
  destruct (Index id "://") as [sep|] eqn:Hi; [|discriminate].
  destruct (Nat.eqb sep 0); [discriminate|]. destruct (Nat.leb _ _); [discriminate|].
  exists (str_take sep id), u, sep. destruct (HasPrefix _ "/") eqn:Hpre.
  - injection Hp' as <-. split_and!; auto.
  - destruct ((str_take sep id == ProtocolISCSI) || _ || _)%bool eqn:Hk; [|discriminate].
    injection Hp' as <-. split_and!; auto.
    destruct (str_take sep id == "") eqn:E; [|done].
    apply String.eqb_eq in E. by rewrite E in Hk.
Qed.

(** C17: an id that decodes is a valid volume of one of the three protocols,
    its numbers are in range, its protocol is the text before [://] and
    [ParseProtocolFromVolumeID] finds the same protocol, unless the host is
    empty, where it finds none. *)
Theorem decode_well_formed (id : string) (v : VolumeID) :
  DecodeVolumeID id = Ok v ->
  well_formed v /\ Validate v = Ok tt
  /\ (exists sep, Index id "://" = Some sep /\ vProtocol v = str_take sep id
      /\ ParseProtocolFromVolumeID id
         = Ok (if HasPrefix (str_drop (sep + 3) id) "/" then "" else vProtocol v)).
Proof.
  intros H. apply DecodeVolumeID_Ok in H as (proto & u & sep & Hi & Hp & Hpp & Hd & Hv).
  destruct (decode_fields_spec _ _ _ Hd) as (E & Hc & Hl).
  destruct (Validate_spec v Hv) as (Hc0 & Hn & Hk). rewrite <- E in *.
  split; [|split; [done|]].
  - unfold well_formed.
    destruct Hk as [(-> & ? & ? & ?) | [(-> & ? & ? & ?) | (-> & ? & ?)]];
      split_and!; intros; try discriminate; try (split_and!; done); auto.
  - exists sep. split_and!; [done..|]. destruct Hpp as [Hpp | [Hpp ->]]; [|done].
    rewrite Hpp. unfold ParseProtocolFromVolumeID in Hpp. rewrite Hi in Hpp.
    by repeat case_match.
Qed.

Definition example_text : string :=
  "iscsi://10.0.0.5/iqn.1991-05.com.microsoft:t/lun/3?name=pvc-1&capacityBytes=1073741824".

Lemma decode_well_formed_witness :
  exists v, DecodeVolumeID example_text = Ok v /\ well_formed v /\ TargetPortal v = "10.0.0.5:3260".
Proof.
  destruct (DecodeVolumeID example_text) as [v|e|] eqn:E; [|by vm_compute in E..].
  exists v. split; [done|]. split; [exact (proj1 (decode_well_formed example_text v E))|].
  vm_compute in E. injection E as <-. reflexivity.
Defined.
End Decoded.
