(* ===== verification/LegacyID.v ===== *)
(** * JSON volume and snapshot ids ([pkg/iscsi/controllerserver.go])

    The older form of an id is the unpadded URL-safe base64 of a JSON object;
    snapshots still use it.  [decodeAnyVolumeID] reads both forms. *)
From S2P Require Import Prelude GoStrings GoStrconv GoStringsFacts GoBase64 GoJson GoJsonFacts VolumeID.

Record volID := {
  VolumeName : string;
  lTargetPortal : string;
  lTargetName : string;
  lTargetIQN : string;
  lLUN : Z;
  lVHDXPath : string;
  SizeBytes : Z
}.

Record snapID := { snSnapshotID : string; snOriginalPath : string }.

#[export] Instance volID_eq_dec : EqDecision volID.
Proof. solve_decision. Defined.
#[export] Instance snapID_eq_dec : EqDecision snapID.
Proof. solve_decision. Defined.

Definition zero_volID : volID :=
  {| VolumeName := ""; lTargetPortal := ""; lTargetName := ""; lTargetIQN := ""; lLUN := 0;
     lVHDXPath := ""; SizeBytes := 0 |}.
Definition zero_snapID : snapID := {| snSnapshotID := ""; snOriginalPath := "" |}.

(** The JSON members of a [volID], [targetName] being [omitempty]. *)
Definition volID_members (v : volID) : list (string * json) :=
  [("name", JStr (VolumeName v)); ("targetPortal", JStr (lTargetPortal v))]
  ++ omitempty "targetName" (lTargetName v)
  ++ [("targetIQN", JStr (lTargetIQN v)); ("lun", JInt (lLUN v));
      ("vhdxPath", JStr (lVHDXPath v)); ("sizeBytes", JInt (SizeBytes v))].

(** The struct fields by JSON name, with the width of the integers. *)
Definition volID_fields : list (field (A := volID)) :=
  [("name", fun j o =>
      let '(x, ok) := set_string j (VolumeName o) in
      ({| VolumeName := x; lTargetPortal := lTargetPortal o; lTargetName := lTargetName o;
          lTargetIQN := lTargetIQN o; lLUN := lLUN o; lVHDXPath := lVHDXPath o;
          SizeBytes := SizeBytes o |}, ok));
   ("targetPortal", fun j o =>
      let '(x, ok) := set_string j (lTargetPortal o) in
      ({| VolumeName := VolumeName o; lTargetPortal := x; lTargetName := lTargetName o;
          lTargetIQN := lTargetIQN o; lLUN := lLUN o; lVHDXPath := lVHDXPath o;
          SizeBytes := SizeBytes o |}, ok));
   ("targetName", fun j o =>
      let '(x, ok) := set_string j (lTargetName o) in
      ({| VolumeName := VolumeName o; lTargetPortal := lTargetPortal o; lTargetName := x;
          lTargetIQN := lTargetIQN o; lLUN := lLUN o; lVHDXPath := lVHDXPath o;
          SizeBytes := SizeBytes o |}, ok));
   ("targetIQN", fun j o =>
      let '(x, ok) := set_string j (lTargetIQN o) in
      ({| VolumeName := VolumeName o; lTargetPortal := lTargetPortal o;
          lTargetName := lTargetName o; lTargetIQN := x; lLUN := lLUN o;
          lVHDXPath := lVHDXPath o; SizeBytes := SizeBytes o |}, ok));
   ("lun", fun j o =>
      let '(x, ok) := set_int 32 j (lLUN o) in
      ({| VolumeName := VolumeName o; lTargetPortal := lTargetPortal o;
          lTargetName := lTargetName o; lTargetIQN := lTargetIQN o; lLUN := x;
          lVHDXPath := lVHDXPath o; SizeBytes := SizeBytes o |}, ok));
   ("vhdxPath", fun j o =>
      let '(x, ok) := set_string j (lVHDXPath o) in
      ({| VolumeName := VolumeName o; lTargetPortal := lTargetPortal o;
          lTargetName := lTargetName o; lTargetIQN := lTargetIQN o; lLUN := lLUN o;
          lVHDXPath := x; SizeBytes := SizeBytes o |}, ok));
   ("sizeBytes", fun j o =>
      let '(x, ok) := set_int 64 j (SizeBytes o) in
      ({| VolumeName := VolumeName o; lTargetPortal := lTargetPortal o;
          lTargetName := lTargetName o; lTargetIQN := lTargetIQN o; lLUN := lLUN o;
          lVHDXPath := lVHDXPath o; SizeBytes := x |}, ok))].

Definition snapID_members (s : snapID) : list (string * json) :=
  [("snapshotId", JStr (snSnapshotID s)); ("originalPath", JStr (snOriginalPath s))].
Definition snapID_fields : list (field (A := snapID)) :=
  [("snapshotId", fun j o =>
      let '(x, ok) := set_string j (snSnapshotID o) in
      ({| snSnapshotID := x; snOriginalPath := snOriginalPath o |}, ok));
   ("originalPath", fun j o =>
      let '(x, ok) := set_string j (snOriginalPath o) in
      ({| snSnapshotID := snSnapshotID o; snOriginalPath := x |}, ok))].

Definition encodeVolID (v : volID) : string := EncodeToString (json_text (JObj (volID_members v))).

(** [return out, json.Unmarshal(b, &out)]: gc evaluates the call before it reads [out]. *)
Definition decodeVolID (id : string) : res volID :=
  match DecodeString id with
  | None => Err (PlainErr "illegal base64 data")
  | Some b =>
      match unmarshal volID_fields zero_volID b with
      | None => Err (PlainErr "json: cannot unmarshal")
      | Some out => Ok out
      end
  end.

Definition encodeSnapID (s : snapID) : string := EncodeToString (json_text (JObj (snapID_members s))).
Definition decodeSnapID (id : string) : res snapID :=
  match DecodeString id with
  | None => Err (PlainErr "illegal base64 data")
  | Some b =>
      match unmarshal snapID_fields zero_snapID b with
      | None => Err (PlainErr "json: cannot unmarshal")
      | Some out => Ok out
      end
  end.

(** The legacy view of a URI id; the LUN is converted to 32 bits. *)
Definition legacy_of (v : VolumeID) : volID :=
  {| VolumeName := Name v; lTargetPortal := TargetPortal v; lTargetName := TargetName v;
     lTargetIQN := TargetIQN v; lLUN := int32_of (LUN v); lVHDXPath := VHDXPath v;
     SizeBytes := CapacityBytes v |}.
Definition of_legacy (l : volID) : VolumeID :=
  {| Name := VolumeName l; vProtocol := ProtocolISCSI; ShareBackend := ""; SharePath := "";
     TargetPortal := lTargetPortal l; TargetName := lTargetName l; TargetIQN := lTargetIQN l;
     LUN := lLUN l; VHDXPath := lVHDXPath l; NfsServer := ""; NfsExportPath := "";
     NfsAuthentication := ""; NfsMountAuthentication := ""; SmbServer := ""; SmbShareName := "";
     CapacityBytes := SizeBytes l; nameSpecified := false; lunSpecified := false |}.

Definition decodeAnyVolumeID (id : string) : res (VolumeID * volID) :=
  match DecodeVolumeID id with
  | Ok v => Ok (v, legacy_of v)
  | Panicked => Panicked
  | Err _ =>
      legacy ← decodeVolID id;
      Ok (of_legacy legacy, legacy)
  end.

(** ** Round trips *)

(** A [volID] that JSON can carry: valid UTF-8 text and integers of the fields' widths. *)
Definition volID_ok (v : volID) : Prop :=
  valid_utf8 (VolumeName v) /\ valid_utf8 (lTargetPortal v) /\ valid_utf8 (lTargetName v)
  /\ valid_utf8 (lTargetIQN v) /\ valid_utf8 (lVHDXPath v)
  /\ - 2 ^ 31 <= lLUN v < 2 ^ 31 /\ - 2 ^ 63 <= SizeBytes v < 2 ^ 63.
#[export] Instance volID_ok_dec v : Decision (volID_ok v).
Proof. unfold volID_ok. apply _. Defined.

Lemma unmarshal_volID v :
  volID_ok v -> unmarshal volID_fields zero_volID (json_text (JObj (volID_members v))) = Some v.
Proof.
  intros (H1 & H2 & H3 & H4 & H5 & Hl & Hs). unfold unmarshal.
  unfold volID_members.
  rewrite parse_json_object by flat_members.
  unfold omitempty. destruct (String.eqb_spec (lTargetName v) "") as [E|E]; store_all; cbn [andb];
    destruct v; cbn in *; congruence.
Qed.

(** A legacy volume id is decoded to the record it was made from. *)
Theorem decodeVolID_encodeVolID (v : volID) :
  volID_ok v -> decodeVolID (encodeVolID v) = Ok v.
Proof.
  intros H. unfold decodeVolID, encodeVolID.
  rewrite DecodeString_EncodeToString. by rewrite unmarshal_volID.
Qed.

Definition example_volID : volID :=
  {| VolumeName := "pvc-1 <a&b>"; lTargetPortal := "10.0.0.5:3260"; lTargetName := "";
     lTargetIQN := "iqn.1991-05.com.microsoft:t"; lLUN := -1; lVHDXPath := "D:\v\pvc-1.vhdx";
     SizeBytes := 10737418240 |}.

Lemma decodeVolID_encodeVolID_witness :
  volID_ok example_volID /\ decodeVolID (encodeVolID example_volID) = Ok example_volID.
Proof.
  assert (volID_ok example_volID) as H by by_decide.
  exact (conj H (decodeVolID_encodeVolID example_volID H)).
Defined.

Lemma unmarshal_snapID s :
  valid_utf8 (snSnapshotID s) -> valid_utf8 (snOriginalPath s) ->
  unmarshal snapID_fields zero_snapID (json_text (JObj (snapID_members s))) = Some s.
Proof.
  intros H1 H2. unfold unmarshal. unfold snapID_members.
  rewrite parse_json_object by flat_members.
  store_all. by destruct s.
Qed.

(** A snapshot id is decoded to the record it was made from. *)
Theorem decodeSnapID_encodeSnapID (s : snapID) :
  valid_utf8 (snSnapshotID s) -> valid_utf8 (snOriginalPath s) ->
  decodeSnapID (encodeSnapID s) = Ok s.
Proof.
  intros H1 H2. unfold decodeSnapID, encodeSnapID.
  rewrite DecodeString_EncodeToString. by rewrite unmarshal_snapID.
Qed.

Definition example_snapID : snapID :=
  {| snSnapshotID := "{6F9619FF-8B86-D011-B42D-00C04FC964FF}"; snOriginalPath := "D:\v\pvc-1.vhdx" |}.

Lemma decodeSnapID_encodeSnapID_witness :
  decodeSnapID (encodeSnapID example_snapID) = Ok example_snapID.
Proof. apply (decodeSnapID_encodeSnapID example_snapID); by_decide. Defined.

(** A text without a colon is not a URI id, whatever else it holds. *)
Lemma Index_no_colon s t : str_all (free ":"%char) s = true -> Index s (String ":" t) = None.
Proof.
  induction s as [|c s IH]; [done|]. cbn [str_all]. intros [Hc Hs]%andb_true_iff.
  apply negb_true_iff in Hc. rewrite Ascii.eqb_sym in Hc.
  cbn [Index HasPrefix]. by rewrite Hc, IH.
Qed.
Lemma DecodeVolumeID_no_colon s :
  str_all (free ":"%char) s = true -> exists e, DecodeVolumeID s = Err e.
Proof.
  intros H. unfold DecodeVolumeID, ParseProtocolFromVolumeID. rewrite Index_no_colon by done.
  repeat case_match; by eexists.
Qed.

Lemma decodeAny_encodeVolID v :
  volID_ok v -> decodeAnyVolumeID (encodeVolID v) = Ok (of_legacy v, v).
Proof.
  intros H. unfold decodeAnyVolumeID.
  destruct (DecodeVolumeID_no_colon (encodeVolID v)) as [e ->].
  { apply b64_encode_all. apply bytes_impl. by_bytes. }
  unfold decodeVolID, encodeVolID. by rewrite DecodeString_EncodeToString, unmarshal_volID.
Qed.

(** C33: a volume id of either form is read: the JSON form gives the iSCSI volume
    it describes, and is never mistaken for a URI; the URI form takes precedence. *)
Theorem decodeAnyVolumeID_forms :
  (forall v, volID_ok v -> decodeAnyVolumeID (encodeVolID v) = Ok (of_legacy v, v))
  /\ (forall id v, DecodeVolumeID id = Ok v -> decodeAnyVolumeID id = Ok (v, legacy_of v)).
Proof.
  split.
  - apply decodeAny_encodeVolID.
  - intros id v H. unfold decodeAnyVolumeID. by rewrite H.
Qed.

Lemma decodeAnyVolumeID_forms_witness :
  decodeAnyVolumeID (encodeVolID example_volID) = Ok (of_legacy example_volID, example_volID)
  /\ exists v, decodeAnyVolumeID "smb://fs1/share?name=x" = Ok (v, legacy_of v).
Proof.
  split; [apply (proj1 decodeAnyVolumeID_forms); by_decide|].
  destruct (DecodeVolumeID "smb://fs1/share?name=x") as [v|e|] eqn:E; [|by vm_compute in E..].
  exists v. exact (proj2 decodeAnyVolumeID_forms _ v E).
Defined.
