(* ===== verification/VolumeTypes.v ===== *)
(** * Volume, snapshot and share descriptions, LUN values and the backend
    selector ([pkg/iscsi/volumeid.go], types of [pkg/iscsi/controllerserver.go]) *)
From S2P Require Import Prelude GoStrings GoStrconv VolumeID.

(** ** LUNs held in an [any] *)

(** The dynamic values [normalizeLUN] tells apart.  A finite [float64] is
    [m * 2 ^ e]; NaN and the infinities, which no JSON text has, are left out. *)
Inductive lun_any :=
| LUNNil
| LUNInt (v : Z)
| LUNInt32 (v : Z)
| LUNInt64 (v : Z)
| LUNFloat64 (m e : Z)
| LUNPtrInt32 (v : option Z)
| LUNPtrInt (v : option Z)
| LUNOther.

(** [int(f)]: truncation towards zero (out of range, what amd64 gives). *)
Definition int_of_float (m e : Z) : Z :=
  let t := if (0 <=? e)%Z then m * 2 ^ e else Z.quot m (2 ^ (- e)) in
  if ((- 2 ^ 63 <=? t) && (t <? 2 ^ 63))%Z%bool then t else - 2 ^ 63.

(** [None] is [(0, false)]. *)
Definition normalizeLUN (lun : lun_any) : option Z :=
  match lun with
  | LUNNil => None
  | LUNInt v | LUNInt32 v | LUNInt64 v => Some v
  | LUNFloat64 m e => Some (int_of_float m e)
  | LUNPtrInt32 v => v
  | LUNPtrInt v => v
  | LUNOther => None
  end.

Definition volumeInfoLUNString (lun : lun_any) : string :=
  match normalizeLUN lun with Some v => Itoa v | None => "" end.

(** The LUN of a decoded [VolumeInfo] ([UnmarshalJSON]): an [int] when it is a number. *)
Definition unmarshal_lun (lun : lun_any) : lun_any :=
  match normalizeLUN lun with Some v => LUNInt v | None => lun end.

(** ** Snapshot and volume descriptions *)

(** Times are in nanoseconds since the epoch; the zero [time.Time] is the start of
    year 1. *)
Definition zero_time : Z := (- 62135596800 * 1000000000)%Z.
Record SnapshotInfo := {
  SnapshotID : string;
  OriginalPath : string;
  SourceVolume : string;
  Description : string;
  sCreatedAt : Z;
  sSizeBytes : Z;
  ReadyToUse : bool
}.

Record VolumeInfo := {
  iVolumeName : string;
  iProtocol : Protocol;
  iTargetPortal : string;
  iTargetName : string;
  iTargetIQN : string;
  iLUN : lun_any;
  iVHDXPath : string;
  iSharePath : string;
  iNfsServer : string;
  iNfsExportPath : string;
  iSmbServer : string;
  iSmbShareName : string;
  iCapacityBytes : Z;
  iCreatedAt : Z;
  iSizeBytes : Z;
  iTargets : list string
}.

Definition zero_VolumeInfo : VolumeInfo :=
  {| iVolumeName := ""; iProtocol := ""; iTargetPortal := ""; iTargetName := ""; iTargetIQN := "";
     iLUN := LUNNil; iVHDXPath := ""; iSharePath := ""; iNfsServer := ""; iNfsExportPath := "";
     iSmbServer := ""; iSmbShareName := ""; iCapacityBytes := 0; iCreatedAt := zero_time; iSizeBytes := 0;
     iTargets := [] |}.

Definition zero_SnapshotInfo : SnapshotInfo :=
  {| SnapshotID := ""; OriginalPath := ""; SourceVolume := ""; Description := "";
     sCreatedAt := zero_time; sSizeBytes := 0; ReadyToUse := false |}.

(** ** Shares *)

(** The first of the required values that is blank, with its message. *)
Fixpoint require_all (checks : list (string * string)) : res unit :=
  match checks with
  | [] => Ok tt
  | (value, msg) :: rest => if TrimSpace value == "" then Err (PlainErr msg) else require_all rest
  end.

Definition NfsPermReadOnly : string := "ro".
Definition NfsPermReadWrite : string := "rw".
Definition NfsPermRootAccess : string := "no_root_squash".
Definition SmbPermFullControl : string := "FullControl".
Definition SmbPermReadWrite : string := "ReadWrite".
Definition SmbPermReadOnly : string := "ReadOnly".

Record NfsShareInfo := {
  nsName : string; nsPath : string; nsPermissions : string; nsClients : list string }.
Definition NfsShareInfo_Validate (i : NfsShareInfo) : res unit :=
  require_all [(nsName i, "name is required"); (nsPath i, "path is required")].

Record SmbAclEntry := { aclUser : string; aclPermissions : string }.
Record SmbShareInfo := {
  ssName : string; ssPath : string; ssServer : string; ssACL : list SmbAclEntry }.
Definition SmbShareInfo_Validate (i : SmbShareInfo) : res unit :=
  require_all [(ssName i, "name is required"); (ssPath i, "path is required");
               (ssServer i, "server is required")].

Record NfsExportInfo := { neServer : string; neExportPath : string; neClients : list string }.
Definition NfsExportInfo_Validate (i : NfsExportInfo) : res unit :=
  require_all [(neServer i, "server is required"); (neExportPath i, "exportPath is required")].

Record SmbMappingInfo := { smServer : string; smShare : string; smUser : string }.
Definition SmbMappingInfo_Validate (i : SmbMappingInfo) : res unit :=
  require_all [(smServer i, "server is required"); (smShare i, "share is required")].

Definition SnapshotInfo_Validate (s : SnapshotInfo) : res unit :=
  require_all [(SnapshotID s, "snapshotID is required");
               (SourceVolume s, "sourceVolume is required")].

(** ** The backend selector *)

Inductive SelectableBackend := IscsiBackend | NfsBackend | SmbBackend.
Definition GetProtocol (b : SelectableBackend) : Protocol :=
  match b with
  | IscsiBackend => ProtocolISCSI
  | NfsBackend => ProtocolNFS
  | SmbBackend => ProtocolSMB
  end.

Record BackendSelector := {
  sel_iscsi : option SelectableBackend;
  sel_nfs : option SelectableBackend;
  sel_smb : option SelectableBackend
}.

Definition Select (s : BackendSelector) (protocol : Protocol) : res SelectableBackend :=
  backend ← (if protocol == ProtocolISCSI then Ok (sel_iscsi s)
             else if protocol == ProtocolNFS then Ok (sel_nfs s)
             else if protocol == ProtocolSMB then Ok (sel_smb s)
             else Err (StatusErr InvalidArgument "unknown protocol: %s"));
  match backend with
  | None => Err (StatusErr NotFound "%s backend not configured")
  | Some b => Ok b
  end.

Definition NewBackendSelector (iscsi nfs smb : option SelectableBackend) : BackendSelector :=
  {| sel_iscsi := iscsi; sel_nfs := nfs; sel_smb := smb |}.
Definition selector_GetProtocol (s : BackendSelector) (volumeID : string) : res Protocol :=
  ParseProtocolFromVolumeID volumeID.
