(* ===== verification/VolumeInfoJson.v ===== *)
(** * The JSON text of a [VolumeInfo] ([MarshalJSON] and [UnmarshalJSON] of
    [pkg/iscsi/volumeid.go]; the type is in [controllerserver.go])

    The text of a time is a parameter.  So is what is written for a LUN that is neither an
    integer nor a pointer to one: nothing in the program makes one. *)
From S2P Require Import Prelude GoStrings GoStrconv GoStringsFacts GoJson GoJsonFacts VolumeID VolumeTypes.

(** ** [strconv.ParseFloat] of a JSON number

    A finite [float64] is [m * 2 ^ e]. *)

(** [n / d], with [0 <= n] and [0 < d], to the nearest [float64], ties to even; [None]
    when it is out of range. *)
Definition nearest_float (n d : Z) : option (Z * Z) :=
  if n =? 0 then Some (0, 0) else
  let scaled e := if 0 <=? e then (n, d * 2 ^ e) else (n * 2 ^ (- e), d) in
  let k := Z.log2 n - Z.log2 d - 53 in
  let '(a, b) := scaled k in
  let e := Z.max (if a <? b * 2 ^ 53 then k else k + 1) (-1074) in
  let '(a, b) := scaled e in
  let q := a / b in let r := a mod b in
  let m := if 2 * r <? b then q else if b <? 2 * r then q + 1 else if Z.even q then q else q + 1 in
  if (0 <=? e) && (2 ^ 1024 <=? m * 2 ^ e) then None else Some (m, e).

(** A number literal: [digits * 10 ^ exponent]. *)
Definition exponent_of (s : string) : option Z :=
  match number_exp s with
  | Some (String _ ds, _) => signed_digits ds
  | Some ("", _) => Some 0
  | None => None
  end.
Definition ParseFloat (s : string) : option (Z * Z) :=
  let '(sgn, s0) := number_sign s in
  let '(int, s1) := span_digits s0 in
  match number_frac s1 with
  | Some (f, s2) =>
      let frac := str_drop 1 f in
      match parse_digits (int +:+ frac), exponent_of s2 with
      | Some digits, Some e10 =>
          let e := e10 - Z.of_nat (String.length frac) in
          match (if 0 <=? e then nearest_float (digits * 10 ^ e) 1 else nearest_float digits (10 ^ (- e))) with
          | Some (m, e) => Some (if sgn == "" then m else - m, e)
          | None => None
          end
      | _, _ => None
      end
  | None => None
  end.

Example ParseFloat_ex :
  map (fun s => option_map (fun '(m, e) => if 0 <=? e then (m * 2 ^ e, 1) else (m, 2 ^ (- e))) (ParseFloat s))
    ["0"; "-7"; "2.5e0"; "1E2"; "9007199254740993"; "1e400"]
  = [Some (0, 1); Some (-7 * 2 ^ 50, 2 ^ 50); Some (5 * 2 ^ 50, 2 ^ 51); Some (100 * 2 ^ 46, 2 ^ 46);
     Some (2 ^ 53, 1); None].
Proof. vm_compute. reflexivity. Qed.

(** Integers of up to 53 bits are read exactly. *)
Lemma nearest_float_exact z : 0 <= z < 2 ^ 53 ->
  exists m e, nearest_float z 1 = Some (m, e) /\ -52 <= e <= 0 /\ m = z * 2 ^ (- e).
Proof.
  intros Hz. unfold nearest_float. destruct (Z.eqb_spec z 0) as [->|Hne]; [by exists 0, 0|].
  change (Z.log2 1) with 0. rewrite Z.sub_0_r. assert (0 <= Z.log2 z <= 52) as Hl.
  { split; [apply Z.log2_nonneg|]. assert (Z.log2 z < 53); [apply Z.log2_lt_pow2; lia|lia]. }
  destruct (Z.log2_spec z) as [Hlo Hhi]; [lia|]. set (l := Z.log2 z) in *.
  rewrite (proj2 (Z.leb_gt 0 (l - 53))) by lia. cbv beta iota zeta.
  assert (z * 2 ^ (- (l - 53)) <? 1 * 2 ^ 53 = false) as ->.
  { apply Z.ltb_ge. replace (1 * 2 ^ 53) with (2 ^ l * 2 ^ (- (l - 53))).
    - apply Z.mul_le_mono_nonneg_r; [|lia]. apply Z.pow_nonneg. lia.
    - rewrite <- Z.pow_add_r by lia. replace (l + - (l - 53)) with 53 by lia. lia. }
  replace (Z.max (l - 53 + 1) (-1074)) with (l - 52) by lia.
  exists (z * 2 ^ (- (l - 52))), (l - 52). split; [|split; [lia|done]].
  destruct (Z.leb_spec 0 (l - 52)) as [H|H].
  - replace (l - 52) with 0 by lia. change (- 0) with 0. change (1 * 2 ^ 0) with 1. change (2 ^ 0) with 1.
    rewrite Z.mul_1_r, Z.div_1_r, Z.mod_1_r. change (2 * 0 <? 1) with true. cbv iota.
    rewrite Z.mul_1_r, (proj2 (Z.leb_gt _ _)); [done|].
    apply (Z.lt_trans _ (2 ^ 53)); [lia|]. by apply Z.pow_lt_mono_r.
  - rewrite Z.div_1_r, Z.mod_1_r. change (2 * 0 <? 1) with true. done.
Qed.

Lemma ParseFloat_Itoa z : - 2 ^ 53 < z < 2 ^ 53 ->
  exists m e, ParseFloat (Itoa z) = Some (m, e) /\ int_of_float m e = z.
Proof.
  intros Hz. unfold ParseFloat. destruct (Itoa_shape z) as (sgn & s & E & Hsgn & Hs).
  pose proof (signed_digits_Itoa z) as Hd. rewrite E in *.
  assert (number_sign (sgn +:+ s) = (sgn, s)
          /\ exists n, parse_digits s = Some n /\ z = (if sgn == "" then n else - n)) as [-> (n & Hn & ->)].
  { pose proof (digit_first s "" Hs) as (c & r & Ec & Hc). rewrite app_empty_r in Ec.
    destruct Hsgn as [-> | ->].
    - split; [cbn [String.append]; rewrite Ec; unfold number_sign; by rewrite digit_not_minus|].
      cbn [String.append] in Hd. rewrite Ec in Hd |- *. unfold signed_digits in Hd.
      rewrite (digit_not_minus _ Hc) in Hd. destruct (c =b "+") eqn:Ep; [|by exists z].
      apply Ascii.eqb_eq in Ep as ->. discriminate Hc.
    - split; [done|]. cbn in Hd. destruct (parse_digits s) as [n|]; [|done]. exists n. split; [done|].
      by injection Hd as <-. }
  pose proof (parse_digits_nonneg _ _ Hn) as Hpos.
  assert (span_digits s = (s, "")) as ->.
  { rewrite <- (app_empty_r s) at 1. apply span_digits_delim; [|by left].
    destruct Hs as [-> | (c & r & -> & Hc & _ & Hr)]; [done|]. cbn [str_all]. by rewrite Hc. }
  cbn [number_frac str_drop]. rewrite app_empty_r, Hn. cbn [exponent_of number_exp String.length].
  change (0 - Z.of_nat 0) with 0. change (0 <=? 0) with true. cbv iota. rewrite Z.mul_1_r.
  destruct (nearest_float_exact n) as (m & e & -> & He & ->); [destruct (sgn == ""); lia|].
  eexists _, e. split; [reflexivity|]. unfold int_of_float.
  assert (forall x, x * 2 ^ (- e) = n * 2 ^ (- e) \/ x * 2 ^ (- e) = - (n * 2 ^ (- e)) -> - 2 ^ 53 < x < 2 ^ 53 ->
    (let t := if 0 <=? e then x * 2 ^ (- e) * 2 ^ e else Z.quot (x * 2 ^ (- e)) (2 ^ (- e)) in
     if (- 2 ^ 63 <=? t) && (t <? 2 ^ 63) then t else - 2 ^ 63) = x) as Hx.
  { intros x _ Hx. assert (0 < 2 ^ (- e)) by (apply Z.pow_pos_nonneg; lia).
    assert ((if 0 <=? e then x * 2 ^ (- e) * 2 ^ e else Z.quot (x * 2 ^ (- e)) (2 ^ (- e))) = x) as ->.
    { destruct (Z.leb_spec 0 e); [replace e with 0 by lia; change (- 0) with 0; lia|]. apply Z.quot_mul. lia. }
    cbv zeta. rewrite (proj2 (Z.leb_le _ _)), (proj2 (Z.ltb_lt _ _)) by lia. done. }
  destruct (sgn == "").
  - apply Hx; [by left|done].
  - rewrite <- Z.mul_opp_l. apply Hx; [right; lia|lia].
Qed.

(** ** The fields *)

Section json.
(** [time.Time]'s [MarshalJSON] and [UnmarshalJSON], without the quotes. *)
Context (time_text : Z -> option string) (parse_time : string -> option Z).
(** What is written for another LUN. *)
Context (other_text : lun_any -> option json).

Definition lun_json (lun : lun_any) : option json :=
  match lun with
  | LUNNil | LUNPtrInt32 None | LUNPtrInt None => Some JNull
  | LUNInt v | LUNInt32 v | LUNInt64 v | LUNPtrInt32 (Some v) | LUNPtrInt (Some v) => Some (JInt v)
  | LUNFloat64 _ _ | LUNOther => other_text lun
  end.
Definition volume_info_members (v : VolumeInfo) (lun : json) (created : string) : list (string * json) :=
  [("VolumeName", JStr (iVolumeName v)); ("Protocol", JStr (iProtocol v));
   ("TargetPortal", JStr (iTargetPortal v)); ("TargetName", JStr (iTargetName v));
   ("TargetIQN", JStr (iTargetIQN v)); ("LUN", lun); ("VHDXPath", JStr (iVHDXPath v));
   ("SharePath", JStr (iSharePath v)); ("NfsServer", JStr (iNfsServer v));
   ("NfsExportPath", JStr (iNfsExportPath v)); ("SmbServer", JStr (iSmbServer v));
   ("SmbShareName", JStr (iSmbShareName v)); ("CapacityBytes", JInt (iCapacityBytes v));
   ("CreatedAt", JStr created); ("SizeBytes", JInt (iSizeBytes v));
   ("Targets", slice (map JStr (iTargets v)))].
Definition VolumeInfo_MarshalJSON (v : VolumeInfo) : option string :=
  match lun_json (iLUN v), time_text (iCreatedAt v) with
  | Some lun, Some created => Some (json_text (JObj (volume_info_members v lun created)))
  | _, _ => None
  end.

(** A value stored in an [any]. *)
Definition set_any (j : json) (cur : lun_any) : lun_any * bool :=
  match j with
  | JNull => (LUNNil, true)
  | JNum n => match ParseFloat n with Some (m, e) => (LUNFloat64 m e, true) | None => (cur, false) end
  | _ => (LUNOther, true)
  end.
Definition volume_info_fields : list (field (A := VolumeInfo)) :=
  [("VolumeName", on iVolumeName (fun x '(Build_VolumeInfo _ b c d e f g h i j k l m n o p) =>
      Build_VolumeInfo x b c d e f g h i j k l m n o p) set_string);
   ("Protocol", on iProtocol (fun x '(Build_VolumeInfo a _ c d e f g h i j k l m n o p) =>
      Build_VolumeInfo a x c d e f g h i j k l m n o p) set_string);
   ("TargetPortal", on iTargetPortal (fun x '(Build_VolumeInfo a b _ d e f g h i j k l m n o p) =>
      Build_VolumeInfo a b x d e f g h i j k l m n o p) set_string);
   ("TargetName", on iTargetName (fun x '(Build_VolumeInfo a b c _ e f g h i j k l m n o p) =>
      Build_VolumeInfo a b c x e f g h i j k l m n o p) set_string);
   ("TargetIQN", on iTargetIQN (fun x '(Build_VolumeInfo a b c d _ f g h i j k l m n o p) =>
      Build_VolumeInfo a b c d x f g h i j k l m n o p) set_string);
   ("LUN", on iLUN (fun x '(Build_VolumeInfo a b c d e _ g h i j k l m n o p) =>
      Build_VolumeInfo a b c d e x g h i j k l m n o p) set_any);
   ("VHDXPath", on iVHDXPath (fun x '(Build_VolumeInfo a b c d e f _ h i j k l m n o p) =>
      Build_VolumeInfo a b c d e f x h i j k l m n o p) set_string);
   ("SharePath", on iSharePath (fun x '(Build_VolumeInfo a b c d e f g _ i j k l m n o p) =>
      Build_VolumeInfo a b c d e f g x i j k l m n o p) set_string);
   ("NfsServer", on iNfsServer (fun x '(Build_VolumeInfo a b c d e f g h _ j k l m n o p) =>
      Build_VolumeInfo a b c d e f g h x j k l m n o p) set_string);
   ("NfsExportPath", on iNfsExportPath (fun x '(Build_VolumeInfo a b c d e f g h i _ k l m n o p) =>
      Build_VolumeInfo a b c d e f g h i x k l m n o p) set_string);
   ("SmbServer", on iSmbServer (fun x '(Build_VolumeInfo a b c d e f g h i j _ l m n o p) =>
      Build_VolumeInfo a b c d e f g h i j x l m n o p) set_string);
   ("SmbShareName", on iSmbShareName (fun x '(Build_VolumeInfo a b c d e f g h i j k _ m n o p) =>
      Build_VolumeInfo a b c d e f g h i j k x m n o p) set_string);
   ("CapacityBytes", on iCapacityBytes (fun x '(Build_VolumeInfo a b c d e f g h i j k l _ n o p) =>
      Build_VolumeInfo a b c d e f g h i j k l x n o p) (set_int 64));
   ("CreatedAt", on iCreatedAt (fun x '(Build_VolumeInfo a b c d e f g h i j k l m _ o p) =>
      Build_VolumeInfo a b c d e f g h i j k l m x o p) (set_time parse_time));
   ("SizeBytes", on iSizeBytes (fun x '(Build_VolumeInfo a b c d e f g h i j k l m n _ p) =>
      Build_VolumeInfo a b c d e f g h i j k l m n x p) (set_int 64));
   ("Targets", on iTargets (fun x '(Build_VolumeInfo a b c d e f g h i j k l m n o _) =>
      Build_VolumeInfo a b c d e f g h i j k l m n o x) (set_list set_string ""))].
Definition with_iLUN (x : lun_any) (v : VolumeInfo) : VolumeInfo :=
  let '(Build_VolumeInfo a b c d e _ g h i j k l m n o p) := v in Build_VolumeInfo a b c d e x g h i j k l m n o p.
(** The LUN, a [float64] when it is a number, is made an [int]. *)
Definition VolumeInfo_UnmarshalJSON (data : string) : option VolumeInfo :=
  match unmarshal volume_info_fields zero_VolumeInfo data with
  | Some out => Some (with_iLUN (unmarshal_lun (iLUN out)) out)
  | None => None
  end.

(** ** What is written is read back *)

(** A LUN that a [float64] holds exactly, if there is one: an integer or a pointer to one. *)
Definition lun_ok (lun : lun_any) : Prop :=
  match lun with LUNFloat64 _ _ | LUNOther => False | _ => True end
  /\ forall z, normalizeLUN lun = Some z -> - 2 ^ 53 < z < 2 ^ 53.
(** A description that JSON can carry: valid UTF-8 text, integers of the width of their
    fields, and such a LUN. *)
Definition volume_info_ok (v : VolumeInfo) : Prop :=
  Forall valid_utf8 [iVolumeName v; iProtocol v; iTargetPortal v; iTargetName v; iTargetIQN v; iVHDXPath v;
    iSharePath v; iNfsServer v; iNfsExportPath v; iSmbServer v; iSmbShareName v]
  /\ Forall valid_utf8 (iTargets v) /\ in_int64 (iCapacityBytes v) /\ in_int64 (iSizeBytes v)
  /\ lun_ok (iLUN v).

Lemma lun_read lun : lun_ok lun ->
  exists j lun', lun_json lun = Some j /\ flat j /\ set_any (json_read j) LUNNil = (lun', true)
    /\ unmarshal_lun lun' = match normalizeLUN lun with Some z => LUNInt z | None => LUNNil end.
Proof.
  assert (forall z, - 2 ^ 53 < z < 2 ^ 53 -> exists lun', set_any (json_read (JInt z)) LUNNil = (lun', true)
            /\ unmarshal_lun lun' = LUNInt z) as Hint.
  { intros z Hz. destruct (ParseFloat_Itoa z Hz) as (m & e & E & Hi). exists (LUNFloat64 m e).
    unfold JInt. cbn [json_read set_any]. rewrite E. split; [done|]. unfold unmarshal_lun. cbn [normalizeLUN]. by rewrite Hi. }
  intros [Hk H]. destruct lun as [|z|z|z|m e|[z|]|[z|]|]; try done;
    try (exists JNull, LUNNil; split_and!; [done|split; [constructor|done]|done..]);
    (destruct (Hint z (H z eq_refl)) as (lun' & H1 & H2); exists (JInt z), lun'; split_and!; auto with godb).
Qed.

Lemma volume_info_flat v lun created : flat lun ->
  json_ok (JObj (volume_info_members v lun created))
  /\ (json_depth (JObj (volume_info_members v lun created)) <= max_depth)%nat.
Proof.
  intros [Ho Hd]. pose proof (map_json_ok JStr (iTargets v) ok_str) as Ht. split.
  - constructor. unfold volume_info_members.
    repeat (constructor; [cbn [snd]; (assumption || constructor)|]). constructor.
  - assert (json_depth (slice (map JStr (iTargets v))) <= 1)%nat as Hs.
    { destruct (iTargets v) as [|t l]; [simpl; lia|].
      cbn [map slice json_depth foldr]. apply le_n_S. clear. induction l; simpl in *; lia. }
    apply (Nat.le_trans _ 2); [|by apply Nat.leb_le].
    unfold volume_info_members. cbn [json_depth foldr fst snd JInt]. unfold JInt. cbn [json_depth]. lia.
Qed.

(** What is written of a time is read back, as valid UTF-8. *)
Hypothesis time_read_back : forall t s, time_text t = Some s -> valid_utf8 s /\ parse_time s = Some t.

(** The text of a description is read back, its LUN being an [int] then, whatever
    integer, or pointer to one, it was. *)
Theorem volume_info_read_back v data :
  volume_info_ok v -> VolumeInfo_MarshalJSON v = Some data ->
  VolumeInfo_UnmarshalJSON data
  = Some (with_iLUN (match normalizeLUN (iLUN v) with Some z => LUNInt z | None => LUNNil end) v).
Proof.
  intros (Hs & Ht & Hc & Hz & Hl). destruct (lun_read _ Hl) as (lun & lun' & E & Hlun & Eset & Eun).
  unfold VolumeInfo_MarshalJSON. rewrite E. destruct (time_text (iCreatedAt v)) as [created|] eqn:Et; [|done].
  destruct (time_read_back _ _ Et) as [Hu Hp]. intros Hdata.
  assert (data = json_text (JObj (volume_info_members v lun created))) as -> by congruence. clear Hdata.
  destruct (volume_info_flat v lun created Hlun) as [Ho Hd].
  assert (set_list set_string "" (json_read (slice (map JStr (iTargets v)))) [] = (iTargets v, true)) as Ets.
  { apply set_list_slice. eapply Forall_impl; [exact Ht|]. intros s Hu'. by apply set_string_text. }
  repeat (apply Forall_cons in Hs as [? Hs]).
  pose proof (parse_json_text _ "" Ho Hd eq_refl) as Hparse. rewrite app_empty_r in Hparse.
  unfold VolumeInfo_UnmarshalJSON, unmarshal. rewrite Hparse.
  change (json_read (JObj ?l)) with (JObj (map member_read l)). cbv iota. unfold volume_info_members.
  cbn [map fold_left]. store_all. store_as Eset. store_all.
  store_as (set_time_text parse_time _ _ zero_time Hu Hp). store_all. store_as Ets.
  cbn [andb iLUN]. rewrite Eun. by destruct v.
Qed.
End json.

Definition example_info : VolumeInfo :=
  {| iVolumeName := "pvc-1"; iProtocol := ProtocolISCSI; iTargetPortal := "10.0.0.5:3260"; iTargetName := "pvc-1";
     iTargetIQN := "iqn.1991-05.com.microsoft:pvc-1"; iLUN := LUNPtrInt32 (Some 3); iVHDXPath := "D:\v\pvc-1.vhdx";
     iSharePath := ""; iNfsServer := ""; iNfsExportPath := ""; iSmbServer := ""; iSmbShareName := "";
     iCapacityBytes := 1073741824; iCreatedAt := zero_time; iSizeBytes := -1; iTargets := ["pvc-1"; "<&>"] |}.
(** The text of the zero time. *)
Definition zero_time_text : string := "0001-01-01T00:00:00Z".
Definition example_time_text (t : Z) : option string := if t =? zero_time then Some zero_time_text else None.
Definition example_parse_time (s : string) : option Z := if s == zero_time_text then Some zero_time else None.
Lemma volume_info_read_back_witness :
  exists data, VolumeInfo_MarshalJSON example_time_text (fun _ => None) example_info = Some data
    /\ VolumeInfo_UnmarshalJSON example_parse_time data = Some (with_iLUN (LUNInt 3) example_info).
Proof.
  eexists. split; [reflexivity|].
  apply (volume_info_read_back example_time_text example_parse_time (fun _ => None)); [| |reflexivity].
  - intros t s. unfold example_time_text. destruct (Z.eqb_spec t zero_time) as [->|]; [|done].
    intros [= <-]. by split.
  - unfold volume_info_ok, lun_ok, in_int64. split_and!; try (by_decide || (cbn; lia)); try done.
    intros z [= <-]. lia.
Defined.
