(* ===== verification/Params.v ===== *)
(** * StorageClass parameters ([pkg/iscsi/controllerserver.go], first part)

    Reading, normalising and validating the string parameters of a request, and
    the share options made from them ([pkg/iscsi/driver.go]). *)
From S2P Require Import Prelude GoStrings GoStrconv GoNet VolumeID VolumeTypes.

(** A Go [map[string]string]; a missing key reads as the empty string. *)
Abbreviation Params := (gmap string string).
Definition param (params : Params) (key : string) : string :=
  match params !! key with Some v => v | None => "" end.

Definition invalid {A} (format : string) : res A := Err (StatusErr InvalidArgument format).

(** ** Options of the file shares ([driver.go]) *)

Record TargetChapOptions := {
  ChapUser : string; ChapSecret : string; ReverseChapUser : string; ReverseChapSecret : string }.
Definition zero_TargetChapOptions : TargetChapOptions :=
  {| ChapUser := ""; ChapSecret := ""; ReverseChapUser := ""; ReverseChapSecret := "" |}.
Definition Enabled (o : TargetChapOptions) : bool :=
  ((TrimSpace (ChapUser o) != "") || (TrimSpace (ChapSecret o) != "")
   || (TrimSpace (ReverseChapUser o) != "") || (TrimSpace (ReverseChapSecret o) != ""))%bool.

Definition fileShareBackendDirectory : string := "directory".
Definition fileShareBackendVHDX : string := "vhdx".

Record NfsShareOptions := {
  ClientType : string;
  Permission : string;
  AllowRootAccess : option bool;
  Authentication : list string;
  MountAuthentication : string;
  AnonymousUID : option Z;
  AnonymousGID : option Z;
  LanguageEncoding : string;
  EnableAnonymousAccess : option bool;
  EnableUnmappedAccess : option bool
}.

Record SmbShareOptions := {
  NoAccess : list string;
  smbDescription : string;
  EncryptData : option bool;
  CompressData : option bool;
  ContinuouslyAvailable : option bool;
  CachingMode : string;
  FolderEnumerationMode : string;
  ConcurrentUserLimit : Z
}.

(** ** Reading parameters *)

(** The trimmed value, and whether the key is there with one that is not blank. *)
Definition getStringParam (params : Params) (key : string) : string * bool :=
  let v := TrimSpace (param params key) in
  (v, (bool_decide (is_Some (params !! key)) && (v != ""))%bool).

Definition string_le (a b : string) : Prop := String.leb a b = true.
#[export] Instance string_le_dec a b : Decision (string_le a b).
Proof. unfold string_le. apply _. Defined.

Definition sortedMapKeys (values : Params) : list string :=
  merge_sort string_le (map_to_list values).*1.

Record CapacityRange := { RequiredBytes : Z; LimitBytes : Z }.

Definition requiredBytesFromRange (cr : option CapacityRange) (minGiB : Z) : res Z :=
  let min := int64_of (Z.shiftl minGiB 30) in
  match cr with
  | None => Ok min
  | Some cr =>
      let req := RequiredBytes cr in
      let lim := LimitBytes cr in
      if ((0 <? req) && (0 <? lim))%Z%bool then
        if (lim <? req)%Z then invalid "requiredBytes > limitBytes"
        else if (req <? min)%Z then Ok min else Ok req
      else if (0 <? req)%Z then if (req <? min)%Z then Ok min else Ok req
      else if (0 <? lim)%Z then if (lim <? min)%Z then Ok min else Ok lim
      else Ok min
  end.

Definition one_of (s : string) (words : list string) : bool := existsb (String.eqb s) words.

Definition parseBoolParam (params : Params) (key : string) : res (option bool) :=
  let '(raw, ok) := getStringParam params key in
  if negb ok then Ok None
  else if one_of (ToLower raw) ["1"; "true"; "yes"; "y"; "on"] then Ok (Some true)
  else if one_of (ToLower raw) ["0"; "false"; "no"; "n"; "off"] then Ok (Some false)
  else invalid "parameter %s must be a boolean".

Definition parseIntParam (params : Params) (key : string) : res (option Z) :=
  let '(raw, ok) := getStringParam params key in
  if negb ok then Ok None
  else match Atoi raw with
       | None => invalid "parameter %s must be an integer"
       | Some v => Ok (Some v)
       end.

Definition parseUint32Param (params : Params) (key : string) : res Z :=
  let '(raw, ok) := getStringParam params key in
  if negb ok then Ok 0
  else match ParseUint 32 raw with
       | None => invalid "parameter %s must be a non-negative integer"
       | Some v => Ok v
       end.

Definition maxTCPPort : Z := 65535.

Definition validateTCPPort (port : Z) : res unit :=
  if ((port <? 1) || (maxTCPPort <? port))%Z%bool
  then invalid "parameter %s must be between 1 and 65535" else Ok tt.

Definition parseTCPPortParam (params : Params) (key : string) (fallback : Z) : res Z :=
  let '(raw, ok) := getStringParam params key in
  if negb ok then _ ← validateTCPPort fallback; Ok fallback
  else match Atoi raw with
       | None => invalid "parameter %s must be an integer between 1 and 65535"
       | Some port => _ ← validateTCPPort port; Ok port
       end.

(** ** Portals and paths *)

Definition validateTargetPortal (value : string) : res unit :=
  let portal := TrimSpace value in
  if portal == "" then invalid "parameter targetPortal is required"
  else if (Contains portal "://" || ContainsAny portal "/\")%bool then
    invalid "parameter targetPortal must be a host, IP address, or host:port, not a URL or path"
  else if ContainsFunc portal IsSpace then
    invalid "parameter targetPortal must not contain whitespace"
  else match SplitHostPort portal with
  | Some (host, portStr) =>
      if TrimSpace host == "" then invalid "parameter targetPortal host must not be empty"
      else match Atoi portStr with
           | None => invalid "parameter targetPortal port must be an integer between 1 and 65535"
           | Some port => validateTCPPort port
           end
  | None =>
      if (ContainsByte portal ":" && negb (is_ip portal))%bool then
        invalid "parameter targetPortal with a port must be formatted as host:port or [ipv6]:port"
      else Ok tt
  end.

Definition isASCIIAlpha (b : ascii) : bool := (byte_between 65 90 b || byte_between 97 122 b)%bool.

Definition is_slash (c : ascii) : bool := ((c =b "\") || (c =b "/"))%bool.

(** [strings.FieldsFunc] with a predicate on ASCII bytes. *)
Fixpoint FieldsBytes (f : ascii -> bool) (cur s : string) : list string :=
  match s with
  | EmptyString => if cur == "" then [] else [cur]
  | String c s' =>
      if f c then (if cur == "" then [] else [cur]) ++ FieldsBytes f "" s'
      else FieldsBytes f (cur +:+ String c "") s'
  end.

Definition extended_prefix : string := "\\?\".

Definition isWindowsAbsolutePath (path0 : string) : bool :=
  let path := TrimPrefix path0 extended_prefix in
  let drive := match path with
               | String a (String b (String c _)) => (isASCIIAlpha a && (b =b ":") && is_slash c)%bool
               | _ => false
               end in
  if drive then true
  else if (HasPrefix path "\\" || HasPrefix path "//")%bool then
    match FieldsBytes is_slash "" (TrimLeft path "\/") with
    | p0 :: p1 :: _ => ((TrimSpace p0 != "") && (TrimSpace p1 != ""))%bool
    | _ => false
    end
  else false.

(** A rune a Windows path may not hold; a colon is allowed at index 1 only. *)
Definition invalid_path_rune (ir : nat * N) : bool :=
  let '(i, r) := ir in
  (IsControl r
   || existsb (N.eqb r) [60; 62; 34; 124; 63; 42]%N (* the characters of [<>|?*] and the double quote *)
   || (N.eqb r 58 && negb (Nat.eqb i 1)))%bool.
Definition hasInvalidWindowsPathChar (path : string) : bool := existsb invalid_path_rune (range path).

Definition normalized_path (path : string) : string :=
  TrimPrefix (ReplaceByte path "/" "\") extended_prefix.

Definition validateWindowsPathParam (value : string) (required : bool) : res unit :=
  let path := TrimSpace value in
  if path == "" then
    if required then invalid "parameter %s is required" else Ok tt
  else if negb (isWindowsAbsolutePath path) then
    invalid "parameter %s must be an absolute Windows path or UNC path"
  else
    let normalized := normalized_path path in
    if (Contains normalized "\..\" || HasSuffix normalized "\.." || HasPrefix normalized "..\")%bool
    then invalid "parameter %s must not contain '..' path segments"
    else if hasInvalidWindowsPathChar normalized then
      invalid "parameter %s contains invalid Windows path characters"
    else Ok tt.

(** ** iSCSI names *)

(** [iqnPrefixPattern]. *)
Definition iqnPrefixPattern (s : string) : bool :=
  (HasPrefix s "iqn."
   && match str_drop 4 s with
      | String y1 (String y2 (String y3 (String y4 (String d1
          (String m1 (String m2 (String d2 (String a rest)))))))) =>
          (is_digit y1 && is_digit y2 && is_digit y3 && is_digit y4 && (d1 =b "-")
           && is_digit m1 && is_digit m2 && (d2 =b ".") && is_alnum a
           && str_all (fun c => is_alnum c || ContainsByte ".-" c) rest)%bool
      | _ => false
      end)%bool.

Definition validateIQNPrefix (prefix : string) : res unit :=
  let value := TrimSpace prefix in
  if value == "" then Ok tt
  else if (ContainsFunc value IsSpace || Contains value ":" || negb (iqnPrefixPattern value))%bool
  then invalid "parameter iqnPrefix must look like iqn.yyyy-mm.reverse.domain and must not contain whitespace or ':'"
  else Ok tt.

Definition validateIQNValue (value : string) : res unit :=
  let iqn := TrimSpace value in
  if iqn == "" then invalid "%s must not be empty"
  else
    let '(prefix, suffix, ok) := CutByte iqn ":" in
    if (negb ok || (TrimSpace suffix == ""))%bool
    then invalid "%s must look like iqn.yyyy-mm.reverse.domain:name"
    else match validateIQNPrefix prefix with
    | Ok _ =>
        if (ContainsFunc suffix IsSpace || ContainsAny suffix "/\"
            || hasInvalidWindowsPathChar (ReplaceByte suffix ":" ""))%bool
        then invalid "%s suffix contains unsupported characters"
        else Ok tt
    | _ => invalid "%s must look like iqn.yyyy-mm.reverse.domain:name"
    end.

Definition validateISCSITargetName (name : string) : res unit :=
  let value := TrimSpace name in
  if value == "" then invalid "iSCSI target name must not be empty"
  else if (223 <? Z.of_nat (String.length value))%Z then
    invalid "iSCSI target name must be no more than 223 characters"
  else if HasPrefix (ToLower value) "iqn." then validateIQNValue value
  else if (ContainsFunc value IsSpace || hasInvalidWindowsPathChar value
           || ContainsAny value "/\")%bool
  then invalid "iSCSI target name %q contains unsupported characters"
  else Ok tt.

(** ** NFS parameters *)

(** [strings.ToLower(strings.TrimSpace(value))]. *)
Definition norm (value : string) : string := ToLower (TrimSpace value).

Definition normalizeNfsPermission (value : string) : res string :=
  if one_of (norm value) [""; "rw"; "readwrite"; "read-write"] then Ok "readwrite"
  else if one_of (norm value) ["ro"; "readonly"; "read-only"] then Ok "readonly"
  else invalid "parameter nfsPermission must be readonly/ro or readwrite/rw".

Definition normalizeNfsAuthenticationFlavor (value : string) : res string :=
  if one_of (norm value) ["sys"] then Ok "sys"
  else if one_of (norm value) ["krb5"; "kerberos"] then Ok "krb5"
  else if one_of (norm value) ["krb5i"; "kerberos-integrity"] then Ok "krb5i"
  else if one_of (norm value) ["krb5p"; "kerberos-privacy"] then Ok "krb5p"
  else invalid "parameter nfsAuthentication must contain only sys, krb5, krb5i, or krb5p".

(** [splitCSVParam] of [backend_fileshare.go]. *)
Definition splitCSVParam (value : string) : list string :=
  filter (fun part => part <> "") (map TrimSpace (SplitByte value ",")).

(** The loop of [normalizeNfsAuthentication]: the flavors in order, each once. *)
Fixpoint normalize_flavors (raws auth : list string) (seen : gset string) : res (list string) :=
  match raws with
  | [] => Ok auth
  | raw :: rest =>
      normalized ← normalizeNfsAuthenticationFlavor raw;
      if decide (normalized ∈ seen) then normalize_flavors rest auth seen
      else normalize_flavors rest (auth ++ [normalized]) ({[normalized]} ∪ seen)
  end.

Definition normalizeNfsAuthentication (value : string) : res (list string) :=
  let rawValues := splitCSVParam value in
  match rawValues with
  | [] => Ok []
  | _ => normalize_flavors rawValues [] ∅
  end.

Definition nfsKerberosAuthentication (value0 : string) : res (list string * string) :=
  let value := TrimSpace value0 in
  if value == "" then Ok ([], "")
  else match ParseBool value with
  | Some parsed => if negb parsed then Ok ([], "") else Ok (["krb5"], "krb5")
  | None =>
      match normalizeNfsAuthenticationFlavor value with
      | Ok flavor =>
          if flavor == "sys"
          then invalid "parameter nfsKerberos must be a boolean or one of krb5, krb5i, krb5p"
          else Ok ([flavor], flavor)
      | _ => invalid "parameter nfsKerberos must be a boolean or one of krb5, krb5i, krb5p"
      end
  end.

Definition nfs_rank (value : string) : Z :=
  if value == "sys" then 1 else if value == "krb5" then 2
  else if value == "krb5i" then 3 else if value == "krb5p" then 4 else 0.

Definition preferredNfsMountAuthentication (auth : list string) : string :=
  fold_left (fun best value => if (nfs_rank best <? nfs_rank value)%Z then value else best) auth "".

Definition nfsAuthenticationParam (params : Params) : string :=
  let '(v, ok) := getStringParam params "nfsAuthentication" in
  if ok then v
  else let '(v, ok) := getStringParam params "nfsauthentication" in
       if ok then v else "".

Definition normalizeNfsClientType (value : string) : res string :=
  if one_of (norm value) [""; "host"] then Ok "host"
  else if one_of (norm value) ["clientgroup"; "client-group"] then Ok "clientgroup"
  else if one_of (norm value) ["netgroup"; "net-group"] then Ok "netgroup"
  else invalid "parameter nfsClientType must be host, clientgroup, or netgroup".

(** ** SMB parameters *)

Definition normalizeSmbCachingMode (value : string) : res string :=
  if one_of (norm value) [""] then Ok ""
  else if one_of (norm value) ["none"] then Ok "None"
  else if one_of (norm value) ["manual"] then Ok "Manual"
  else if one_of (norm value) ["documents"] then Ok "Documents"
  else if one_of (norm value) ["programs"] then Ok "Programs"
  else if one_of (norm value) ["branchcache"; "branch-cache"] then Ok "BranchCache"
  else invalid "parameter smbCachingMode must be None, Manual, Documents, Programs, or BranchCache".

Definition normalizeSmbFolderEnumerationMode (value : string) : res string :=
  if one_of (norm value) [""] then Ok ""
  else if one_of (norm value) ["accessbased"; "access-based"] then Ok "AccessBased"
  else if one_of (norm value) ["unrestricted"] then Ok "Unrestricted"
  else invalid "parameter smbFolderEnumerationMode must be AccessBased or Unrestricted".

(** ** The options made from the parameters *)

Definition nfsOptionsFromParams (params : Params) : res NfsShareOptions :=
  allowRootAccess ← parseBoolParam params "nfsAllowRootAccess";
  enableAnonymousAccess ← parseBoolParam params "nfsEnableAnonymousAccess";
  enableUnmappedAccess ← parseBoolParam params "nfsEnableUnmappedAccess";
  anonymousUID ← parseIntParam params "nfsAnonymousUid";
  anonymousGID ← parseIntParam params "nfsAnonymousGid";
  permission ← normalizeNfsPermission (param params "nfsPermission");
  authentication ← normalizeNfsAuthentication (nfsAuthenticationParam params);
  mountAuthentication ←
    (let '(v, ok) := getStringParam params "nfsMountAuthentication" in
     if ok then
       match normalizeNfsAuthenticationFlavor v with
       | Ok flavor => Ok flavor
       | _ => invalid "parameter nfsMountAuthentication must be one of sys, krb5, krb5i, or krb5p"
       end
     else Ok "");
  '(authentication, mountAuthentication) ←
    (match authentication with
     | [] => nfsKerberosAuthentication (param params "nfsKerberos")
     | _ => Ok (authentication, mountAuthentication)
     end);
  let mountAuthentication :=
    if mountAuthentication == "" then preferredNfsMountAuthentication authentication
    else mountAuthentication in
  clientType ← normalizeNfsClientType (param params "nfsClientType");
  Ok {| ClientType := clientType; Permission := permission; AllowRootAccess := allowRootAccess;
        Authentication := authentication; MountAuthentication := mountAuthentication;
        AnonymousUID := anonymousUID; AnonymousGID := anonymousGID;
        LanguageEncoding := TrimSpace (param params "nfsLanguageEncoding");
        EnableAnonymousAccess := enableAnonymousAccess;
        EnableUnmappedAccess := enableUnmappedAccess |}.

Definition smbOptionsFromParams (params : Params) : res SmbShareOptions :=
  encryptData ← parseBoolParam params "smbEncryptData";
  compressData ← parseBoolParam params "smbCompressData";
  continuouslyAvailable ← parseBoolParam params "smbContinuouslyAvailable";
  concurrentUserLimit ← parseUint32Param params "smbConcurrentUserLimit";
  cachingMode ← normalizeSmbCachingMode (param params "smbCachingMode");
  folderEnumerationMode ← normalizeSmbFolderEnumerationMode (param params "smbFolderEnumerationMode");
  Ok {| NoAccess := splitCSVParam (param params "smbNoAccess");
        smbDescription := TrimSpace (param params "smbDescription");
        EncryptData := encryptData; CompressData := compressData;
        ContinuouslyAvailable := continuouslyAvailable; CachingMode := cachingMode;
        FolderEnumerationMode := folderEnumerationMode;
        ConcurrentUserLimit := concurrentUserLimit |}.

Definition joinWindowsPath (parent0 child0 : string) : string :=
  let parent := TrimRight (TrimSpace parent0) "\/" in
  let child := TrimLeft (TrimSpace child0) "\/" in
  if parent == "" then child
  else if child == "" then parent
  else parent +:+ "\" +:+ child.
