(* ===== verification/ParamsFacts.v ===== *)
(** * Parameters: what the accepted values satisfy. *)
From S2P Require Import Prelude GoStrings GoStrconv GoNet GoStringsFacts VolumeID Params.

(** ** Pieces of a split text *)

Lemma SplitByte_nonempty s c : SplitByte s c <> [].
Proof. destruct s; simpl; repeat case_match; done. Qed.
Lemma Join_SplitByte s c : Join (SplitByte s c) (String c "") = s.
Proof.
  unfold Join. induction s as [|d s IH]; [done|]. cbn [SplitByte].
  pose proof (SplitByte_nonempty s c). destruct (d =b c) eqn:E.
  - apply Ascii.eqb_eq in E as ->. destruct (SplitByte s c); [done|].
    change (String c "" +:+ String.concat (String c "") (s0 :: l) = String c s). by rewrite IH.
  - destruct (SplitByte s c) as [|x l]; [done|]. rewrite <- IH. by destruct l.
Qed.

(** A member of a joined list, with the separators around it. *)
Lemma Join_elem l c x :
  x ∈ l ->
  exists a b, Join l (String c "") = a +:+ x +:+ b
    /\ (a = "" \/ exists a', a = a' +:+ String c "") /\ (b = "" \/ exists b', b = String c b').
Proof.
  unfold Join. induction l as [|y l IH]; [by intros ?%not_elem_of_nil|].
  rewrite elem_of_cons. destruct l as [|z l].
  - intros [-> | ?%not_elem_of_nil]; [|done]. exists "", "". cbn. rewrite app_empty_r. eauto.
  - intros [-> | Hx].
    + exists "". eexists. split_and!; [reflexivity|by left|right; by eexists].
    + destruct (IH Hx) as (a & b & E & Ha & Hb). exists (y +:+ String c a), b.
      split_and!; [|right|done].
      * change (String.concat (String c "") (y :: z :: l))
          with (y +:+ String c (String.concat (String c "") (z :: l))).
        rewrite E. by rewrite app_assoc_s.
      * destruct Ha as [-> | [a' ->]]; [by exists y|].
        exists (y +:+ String c a'). by rewrite app_assoc_s.
Qed.

Lemma Contains_app a sub b : Contains (a +:+ sub +:+ b) sub = true.
Proof.
  unfold Contains. assert (is_Some (Index (a +:+ sub +:+ b) sub)) as [? ->]; [|done].
  induction a as [|c a IH].
  - cbn [String.append]. destruct (sub +:+ b) as [|d t] eqn:E.
    + apply app_empty_inv in E as [-> _]. by eexists.
    + unfold Index. rewrite <- E, HasPrefix_app. by eexists.
  - cbn [String.append Index]. destruct (HasPrefix _ _); [by eexists|].
    destruct IH as [n ->]. by eexists.
Qed.
Lemma HasSuffix_app a suf : HasSuffix (a +:+ suf) suf = true.
Proof. unfold HasSuffix. rewrite str_rev_append. apply HasPrefix_app. Qed.

(** ** Windows paths *)

Definition path_segments (value : string) : list string :=
  SplitByte (normalized_path (TrimSpace value)) "\".

Lemma dotdot_segment s :
  ".." ∈ SplitByte s "\" ->
  s = ".." \/ Contains s "\..\" = true \/ HasSuffix s "\.." = true \/ HasPrefix s "..\" = true.
Proof.
  intros H. destruct (Join_elem _ "\"%char _ H) as (a & b & E & Ha & Hb).
  rewrite Join_SplitByte in E. subst s.
  destruct Ha as [-> | [a' ->]], Hb as [-> | [b' ->]].
  - by left.
  - right. right. right. cbn. by destruct b'.
  - right. right. left. rewrite app_assoc_s. apply (HasSuffix_app a' "\..").
  - right. left. rewrite app_assoc_s. apply (Contains_app a' "\..\" b').
Qed.

(** C35: an accepted path is absent (only where it is optional), or absolute,
    without characters Windows refuses, and without a [..] segment unless it is
    nothing but [..] behind the extended prefix. *)
Theorem validateWindowsPathParam_Ok (value : string) (required : bool) :
  validateWindowsPathParam value required = Ok tt ->
  (TrimSpace value = "" /\ required = false)
  \/ (isWindowsAbsolutePath (TrimSpace value) = true
      /\ hasInvalidWindowsPathChar (normalized_path (TrimSpace value)) = false
      /\ (".." ∈ path_segments value -> normalized_path (TrimSpace value) = "..")).
Proof.
  unfold validateWindowsPathParam, invalid. intros H.
  destruct (String.eqb_spec (TrimSpace value) "") as [E|E].
  { destruct required; [discriminate|]. by left. }
  destruct (isWindowsAbsolutePath _); [|discriminate]. cbn [negb] in H.
  destruct (_ || _)%bool eqn:Hd; [discriminate|].
  destruct (hasInvalidWindowsPathChar _) eqn:Hi; [discriminate|].
  right. split_and!; [done|done|]. intros Hs. unfold path_segments in Hs.
  go_bool. destruct (dotdot_segment _ Hs) as [? | [? | [? | ?]]]; congruence.
Qed.

Lemma validateWindowsPathParam_Ok_witness :
  validateWindowsPathParam " D:/vols/k8s " true = Ok tt
  /\ ".." ∉ path_segments " D:/vols/k8s ".
Proof.
  assert (validateWindowsPathParam " D:/vols/k8s " true = Ok tt) as H by (vm_compute; reflexivity).
  split; [exact H|].
  destruct (validateWindowsPathParam_Ok _ _ H) as [[E _] | (_ & _ & Hs)]; [by vm_compute in E|].
  intros Hin. apply Hs in Hin. by vm_compute in Hin.
Defined.

(** The exception is reached: a path that is only [..] behind a prefix written
    with forward slashes is accepted. *)
Example dotdot_accepted : validateWindowsPathParam "//?/.." true = Ok tt.
Proof. vm_compute. reflexivity. Qed.

(** Whitespace before the colon of an IQN is accepted, since the prefix is
    trimmed before it is matched. *)
Example iqn_space_accepted : validateISCSITargetName "iqn.2024-01.com.x :vol" = Ok tt.
Proof. vm_compute. reflexivity. Qed.

(** ** Capacity *)

Definition wanted_bytes (cr : CapacityRange) : Z :=
  if 0 <? RequiredBytes cr then RequiredBytes cr else Z.max 0 (LimitBytes cr).

(** C36: the size to create is the requested one (the limit if no size is
    requested), raised to the minimum; it is within the limit unless the limit
    is below the minimum, and only a request above the limit is refused. *)
Theorem requiredBytesFromRange_spec (cr : CapacityRange) (minGiB : Z) :
  0 <= minGiB < 2 ^ 33 ->
  let min := minGiB * 2 ^ 30 in
  requiredBytesFromRange None minGiB = Ok min
  /\ match requiredBytesFromRange (Some cr) minGiB with
     | Ok n => n = Z.max min (wanted_bytes cr)
               /\ (0 < LimitBytes cr -> min <= LimitBytes cr -> n <= LimitBytes cr)
     | Err e => e = StatusErr InvalidArgument "requiredBytes > limitBytes"
                /\ 0 < LimitBytes cr < RequiredBytes cr
     | Panicked => False
     end.
Proof.
  intros Hg min. unfold requiredBytesFromRange, wanted_bytes, invalid.
  assert (int64_of (Z.shiftl minGiB 30) = min) as ->.
  { rewrite Z.shiftl_mul_pow2 by lia. apply int64_of_id. unfold in_int64, min. lia. }
  assert (0 <= min) by (unfold min; lia). clearbody min. split; [done|].
  destruct cr as [req lim]. cbn [RequiredBytes LimitBytes].
  destruct (Z.ltb_spec 0 req), (Z.ltb_spec 0 lim); cbn [andb];
    repeat match goal with |- context [(?a <? ?b)%Z] => destruct (Z.ltb_spec a b) end;
    split_and?; try done; lia.
Qed.

Definition ten_gib : CapacityRange := {| RequiredBytes := 10737418240; LimitBytes := 21474836480 |}.
Lemma requiredBytesFromRange_spec_witness :
  0 <= 1 < 2 ^ 33 /\ requiredBytesFromRange None 1 = Ok (1 * 2 ^ 30).
Proof.
  assert (0 <= 1 < 2 ^ 33) as H by lia.
  exact (conj H (proj1 (requiredBytesFromRange_spec ten_gib 1 H))).
Defined.

(** A limit below one GiB is exceeded. *)
Example limit_exceeded :
  requiredBytesFromRange (Some {| RequiredBytes := 0; LimitBytes := 1048576 |}) 1 = Ok 1073741824.
Proof. vm_compute. reflexivity. Qed.

(** ** NFS authentication *)

Definition flavors : list string := ["sys"; "krb5"; "krb5i"; "krb5p"].

Lemma normalizeNfsAuthenticationFlavor_Ok v f :
  normalizeNfsAuthenticationFlavor v = Ok f -> f ∈ flavors.
Proof.
  unfold normalizeNfsAuthenticationFlavor, invalid, flavors. intros H.
  repeat case_match; simplify_eq; set_solver.
Qed.

Lemma normalize_flavors_Ok raws auth seen l :
  normalize_flavors raws auth seen = Ok l ->
  (forall f, f ∈ seen <-> f ∈ auth) -> NoDup auth -> Forall (fun f => f ∈ flavors) auth ->
  NoDup l /\ Forall (fun f => f ∈ flavors) l /\ (raws <> [] \/ auth <> [] -> l <> []).
Proof.
  revert auth seen. induction raws as [|raw raws IH]; intros auth seen H Hs Hn Hf.
  - injection H as <-. split_and!; [done..|]. by intros [|].
  - cbn [normalize_flavors] in H. apply res_bind_Ok in H as (f & Hr & H).
    apply normalizeNfsAuthenticationFlavor_Ok in Hr.
    assert (NoDup (auth ++ [f]) \/ f ∈ seen) as Hd.
    { destruct (decide (f ∈ seen)) as [|Hd]; [by right|left].
      apply NoDup_app. split_and!; [done| |apply NoDup_singleton]. set_solver. }
    destruct (decide (f ∈ seen)) as [Hin|Hin].
    + destruct (IH _ _ H Hs Hn Hf) as (? & ? & Hne). split_and!; [done..|].
      intros _. apply Hne. right. intros ->. apply Hs in Hin. by apply not_elem_of_nil in Hin.
    + destruct Hd as [Hd|]; [|done].
      destruct (IH _ _ H) as (? & ? & Hne); [set_solver|done|by apply Forall_app_2, Forall_singleton|].
      split_and!; [done..|]. intros _. apply Hne. right. by destruct auth.
Qed.

Lemma normalizeNfsAuthentication_Ok v l :
  normalizeNfsAuthentication v = Ok l ->
  NoDup l /\ Forall (fun f => f ∈ flavors) l /\ (l = [] <-> splitCSVParam v = []).
Proof.
  unfold normalizeNfsAuthentication. intros H. destruct (splitCSVParam v) as [|x xs].
  - injection H as <-. split_and!; [apply NoDup_nil_2|apply Forall_nil_2|done].
  - apply normalize_flavors_Ok in H as (? & ? & Hne);
      [|set_solver|apply NoDup_nil_2|apply Forall_nil_2].
    split_and!; [done..|]. split; [|done]. intros ->. exfalso. apply Hne; [by left|done].
Qed.

Lemma nfsKerberosAuthentication_Ok v auth m :
  nfsKerberosAuthentication v = Ok (auth, m) ->
  (auth = [] /\ m = "") \/ (auth = [m] /\ m ∈ ["krb5"; "krb5i"; "krb5p"]).
Proof.
  unfold nfsKerberosAuthentication, invalid. intros H.
  destruct (_ == ""); [injection H as <- <-; by left|].
  destruct (ParseBool _) as [[]|].
  - injection H as <- <-. right. set_solver.
  - injection H as <- <-. by left.
  - destruct (normalizeNfsAuthenticationFlavor _) as [f| |] eqn:E; try discriminate.
    apply normalizeNfsAuthenticationFlavor_Ok in E.
    destruct (String.eqb_spec f "sys"); [discriminate|]. injection H as <- <-. right.
    unfold flavors in E. set_solver.
Qed.

(** The strongest flavor of a list. *)
Lemma preferred_spec auth best :
  let m := fold_left (fun best value => if (nfs_rank best <? nfs_rank value)%Z then value else best)
             auth best in
  (m = best \/ m ∈ auth) /\ nfs_rank best <= nfs_rank m
  /\ Forall (fun f => nfs_rank f <= nfs_rank m) auth.
Proof.
  revert best. induction auth as [|v auth IH]; intros best; cbn [fold_left].
  - split_and!; [by left|lia|apply Forall_nil_2].
  - destruct (Z.ltb_spec (nfs_rank best) (nfs_rank v)) as [Hl|Hl].
    + destruct (IH v) as (H1 & H2 & H3). split_and!; [set_solver|lia|].
      apply Forall_cons. split; [lia|done].
    + destruct (IH best) as (H1 & H2 & H3). split_and!; [set_solver|lia|].
      apply Forall_cons. split; [lia|done].
Qed.

Lemma preferredNfsMountAuthentication_spec auth :
  let m := preferredNfsMountAuthentication auth in
  (m = "" \/ m ∈ auth) /\ Forall (fun f => nfs_rank f <= nfs_rank m) auth.
Proof. destruct (preferred_spec auth "") as (H1 & _ & H3). by split. Qed.

(** The explicit mount flavor of the parameters. *)
Definition explicit_mount (params : Params) : option string :=
  let '(v, ok) := getStringParam params "nfsMountAuthentication" in if ok then Some v else None.

(** The flavors of the options are known and distinct; the mount flavor is
    the explicit one if the list of flavors was given too, and otherwise the
    strongest of the list (none if it is empty). *)
Theorem nfsOptionsFromParams_authentication (params : Params) (o : NfsShareOptions) :
  nfsOptionsFromParams params = Ok o ->
  NoDup (Authentication o) /\ Forall (fun f => f ∈ flavors) (Authentication o)
  /\ MountAuthentication o
     = match explicit_mount params with
       | Some v => if decide (splitCSVParam (nfsAuthenticationParam params) = [])
                   then preferredNfsMountAuthentication (Authentication o)
                   else match normalizeNfsAuthenticationFlavor v with Ok f => f | _ => "" end
       | None => preferredNfsMountAuthentication (Authentication o)
       end.
Proof.
  unfold nfsOptionsFromParams, explicit_mount. intros H.
  do 6 (apply res_bind_Ok in H as (? & _ & H)).
  apply res_bind_Ok in H as (auth & Ha & H). apply normalizeNfsAuthentication_Ok in Ha as (Hn & Hf & Hc).
  apply res_bind_Ok in H as (m & Hm & H). apply res_bind_Ok in H as ([auth' m'] & Hk & H).
  apply res_bind_Ok in H as (ct & _ & H). injection H as <-. cbn [Authentication MountAuthentication].
  destruct (getStringParam params "nfsMountAuthentication") as [v ok].
  destruct auth as [|a auth].
  - assert (splitCSVParam (nfsAuthenticationParam params) = []) as Hs by (by apply Hc).
    assert (NoDup auth' /\ Forall (fun f => f ∈ flavors) auth'
            /\ (m' = "" \/ m' = preferredNfsMountAuthentication auth')) as (? & ? & Hm').
    { apply nfsKerberosAuthentication_Ok in Hk as [[-> ->] | [-> Hin]].
      - split_and!; [apply NoDup_nil_2|apply Forall_nil_2|by left].
      - split_and!; [apply NoDup_singleton|apply Forall_singleton; unfold flavors; set_solver|right].
        assert (m' = "krb5" \/ m' = "krb5i" \/ m' = "krb5p") as [-> | [-> | ->]] by set_solver; done. }
    split_and!; [done..|].
    assert ((if m' == "" then preferredNfsMountAuthentication auth' else m')
            = preferredNfsMountAuthentication auth') as ->.
    { destruct (String.eqb_spec m' ""); [done|]. by destruct Hm'. }
    destruct ok; [by rewrite decide_True|done].
  - injection Hk as <- <-. split_and!; [done..|]. destruct ok; [|by injection Hm as <-].
    rewrite decide_False by (intros Hs; by apply Hc in Hs).
    destruct (normalizeNfsAuthenticationFlavor v) as [f| |] eqn:E; try discriminate.
    injection Hm as ->. apply normalizeNfsAuthenticationFlavor_Ok in E.
    destruct (String.eqb_spec m ""); [|done]. subst. unfold flavors in E. set_solver.
Qed.

Definition nfs_params : Params :=
  list_to_map [("nfsAuthentication", "sys, krb5i,SYS"); ("nfsMountAuthentication", "KRB5p")].
Lemma nfsOptionsFromParams_authentication_witness :
  exists o, nfsOptionsFromParams nfs_params = Ok o /\ NoDup (Authentication o)
    /\ Authentication o = ["sys"; "krb5i"] /\ MountAuthentication o = "krb5p".
Proof.
  destruct (nfsOptionsFromParams nfs_params) as [o|e|] eqn:E; [|by vm_compute in E..].
  exists o. split; [done|].
  split; [exact (proj1 (nfsOptionsFromParams_authentication _ o E))|].
  vm_compute in E. injection E as <-. by split.
Defined.

(** The explicit mount flavor is lost when the list of flavors is not given. *)
Example explicit_mount_lost :
  exists o, nfsOptionsFromParams (list_to_map [("nfsMountAuthentication", "krb5p")]) = Ok o
            /\ MountAuthentication o = "".
Proof. eexists. by vm_compute. Qed.
