(* ===== verification/Chap.v ===== *)
(** * CHAP secrets ([pkg/iscsi/controllerserver.go])

    The credentials of a request are checked in pairs, and the target's options
    are made from the session pair and its reverse. *)
From S2P Require Import Prelude GoStrings Params.

Definition chapSecretMinLength : Z := 12.
Definition chapSecretMaxLength : Z := 16.

Definition validateSecretPrintable (value : string) : res unit :=
  if ContainsFunc value IsControl then invalid "%s must not contain control characters" else Ok tt.

Definition validateChapSecretValue (value : string) : res unit :=
  _ ← validateSecretPrintable value;
  let length := Z.of_nat (String.length value) in
  if ((length <? chapSecretMinLength) || (chapSecretMaxLength <? length))%Z%bool
  then invalid "%s must be between 12 and 16 characters" else Ok tt.

Definition validateChapUsernameValue (value : string) : res unit :=
  _ ← validateSecretPrintable value;
  if (223 <? Z.of_nat (String.length value))%Z then invalid "%s must be no more than 223 characters"
  else if ContainsFunc value IsSpace then invalid "%s must not contain whitespace"
  else Ok tt.

Definition validateChapCredentialPair (secrets : Params) (userKey passwordKey : string)
  : res (string * string * bool) :=
  let user := TrimSpace (param secrets userKey) in
  let password := TrimSpace (param secrets passwordKey) in
  if ((user == "") && (password == ""))%bool then Ok ("", "", false)
  else if ((user == "") || (password == ""))%bool then invalid "%s and %s must both be set"
  else
    _ ← validateChapUsernameValue user;
    _ ← validateChapSecretValue password;
    Ok (user, password, true).

Definition validateChapSecrets (secrets : Params) : res unit :=
  '(_, _, discoveryConfigured) ← validateChapCredentialPair secrets
     "discovery.sendtargets.auth.username" "discovery.sendtargets.auth.password";
  '(_, _, discoveryReverseConfigured) ← validateChapCredentialPair secrets
     "discovery.sendtargets.auth.username_in" "discovery.sendtargets.auth.password_in";
  if (discoveryReverseConfigured && negb discoveryConfigured)%bool then
    invalid "discovery reverse CHAP requires discovery.sendtargets.auth.username and discovery.sendtargets.auth.password"
  else
    '(_, _, sessionConfigured) ← validateChapCredentialPair secrets
       "node.session.auth.username" "node.session.auth.password";
    '(_, _, reverseConfigured) ← validateChapCredentialPair secrets
       "node.session.auth.username_in" "node.session.auth.password_in";
    if (reverseConfigured && negb sessionConfigured)%bool then
      invalid "reverse CHAP requires node.session.auth.username and node.session.auth.password"
    else Ok tt.

Definition targetChapOptionsFromSecrets (secrets : Params) : res TargetChapOptions :=
  _ ← validateChapSecrets secrets;
  let chapUser := TrimSpace (param secrets "node.session.auth.username") in
  let chapSecret := TrimSpace (param secrets "node.session.auth.password") in
  let reverseChapUser := TrimSpace (param secrets "node.session.auth.username_in") in
  let reverseChapSecret := TrimSpace (param secrets "node.session.auth.password_in") in
  opts ←
    (if ((chapUser != "") || (chapSecret != ""))%bool then
       if ((chapUser == "") || (chapSecret == ""))%bool then
         invalid "node.session.auth.username and node.session.auth.password must both be set for Windows target CHAP"
       else Ok {| ChapUser := chapUser; ChapSecret := chapSecret;
                  ReverseChapUser := ""; ReverseChapSecret := "" |}
     else Ok zero_TargetChapOptions);
  if ((reverseChapUser != "") || (reverseChapSecret != ""))%bool then
    if ((reverseChapUser == "") || (reverseChapSecret == ""))%bool then
      invalid "node.session.auth.username_in and node.session.auth.password_in must both be set for Windows target reverse CHAP"
    else if ChapUser opts == "" then
      invalid "reverse CHAP requires node.session.auth.username and node.session.auth.password"
    else Ok {| ChapUser := ChapUser opts; ChapSecret := ChapSecret opts;
               ReverseChapUser := reverseChapUser; ReverseChapSecret := reverseChapSecret |}
  else Ok opts.

(** ** What accepted secrets satisfy *)

Definition good_user (u : string) : Prop :=
  u <> "" /\ Z.of_nat (String.length u) <= 223 /\ ContainsFunc u IsSpace = false
  /\ ContainsFunc u IsControl = false.
Definition good_secret (p : string) : Prop :=
  12 <= Z.of_nat (String.length p) <= 16 /\ ContainsFunc p IsControl = false.
(** A pair is absent or complete and well formed. *)
Definition pair_ok (u p : string) : Prop := (u = "" /\ p = "") \/ (good_user u /\ good_secret p).

Lemma validateSecretPrintable_Ok v u :
  validateSecretPrintable v = Ok u -> ContainsFunc v IsControl = false.
Proof. unfold validateSecretPrintable. by destruct (ContainsFunc v IsControl). Qed.

Lemma validateChapSecretValue_Ok v u : validateChapSecretValue v = Ok u -> good_secret v.
Proof.
  intros H. apply res_bind_Ok in H as (? & H1 & H). apply validateSecretPrintable_Ok in H1.
  unfold chapSecretMinLength, chapSecretMaxLength in H. case_match; [discriminate|].
  go_bool. split; [lia|done].
Qed.
Lemma validateChapUsernameValue_Ok v u :
  v <> "" -> validateChapUsernameValue v = Ok u -> good_user v.
Proof.
  intros Hv H. apply res_bind_Ok in H as (? & H1 & H). apply validateSecretPrintable_Ok in H1.
  repeat case_match; try discriminate. go_bool. by split_and!.
Qed.

Lemma validateChapCredentialPair_Ok secrets uk pk u p c :
  validateChapCredentialPair secrets uk pk = Ok (u, p, c) ->
  c = (TrimSpace (param secrets uk) != "")
  /\ pair_ok (TrimSpace (param secrets uk)) (TrimSpace (param secrets pk)).
Proof.
  unfold validateChapCredentialPair. intros H.
  destruct (String.eqb_spec (TrimSpace (param secrets uk)) "") as [Eu|Eu];
    destruct (String.eqb_spec (TrimSpace (param secrets pk)) "") as [Ep|Ep];
    cbn [andb orb] in H; try discriminate.
  - injection H as <- <- <-. split; [done|]. left. by split.
  - apply res_bind_Ok in H as (? & H1 & H). apply res_bind_Ok in H as (? & H2 & H).
    injection H as <- <- <-. split; [done|]. right. split.
    + by eapply validateChapUsernameValue_Ok.
    + by eapply validateChapSecretValue_Ok.
Qed.

(** C37: options made from secrets are complete pairs of well-formed credentials,
    a reverse pair comes with a forward one, and they are exactly the trimmed
    session secrets. *)
Theorem targetChapOptionsFromSecrets_Ok (secrets : Params) (o : TargetChapOptions) :
  targetChapOptionsFromSecrets secrets = Ok o ->
  pair_ok (ChapUser o) (ChapSecret o) /\ pair_ok (ReverseChapUser o) (ReverseChapSecret o)
  /\ (ReverseChapUser o <> "" -> ChapUser o <> "")
  /\ ChapUser o = TrimSpace (param secrets "node.session.auth.username")
  /\ ChapSecret o = TrimSpace (param secrets "node.session.auth.password")
  /\ ReverseChapUser o = TrimSpace (param secrets "node.session.auth.username_in")
  /\ ReverseChapSecret o = TrimSpace (param secrets "node.session.auth.password_in").
Proof.
  unfold targetChapOptionsFromSecrets. intros H. apply res_bind_Ok in H as ([] & Hv & H).
  unfold validateChapSecrets in Hv.
  apply res_bind_Ok in Hv as ([[? ?] ?] & _ & Hv). apply res_bind_Ok in Hv as ([[? ?] ?] & _ & Hv).
  destruct (_ && _)%bool; [discriminate|].
  apply res_bind_Ok in Hv as ([[? ?] c1] & H1 & Hv). apply res_bind_Ok in Hv as ([[? ?] c2] & H2 & Hv).
  apply validateChapCredentialPair_Ok in H1 as [-> H1].
  apply validateChapCredentialPair_Ok in H2 as [-> H2].
  destruct (_ && _)%bool eqn:Hc in Hv; [discriminate|]. clear Hv.
  set (u := TrimSpace (param secrets "node.session.auth.username")) in *.
  set (p := TrimSpace (param secrets "node.session.auth.password")) in *.
  set (ru := TrimSpace (param secrets "node.session.auth.username_in")) in *.
  set (rp := TrimSpace (param secrets "node.session.auth.password_in")) in *.
  clearbody u p ru rp. apply res_bind_Ok in H as (o1 & Ho & H).
  assert (o1 = {| ChapUser := u; ChapSecret := p; ReverseChapUser := ""; ReverseChapSecret := "" |}) as ->.
  { destruct (String.eqb_spec u ""), (String.eqb_spec p ""); simpl in Ho; simplify_eq; done. }
  cbn [ChapUser ChapSecret] in H.
  destruct (String.eqb_spec ru ""), (String.eqb_spec rp ""), (String.eqb_spec u "");
    simpl in H, Hc; try discriminate; injection H as <-; simpl; subst; by split_and!.
Qed.

Definition example_secrets : Params :=
  list_to_map [("node.session.auth.username", " user "); ("node.session.auth.password", "secret-12345");
               ("node.session.auth.username_in", "target"); ("node.session.auth.password_in", "reverse-123456")].

Lemma targetChapOptionsFromSecrets_Ok_witness :
  exists o, targetChapOptionsFromSecrets example_secrets = Ok o
    /\ pair_ok (ChapUser o) (ChapSecret o) /\ ChapUser o = "user".
Proof.
  destruct (targetChapOptionsFromSecrets example_secrets) as [o|e|] eqn:E; [|by vm_compute in E..].
  exists o. split; [done|].
  split; [exact (proj1 (targetChapOptionsFromSecrets_Ok _ o E))|].
  vm_compute in E. injection E as <-. reflexivity.
Defined.
