(* ===== verification/Prog.v ===== *)
(** * Programs that call services

    A Go function that calls a backend, the Kubernetes API or a command is a tree
    of calls: each call has a request and continues with the response.  Theorems
    about such a function quantify over all responses, so over all services. *)
From S2P Require Import Prelude.

(** The requests of a service and the type of each response. *)
Record service := Service { op : Type; resp : op -> Type }.

Inductive prog (E : service) (A : Type) : Type :=
| Ret (a : A)
| Do (o : op E) (k : resp E o -> prog E A).
Arguments Ret {_ _} _.
Arguments Do {_ _} _ _.

Fixpoint prog_bind {E A B} (p : prog E A) (f : A -> prog E B) : prog E B :=
  match p with
  | Ret a => f a
  | Do o k => Do o (fun r => prog_bind (k r) f)
  end.

(** A fallible program: its result is a Go result, an error or a panic. *)
Definition go (E : service) (A : Type) : Type := prog E (res A).

#[export] Instance go_ret {E} : MRet (go E) := fun A a => Ret (Ok a).
#[export] Instance go_bind {E} : MBind (go E) := fun A B f m =>
  prog_bind m (fun r => match r with
                        | Ok a => f a
                        | Err e => Ret (Err e)
                        | Panicked => Ret Panicked
                        end).

Definition lift {E A} (r : res A) : go E A := Ret r.
Definition fail {E A} (c : Code) (format : string) : go E A := Ret (Err (StatusErr c format)).
Definition ok {E A} (a : A) : go E A := Ret (Ok a).
Definition call {E} (o : op E) : go E (resp E o) := Do o (fun r => Ret (Ok r)).
(** A branch on the outcome of a program, where the code handles the error. *)
Definition catch {E A B} (m : go E A) (f : res A -> go E B) : go E B := prog_bind m f.

Definition if_err {E A} (failed : bool) (c : Code) (format : string) (k : go E A) : go E A :=
  if failed then fail c format else k.

(** ** Running against a service

    A handler answers a request in a state; the log has the requests in order. *)
Definition handler (E : service) (S : Type) : Type := forall o : op E, S -> resp E o * S.

Fixpoint run {E S A} (h : handler E S) (p : prog E A) (s : S) : A * S * list (op E) :=
  match p with
  | Ret a => (a, s, [])
  | Do o k =>
      let '(r, s1) := h o s in
      let '(a, s2, log) := run h (k r) s1 in
      (a, s2, o :: log)
  end.

Lemma run_bind {E S A B} (h : handler E S) (p : prog E A) (f : A -> prog E B) s :
  run h (prog_bind p f) s =
  let '(a, s1, l1) := run h p s in
  let '(b, s2, l2) := run h (f a) s1 in (b, s2, l1 ++ l2).
Proof.
  revert s. induction p as [a|o k IH]; intros s; simpl.
  - destruct (run h (f a) s) as [[b s2] l2]. done.
  - destruct (h o s) as [r s1]. rewrite IH.
    destruct (run h (k r) s1) as [[a s2] l1]. by destruct (run h (f a) s2) as [[b s3] l2].
Qed.

(** ** Safety with a monitor

    A monitor watches the calls: it says which requests are allowed in its state,
    which responses the service may give, and moves on each response.
    [safe m s p Q]: whatever admissible responses come, [p] started in monitor
    state [s] makes allowed requests only, and its result satisfies [Q] in the
    state it ends in. *)
Record monitor (E : service) (M : Type) := Monitor {
  allowed : M -> op E -> Prop;
  assumed : forall (s : M) (o : op E), resp E o -> Prop;
  step : forall (s : M) (o : op E), resp E o -> M
}.
Arguments allowed {_ _} _ _ _.
Arguments assumed {_ _} _ _ _ _.
Arguments step {_ _} _ _ _ _.

Fixpoint safe {E M A} (m : monitor E M) (s : M) (p : prog E A) (Q : A -> M -> Prop) : Prop :=
  match p with
  | Ret a => Q a s
  | Do o k => allowed m s o /\ forall r, assumed m s o r -> safe m (step m s o r) (k r) Q
  end.

Lemma safe_mono {E M A} (m : monitor E M) s (p : prog E A) (Q Q' : A -> M -> Prop) :
  safe m s p Q -> (forall a s', Q a s' -> Q' a s') -> safe m s p Q'.
Proof.
  intros H HQ. revert s H. induction p as [a|o k IH]; intros s; simpl; [apply HQ|].
  intros [Ha Hk]. split; [done|]. intros r Hr. by apply IH, Hk.
Qed.

Lemma safe_prog_bind {E M A B} (m : monitor E M) s (p : prog E A) (f : A -> prog E B) Q :
  safe m s p (fun a s' => safe m s' (f a) Q) -> safe m s (prog_bind p f) Q.
Proof.
  revert s. induction p as [a|o k IH]; intros s; simpl; [done|].
  intros [Ha Hk]. split; [done|]. intros r Hr. by apply IH, Hk.
Qed.

Lemma safe_conj {E M A} (m : monitor E M) s (p : prog E A) (Q1 Q2 : A -> M -> Prop) :
  safe m s p Q1 -> safe m s p Q2 -> safe m s p (fun a s' => Q1 a s' /\ Q2 a s').
Proof.
  revert s. induction p as [a|o k IH]; intros s; [done|]. intros [Ha H1] [_ H2]. split; [done|].
  intros r Hr. apply IH; auto.
Qed.

(** The rule for a sequence: an error or a panic stops it. *)
Lemma safe_bind {E M A B} (m : monitor E M) s (p : go E A) (f : A -> go E B) (Q : res B -> M -> Prop) :
  safe m s p (fun r s' => match r with
                          | Ok a => safe m s' (f a) Q
                          | Err e => Q (Err e) s'
                          | Panicked => Q Panicked s'
                          end) ->
  safe m s (p ≫= f) Q.
Proof.
  intros H. unfold mbind, go_bind. apply safe_prog_bind.
  eapply safe_mono; [exact H|]. by intros [a|e|] s'.
Qed.

(** A handler implements a monitor when its answers to allowed requests are
    admissible, [R] relating the two states. *)
Definition implements {E M S} (m : monitor E M) (h : handler E S) (R : M -> S -> Prop) : Prop :=
  forall ms s o, R ms s -> allowed m ms o ->
    assumed m ms o (fst (h o s)) /\ R (step m ms o (fst (h o s))) (snd (h o s)).

(** The requests of a log are allowed, one after the other, up to state [ms']. *)
Fixpoint log_allowed {E M S} (m : monitor E M) (h : handler E S) (ms : M) (s : S)
  (log : list (op E)) (ms' : M) : Prop :=
  match log with
  | [] => ms' = ms
  | o :: rest =>
      allowed m ms o /\ log_allowed m h (step m ms o (fst (h o s))) (snd (h o s)) rest ms'
  end.

(** What [safe] says of a run. *)
Lemma safe_run {E M S A} (m : monitor E M) (h : handler E S) (R : M -> S -> Prop) ms s
  (p : prog E A) Q :
  implements m h R -> R ms s -> safe m ms p Q ->
  let '(a, s', log) := run h p s in
  exists ms', log_allowed m h ms s log ms' /\ R ms' s' /\ Q a ms'.
Proof.
  intros Hi. revert ms s. induction p as [a|o k IH]; intros ms s HR; simpl; [by exists ms|].
  intros [Ha Hk]. destruct (Hi ms s o HR Ha) as [Hr HR'].
  destruct (h o s) as [r s1] eqn:E1. cbn [fst snd] in *.
  specialize (IH r (step m ms o r) s1 HR' (Hk r Hr)).
  destruct (run h (k r) s1) as [[a s2] log]. destruct IH as (ms' & ? & ? & ?).
  exists ms'. simpl. by rewrite E1.
Qed.

(** A monitor without state: every request satisfies [P]. *)
Definition every {E} (P : op E -> Prop) : monitor E unit :=
  {| allowed := fun _ o => P o; assumed := fun _ _ _ => True; step := fun s _ _ => s |}.
Definition only {E A} (P : op E -> Prop) (p : prog E A) : Prop :=
  safe (every P) tt p (fun _ _ => True).

Lemma only_run {E S A} (P : op E -> Prop) (h : handler E S) (p : prog E A) s :
  only P p -> Forall P (snd (run h p s)).
Proof.
  unfold only. revert s. induction p as [a|o k IH]; intros s; simpl; [by constructor|].
  intros [Ha Hk]. destruct (h o s) as [r s1]. specialize (IH r s1 (Hk r I)).
  destruct (run h (k r) s1) as [[a s2] log]. by constructor.
Qed.
Lemma only_bind {E A B} (P : op E -> Prop) (p : go E A) (f : A -> go E B) :
  only P p -> (forall a, only P (f a)) -> only P (p ≫= f).
Proof.
  intros Hp Hf. apply safe_bind. eapply safe_mono; [exact Hp|].
  intros [a|e|] [] _; [apply Hf|done..].
Qed.
Lemma only_weaken {E A} (P P' : op E -> Prop) (p : prog E A) :
  (forall o, P o -> P' o) -> only P p -> only P' p.
Proof.
  intros H. unfold only. induction p as [a|o k IH]; simpl; [done|]. intros [Ho Hk].
  split; [by apply H|]. intros r Hr. by apply IH, Hk.
Qed.
Lemma only_ret {E A} (P : op E -> Prop) (a : A) : only P (Ret a : prog E A).
Proof. done. Qed.

(** A sequence of handled calls, one after the other. *)
Lemma run_call_bind {E S A} (h : handler E S) (o : op E) (f : resp E o -> go E A) s :
  run h (call o ≫= f) s =
  let '(r, s1) := h o s in
  let '(a, s2, log) := run h (f r) s1 in (a, s2, o :: log).
Proof. unfold mbind, go_bind, call. reflexivity. Qed.

(** ** Methods

    A method with a pointer receiver: it may change the receiver, whether it
    succeeds or not. *)
Definition method (E : service) (S A : Type) : Type := S -> prog E (res A * S).

#[export] Instance method_ret {E S} : MRet (method E S) := fun A a s => Ret (Ok a, s).
#[export] Instance method_bind {E S} : MBind (method E S) := fun A B f m s =>
  prog_bind (m s) (fun '(r, s') => match r with
                                   | Ok a => f a s'
                                   | Err e => Ret (Err e, s')
                                   | Panicked => Ret (Panicked, s')
                                   end).

Definition self {E S} : method E S S := fun s => Ret (Ok s, s).
Definition update {E S} (f : S -> S) : method E S unit := fun s => Ret (Ok tt, f s).
(** A call that does not touch the receiver. *)
Definition doing {E S A} (m : go E A) : method E S A := fun s =>
  prog_bind m (fun r => Ret (r, s)).
(** The same, handing the error to the code that follows. *)
Definition handling {E S A} (m : go E A) : method E S (res A) := fun s =>
  prog_bind m (fun r => match r with Panicked => Ret (Panicked, s) | r => Ret (Ok r, s) end).
Definition returning {E S A} (r : res A) : method E S A := fun s => Ret (r, s).

Lemma safe_method_bind {E M S A B} (m : monitor E M) ms (s : S) (p : method E S A)
  (f : A -> method E S B) Q :
  safe m ms (p s) (fun '(r, s') ms' => match r with
                               | Ok a => safe m ms' (f a s') Q
                               | Err e => Q (Err e, s') ms'
                               | Panicked => Q (Panicked, s') ms'
                               end) ->
  safe m ms ((p ≫= f) s) Q.
Proof.
  intros H. unfold mbind, method_bind. apply safe_prog_bind.
  eapply safe_mono; [exact H|]. by intros [[a|e|] s'] ms'.
Qed.

Lemma safe_doing {E M S A} (m : monitor E M) ms (s : S) (p : go E A) Q :
  safe m ms p (fun r ms' => Q (r, s) ms') -> safe m ms (doing p s) Q.
Proof. intros H. apply safe_prog_bind. eapply safe_mono; [exact H|]. done. Qed.

(** One monitor follows another: what the first allows the second allows, and their
    states stay related. *)
Lemma safe_refine {E M N A} (m : monitor E M) (m' : monitor E N) (R : M -> N -> Prop) ms ns
  (p : prog E A) Q :
  (forall ms ns o, R ms ns -> allowed m ms o ->
     allowed m' ns o /\ forall r, assumed m' ns o r ->
       assumed m ms o r /\ R (step m ms o r) (step m' ns o r)) ->
  R ms ns -> safe m ms p Q -> safe m' ns p (fun a ns' => exists ms', R ms' ns' /\ Q a ms').
Proof.
  intros Hm. revert ms ns. induction p as [a|o k IH]; intros ms ns HR; simpl; [by exists ms|].
  intros [Ha Hk]. destruct (Hm ms ns o HR Ha) as [Ha' Hr]. split; [done|]. intros r Har.
  destruct (Hr r Har). by eapply IH; [|apply Hk].
Qed.
Lemma only_any {E A} (p : prog E A) : only (fun _ => True) p.
Proof. unfold only. induction p as [a|o k IH]; simpl; [done|]. by split; [|intros r _; apply IH]. Qed.

(** ** Linking

    A service may be implemented by programs over another one: each request is
    replaced by its program. *)
Fixpoint interp {E F A} (h : forall o : op E, prog F (resp E o)) (p : prog E A) : prog F A :=
  match p with
  | Ret a => Ret a
  | Do o k => prog_bind (h o) (fun r => interp h (k r))
  end.

(** If each allowed request has a program that is safe below and answers as
    assumed above, a client that is safe above is safe below once it is linked. *)
Lemma safe_interp {E F M N A} (m : monitor E M) (m' : monitor F N)
  (h : forall o : op E, prog F (resp E o)) (R : M -> N -> Prop) ms ns (p : prog E A) Q :
  (forall ms ns o, R ms ns -> allowed m ms o ->
     safe m' ns (h o) (fun r ns' => assumed m ms o r /\ R (step m ms o r) ns')) ->
  R ms ns -> safe m ms p Q ->
  safe m' ns (interp h p) (fun a ns' => exists ms', R ms' ns' /\ Q a ms').
Proof.
  intros Hh. revert ms ns. induction p as [a|o k IH]; intros ms ns HR; simpl; [by exists ms|].
  intros [Ha Hk]. apply safe_prog_bind. eapply safe_mono; [exact (Hh ms ns o HR Ha)|].
  intros r ns' [Hr HR']. exact (IH r (step m ms o r) ns' HR' (Hk r Hr)).
Qed.
