(* ===== verification/Interleaving.v ===== *)
(** * Two programs at the same time

    The gRPC server runs RPCs concurrently: two programs take turns, request by
    request, on one service.  [run_two] runs them by a schedule; [interleaved] has all
    schedules and all admissible responses.  A program is proved against what others
    may do between its requests ([rely]) and with what it does to the state
    ([guarantee]). *)
From S2P Require Import Prelude Prog.

Section two.
Context {E : service} {M A B : Type} (m : monitor E M).

Inductive interleaved : M -> prog E A -> prog E B -> A -> B -> M -> Prop :=
| both_done s a b : interleaved s (Ret a) (Ret b) a b s
| left_step s o r k q a b s' :
    allowed m s o -> assumed m s o r -> interleaved (step m s o r) (k r) q a b s' ->
    interleaved s (Do o k) q a b s'
| right_step s p o r k a b s' :
    allowed m s o -> assumed m s o r -> interleaved (step m s o r) p (k r) a b s' ->
    interleaved s p (Do o k) a b s'.
End two.
#[export] Hint Constructors interleaved : godb.

(** By a schedule: [true] lets the first program make a request.  A program that is done,
    and the rest of the schedule, let the other one finish. *)
Fixpoint run_two {E S A B} (sched : list bool) (h : handler E S) (p : prog E A) (q : prog E B) (s : S)
  : A * B * S * list (op E) :=
  match sched, p, q with
  | true :: sched, Do o k, q =>
      let '(r, s1) := h o s in
      let '(a, b, s2, log) := run_two sched h (k r) q s1 in (a, b, s2, o :: log)
  | false :: sched, p, Do o k =>
      let '(r, s1) := h o s in
      let '(a, b, s2, log) := run_two sched h p (k r) s1 in (a, b, s2, o :: log)
  | _, p, q =>
      let '(a, s1, log1) := run h p s in
      let '(b, s2, log2) := run h q s1 in (a, b, s2, log1 ++ log2)
  end.

Section runs.
Context {E : service} {M S A B : Type} (m : monitor E M) (h : handler E S) (R : M -> S -> Prop).
Hypothesis Hh : implements m h R.
Hypothesis Hall : forall ms o, allowed m ms o.

Lemma run_right_interleaved (q : prog E B) a : forall ms s,
  R ms s -> let '(b, s', _) := run h q s in
  exists ms', R ms' s' /\ interleaved m ms (Ret a : prog E A) q a b ms'.
Proof.
  induction q as [b|o k IH]; intros ms s HR; cbn [run]; [exists ms; eauto with godb|].
  destruct (Hh ms s o HR (Hall _ _)) as [Ha HR']. destruct (h o s) as [r s1]. cbn [fst snd] in *.
  pose proof (IH r _ _ HR') as H. destruct (run h (k r) s1) as [[b s2] log].
  destruct H as (ms' & ? & ?). exists ms'. eauto with godb.
Qed.
Lemma run_left_interleaved (p : prog E A) (q : prog E B) : forall ms s,
  R ms s -> let '(a, s1, _) := run h p s in let '(b, s', _) := run h q s1 in
  exists ms', R ms' s' /\ interleaved m ms p q a b ms'.
Proof.
  induction p as [a|o k IH]; intros ms s HR; cbn [run]; [by apply run_right_interleaved|].
  destruct (Hh ms s o HR (Hall _ _)) as [Ha HR']. destruct (h o s) as [r s1]. cbn [fst snd] in *.
  pose proof (IH r _ _ HR') as H. destruct (run h (k r) s1) as [[a s2] log1].
  destruct (run h q s2) as [[b s3] log2]. destruct H as (ms' & ? & ?). exists ms'. eauto with godb.
Qed.
(** A run by a schedule is an interleaving. *)
Lemma run_two_interleaved sched : forall (p : prog E A) (q : prog E B) ms s,
  R ms s -> let '(a, b, s', _) := run_two sched h p q s in
  exists ms', R ms' s' /\ interleaved m ms p q a b ms'.
Proof.
  induction sched as [|[] sched IH]; intros p q ms s HR.
  - pose proof (run_left_interleaved p q ms s HR) as H. cbn [run_two].
    destruct (run h p s) as [[a s1] l1]. by destruct (run h q s1) as [[b s2] l2].
  - destruct p as [a|o k].
    + pose proof (run_right_interleaved q a ms s HR) as H. cbn [run_two run].
      by destruct (run h q s) as [[b s2] l2].
    + cbn [run_two]. destruct (Hh ms s o HR (Hall _ _)) as [Ha HR']. destruct (h o s) as [r s1].
      cbn [fst snd] in *. pose proof (IH (k r) q _ _ HR') as H.
      destruct (run_two sched h (k r) q s1) as [[[a b] s2] log].
      destruct H as (ms' & ? & ?). exists ms'. eauto with godb.
  - destruct q as [b|o k].
    + pose proof (run_left_interleaved p (Ret b) ms s HR) as H. destruct p; cbn [run_two run] in *;
        [done|]. destruct (h o s) as [r s1]. by destruct (run h (k r) s1) as [[a s2] l2].
    + assert (forall x, run_two (false :: sched) h p (Do o k) s = x ->
              let '(a, b, s', _) := x in exists ms', R ms' s' /\ interleaved m ms p (Do o k) a b ms') as H.
      { intros x <-. destruct (Hh ms s o HR (Hall _ _)) as [Ha HR'].
        assert (run_two (false :: sched) h p (Do o k) s =
                let '(r, s1) := h o s in
                let '(a, b, s2, log) := run_two sched h p (k r) s1 in (a, b, s2, o :: log)) as -> by by destruct p.
        destruct (h o s) as [r s1]. cbn [fst snd] in *. pose proof (IH p (k r) _ _ HR') as H.
        destruct (run_two sched h p (k r) s1) as [[[a b] s2] log].
        destruct H as (ms' & ? & ?). exists ms'. eauto with godb. }
      by apply H.
Qed.
End runs.

(** ** Rely and guarantee *)

Section rely.
Context {E : service} {M : Type} (m : monitor E M) (rely : relation M) `{!PreOrder rely}.

(** Others may take the state along [rely] at any time; so does the program itself with
    each of its requests, and its result satisfies [Q] from then on. *)
Fixpoint amid {A} (s : M) (p : prog E A) (Q : A -> M -> Prop) : Prop :=
  match p with
  | Ret a => forall s1, rely s s1 -> Q a s1
  | Do o k => forall s1, rely s s1 ->
      allowed m s1 o /\ forall r, assumed m s1 o r ->
        rely s1 (step m s1 o r) /\ amid (step m s1 o r) (k r) Q
  end.

Lemma amid_rely {A} s s1 (p : prog E A) Q : amid s p Q -> rely s s1 -> amid s1 p Q.
Proof. intros Hp Hs. destruct p; simpl in *; intros s2 H2; apply Hp; by etrans. Qed.
Lemma amid_mono {A} s (p : prog E A) (Q Q' : A -> M -> Prop) :
  amid s p Q -> (forall a s', Q a s' -> Q' a s') -> amid s p Q'.
Proof.
  intros Hp HQ. revert s Hp. induction p as [a|o k IH]; intros s Hp s1 H1; simpl in *; [by apply HQ, Hp|].
  destruct (Hp s1 H1) as [Ha Hk]. split; [done|]. intros r Hr. destruct (Hk r Hr) as [? Hk'].
  split; [done|]. by apply IH.
Qed.
(** What others do not change, and the program itself does not either, stays true. *)
Lemma amid_frame {A} s (p : prog E A) (Q : A -> M -> Prop) (P : M -> Prop) :
  (forall s1 s2, P s1 -> rely s1 s2 -> P s2) -> P s -> amid s p Q -> amid s p (fun a s' => Q a s' /\ P s').
Proof.
  intros HP. revert s. induction p as [a|o k IH]; intros s Hs Hp s1 H1; simpl in *.
  - split; [by apply Hp|by eapply HP].
  - destruct (Hp s1 H1) as [Ha Hk]. split; [done|]. intros r Hr. destruct (Hk r Hr) as [H2 Hk'].
    split; [done|]. apply IH; [|done]. eapply HP; [|exact H2]. by eapply HP.
Qed.
Lemma amid_prog_bind {A B} s (p : prog E A) (f : A -> prog E B) Q :
  amid s p (fun a s' => amid s' (f a) Q) -> amid s (prog_bind p f) Q.
Proof.
  revert s. induction p as [a|o k IH]; intros s Hp; simpl in *; [by apply Hp|].
  intros s1 H1. destruct (Hp s1 H1) as [Ha Hk]. split; [done|]. intros r Hr.
  destruct (Hk r Hr) as [? Hk']. split; [done|]. by apply IH.
Qed.
Lemma amid_bind {A B} s (p : go E A) (f : A -> go E B) (Q : res B -> M -> Prop) :
  amid s p (fun r s' => match r with
                        | Ok a => amid s' (f a) Q
                        | Err e => Q (Err e) s'
                        | Panicked => Q Panicked s'
                        end) ->
  (forall r s1 s2, Q r s1 -> rely s1 s2 -> Q r s2) ->
  amid s (p ≫= f) Q.
Proof.
  intros Hp HQ. unfold mbind, go_bind. apply amid_prog_bind.
  eapply amid_mono; [exact Hp|]. intros [a|e|] s' H; [exact H|..]; intros s1 H1; by eapply HQ.
Qed.
Lemma amid_ret {A} s (a : A) (Q : A -> M -> Prop) : (forall s1, rely s s1 -> Q a s1) -> amid s (Ret a) Q.
Proof. done. Qed.

(** Two such programs, in any interleaving, both reach what they promise. *)
Lemma interleaved_amid {A B} s (p : prog E A) (q : prog E B) P Q a b s' :
  amid s p P -> amid s q Q -> interleaved m s p q a b s' -> P a s' /\ Q b s'.
Proof.
  intros Hp Hq H. revert Hp Hq. induction H as [s a b|s o r k q a b s' Ha Hr _ IH|s p o r k a b s' Ha Hr _ IH];
    intros Hp Hq.
  - split; [by apply Hp|by apply Hq].
  - destruct (Hp s) as [_ Hk]; [done|]. destruct (Hk r Hr) as [Hs Hk']. apply IH; [done|].
    by eapply amid_rely.
  - destruct (Hq s) as [_ Hk]; [done|]. destruct (Hk r Hr) as [Hs Hk']. apply IH; [|done].
    by eapply amid_rely.
Qed.
End rely.
