(* ===== verification/Threads.v ===== *)
(** * Goroutines

    A pool of named threads over one service: any of them may make its next request,
    which the state admits or holds back (a request that waits has no admissible response
    yet), and a request may start another thread.  Each thread is proved against what the
    others may do ([rely]) and with what it does itself ([guar]); together they make
    allowed requests only, in every reachable pool, and end as promised.  Every run of such
    a pool is finite. *)
From S2P Require Import Prelude Prog.

Section threads.
Context {E : service} {M T : Type} (m : monitor E M).
(** The thread that a request starts. *)
Context (starts : op E -> option (T * prog E unit)).

Definition pool : Type := list (T * prog E unit).
Definition started (o : op E) : pool := match starts o with Some tp => [tp] | None => [] end.

Inductive pool_step : M * pool -> M * pool -> Prop :=
| thread_step s l t o k r l' :
    assumed m s o r ->
    pool_step (s, l ++ (t, Do o k) :: l') (step m s o r, l ++ (t, k r) :: l' ++ started o).

Definition reachable (c c' : M * pool) : Prop := rtc pool_step c c'.

(** Whatever the schedule and the responses, [P] comes to hold. *)
Inductive inevitable (P : M * pool -> Prop) (c : M * pool) : Prop :=
| inevitable_now : P c -> inevitable P c
| inevitable_later :
    (exists c', pool_step c c') -> (forall c', pool_step c c' -> inevitable P c') -> inevitable P c.

(** A thread that is in the pool stays in it. *)
Lemma pool_step_thread t c c' : pool_step c c' -> t ∈ (snd c).*1 -> t ∈ (snd c').*1.
Proof.
  intros [s l t' o k r l' _]. cbn. rewrite !fmap_app, !fmap_cons, fmap_app. cbn. set_solver.
Qed.
Lemma reachable_thread t c c' : reachable c c' -> t ∈ (snd c).*1 -> t ∈ (snd c').*1.
Proof. induction 1 as [|c c1 c2 H _ IH]; [done|]. intros Ht. by eapply IH, pool_step_thread. Qed.

(** ** Rely and guarantee, per thread *)

(** [may]: what a thread may request in a state; [known]: whether it has been started;
    [after]: what holds from its end on. *)
Context (may : T -> M -> op E -> Prop) (known : M -> T -> Prop) (after : T -> M -> Prop).
Context (rely guar : T -> relation M).

Fixpoint thread_ok (t : T) (s : M) (p : prog E unit) : Prop :=
  match p with
  | Ret _ => forall s1, rely t s s1 -> after t s1
  | Do o k => forall s1, rely t s s1 ->
      may t s1 o /\ forall r, assumed m s1 o r ->
        guar t s1 (step m s1 o r) /\ thread_ok t (step m s1 o r) (k r)
  end.

Record threads_agree : Prop := {
  rely_preorder t : PreOrder (rely t);
  guar_rely t t' s s' : t <> t' -> guar t s s' -> rely t' s s';
  known_stays t t' s s' : guar t s s' -> known s t' -> known s' t';
  start_ok t s o r t' p :
    starts o = Some (t', p) -> may t s o -> assumed m s o r ->
    ~ known s t' /\ known (step m s o r) t' /\ thread_ok t' (step m s o r) p
}.
Context (Hagree : threads_agree).

Definition pool_ok (c : M * pool) : Prop :=
  NoDup (snd c).*1 /\ Forall (fun '(t, p) => known (fst c) t /\ thread_ok t (fst c) p) (snd c).

Lemma thread_ok_rely t s s1 p : thread_ok t s p -> rely t s s1 -> thread_ok t s1 p.
Proof.
  pose proof (rely_preorder Hagree t). intros Hp Hs. destruct p; simpl in *; intros s2 H2; apply Hp; by etrans.
Qed.
Lemma thread_ok_now t s o k :
  thread_ok t s (Do o k) -> may t s o /\ forall r, assumed m s o r ->
    guar t s (step m s o r) /\ thread_ok t (step m s o r) (k r).
Proof. pose proof (rely_preorder Hagree t). intros Hp. by apply Hp. Qed.
Lemma thread_ok_done t s u : thread_ok t s (Ret u) -> after t s.
Proof. pose proof (rely_preorder Hagree t). intros Hp. by apply Hp. Qed.

Lemma others_ok t s s' (l : pool) :
  guar t s s' -> t ∉ l.*1 ->
  Forall (fun '(t, p) => known s t /\ thread_ok t s p) l ->
  Forall (fun '(t, p) => known s' t /\ thread_ok t s' p) l.
Proof.
  intros Hg Ht Hl. apply Forall_forall. intros [t' p] Hin. rewrite Forall_forall in Hl.
  destruct (Hl _ Hin) as [Hk Hp]. split; [by eapply known_stays|].
  eapply thread_ok_rely; [done|]. eapply guar_rely; [done| |done].
  intros ->. apply Ht. exact (list_elem_of_fmap_2 fst _ _ Hin).
Qed.

Lemma pool_ok_step c c' : pool_step c c' -> pool_ok c -> pool_ok c'.
Proof.
  intros [s l t o k r l' Hr] [Hnd Hall]. unfold pool_ok in *. cbn [fst snd] in *.
  rewrite Forall_app, Forall_cons in Hall. destruct Hall as (Hl & [Hk Ht] & Hl').
  destruct (thread_ok_now _ _ _ _ Ht) as [Hm Hs]. destruct (Hs r Hr) as [Hg Hkr].
  rewrite fmap_app, fmap_cons in Hnd. cbn in Hnd. apply NoDup_app in Hnd as (Hn1 & Hn2 & Hn3).
  apply NoDup_cons in Hn3 as [Hn3 Hn4].
  assert (t ∉ l.*1) as Htl by (intros H; eapply Hn2; [done|left]).
  assert (forall t' p, (t', p) ∈ l ++ (t, k r) :: l' -> known s t') as Hknown.
  { intros t' p [H|[[= -> _]|H]%elem_of_cons]%elem_of_app; [|done|];
      [by destruct (proj1 (Forall_forall _ _) Hl _ H)|by destruct (proj1 (Forall_forall _ _) Hl' _ H)]. }
  assert (NoDup (l ++ (t, k r) :: l').*1) as Hnd.
  { rewrite fmap_app, fmap_cons. cbn. apply NoDup_app. split_and!; [done| |by constructor].
    intros x Hx. by apply Hn2. }
  assert (Forall (fun '(t, p) => known (step m s o r) t /\ thread_ok t (step m s o r) p) (l ++ (t, k r) :: l')) as Hok.
  { apply Forall_app. split; [by eapply others_ok|]. constructor; [|by eapply others_ok].
    split; [by eapply known_stays|done]. }
  assert (l ++ (t, k r) :: l' ++ started o = (l ++ (t, k r) :: l') ++ started o) as -> by by rewrite <- app_assoc.
  unfold started. destruct (starts o) as [[t' p]|] eqn:Eo; [|by rewrite app_nil_r].
  destruct (start_ok Hagree _ _ _ _ _ _ Eo Hm Hr) as (Hfresh & Hk' & Hp').
  rewrite fmap_app. split; [|apply Forall_app; split; [done|by constructor]].
  apply NoDup_app. split_and!; [done| |apply NoDup_singleton].
  intros x Hx Hx'%list_elem_of_singleton. apply list_elem_of_fmap in Hx as ([t1 p1] & -> & Hin).
  cbn in Hx'. subst t1. by eapply Hfresh, Hknown.
Qed.
Lemma pool_ok_reachable c c' : reachable c c' -> pool_ok c -> pool_ok c'.
Proof. induction 1 as [|c c1 c2 H _ IH]; [done|]. intros Hc. by eapply IH, pool_ok_step. Qed.

(** What a thread of a reachable pool is about to do. *)
Lemma pool_ok_may s l t o k : pool_ok (s, l) -> (t, Do o k) ∈ l -> may t s o.
Proof.
  intros [_ Hall] Hin. rewrite Forall_forall in Hall. destruct (Hall _ Hin) as [_ Ht].
  by eapply thread_ok_now.
Qed.
Lemma pool_ok_after s l t u : pool_ok (s, l) -> (t, Ret u) ∈ l -> after t s.
Proof.
  intros [_ Hall] Hin. rewrite Forall_forall in Hall. destruct (Hall _ Hin) as [_ Ht].
  by eapply thread_ok_done.
Qed.

(** ** Termination

    A step replaces a thread by a part of it; it may add a thread only while there is
    another one to start ([spare]). *)
Definition part (q p : prog E unit) : Prop :=
  match p with Ret _ => False | Do o k => exists r, q = k r end.
Lemma part_wf : well_founded part.
Proof. intros p. induction p as [a|o k IH]; constructor; [by intros q []|]. intros q [r ->]. apply IH. Qed.

Inductive smaller : pool -> pool -> Prop :=
| smaller_here t p' p l : part p' p -> smaller ((t, p') :: l) ((t, p) :: l)
| smaller_there tp l' l : smaller l' l -> smaller (tp :: l') (tp :: l).
Lemma smaller_wf : well_founded smaller.
Proof.
  intros l. induction l as [|[t p] l IH]; [constructor; intros l' H; inversion H|].
  revert t l IH. induction (part_wf p) as [p _ IHp]. intros t l IH.
  induction IH as [l Hl IHl]. constructor. intros l' H. inversion H; subst.
  - apply IHp; [done|]. by constructor.
  - by apply IHl.
Qed.
Lemma smaller_at l t p' p l' : part p' p -> smaller (l ++ (t, p') :: l') (l ++ (t, p) :: l').
Proof. intros H. induction l; by constructor. Qed.

Context (spare : M -> nat).
Hypothesis Hspare : forall s o r, assumed m s o r -> (spare (step m s o r) <= spare s)%nat.
Hypothesis Hstart : forall s o r tp, starts o = Some tp -> ~ known s (fst tp) ->
  assumed m s o r -> (spare (step m s o r) < spare s)%nat.

Lemma steps_wf : forall c, pool_ok c -> Acc (fun c2 c1 => pool_step c1 c2) c.
Proof.
  intros [s l]. remember (spare s) as n eqn:En. revert s l En.
  induction (lt_wf n) as [n _ IHn]. intros s l. revert s. induction (smaller_wf l) as [l _ IHl].
  intros s En Hok. constructor. intros c' Hstep. pose proof (pool_ok_step _ _ Hstep Hok) as Hok'.
  inversion Hstep as [s0 l1 t o k r l2 Hr]; subst.
  assert (may t s o) as Hm. { eapply pool_ok_may; [exact Hok|]. by apply elem_of_app; right; left. }
  unfold started in *. destruct (starts o) as [[t' p]|] eqn:Eo.
  - eapply IHn; [|reflexivity|done]. eapply Hstart; [exact Eo| |done].
    by destruct (start_ok Hagree _ _ _ _ _ _ Eo Hm Hr).
  - rewrite app_nil_r in *. pose proof (Hspare s o r Hr) as Hle.
    destruct (Nat.eq_dec (spare (step m s o r)) (spare s)) as [Heq|Hne].
    + apply IHl; [|done..]. apply smaller_at. by exists r.
    + eapply IHn; [|reflexivity|done]. lia.
Qed.

(** What holds or lets a step happen, at every reachable pool, comes to hold. *)
Lemma progress_inevitable (P inv : M * pool -> Prop) c :
  (forall c c', inv c -> pool_step c c' -> inv c') ->
  (forall c, inv c -> pool_ok c -> P c \/ exists c', pool_step c c') ->
  inv c -> pool_ok c -> inevitable P c.
Proof.
  intros Hinv Hprog Hi Hok. pose proof (steps_wf c Hok) as Hacc. revert Hi Hok.
  induction Hacc as [c _ IH]. intros Hi Hok. destruct (Hprog c Hi Hok) as [|Hs]; [by apply inevitable_now|].
  apply inevitable_later; [done|]. intros c' Hc. apply IH; [done|by eapply Hinv|by eapply pool_ok_step].
Qed.

End threads.

(** ** Runs by a schedule

    [answers] is a service that gives one response, or holds the request back; a schedule
    names the thread that moves next, by its place in the pool. *)
Section schedules.
Context {E : service} {M T : Type} (m : monitor E M) (starts : op E -> option (T * prog E unit)).
Context (answers : M -> forall o : op E, option (resp E o)).
Hypothesis Hanswers : forall s o r, answers s o = Some r -> assumed m s o r.

Definition run_thread (i : nat) (c : M * @pool E T) : option (M * pool) :=
  let '(s, l) := c in
  match l !! i with
  | Some (t, Do o k) =>
      match answers s o with
      | Some r => Some (step m s o r, take i l ++ (t, k r) :: drop (S i) l ++ started starts o)
      | None => None
      end
  | _ => None
  end.
(** A thread that cannot move is passed over. *)
Fixpoint run_pool (sched : list nat) (c : M * @pool E T) : M * pool :=
  match sched with
  | [] => c
  | i :: sched => run_pool sched (match run_thread i c with Some c' => c' | None => c end)
  end.

Lemma run_thread_step i c c' : run_thread i c = Some c' -> pool_step m starts c c'.
Proof.
  destruct c as [s l]. unfold run_thread. destruct (l !! i) as [[t [u|o k]]|] eqn:El; [done| |done].
  destruct (answers s o) as [r|] eqn:Er; [|done]. intros [= <-].
  rewrite <- (take_drop_middle l i _ El) at 1. exact (thread_step m starts s _ t o k r _ (Hanswers _ _ _ Er)).
Qed.
Lemma run_pool_reachable sched : forall c, reachable m starts c (run_pool sched c).
Proof.
  induction sched as [|i sched IH]; intros c; [apply rtc_refl|]. cbn.
  destruct (run_thread i c) as [c'|] eqn:Ei; [|apply IH].
  eapply rtc_l; [by eapply run_thread_step|apply IH].
Qed.
End schedules.
