(* ===== verification/Driver.v ===== *)
(** * The driver ([pkg/iscsi/driver.go], [leader_election.go], [identityserver.go],
    [utils.go])

    The driver's configuration and capabilities, the identity service, the start-up
    sequence of each mode, and the leader-election settings. *)
From S2P Require Import Prelude GoStrings GoStrconv VolumeID Params Prog.

(** ** CSI access modes and controller capabilities

    The enums of the CSI specification; [AM_other] is any other number. *)
Inductive AccessMode :=
| UNKNOWN
| SINGLE_NODE_WRITER | SINGLE_NODE_READER_ONLY | MULTI_NODE_READER_ONLY
| MULTI_NODE_SINGLE_WRITER | MULTI_NODE_MULTI_WRITER
| SINGLE_NODE_SINGLE_WRITER | SINGLE_NODE_MULTI_WRITER
| AM_other (n : Z).
#[export] Instance AccessMode_eq_dec : EqDecision AccessMode.
Proof. solve_decision. Defined.

Inductive ControllerCap :=
| CREATE_DELETE_VOLUME | PUBLISH_UNPUBLISH_VOLUME | GET_CAPACITY | EXPAND_VOLUME | GET_VOLUME
| CREATE_DELETE_SNAPSHOT | LIST_SNAPSHOTS.
#[export] Instance ControllerCap_eq_dec : EqDecision ControllerCap.
Proof. solve_decision. Defined.

(** [DriverMode] is a string type with two values. *)
Abbreviation DriverMode := string.
Definition DriverModeController : DriverMode := "controller".
Definition DriverModeNode : DriverMode := "node".

Record driver := {
  name : string;
  protocol : Protocol;
  fileShareBackend : string;
  mode : DriverMode;
  nodeID : string;
  version : string;
  endpoint : string;
  debug : bool;
  cap : list AccessMode;
  cscap : list ControllerCap
}.

Definition driverName : string := "windows-storage.csi.windows.microsoft.com".
Definition default_version : string := "0.1.0".

Definition ParseDriverMode (value : string) : res DriverMode :=
  let m := ToLower (TrimSpace value) in
  if m == DriverModeController then Ok DriverModeController
  else if m == DriverModeNode then Ok DriverModeNode
  else Err (PlainErr "mode is required and must be one of: controller, node").

(** ** Construction *)

Definition file_protocol (p : Protocol) : bool := ((p == ProtocolNFS) || (p == ProtocolSMB))%bool.

Definition AddVolumeCapabilityAccessModes (d : driver) (vc : list AccessMode) : driver :=
  {| name := name d; protocol := protocol d; fileShareBackend := fileShareBackend d;
     mode := mode d; nodeID := nodeID d; version := version d; endpoint := endpoint d;
     debug := debug d; cap := vc; cscap := cscap d |}.
Definition AddControllerServiceCapabilities (d : driver) (cl : list ControllerCap) : driver :=
  {| name := name d; protocol := protocol d; fileShareBackend := fileShareBackend d;
     mode := mode d; nodeID := nodeID d; version := version d; endpoint := endpoint d;
     debug := debug d; cap := cap d; cscap := cl |}.

Definition driver_access_modes (protocol : Protocol) : list AccessMode :=
  [SINGLE_NODE_WRITER; SINGLE_NODE_SINGLE_WRITER; SINGLE_NODE_MULTI_WRITER]
  ++ (if ((protocol == "") || file_protocol protocol)%bool
      then [MULTI_NODE_READER_ONLY; MULTI_NODE_SINGLE_WRITER; MULTI_NODE_MULTI_WRITER] else []).

Definition driver_controller_caps (protocol : Protocol) (fileShareBackend : string)
  : list ControllerCap :=
  let snapshots := ((protocol == "") || (protocol == ProtocolISCSI)
                    || (fileShareBackend == fileShareBackendVHDX))%bool in
  [CREATE_DELETE_VOLUME; PUBLISH_UNPUBLISH_VOLUME; GET_CAPACITY; EXPAND_VOLUME; GET_VOLUME]
  ++ (if snapshots then [CREATE_DELETE_SNAPSHOT] else [])
  ++ (if snapshots then [LIST_SNAPSHOTS] else []).

Definition newNamedProtocolDriverWithShareBackend
  (name : string) (protocol : Protocol) (fileShareBackend nodeID endpoint : string) : driver :=
  let d := {| name := name; protocol := protocol; fileShareBackend := fileShareBackend;
              mode := ""; nodeID := nodeID; version := default_version; endpoint := endpoint;
              debug := false; cap := []; cscap := [] |} in
  let d := AddVolumeCapabilityAccessModes d (driver_access_modes protocol) in
  AddControllerServiceCapabilities d (driver_controller_caps protocol fileShareBackend).

Definition newNamedProtocolDriver (name : string) (protocol : Protocol) (nodeID endpoint : string)
  : driver :=
  let backend := if file_protocol protocol then fileShareBackendDirectory else "" in
  newNamedProtocolDriverWithShareBackend name protocol backend nodeID endpoint.

Definition driverNameForProtocol (protocol : Protocol) : res string :=
  if protocol == ProtocolISCSI then Ok driverName
  else if protocol == ProtocolNFS then Ok driverName
  else if protocol == ProtocolSMB then Ok driverName
  else Err (PlainErr "unknown protocol: %s").

Definition driverConfigForName (name : string) : res (Protocol * string) :=
  if TrimSpace name == driverName then Ok ("", "")
  else Err (PlainErr "unknown CSI driver name: %s").

Definition protocolForDriverName (name : string) : res Protocol :=
  '(protocol, _) ← driverConfigForName name; Ok protocol.

Definition NewNamedDriver (name nodeID endpoint : string) : driver :=
  let '(protocol, backend) := match driverConfigForName name with
                              | Ok pb => pb
                              | _ => (ProtocolISCSI, "")
                              end in
  newNamedProtocolDriverWithShareBackend name protocol backend nodeID endpoint.

Definition NewDriver (nodeID endpoint : string) : driver := NewNamedDriver driverName nodeID endpoint.

Definition NewProtocolDriver (protocol : Protocol) (nodeID endpoint : string) : driver :=
  let '(protocol, name) := match driverNameForProtocol protocol with
                           | Ok name => (protocol, name)
                           | _ => (ProtocolISCSI, driverName)
                           end in
  newNamedProtocolDriver name protocol nodeID endpoint.

(** ** Environment *)

Definition getenvDefault (env : Params) (k def : string) : string :=
  let v := TrimSpace (param env k) in if v != "" then v else def.

Definition parseBoolEnv (env : Params) (name : string) (def : bool) : res bool :=
  let raw := TrimSpace (param env name) in
  if raw == "" then Ok def
  else if one_of (ToLower raw) ["1"; "true"; "yes"; "y"; "on"] then Ok true
  else if one_of (ToLower raw) ["0"; "false"; "no"; "n"; "off"] then Ok false
  else Err (PlainErr "%s must be a boolean").

(** ** Leader election *)

(** Durations are in nanoseconds. *)
Record LeaderElectionConfig := {
  leEnabled : bool;
  LeaseName : string;
  LeaseNamespace : string;
  Identity : string;
  LeaseDuration : Z;
  RenewDeadline : Z;
  RetryPeriod : Z
}.

Definition second : Z := 1000000000.
Definition defaultLeaderElectionLeaseDuration : Z := 15 * second.
Definition defaultLeaderElectionRenewDeadline : Z := 10 * second.
Definition defaultLeaderElectionRetryPeriod : Z := 2 * second.

Definition or_default (x def : Z) : Z := if (x =? 0)%Z then def else x.

(** [hostname] is the result of [os.Hostname]. *)
Definition withDefaults (env : Params) (hostname : res string) (d : driver)
  (config : LeaderElectionConfig) : res LeaderElectionConfig :=
  let leaseName := TrimSpace (LeaseName config) in
  let leaseName := if leaseName == "" then name d else leaseName in
  let namespace := TrimSpace (LeaseNamespace config) in
  let namespace := if namespace == "" then TrimSpace (param env "POD_NAMESPACE") else namespace in
  if namespace == "" then Err (PlainErr "leader election namespace is required") else
  let identity := TrimSpace (Identity config) in
  let identity := if identity == "" then TrimSpace (param env "POD_NAME") else identity in
  identity ←
    (if identity == "" then
       match hostname with
       | Ok h => Ok (TrimSpace h)
       | _ => Err (PlainErr "get hostname for leader election identity: %w")
       end
     else Ok identity);
  if identity == "" then Err (PlainErr "leader election identity is required") else
  let leaseDuration := or_default (LeaseDuration config) defaultLeaderElectionLeaseDuration in
  let renewDeadline := or_default (RenewDeadline config) defaultLeaderElectionRenewDeadline in
  let retryPeriod := or_default (RetryPeriod config) defaultLeaderElectionRetryPeriod in
  if ((leaseDuration <=? 0) || (renewDeadline <=? 0) || (retryPeriod <=? 0))%Z%bool
  then Err (PlainErr "leader election durations must be positive")
  else if (leaseDuration <=? renewDeadline)%Z
  then Err (PlainErr "leader election lease duration must be greater than renew deadline")
  else if (renewDeadline <=? retryPeriod)%Z
  then Err (PlainErr "leader election renew deadline must be greater than retry period")
  else Ok {| leEnabled := leEnabled config; LeaseName := leaseName; LeaseNamespace := namespace;
             Identity := identity; LeaseDuration := leaseDuration; RenewDeadline := renewDeadline;
             RetryPeriod := retryPeriod |}.

(** ** Endpoints *)

(** [strings.SplitN(s, sep, 2)]. *)
Definition SplitN2 (s sep : string) : list string :=
  match Index s sep with
  | Some i => [str_take i s; str_drop (i + String.length sep) s]
  | None => [s]
  end.

Definition ParseEndpoint (ep : string) : res (string * string) :=
  let bad := Err (PlainErr "invalid endpoint: %v") in
  if (HasPrefix (ToLower ep) "unix://" || HasPrefix (ToLower ep) "tcp://")%bool then
    match SplitN2 ep "://" with
    | [s0; s1] => if s1 != "" then Ok (s0, s1) else bad
    | _ => Panicked
    end
  else bad.

(** ** The identity service *)

Record GetPluginInfoResponse := { pi_Name : string; VendorVersion : string }.
Inductive PluginCapability := CONTROLLER_SERVICE.

Definition GetPluginInfo (d : driver) : res GetPluginInfoResponse :=
  if name d == "" then Err (StatusErr Unavailable "Driver name not configured")
  else if version d == "" then Err (StatusErr Unavailable "Driver is missing version")
  else Ok {| pi_Name := name d; VendorVersion := version d |}.

Definition Probe (d : driver) : res unit := Ok tt.

Definition GetPluginCapabilities (d : driver) : res (list PluginCapability) :=
  Ok (if mode d == DriverModeController then [CONTROLLER_SERVICE] else []).

(** ** Start-up

    The steps of a start, as calls: reading the back-end configuration, validating
    the back end, serving with the given services (identity; controller; node),
    the built-in Kubernetes controllers, waiting, and [klog.Fatalf], which ends
    the process: no call follows it. *)
Inductive run_op :=
| EnsureRunDirectory
| NewBackendFromEnv
| ValidateBackend
| StartServer (identity controller node : bool)
| StartInternalKubernetes
| WaitServer
| RunLeaderElection (config : LeaderElectionConfig)
| Fatalf (format : string).

(** Whether the step failed. *)
Definition run_resp (o : run_op) : Type :=
  match o with
  | NewBackendFromEnv | ValidateBackend | RunLeaderElection _ => bool
  | _ => unit
  end.
Definition run_service : service := Service run_op run_resp.

Definition do_run (o : op run_service) : go run_service (resp run_service o) := call o.
Definition fatalf {A} (format : string) : go run_service A :=
  _ ← call (E := run_service) (Fatalf format); Ret Panicked.

Definition serveController : go run_service unit :=
  failed ← call (E := run_service) NewBackendFromEnv;
  if failed : bool then fatalf "failed to init WinRM backend: %v" else
  invalid ← call (E := run_service) ValidateBackend;
  if invalid : bool then fatalf "failed to validate WinRM backend: %v" else
  _ ← call (E := run_service) (StartServer true true false);
  _ ← call (E := run_service) StartInternalKubernetes;
  _ ← call (E := run_service) WaitServer;
  ok tt.

Definition serveNode : go run_service unit :=
  _ ← call (E := run_service) (StartServer true false true);
  _ ← call (E := run_service) StartInternalKubernetes;
  _ ← call (E := run_service) WaitServer;
  ok tt.

(** The election calls [serveController] when the lease is acquired; it returns
    (a failure) only if it could not be started. *)
Definition runControllerWithLeaderElection (env : Params) (hostname : res string) (d : driver)
  (config : LeaderElectionConfig) : go run_service unit :=
  match withDefaults env hostname d config with
  | Ok config =>
      failed ← call (E := run_service) (RunLeaderElection config);
      if failed : bool then fatalf "leader election failed: %v" else serveController
  | _ => fatalf "invalid leader election config: %v"
  end.

Definition RunWithOptions (env : Params) (hostname : res string) (d : driver)
  (mode : DriverMode) (config : LeaderElectionConfig) : go run_service unit :=
  _ ← call (E := run_service) EnsureRunDirectory;
  if (leEnabled config && (mode != DriverModeController))%bool
  then fatalf "leader election is only supported in controller mode"
  else if mode == DriverModeController then
    if leEnabled config then runControllerWithLeaderElection env hostname d config
    else serveController
  else if mode == DriverModeNode then serveNode
  else fatalf "invalid driver mode: %q".

(** ** Properties *)

(** A valid election has its durations in order: a leader gives up before its
    lease expires, and retries more than once before it gives up. *)
Definition election_ok (c : LeaderElectionConfig) : Prop :=
  0 < RetryPeriod c < RenewDeadline c /\ RenewDeadline c < LeaseDuration c
  /\ LeaseNamespace c <> "" /\ Identity c <> "".

(** The settings an election runs with are ordered and named, whatever was
    configured; those that were set (and not blank) are kept. *)
Theorem withDefaults_Ok (env : Params) (hostname : res string) (d : driver)
  (config c : LeaderElectionConfig) :
  withDefaults env hostname d config = Ok c ->
  election_ok c
  /\ (LeaseDuration config <> 0 -> LeaseDuration c = LeaseDuration config)
  /\ (RenewDeadline config <> 0 -> RenewDeadline c = RenewDeadline config)
  /\ (RetryPeriod config <> 0 -> RetryPeriod c = RetryPeriod config)
  /\ (TrimSpace (LeaseName config) <> "" -> LeaseName c = TrimSpace (LeaseName config)).
Proof.
  unfold withDefaults. intros H.
  set (ns := if TrimSpace (LeaseNamespace config) == "" then _ else _) in H.
  destruct (String.eqb_spec ns "") as [|Hns]; [discriminate|].
  apply res_bind_Ok in H as (id & _ & H).
  destruct (String.eqb_spec id "") as [|Hid]; [discriminate|].
  set (ld := or_default (LeaseDuration config) _) in *.
  set (rd := or_default (RenewDeadline config) _) in *.
  set (rp := or_default (RetryPeriod config) _) in *.
  destruct ((ld <=? 0) || _ || _)%Z%bool eqn:E1; [discriminate|].
  destruct (Z.leb_spec ld rd); [discriminate|]. destruct (Z.leb_spec rd rp); [discriminate|].
  injection H as <-. go_bool. split; [split_and!; simpl; (lia || done)|].
  assert (forall x def, x <> 0 -> or_default x def = x) as Hd.
  { intros x def Hx. unfold or_default. by apply Z.eqb_neq in Hx as ->. }
  cbn [LeaseDuration RenewDeadline RetryPeriod LeaseName].
  split_and!; intros Hn; try (by apply Hd). by apply String.eqb_neq in Hn as ->.
Qed.

Definition example_election : LeaderElectionConfig :=
  {| leEnabled := true; LeaseName := " lease "; LeaseNamespace := ""; Identity := "";
     LeaseDuration := 0; RenewDeadline := 0; RetryPeriod := 3 * second |}.
Definition example_env : Params := list_to_map [("POD_NAMESPACE", "csi")].

Lemma withDefaults_Ok_witness :
  exists c, withDefaults example_env (Ok "node-1") (NewDriver "n" "unix://x") example_election = Ok c
    /\ election_ok c /\ RetryPeriod c = 3 * second.
Proof.
  destruct (withDefaults example_env (Ok "node-1") (NewDriver "n" "unix://x") example_election)
    as [c|e|] eqn:E; [|by vm_compute in E..].
  exists c. split; [done|].
  split; [exact (proj1 (withDefaults_Ok _ _ _ _ _ E))|].
  vm_compute in E. injection E as <-. reflexivity.
Defined.

(** What has happened so far: the back end was validated, the process ended. *)
Record startup := { validated : bool; ended : bool }.
Definition startup_allowed (mode : DriverMode) (s : startup) (o : run_op) : Prop :=
  ended s = false
  /\ match o with
     | NewBackendFromEnv | ValidateBackend | RunLeaderElection _ => mode = DriverModeController
     | StartServer identity controller node =>
         identity = true
         /\ (controller = true -> mode = DriverModeController /\ validated s = true)
         /\ (node = true -> mode = DriverModeNode)
     | _ => True
     end.
Definition startup_step (s : startup) (o : run_op) : run_resp o -> startup :=
  match o with
  | ValidateBackend => fun failed => {| validated := negb failed; ended := ended s |}
  | Fatalf _ => fun _ => {| validated := validated s; ended := true |}
  | _ => fun _ => s
  end.
Definition startup_monitor (mode : DriverMode) : monitor run_service startup :=
  {| allowed := (startup_allowed mode : startup -> op run_service -> Prop);
     assumed := fun _ _ _ => True; step := startup_step |}.

Definition fresh_startup : startup := {| validated := false; ended := false |}.

Ltac startup_steps :=
  repeat (cbn; unfold startup_allowed; intros;
          match goal with
          | |- _ /\ _ => split
          | r : run_resp _ |- _ => destruct r
          | r : bool |- _ => destruct r
          | r : unit |- _ => destruct r
          | |- _ => done
          end).

Lemma serveController_safe s :
  ended s = false ->
  safe (startup_monitor DriverModeController) s serveController (fun _ _ => True).
Proof. destruct s as [v e]. intros [= ->]. unfold serveController, fatalf. startup_steps. Qed.
Lemma serveNode_safe s :
  ended s = false -> safe (startup_monitor DriverModeNode) s serveNode (fun _ _ => True).
Proof. destruct s as [v e]. intros [= ->]. unfold serveNode. startup_steps. Qed.

(** However the steps of a start turn out, the controller service is served
    in controller mode only and after the back end was validated, the node
    service in node mode only, an election runs in controller mode only, and
    nothing follows a fatal error. *)
Lemma RunWithOptions_safe (env : Params) (hostname : res string) (d : driver)
  (mode : DriverMode) (config : LeaderElectionConfig) :
  safe (startup_monitor mode) fresh_startup (RunWithOptions env hostname d mode config)
    (fun _ _ => True).
Proof.
  unfold RunWithOptions. apply safe_bind. cbn. split; [done|]. intros [] _.
  destruct (_ && _)%bool eqn:E; [by repeat split|].
  destruct (String.eqb_spec mode DriverModeController) as [->|Hc].
  - destruct (leEnabled config); [|by apply serveController_safe].
    unfold runControllerWithLeaderElection.
    destruct (withDefaults env hostname d config); [|by repeat split..].
    apply safe_bind. cbn. split; [done|]. intros [|] _; [by repeat split|].
    by apply serveController_safe.
  - destruct (String.eqb_spec mode DriverModeNode) as [->|]; [by apply serveNode_safe|].
    by repeat split.
Qed.
