(* ===== verification/Server.v ===== *)
(** * The server of the driver ([pkg/iscsi/server.go], [driver.go], [utils.go])

    The gRPC server in its goroutine, the goroutine that stops it when the context is
    done, and the driver that waits for it: three threads on one wait group and one field,
    in every interleaving.  The interceptor that logs each RPC. *)
From S2P Require Import Prelude GoStrings GoJson VolumeID Params Prog Threads Driver.

Inductive csi_service := IdentityService | ControllerService | NodeService.
(** [grpc.Server.Serve] returns nil, [grpc.ErrServerStopped], or another error. *)
Inductive serve_outcome := ServeReturned | ErrServerStopped | ServeFailed.

Inductive proc_op :=
| Boot (o : run_op)
| WgAdd | WgDone | WgWait
| GoServe (ids cs ns : bool) | GoStop
| LoadServer | StoreServer
| RemoveFile (path : string)
| Listen (proto addr : string) | CloseListener
| NewServer | RegisterServer (name : csi_service) | Serve
| GracefulStop | StopServer
| AwaitDone
| FatalExit.
Definition proc_resp (o : proc_op) : Type :=
  match o with
  | Boot o => run_resp o
  | LoadServer => bool
  | RemoveFile _ => option error
  | Listen _ _ => bool
  | Serve => serve_outcome
  | _ => unit
  end.
Definition proc : service := Service proc_op proc_resp.
Definition ask (o : proc_op) : go proc (proc_resp o) := call (E := proc) o.

Definition IsNotExist (e : error) : bool := match e with OsErr NotExist _ => true | _ => false end.

(** ** [nonBlockingGRPCServer] *)

(** A socket file of an earlier run is removed. *)
Definition clear_socket (proto addr : string) : go proc string :=
  if proto == "unix" then
    let addr := "/" +:+ addr in
    removed ← ask (RemoveFile addr);
    match removed : option error with
    | Some e => if IsNotExist e then ok addr
                else lift (Err (PlainErr "failed to remove %s, error: %w"))
    | None => ok addr
    end
  else ok addr.

Definition register (given : bool) (name : csi_service) : go proc unit :=
  if given then ask (RegisterServer name) else ok tt.

Definition serve_at (proto addr : string) (ids cs ns : bool) : go proc unit :=
  listening ← ask (Listen proto addr);
  if negb (listening : bool) then lift (Err (PlainErr "failed to listen: %w")) else
  catch (
    _ ← ask NewServer;
    _ ← ask StoreServer;
    _ ← register ids IdentityService;
    _ ← register cs ControllerService;
    _ ← register ns NodeService;
    outcome ← ask Serve;
    match outcome : serve_outcome with
    | ServeFailed => lift (Err (PlainErr "failed to serve requests: %w"))
    | _ => ok tt
    end)
  (fun r => _ ← ask CloseListener; lift r).
Definition serve (endpoint : string) (ids cs ns : bool) : go proc unit :=
  '(proto, addr) ← lift (ParseEndpoint endpoint);
  addr ← clear_socket proto addr;
  serve_at proto addr ids cs ns.

(** The goroutine of [Start]; a panic ends the process as [klog.Fatal] does. *)
Definition serving_done (r : res unit) : prog proc unit :=
  match r with
  | Ok _ => Do (E := proc) WgDone (fun _ => Ret tt)
  | _ => Do (E := proc) FatalExit (fun _ => Ret tt)
  end.
Definition serving (endpoint : string) (ids cs ns : bool) : prog proc unit :=
  prog_bind (serve endpoint ids cs ns) serving_done.
Definition Start (ids cs ns : bool) : go proc unit := _ ← ask WgAdd; ask (GoServe ids cs ns).
Definition Wait : go proc unit := ask WgWait.
Definition Stop : go proc unit :=
  server ← ask LoadServer; if server : bool then ask GracefulStop else ok tt.
Definition ForceStop : go proc unit :=
  server ← ask LoadServer; if server : bool then ask StopServer else ok tt.

(** ** The driver on top of it *)

(** [done]: the context can be cancelled. *)
Definition stopping : prog proc unit := Do (E := proc) AwaitDone (fun _ => prog_bind Stop (fun _ => Ret tt)).
Definition waitForServerContext (done : bool) : go proc unit :=
  _ ← (if done then ask GoStop else ok tt); Wait.

(** Only [serveController] under an election has a context that ends. *)
Definition driver_handler (done : bool) (o : run_op) : prog proc (resp run_service o) :=
  match o return prog proc (resp run_service o) with
  | StartServer ids cs ns => prog_bind (Start ids cs ns) (fun _ => Ret tt)
  | WaitServer => prog_bind (waitForServerContext done) (fun _ => Ret tt)
  | o => Do (E := proc) (Boot o) Ret
  end.
Definition driver_thread (env : Params) (hostname : res string) (d : driver) (mode : DriverMode)
  (config : LeaderElectionConfig) : prog proc unit :=
  prog_bind (interp (E := run_service) (F := proc) (driver_handler (leEnabled config))
               (RunWithOptions env hostname d mode config))
    (fun _ => Ret tt).

Inductive thread := DriverThread | Serving | Stopping.
Definition spawned (endpoint : string) (o : op proc) : option (thread * prog proc unit) :=
  match o : proc_op with
  | GoServe ids cs ns => Some (Serving, serving endpoint ids cs ns)
  | GoStop => Some (Stopping, stopping)
  | _ => None
  end.

(** ** What the threads share *)

Record world := World {
  wg : nat;
  (** [s.server] is set *)
  assigned : bool;
  (** [Stop] or [GracefulStop] of the gRPC server was called *)
  stopped : bool;
  registered : list csi_service;
  listening : bool;
  (** the socket file that was removed, or was not there *)
  cleared : option string;
  has_serving : bool;
  has_stopping : bool;
  exited : bool
}.
Definition world0 : world := World 0 false false [] false None false false false.

Definition proc_step (s : world) (o : proc_op) : proc_resp o -> world :=
  let '(World w a p r l c gs gp x) := s in
  match o with
  | Boot (Fatalf _) | FatalExit => fun _ => World w a p r l c gs gp true
  | WgAdd => fun _ => World (S w) a p r l c gs gp x
  | WgDone => fun _ => World (pred w) a p r l c gs gp x
  | GoServe _ _ _ => fun _ => World w a p r l c true gp x
  | GoStop => fun _ => World w a p r l c gs true x
  | StoreServer => fun _ => World w true p r l c gs gp x
  | RemoveFile path => fun e =>
      World w a p r l (match e with Some e => if IsNotExist e then Some path else c | None => Some path end) gs gp x
  | Listen _ _ => fun ok => World w a p r ok c gs gp x
  | CloseListener | Serve => fun _ => World w a p r false c gs gp x
  | RegisterServer name => fun _ => World w a p (r ++ [name]) l c gs gp x
  | GracefulStop | StopServer => fun _ => World w a true r l c gs gp x
  | _ => fun _ => s
  end.
(** Nothing happens once the process has ended; [Wait] waits for the wait group, and
    [Serve] returns without an error of its own only once the server is stopped. *)
Definition proc_assumed (s : world) (o : proc_op) : proc_resp o -> Prop :=
  fun r => exited s = false /\
  match o return proc_resp o -> Prop with
  | WgWait => fun _ => wg s = O
  | LoadServer => fun set => set = assigned s
  | Serve => fun outcome => outcome <> ServeFailed -> stopped s = true
  | _ => fun _ => True
  end r.
Definition proc_monitor : monitor proc world :=
  {| allowed := fun _ _ => True;
     assumed := (proc_assumed : world -> forall o : op proc, resp proc o -> Prop); step := proc_step |}.

(** ** Each thread against the others *)

Section run.
Context (env : Params) (hostname : res string) (d : driver) (mode : DriverMode) (config : LeaderElectionConfig).

(** The services that are asked for in a mode. *)
Definition asked_services : bool * bool * bool :=
  if mode == DriverModeController then (true, true, false) else (true, false, true).
Definition expected_services : list csi_service :=
  if mode == DriverModeController then [IdentityService; ControllerService] else [IdentityService; NodeService].

(** The server has ended in order: it was stopped, its socket is closed, and it had the
    services of its mode. *)
Definition served (s : world) : Prop :=
  stopped s = true /\ listening s = false /\ registered s = expected_services.

Definition may (t : thread) (s : world) (o : proc_op) : Prop :=
  match t with
  | DriverThread =>
      match o with
      | Boot (StartServer _ _ _) | Boot WaitServer => False
      | Boot _ => True
      | WgAdd => has_serving s = false /\ wg s = O
      | GoServe ids cs ns => has_serving s = false /\ wg s = 1%nat /\ (ids, cs, ns) = asked_services
                             /\ assigned s = false /\ listening s = false /\ registered s = []
      | GoStop => has_serving s = true /\ has_stopping s = false /\ leEnabled config = true
      | WgWait => has_serving s = true
      | _ => False
      end
  | Serving =>
      has_serving s = true /\ wg s = 1%nat /\
      match o with
      | RemoveFile path => exists addr, ParseEndpoint (endpoint d) = Ok ("unix", addr) /\ path = "/" +:+ addr
      | Listen proto addr => exists a, ParseEndpoint (endpoint d) = Ok (proto, a)
          /\ if proto == "unix" then addr = "/" +:+ a /\ cleared s = Some addr else addr = a
      | NewServer | StoreServer => listening s = true
      | RegisterServer name => listening s = true /\ assigned s = true /\ name ∈ expected_services
      | Serve => listening s = true /\ assigned s = true /\ registered s = expected_services
      | CloseListener => True
      | WgDone => served s
      | FatalExit => listening s = false
      | _ => False
      end
  | Stopping =>
      match o with
      | AwaitDone => leEnabled config = true
      | LoadServer => True
      | GracefulStop => assigned s = true
      | _ => False
      end
  end.
Definition known (s : world) (t : thread) : Prop :=
  match t with
  | DriverThread => True
  | Serving => has_serving s = true
  | Stopping => has_stopping s = true
  end.
Definition after (t : thread) (s : world) : Prop :=
  exited s = true \/
  match t with
  | DriverThread => has_serving s = true /\ wg s = O
  | Serving => has_serving s = true /\ wg s = O /\ served s
  | Stopping => True
  end.

Definition same (s s' : world) : Prop :=
  assigned s' = assigned s /\ listening s' = listening s /\ registered s' = registered s /\ cleared s' = cleared s.
Definition grows (s s' : world) : Prop :=
  (stopped s = true -> stopped s' = true) /\ (exited s = true -> exited s' = true).
(** What a thread relies on: the driver's thread, that no other starts one, and that the
    counter does not rise; the serving thread, that once it runs the others only stop the
    server; the stopping thread, that the server stays. *)
Definition rely (t : thread) (s s' : world) : Prop :=
  grows s s' /\
  match t with
  | DriverThread => has_serving s' = has_serving s /\ has_stopping s' = has_stopping s /\ (wg s' <= wg s)%nat
      /\ (has_serving s = false -> wg s' = wg s /\ same s s')
  | Serving => has_serving s = true -> has_serving s' = true /\ wg s' = wg s /\ same s s'
  | Stopping => assigned s = true -> assigned s' = true
  end.
Definition guar (t : thread) (s s' : world) : Prop :=
  (forall t', t <> t' -> rely t' s s') /\ (forall t', known s t' -> known s' t').

#[local] Instance rely_preorder_ok t : PreOrder (rely t).
Proof.
  split; [intros s; destruct t; repeat split; try lia; auto|].
  intros s1 s2 s3. unfold rely, grows, same. intros [G1 H1] [G2 H2]. split; [tauto|]. clear G1 G2. destruct t.
  - destruct H1 as (E1 & F1 & L1 & K1), H2 as (E2 & F2 & L2 & K2).
    split_and!; [congruence..|lia|]. intros H. assert (has_serving s2 = false) as H' by congruence.
    specialize (K1 H). specialize (K2 H'). intuition congruence.
  - intros H. specialize (H1 H). destruct H1 as [H' H1]. specialize (H2 H'). intuition congruence.
  - tauto.
Qed.

#[local] Arguments thread_ok : simpl never.
Abbreviation fine := (thread_ok proc_monitor may after rely guar).

(** What the serving thread knows of the state. *)
Definition local (s : world) (a l : bool) (r : list csi_service) (c : option string) : Prop :=
  has_serving s = true /\ wg s = 1%nat /\ assigned s = a /\ listening s = l /\ registered s = r /\ cleared s = c.
Lemma local_rely s s' a l r c : rely Serving s s' -> local s a l r c -> local s' a l r c.
Proof.
  intros [_ H] (Hg & Hw & <- & <- & <- & <-). destruct (H Hg) as (Hg' & Hw' & Ha & Hl & Hr & Hc).
  repeat split; congruence.
Qed.

Ltac guarantees :=
  split; [intros [] Hne; try done; unfold rely, grows, same; cbn; intuition (congruence || lia)
         |intros []; cbn; intuition congruence].

(** A request of the serving thread that changes what it knows only. *)
Lemma serving_do s a l r c (o : proc_op) (k : proc_resp o -> prog proc unit) :
  local s a l r c ->
  (forall s1, local s1 a l r c -> may Serving s1 o /\ forall x, proc_assumed s1 o x ->
     guar Serving s1 (proc_step s1 o x) /\ fine Serving (proc_step s1 o x) (k x)) ->
  fine Serving s (Do (E := proc) o k).
Proof. intros Hs H s1 Hr. apply H. by eapply local_rely. Qed.

Lemma serving_exits s a r c : local s a false r c -> fine Serving s (Do (E := proc) FatalExit (fun _ => Ret tt)).
Proof.
  intros Hs. eapply serving_do; [exact Hs|]. clear s Hs. intros [w a' p r' l c' gs gp x] (Hg & Hw & Ha & Hl & Hr & Hc).
  cbn in *. subst. split; [done|]. intros [] [Hx _]. cbn in Hx. subst. split; [guarantees|].
  intros s1 [[_ G] _]. left. by apply G.
Qed.
Lemma serving_returns s a c :
  local s a false expected_services c -> stopped s = true ->
  fine Serving s (Do (E := proc) WgDone (fun _ => Ret tt)).
Proof.
  intros Hs Hp s1 Hr. pose proof (local_rely _ _ _ _ _ _ Hr Hs) as Hs1. destruct Hr as [[G _] _]. specialize (G Hp).
  destruct s1 as [w a' p r' l c' gs gp x]. destruct Hs1 as (Hg & Hw & Ha & Hl & Hr & Hc). cbn in *. subst.
  split; [by repeat split|]. intros [] [Hx _]. cbn in Hx. subst. split; [guarantees|].
  intros s2 [[G' _] H]. destruct (H eq_refl) as (Hg & Hw & Ha & Hl & Hr' & Hc). right. cbn in *.
  split_and!; [done..|]. split; [by apply G'|by split].
Qed.

Ltac serving_request Hs :=
  eapply serving_do; [exact Hs|]; clear Hs; intros [?w1 ?a1 ?p1 ?r1 ?l1 ?c1 ?gs1 ?gp1 ?x1] Hs;
  pose proof Hs as (?Hg & ?Hw & ?Ha & ?Hl & ?Hr & ?Hc); cbn in *; subst;
  (split; [|intros ?answer [?Hx ?Hanswer]; cbn in *; subst; split; [guarantees|]]).

Lemma serving_fails s a l r c :
  local s a l r c ->
  fine Serving s (Do (E := proc) CloseListener (fun _ => Do (E := proc) FatalExit (fun _ => Ret tt))).
Proof. intros Hs. serving_request Hs; [by repeat split|]. by eapply serving_exits. Qed.
Lemma serving_ends s a l c :
  local s a l expected_services c -> stopped s = true ->
  fine Serving s (Do (E := proc) CloseListener (fun _ => Do (E := proc) WgDone (fun _ => Ret tt))).
Proof.
  intros Hs Hp s1 Hr. pose proof (local_rely _ _ _ _ _ _ Hr Hs) as Hs1. destruct Hr as [[G _] _]. specialize (G Hp).
  destruct s1 as [w1 a1 p1 r1 l1 c1 gs1 gp1 x1]. destruct Hs1 as (Hg & Hw & Ha & Hl & Hr & Hc). cbn in *. subst.
  split; [done|]. intros [] [Hx _]. cbn in Hx. subst. split; [guarantees|]. by eapply serving_returns.
Qed.

Lemma serving_serves s c (k : serve_outcome -> prog proc unit) :
  local s true true expected_services c ->
  (forall outcome, k outcome = Do (E := proc) CloseListener (fun _ =>
     serving_done (match outcome with ServeFailed => Err (PlainErr "failed to serve requests: %w") | _ => Ok tt end))) ->
  fine Serving s (Do (E := proc) Serve k).
Proof.
  intros Hs Hk. serving_request Hs; [by repeat split|]. rewrite Hk.
  destruct answer; cbn [serving_done]; [| |by eapply serving_fails].
  - eapply serving_ends; [done|]. by apply Hanswer.
  - eapply serving_ends; [done|]. by apply Hanswer.
Qed.
Lemma serving_made s c k :
  local s false true [] c -> (forall s', local s' true true [] c -> fine Serving s' (k tt)) ->
  fine Serving s (Do (E := proc) NewServer (fun _ => Do (E := proc) StoreServer k)).
Proof.
  intros Hs Hk. serving_request Hs; [by repeat split|]. clear Hs. destruct answer.
  match goal with |- fine _ ?s _ => assert (local s false true [] c) as Hs by done end.
  serving_request Hs; [by repeat split|]. destruct answer. by apply Hk.
Qed.
Lemma serving_registers s r c name k :
  local s true true r c -> name ∈ expected_services ->
  (forall s', local s' true true (r ++ [name]) c -> fine Serving s' (k tt)) ->
  fine Serving s (Do (E := proc) (RegisterServer name) k).
Proof. intros Hs Hn Hk. serving_request Hs; [by repeat split|]. destruct answer. by apply Hk. Qed.

(** From the listener on. *)
Lemma serving_listens s proto addr c ids cs ns :
  local s false false [] c ->
  (exists a, ParseEndpoint (endpoint d) = Ok (proto, a)
     /\ if proto == "unix" then addr = "/" +:+ a /\ c = Some addr else addr = a) ->
  (ids, cs, ns) = asked_services ->
  fine Serving s (prog_bind (serve_at proto addr ids cs ns) serving_done).
Proof.
  intros Hs Hp Hasked. unfold serve_at. serving_request Hs; [by repeat split|]. clear Hs.
  match goal with |- fine _ ?s _ => assert (local s false answer [] c) as Hs by done end.
  destruct answer; cbn; [|by eapply serving_exits]. apply (serving_made _ _ _ Hs). clear Hs. intros s1 Hs.
  revert Hasked. pose proof serving_serves as Hserves. pose proof serving_registers as Hreg.
  unfold asked_services, expected_services in *.
  destruct (mode == DriverModeController) eqn:Em; intros [= -> -> ->]; cbn.
  all: apply (Hreg _ _ _ _ _ Hs); [set_solver|]; clear Hs; intros s2 Hs.
  all: apply (Hreg _ _ _ _ _ Hs); [set_solver|]; clear Hs; intros s3 Hs.
  all: by apply (Hserves _ _ _ Hs); intros [].
Qed.

Lemma serving_ok s ids cs ns :
  local s false false [] (cleared s) -> (ids, cs, ns) = asked_services ->
  fine Serving s (serving (endpoint d) ids cs ns).
Proof.
  intros Hs Hasked. remember (cleared s) as c eqn:Ec. clear Ec. unfold serving, serve.
  destruct (ParseEndpoint (endpoint d)) as [[proto addr]|e|] eqn:Ep; [|by eapply serving_exits..].
  cbn [lift mbind go_bind prog_bind]. unfold clear_socket. destruct (proto == "unix") eqn:Eu.
  - go_bool. subst proto. serving_request Hs; [by split_and!; [..|exists addr]|].
    destruct answer as [e|]; cbn; [destruct (IsNotExist e) eqn:Ee; cbn|].
    + eapply serving_listens; [done| |done]. by exists addr.
    + by eapply serving_exits.
    + eapply serving_listens; [done| |done]. by exists addr.
  - eapply serving_listens; [done| |done]. exists addr. by rewrite Eu.
Qed.

Lemma stopping_ok s : leEnabled config = true -> fine Stopping s stopping.
Proof.
  intros Hd s1 H1. split; [done|]. intros [] [Hx _]. split; [|].
  { destruct s1. cbn in *. guarantees. }
  intros s2 H2. split; [done|]. intros set [Hx' ->]. split.
  { destruct s2. cbn in *. guarantees. }
  destruct (assigned s2) eqn:Ea; [|by intros s3 _; right].
  intros s3 [_ H3]. split; [apply H3; by destruct s2|]. intros [] [Hx'' _]. split.
  { destruct s3. cbn in *. guarantees. }
  intros s4 _. by right.
Qed.

(** Before anything is started nobody else changes the state. *)
Definition idle (s : world) : Prop :=
  has_serving s = false /\ has_stopping s = false /\ wg s = O /\ assigned s = false
  /\ listening s = false /\ registered s = [].
Lemma idle_rely s s' : rely DriverThread s s' -> idle s -> idle s'.
Proof.
  intros [_ (Hg & Hp & _ & H)] (H1 & H2 & H3 & H4 & H5 & H6). destruct (H H1) as (? & ? & ? & ? & ?).
  repeat split; congruence.
Qed.

Ltac driver_request Hs :=
  let s1 := fresh "s" in let Hr := fresh "Hr" in
  intros s1 Hr; pose proof (idle_rely _ _ Hr Hs) as Hidle; clear Hs Hr;
  destruct s1 as [w a p r l c gs gp x]; destruct Hidle as (?Hg & ?Hp & ?Hw & ?Ha & ?Hl & ?Hreg); cbn in *; subst;
  (split; [|intros ?answer [?Hx ?Hanswer]; cbn in *; subst; split; [guarantees|]]).

Lemma driver_boot s o (k : run_resp o -> prog proc unit) :
  idle s ->
  match o with StartServer _ _ _ | WaitServer | Fatalf _ => False | _ => True end ->
  (forall s' r, idle s' -> fine DriverThread s' (k r)) ->
  fine DriverThread s (Do (E := proc) (Boot o) k).
Proof.
  intros Hs Ho Hk. destruct o; try done; (driver_request Hs; [done|by apply Hk]).
Qed.
Lemma driver_fatal s format (k : unit -> prog proc unit) :
  idle s -> (forall r, k r = Ret tt) -> fine DriverThread s (Do (E := proc) (Boot (Fatalf format)) k).
Proof.
  intros Hs Hk. driver_request Hs; [done|]. rewrite Hk. intros s1 [[_ G] _]. left. by apply G.
Qed.

Abbreviation driving := (fun p : go run_service unit =>
  prog_bind (interp (E := run_service) (F := proc) (driver_handler (leEnabled config)) p) (fun _ => Ret tt)).

(** The wait, once the server has been started. *)
Lemma driver_waits s :
  has_serving s = true -> has_stopping s = false ->
  fine DriverThread s (driving (_ ← call (E := run_service) WaitServer; ok tt)).
Proof.
  intros Hg Hp.
  assert (forall s, has_serving s = true -> fine DriverThread s (Do (E := proc) WgWait (fun _ => Ret tt))) as Hwait.
  { clear s Hg Hp. intros s Hg s1 (_ & Hg1 & _). rewrite Hg in Hg1.
    destruct s1 as [w a p r l c gs gp x]. cbn in *. subst. split; [done|]. intros u [Hx Hw]. cbn in *. subst.
    split; [guarantees|]. intros s2 (_ & Hg2 & _ & Hw2 & _). right. cbn in *. split; [done|lia]. }
  cbn. unfold waitForServerContext. destruct (leEnabled config) eqn:El; [|by apply Hwait].
  intros s1 (_ & Hg1 & Hp1 & _). rewrite Hg in Hg1. rewrite Hp in Hp1.
  destruct s1 as [w a p r l c gs gp x]. cbn in *. subst. split; [done|]. intros u [Hx _]. cbn in *. subst.
  split; [guarantees|]. by apply Hwait.
Qed.

Lemma driver_starts s ids cs ns :
  idle s -> (ids, cs, ns) = asked_services ->
  fine DriverThread s (driving (_ ← call (E := run_service) (StartServer ids cs ns);
                                _ ← call (E := run_service) StartInternalKubernetes;
                                _ ← call (E := run_service) WaitServer; ok tt)).
Proof.
  intros Hs Hasked. driver_request Hs; [done|].
  intros s1 (_ & Hg1 & Hp1 & Hw1 & H1). destruct (H1 eq_refl) as (Hw & Ha & Hl & Hr & Hc).
  destruct s1 as [w a p1 r l1 c1 gs gp x]. cbn in *. subst.
  split; [by split_and!|]. intros [] [Hx _]. cbn in *. subst. split; [guarantees|].
  intros s2 (_ & Hg2 & Hp2 & _). split; [done|]. intros u [Hx _]. destruct s2. cbn in *. subst.
  split; [guarantees|]. by apply driver_waits.
Qed.

Lemma driver_ok s : idle s -> fine DriverThread s (driver_thread env hostname d mode config).
Proof.
  intros Hs. unfold driver_thread, RunWithOptions. apply driver_boot; [done..|]. clear s Hs. intros s [] Hs.
  cbn [prog_bind interp].
  destruct (leEnabled config && (mode != DriverModeController))%bool; [by apply driver_fatal|].
  pose proof driver_starts as Hstarts. unfold asked_services in Hstarts.
  destruct (String.eqb_spec mode DriverModeController) as [Hm|Hm].
  - assert (forall s, idle s -> fine DriverThread s (driving serveController)) as Hc.
    { clear s Hs. intros s Hs. apply driver_boot; [done..|]. clear s Hs. intros s [] Hs; [by apply driver_fatal|].
      apply driver_boot; [done..|]. clear s Hs. intros s [] Hs; [by apply driver_fatal|].
      by apply (Hstarts s true true false Hs). }
    destruct (leEnabled config); [|by apply Hc]. unfold runControllerWithLeaderElection.
    destruct (withDefaults env hostname d config); [|by apply driver_fatal..].
    apply driver_boot; [done..|]. clear s Hs. intros s [] Hs; [by apply driver_fatal|by apply Hc].
  - destruct (mode == DriverModeNode); [|by apply driver_fatal].
    by apply (Hstarts s true false true Hs).
Qed.

Lemma threads_ok : threads_agree proc_monitor (spawned (endpoint d)) may known after rely guar.
Proof.
  split; [apply rely_preorder_ok|intros t t' s s' Hne [H _]; by apply H|intros t t' s s' [_ H]; apply H|].
  intros t s o r t' p Ho Hm [Hx _]. destruct s as [w a q r0 l c gs gp x]. cbn in Hx. subst.
  destruct o; try done; cbn in Ho; injection Ho as <- <-; destruct t; cbn in Hm; try tauto.
  - destruct Hm as (-> & -> & Hasked & -> & -> & ->). split_and!; [done..|]. by apply serving_ok.
  - destruct Hm as (_ & -> & Hd). split_and!; [done..|]. by apply stopping_ok.
Qed.

(** ** The process *)

Definition process : world * pool := (world0, [(DriverThread, driver_thread env hostname d mode config)]).
Abbreviation steps := (pool_step proc_monitor (spawned (endpoint d))).
Abbreviation reached := (reachable proc_monitor (spawned (endpoint d)) process).
Abbreviation good := (pool_ok proc_monitor may known after rely guar).

Lemma process_ok : good process.
Proof. split; [apply NoDup_singleton|]. constructor; [|done]. split; [done|]. by apply driver_ok. Qed.
Lemma reached_ok c : reached c -> good c.
Proof. intros H. eapply pool_ok_reachable; [exact threads_ok|exact H|exact process_ok]. Qed.

Definition present (c : world * @pool proc thread) : Prop :=
  DriverThread ∈ (snd c).*1 /\ (has_serving (fst c) = true -> Serving ∈ (snd c).*1).
Lemma steps_present c c' : steps c c' -> present c -> present c'.
Proof.
  intros Hs [Hd Hg]. split; [exact (pool_step_thread _ _ _ _ _ Hs Hd)|].
  pose proof (pool_step_thread _ _ Serving _ _ Hs) as Hstay. destruct Hs as [s l t o k r l' Hr]. cbn [fst snd] in *.
  intros H. destruct (has_serving s) eqn:Es; [by apply Hstay, Hg|].
  destruct s as [w a q r0 li c gs gp x]. cbn in Es. subst gs.
  destruct o as [[]| | | | | | | | | | | | | | | | |]; cbn in H; try discriminate H.
  unfold started. cbn. rewrite fmap_app, fmap_cons, fmap_app. cbn. set_solver.
Qed.
Lemma reached_present c : reached c -> present c.
Proof.
  assert (present process) as H0 by (split; [by left|done]).
  intros H. revert H0. induction H as [|c c1 c2 H _ IH]; [done|]. intros Hc. by eapply IH, steps_present.
Qed.

(** While the serving thread is not done, the wait group holds the driver. *)
Lemma serving_counts s l o k : good (s, l) -> (Serving, Do o k) ∈ l -> wg s = 1%nat.
Proof. intros Hok Hin. pose proof (pool_ok_may _ _ _ _ _ _ _ threads_ok _ _ _ _ _ Hok Hin) as (_ & Hw & _). done. Qed.
End run.

(** C39: in every interleaving of the driver, the goroutine that serves and the one that
    stops, each makes allowed requests only: a socket file goes before its listener, the
    services of the mode are registered before the server serves, the server is at hand
    for [Stop] before that, the wait group is released after it has ended.  And when the
    driver's wait is over without a fatal error, the server was stopped, its socket is
    closed, and it had the services of its mode. *)
Theorem server_lifecycle env hostname d mode config s l :
  reachable proc_monitor (spawned (endpoint d)) (process env hostname d mode config) (s, l) ->
  (forall t o k, (t, Do o k) ∈ l -> may d mode config t s o)
  /\ ((DriverThread, Ret tt) ∈ l -> exited s = false -> served mode s).
Proof.
  intros H. pose proof (reached_ok _ _ _ _ _ _ H) as Hok. pose proof (threads_ok d mode config) as Hth.
  split; [intros t o k; by eapply pool_ok_may|]. intros Hd Hx.
  destruct (pool_ok_after _ _ _ _ _ _ _ Hth _ _ _ _ Hok Hd) as [|[Hg Hw]]; [congruence|].
  destruct (reached_present _ _ _ _ _ _ H) as [_ Hp]. apply Hp in Hg.
  apply list_elem_of_fmap in Hg as ([t [u|o k]] & [= <-] & Hin).
  - destruct (pool_ok_after _ _ _ _ _ _ _ Hth _ _ _ _ Hok Hin) as [|(_ & _ & ?)]; [congruence|done].
  - pose proof (serving_counts _ _ _ _ _ _ _ Hok Hin). congruence.
Qed.

(** ** A stop ends the wait *)

Definition spare (s : world) : nat := (if has_serving s then 0 else 1) + (if has_stopping s then 0 else 1).
Lemma spare_le s (o : proc_op) (r : proc_resp o) : (spare (proc_step s o r) <= spare s)%nat.
Proof. destruct s as [w a q r0 l c gs gp x], o as [[]| | | | | | | | | | | | | | | | |]; unfold spare; cbn; destruct gs, gp; lia. Qed.
Lemma spare_lt ep s (o : proc_op) (r : proc_resp o) tp :
  spawned ep o = Some tp -> ~ known s (fst tp) -> (spare (proc_step s o r) < spare s)%nat.
Proof.
  destruct s as [w a q r0 l c gs gp x], o; try done; intros [= <-]; unfold spare; cbn; destruct gs, gp; try done; lia.
Qed.

(** Every request but the two that wait can be answered. *)
Lemma can_answer s (o : proc_op) :
  exited s = false -> (o = WgWait -> wg s = O) -> (o = Serve -> stopped s = true) ->
  exists r, proc_assumed s o r.
Proof.
  intros Hx Hw Hs. destruct o as [[]| | | | | | | | | | | | | | | | |]; try (exists tt; split; [done|by auto]).
  all: first [by exists true|by exists (assigned s)|by exists None|exists ServeReturned; split; [done|by auto]].
Qed.

(** C40: once the gRPC server has been stopped the wait ends, or the process does, whatever
    the schedule and the answers are. *)
Theorem stop_ends env hostname d mode config s l :
  reachable proc_monitor (spawned (endpoint d)) (process env hostname d mode config) (s, l) ->
  stopped s = true ->
  inevitable proc_monitor (spawned (endpoint d))
    (fun c => exited (fst c) = true \/ (DriverThread, Ret tt) ∈ snd c) (s, l).
Proof.
  intros H Hs. pose proof (reached_ok _ _ _ _ _ _ H) as Hok.
  refine (progress_inevitable _ _ _ _ _ _ _ (threads_ok d mode config) spare _ _ _
    (fun c => reachable proc_monitor (spawned (endpoint d)) (process env hostname d mode config) c /\ stopped (fst c) = true)
    _ _ _ _ Hok); [intros; apply spare_le|intros; by eapply spare_lt| | |done].
  - intros c c' [Hc Hst] Hstep. split; [by eapply rtc_r|]. destruct Hstep as [s0 l0 t o k r l1 _].
    destruct s0, o as [[]| | | | | | | | | | | | | | | | |]; cbn in *; done.
  - clear s l H Hs Hok. intros [s l] [H Hs] Hok. cbn [fst snd] in *.
    destruct (exited s) eqn:Hx; [by left; left|].
    destruct (reached_present _ _ _ _ _ _ H) as [Hd Hp]. cbn [fst snd] in *.
    assert (forall t o k r, (t, Do (E := proc) o k) ∈ l -> proc_assumed s o r ->
              exists c', pool_step proc_monitor (spawned (endpoint d)) (s, l) c') as Hmove.
    { intros t o k r (l1 & l2 & ->)%list_elem_of_split Hr. eexists. by apply (thread_step _ _ s l1 t o k r l2). }
    assert (forall t o k, (t, Do (E := proc) o k) ∈ l -> (o = WgWait -> wg s = O) ->
              exists c', pool_step proc_monitor (spawned (endpoint d)) (s, l) c') as Hmoves.
    { intros t o k Hin Hw. destruct (can_answer s o Hx Hw (fun _ => Hs)) as [r Hr]. by eapply Hmove. }
    apply list_elem_of_fmap in Hd as ([t [[]|o k]] & [= <-] & Hin); [by left; right|]. right.
    destruct (decide (wg s = O)) as [Hw|Hw]; [by eapply Hmoves|].
    pose proof (pool_ok_may _ _ _ _ _ _ _ (threads_ok d mode config) _ _ _ _ _ Hok Hin) as Hm.
    assert (has_serving s = true \/ o <> WgWait) as [Hg|Ho] by (destruct o; cbn in Hm; auto); [|by eapply Hmoves].
    apply Hp, list_elem_of_fmap in Hg as ([t' [u|o' k']] & [= <-] & Hin').
    + destruct (pool_ok_after _ _ _ _ _ _ _ (threads_ok d mode config) _ _ _ _ Hok Hin') as [|(_ & ? & _)]; congruence.
    + pose proof (pool_ok_may _ _ _ _ _ _ _ (threads_ok d mode config) _ _ _ _ _ Hok Hin') as (_ & _ & Hm').
      eapply Hmoves; [exact Hin'|]. by intros ->.
Qed.

(** ** Runs *)

(** A server whose socket can be removed and opened and whose client connections last
    until it is stopped. *)
Definition one_answer (s : world) (o : proc_op) : option (proc_resp o) :=
  if exited s then None else
  match o return option (proc_resp o) with
  | Boot NewBackendFromEnv | Boot ValidateBackend | Boot (RunLeaderElection _) => Some false
  | WgWait => if Nat.eqb (wg s) 0 then Some tt else None
  | LoadServer => Some (assigned s)
  | RemoveFile _ => Some (Some (OsErr NotExist ""))
  | Listen _ _ => Some true
  | Serve => if stopped s then Some ServeReturned else None
  | Boot EnsureRunDirectory | Boot (StartServer _ _ _) | Boot StartInternalKubernetes | Boot WaitServer
  | Boot (Fatalf _) => Some tt
  | WgAdd | WgDone | GoServe _ _ _ | GoStop | StoreServer | CloseListener | NewServer | RegisterServer _
  | GracefulStop | StopServer | AwaitDone | FatalExit => Some tt
  end.
Lemma one_answer_assumed s (o : proc_op) r : one_answer s o = Some r -> proc_assumed s o r.
Proof.
  unfold one_answer. destruct (exited s) eqn:Hx; [done|]. intros H. split; [done|].
  destruct o as [[]| | | | | | | | | | | | | | | | |]; try done.
  - by destruct (Nat.eqb_spec (wg s) 0).
  - by injection H.
  - by destruct (stopped s).
Qed.

Definition example_driver : driver := NewDriver "node-1" "unix://csi/csi.sock".
Definition run_example (sched : list nat) : world * pool :=
  run_pool proc_monitor (spawned (endpoint example_driver)) one_answer sched
    (process example_env (Ok "host") example_driver DriverModeController example_election).
Lemma run_example_reachable sched :
  reachable proc_monitor (spawned (endpoint example_driver))
    (process example_env (Ok "host") example_driver DriverModeController example_election) (run_example sched).
Proof. apply run_pool_reachable. exact one_answer_assumed. Qed.

(** What each thread is about to do. *)
Definition heads (l : @pool proc thread) : list (thread * option proc_op) :=
  map (fun '(t, p) => (t, match p with Ret _ => None | Do o _ => Some o end)) l.

(** The driver up to its wait; the server up to its requests; the stop. *)
Definition to_wait : list nat := replicate 9 0%nat.
Definition to_serve : list nat := replicate 7 1%nat.
Definition to_stop : list nat := replicate 3 2%nat.

(** The context ends before the serving goroutine has set [s.server]: [Stop] does nothing,
    nothing stops the server afterwards, and the driver waits on. *)
Lemma stop_is_lost :
  let '(s, l) := run_example (to_wait ++ to_stop ++ to_serve) in
  heads l = [(DriverThread, Some WgWait); (Serving, Some Serve); (Stopping, None)]
  /\ assigned s = true /\ stopped s = false /\ wg s = 1%nat.
Proof. vm_compute. by repeat split. Qed.

Lemma server_lifecycle_witness :
  let '(s, l) := run_example (to_wait ++ to_serve ++ to_stop ++ to_serve ++ to_wait) in
  heads l = [(DriverThread, None); (Serving, None); (Stopping, None)]
  /\ served DriverModeController s.
Proof.
  pose proof (run_example_reachable (to_wait ++ to_serve ++ to_stop ++ to_serve ++ to_wait)) as H.
  assert (let '(s, l) := run_example (to_wait ++ to_serve ++ to_stop ++ to_serve ++ to_wait) in
          heads l = [(DriverThread, None); (Serving, None); (Stopping, None)] /\ exited s = false) as Hrun
    by (vm_compute; by split).
  destruct (run_example _) as [s l]. destruct Hrun as [Hl Hx].
  split; [done|]. apply (server_lifecycle _ _ _ _ _ _ _ H); [|done].
  destruct l as [|[t [[]|]] l]; try discriminate Hl. injection Hl as -> _. by left.
Defined.
Lemma stop_ends_witness :
  let '(s, l) := run_example (to_wait ++ to_serve ++ to_stop) in
  inevitable proc_monitor (spawned (endpoint example_driver))
    (fun c => exited (fst c) = true \/ (DriverThread, Ret tt) ∈ snd c) (s, l).
Proof.
  pose proof (run_example_reachable (to_wait ++ to_serve ++ to_stop)) as H.
  assert (stopped (fst (run_example (to_wait ++ to_serve ++ to_stop))) = true) as Hs by by vm_compute.
  destruct (run_example _) as [s l]. by apply (stop_ends _ _ _ _ _ _ _ H).
Defined.

(** ** Endpoints *)

(** The scheme is compared without regard to case, and then used as it was written: the
    path of a socket whose scheme is in capitals is not made absolute, and the network
    that is listened on is not one that Go knows. *)
Lemma ParseEndpoint_upper_case : ParseEndpoint "UNIX:///csi/csi.sock" = Ok ("UNIX", "/csi/csi.sock").
Proof. reflexivity. Qed.
