(* ===== verification/Backend.v ===== *)
(** * The storage back end ([Backend] of [pkg/iscsi/driver.go])

    The interface through which the controller reaches the storage server: one
    request per method, with the values it returns.  A method that returns a Go
    error answers with [failed = true] beside its other results, which callers may
    still look at; the text of the error is only ever printed. *)
From S2P Require Import Prelude VolumeID VolumeTypes Params Prog.

Inductive backend_op :=
| EnsureTarget (targetName targetIQN : string)
| ConfigureTargetChap (targetName : string) (opts : TargetChapOptions)
| CreateVirtualDisk (name parentDir : string) (sizeBytes : Z)
| MapDiskToTarget (targetName vhdxPath : string)
| UnmapDiskFromTarget (targetName vhdxPath : string)
| DeleteVirtualDisk (vhdxPath : string)
| LookupTargetNameByIQN (targetIQN : string)
| DeleteTarget (targetName : string)
| GetVolumeByName (name parentDir : string)
| AllowInitiator (targetName initiatorIQN : string)
| DenyInitiator (targetName initiatorIQN : string)
| GetDirectoryFreeCapacity (parentDir : string)
| CreateSnapshot (vhdxPath description : string)
| DeleteSnapshot (snapshotID : string)
| ListSnapshots (vhdxPath : string)
| ExportSnapshotAsVirtualDisk (snapshotID : string)
| ResizeVirtualDisk (vhdxPath : string) (newSizeBytes : Z)
| GetVolumeInfo (vhdxPath : string)
| GetTargetInitiators (targetName : string)
| CreateNfsShare (name parentDir : string) (sizeBytes : Z) (clients : list string)
    (opts : NfsShareOptions)
| GetNfsShare (name parentDir : string)
| DeleteNfsShare (name path : string)
| CreateSmbShare (name parentDir : string) (sizeBytes : Z)
    (fullAccess changeAccess readAccess : list string) (opts : SmbShareOptions)
| GetSmbShare (name parentDir : string)
| DeleteSmbShare (name path : string)
| ResizeFileShare (path : string) (newSizeBytes : Z)
| RestoreSnapshotAsFileShare (snapshotID destinationPath : string)
| MountFileShareVirtualDisk (vhdxPath mountPath : string)
| UnmountFileShareVirtualDisk (vhdxPath mountPath : string).

(** The results of [GetVolumeByName]. *)
Record FoundVolume := {
  fv_exists : bool;
  fv_vhdxPath : string;
  fv_sizeBytes : Z;
  fv_targetName : string;
  fv_targetIQN : string;
  fv_lun : Z
}.

(** The values a method returns, and whether it failed. *)
Record returned (A : Type) := Returned { value : A; failed : bool }.
Arguments Returned {_} _ _.
Arguments value {_} _.
Arguments failed {_} _.

Definition backend_result (o : backend_op) : Type :=
  match o with
  | EnsureTarget _ _ => string
  | CreateVirtualDisk _ _ _ => string * Z
  | MapDiskToTarget _ _ => Z
  | LookupTargetNameByIQN _ => string
  | GetVolumeByName _ _ => FoundVolume
  | GetDirectoryFreeCapacity _ => Z
  | CreateSnapshot _ _ => SnapshotInfo
  | ListSnapshots _ => list SnapshotInfo
  | ExportSnapshotAsVirtualDisk _ => string
  | ResizeVirtualDisk _ _ => Z
  | GetVolumeInfo _ => VolumeInfo
  | GetTargetInitiators _ => list string
  | CreateNfsShare _ _ _ _ _ => VolumeInfo
  | GetNfsShare _ _ => bool * VolumeInfo
  | CreateSmbShare _ _ _ _ _ _ _ => VolumeInfo
  | GetSmbShare _ _ => bool * VolumeInfo
  | ResizeFileShare _ _ => Z
  | _ => unit
  end.
Definition backend : service := Service backend_op (fun o => returned (backend_result o)).

Abbreviation controller := (go backend).

(** A call whose error, if any, becomes a [codes.Internal] status with [format]. *)
Definition must (o : backend_op) (format : string) : controller (backend_result o) :=
  r ← call (E := backend) o;
  if failed r then Ret (Err (StatusErr Internal format)) else ok (value r).
(** A call whose error is ignored. *)
Definition try (o : backend_op) : controller (backend_result o) :=
  r ← call (E := backend) o; ok (value r).

(** Requests that remove or detach storage. *)
Definition destructive (o : backend_op) : Prop :=
  match o with
  | UnmapDiskFromTarget _ _ | DeleteVirtualDisk _ | DeleteTarget _ | DenyInitiator _ _
  | DeleteSnapshot _ | DeleteNfsShare _ _ | DeleteSmbShare _ _
  | UnmountFileShareVirtualDisk _ _ => True
  | _ => False
  end.
(** Requests that only read. *)
Definition reads (o : backend_op) : Prop :=
  match o with
  | LookupTargetNameByIQN _ | GetVolumeByName _ _ | GetDirectoryFreeCapacity _ | ListSnapshots _
  | GetVolumeInfo _ | GetTargetInitiators _ | GetNfsShare _ _ | GetSmbShare _ _ => True
  | _ => False
  end.
