(* ===== verification/Controller.v ===== *)
(** * The CSI controller service ([pkg/iscsi/controllerserver.go])

    The twelve RPCs and their helpers, as programs over the storage back end.
    Requests and responses have the fields the code reads and sets; log messages
    are left out. *)
From S2P Require Import Prelude GoStrings GoStrconv GoNet VolumeID VolumeTypes LegacyID.
From S2P Require Import Params Chap Prog Driver Backend.

(** ** Requests and responses *)

(** A content source: a snapshot or a volume by its id, or one without a type. *)
Inductive VolumeContentSource :=
| SourceSnapshot (snapshotId : string) | SourceClone (volumeId : string) | SourceOther.
Definition GetSnapshot (s : option VolumeContentSource) : option string :=
  match s with Some (SourceSnapshot id) => Some id | _ => None end.

Record CreateVolumeRequest := {
  cr_Name : string;
  cr_VolumeCapabilities : list AccessMode;
  cr_Parameters : Params;
  cr_Secrets : Params;
  cr_CapacityRange : option CapacityRange;
  cr_ContentSource : option VolumeContentSource
}.

Record Volume := {
  VolumeId : string;
  vCapacityBytes : Z;
  VolumeContext : Params;
  ContentSource : option VolumeContentSource
}.

Record ControllerServer := { cs_Driver : option driver }.
(** [driver.go] *)
Definition NewControllerServer (d : driver) : ControllerServer := {| cs_Driver := Some d |}.

(** A call of [cs.Driver.backend], which a nil [Driver] makes panic. *)
Definition with_driver {A} (cs : ControllerServer) (k : driver -> controller A) : controller A :=
  match cs_Driver cs with Some d => k d | None => Ret Panicked end.
Definition backend_must (cs : ControllerServer) (o : backend_op) (format : string)
  : controller (backend_result o) := with_driver cs (fun _ => must o format).
Definition backend_try (cs : ControllerServer) (o : backend_op) : controller (backend_result o) :=
  with_driver cs (fun _ => try o).

(** ** Parameters that depend on the driver *)

Definition driver_protocol (cs : ControllerServer) : Protocol :=
  match cs_Driver cs with Some d => protocol d | None => "" end.
Definition driver_shareBackend (cs : ControllerServer) : string :=
  match cs_Driver cs with Some d => fileShareBackend d | None => "" end.

Definition fileShareBackendFromParams (cs : ControllerServer) (params : Params) : res string :=
  let defaultBackend := if driver_shareBackend cs != "" then driver_shareBackend cs
                        else fileShareBackendDirectory in
  let '(raw, ok) := getStringParam params "shareBackend" in
  let backend := if ok then ToLower raw else defaultBackend in
  if ((backend == fileShareBackendDirectory) || (backend == fileShareBackendVHDX))%bool then
    if ((driver_shareBackend cs != "") && (backend != driver_shareBackend cs))%bool
    then invalid "driver %s only supports shareBackend=%s"
    else Ok backend
  else invalid "parameter shareBackend must be %q or %q".

Definition protocolFromParams (cs : ControllerServer) (params : Params) : res Protocol :=
  let raw := norm (param params "protocol") in
  if raw == "" then
    if driver_protocol cs != "" then Ok (driver_protocol cs) else Ok ProtocolISCSI
  else if ((raw == ProtocolISCSI) || (raw == ProtocolNFS) || (raw == ProtocolSMB))%bool then
    if ((driver_protocol cs != "") && (raw != driver_protocol cs))%bool
    then invalid "protocol %s does not match CSI driver %s"
    else Ok raw
  else invalid "unsupported protocol: %s".

Definition supportsAccessModeForProtocol (cs : ControllerServer) (mode : AccessMode)
  (protocol : Protocol) : bool :=
  match mode with
  | SINGLE_NODE_WRITER | SINGLE_NODE_SINGLE_WRITER | SINGLE_NODE_MULTI_WRITER => true
  | MULTI_NODE_READER_ONLY | MULTI_NODE_SINGLE_WRITER | MULTI_NODE_MULTI_WRITER =>
      if protocol != "" then file_protocol protocol
      else match cs_Driver cs with
           | Some d => ((Driver.protocol d == "") || file_protocol (Driver.protocol d))%bool
           | None => false
           end
  | _ => false
  end.

(** ** Volume ids and contexts *)

Fixpoint firstNonEmpty (values : list string) : string :=
  match values with
  | [] => ""
  | value :: rest => if TrimSpace value != "" then value else firstNonEmpty rest
  end.

Definition maxInt64 (a b : Z) : Z := if (b <? a)%Z then a else b.

Definition fileShareVolumeID (name : string) (protocol : Protocol) (backend : string)
  (info : VolumeInfo) (capacityBytes : Z) : VolumeID :=
  {| Name := name; vProtocol := protocol; ShareBackend := backend;
     SharePath := if backend == fileShareBackendVHDX then iSharePath info else iVHDXPath info;
     TargetPortal := ""; TargetName := ""; TargetIQN := ""; LUN := 0;
     VHDXPath := iVHDXPath info;
     NfsServer := if protocol == ProtocolNFS then iNfsServer info else "";
     NfsExportPath := if protocol == ProtocolNFS then iNfsExportPath info else "";
     NfsAuthentication := ""; NfsMountAuthentication := "";
     SmbServer := if protocol == ProtocolSMB then iSmbServer info else "";
     SmbShareName := if protocol == ProtocolSMB then iSmbShareName info else "";
     CapacityBytes := capacityBytes; nameSpecified := false; lunSpecified := false |}.

Definition applyNfsOptionsToVolumeID (vid : VolumeID) (opts : NfsShareOptions) : VolumeID :=
  if vProtocol vid != ProtocolNFS then vid
  else
    {| Name := Name vid; vProtocol := vProtocol vid; ShareBackend := ShareBackend vid;
       SharePath := SharePath vid; TargetPortal := TargetPortal vid; TargetName := TargetName vid;
       TargetIQN := TargetIQN vid; LUN := LUN vid; VHDXPath := VHDXPath vid;
       NfsServer := NfsServer vid; NfsExportPath := NfsExportPath vid;
       NfsAuthentication := match Authentication opts with
                            | [] => NfsAuthentication vid
                            | auth => Join auth ","
                            end;
       NfsMountAuthentication := if MountAuthentication opts != "" then MountAuthentication opts
                                 else NfsMountAuthentication vid;
       SmbServer := SmbServer vid; SmbShareName := SmbShareName vid;
       CapacityBytes := CapacityBytes vid; nameSpecified := nameSpecified vid;
       lunSpecified := lunSpecified vid |}.

(** The target's name and the IQN asked for it. *)
Definition iscsiTargetForVolume (params : Params) (volName : string) : string * string :=
  let '(iqnPrefix, ok) := getStringParam params "iqnPrefix" in
  if ok then let targetIQN := iqnPrefix +:+ ":" +:+ volName in (targetIQN, targetIQN)
  else (volName, "").

Definition targetNameFromVolID (id : volID) : string := firstNonEmpty [lTargetName id; lTargetIQN id].

Definition targetPortalAddress (targetPortal0 : string) (portalPort : Z) : string :=
  let targetPortal := TrimSpace targetPortal0 in
  if targetPortal == "" then ""
  else match SplitHostPort targetPortal with
       | Some _ => targetPortal
       | None => JoinHostPort targetPortal (Itoa portalPort)
       end.

Definition withIscsiVolumeContextParams (ctx params : Params) : Params :=
  let '(iface, ok) := getStringParam params "iface" in
  if ok then <["iface" := iface]> ctx else ctx.

(** [if v != "" { ctx[k] = v }] *)
Definition ctx_nonempty (k v : string) (ctx : Params) : Params := if v != "" then <[k := v]> ctx else ctx.

Definition volumeContextForVolumeID (v : VolumeID) : Params :=
  if vProtocol v == ProtocolNFS then
    ctx_nonempty "nfsMountAuthentication" (NfsMountAuthentication v)
      (ctx_nonempty "nfsAuthentication" (NfsAuthentication v)
         (list_to_map [("protocol", ProtocolNFS); ("server", NfsServer v);
                       ("nfsServer", NfsServer v); ("exportPath", NfsExportPath v);
                       ("nfsExportPath", NfsExportPath v)]))
  else if vProtocol v == ProtocolSMB then
    list_to_map [("protocol", ProtocolSMB); ("server", SmbServer v); ("smbServer", SmbServer v);
                 ("share", SmbShareName v); ("smbShareName", SmbShareName v)]
  else
    let ctx := list_to_map [("targetPortal", TargetPortal v); ("iqn", TargetIQN v);
                            ("lun", Itoa (LUN v))] in
    if TrimSpace (TargetName v) != "" then <["targetName" := TargetName v]> ctx else ctx.

(** ** CHAP *)

Definition configureTargetChapFromSecrets (cs : ControllerServer) (targetName : string)
  (secrets : Params) : controller unit :=
  opts ← lift (targetChapOptionsFromSecrets secrets);
  if negb (Enabled opts) then ok tt
  else backend_must cs (ConfigureTargetChap targetName opts) "ConfigureTargetChap: %v".

(** ** CreateVolume: iSCSI *)

(** The settings of an iSCSI volume, taken from the request. *)
Record IscsiSettings := {
  targetPortalWithPort : string;
  parentDir : string;
  size : Z;
  targetName : string;
  requestedTargetIQN : string
}.

(** [portalPort], when given, must agree with the port of [targetPortal]. *)
Definition portal_ports_agree (params : Params) (targetPortal : string) (portalPort : Z) : res unit :=
  let '(_, portalPortProvided) := getStringParam params "portalPort" in
  if portalPortProvided then
    match SplitHostPort targetPortal with
    | Some (_, targetPortalPortValue) =>
        match Atoi targetPortalPortValue with
        | None => invalid "parameter targetPortal port must be an integer between 1 and 65535"
        | Some targetPortalPort =>
            if negb (portalPort =? targetPortalPort)
            then invalid "parameter portalPort %d conflicts with targetPortal port %d"
            else Ok tt
        end
    | None => Ok tt
    end
  else Ok tt.

Definition iscsi_settings (req : CreateVolumeRequest) : res IscsiSettings :=
  let params := cr_Parameters req in
  let '(targetPortal, provided) := getStringParam params "targetPortal" in
  if negb provided then invalid "parameter targetPortal is required" else
  _ ← validateTargetPortal targetPortal;
  portalPort ← parseTCPPortParam params "portalPort" 3260;
  _ ← portal_ports_agree params targetPortal portalPort;
  let '(parentDir, _) := getStringParam params "vhdxParentPath" in
  _ ← validateWindowsPathParam parentDir false;
  _ ← (let '(iqnPrefix, provided) := getStringParam params "iqnPrefix" in
       if provided then validateIQNPrefix iqnPrefix else Ok tt);
  size ← requiredBytesFromRange (cr_CapacityRange req) 1;
  let '(targetName, requestedTargetIQN) := iscsiTargetForVolume params (cr_Name req) in
  _ ← validateISCSITargetName targetName;
  Ok {| targetPortalWithPort := targetPortalAddress targetPortal portalPort;
        parentDir := parentDir; size := size; targetName := targetName;
        requestedTargetIQN := requestedTargetIQN |}.

Definition iscsi_context (portal iqn : string) (lun : Z) (params : Params) : Params :=
  withIscsiVolumeContextParams
    (list_to_map [("targetPortal", portal); ("iqn", iqn); ("lun", Itoa lun)]) params.

(** A target made or found, with its IQN, which must not be empty. *)
Definition ensure_target (cs : ControllerServer) (targetName requestedIQN format : string)
  : controller string :=
  targetIQN ← backend_must cs (EnsureTarget targetName requestedIQN) format;
  if targetIQN == "" then fail Internal "EnsureTarget returned an empty target IQN for target %q"
  else ok targetIQN.

Definition iscsi_volID (req : CreateVolumeRequest) (s : IscsiSettings) (targetName targetIQN : string)
  (lun : Z) (vhdxPath : string) (sizeBytes : Z) : volID :=
  {| VolumeName := cr_Name req; lTargetPortal := targetPortalWithPort s;
     lTargetName := targetName; lTargetIQN := targetIQN; lLUN := lun; lVHDXPath := vhdxPath;
     SizeBytes := sizeBytes |}.

(** A volume restored from a snapshot. *)
Definition createIscsiFromSnapshot (cs : ControllerServer) (req : CreateVolumeRequest)
  (s : IscsiSettings) (snapshotId : string) : controller Volume :=
  sid ← (match decodeSnapID snapshotId with
         | Ok sid => ok sid
         | Panicked => Ret Panicked
         | Err _ => fail InvalidArgument "invalid snapshotId: %v"
         end);
  exportedPath ← backend_must cs (ExportSnapshotAsVirtualDisk (snSnapshotID sid))
                   "ExportSnapshotAsVirtualDisk: %v";
  targetIQN ← ensure_target cs (targetName s) (requestedTargetIQN s) "EnsureTarget: %v";
  _ ← configureTargetChapFromSecrets cs (targetName s) (cr_Secrets req);
  lun ← backend_must cs (MapDiskToTarget (targetName s) exportedPath) "MapDiskToTarget(exported): %v";
  vi ← backend_try cs (GetVolumeInfo exportedPath);
  ok {| VolumeId := encodeVolID
          (iscsi_volID req s (targetName s) targetIQN lun exportedPath (iSizeBytes vi));
        vCapacityBytes := iSizeBytes vi;
        VolumeContext := withIscsiVolumeContextParams
          (list_to_map [("targetPortal", targetPortalWithPort s); ("iqn", targetIQN);
                        ("lun", Itoa lun); ("source", "snapshot")]) (cr_Parameters req);
        ContentSource := cr_ContentSource req |}.

(** A volume whose disk is there already. *)
Definition createIscsiExisting (cs : ControllerServer) (req : CreateVolumeRequest)
  (s : IscsiSettings) (found : FoundVolume) : controller Volume :=
  if ((0 <? size s) && (0 <? fv_sizeBytes found) && (fv_sizeBytes found <? size s))%Z%bool
  then fail AlreadyExists "volume %q exists smaller (%dB) than requested (%dB)" else
  let existingTargetName := if fv_targetName found == "" then targetName s
                            else fv_targetName found in
  targetIQN ← ensure_target cs existingTargetName
                (firstNonEmpty [fv_targetIQN found; requestedTargetIQN s])
                "EnsureTarget(existing): %v";
  existingLUN ← (if (fv_lun found <? 0)%Z then
                   backend_must cs (MapDiskToTarget existingTargetName (fv_vhdxPath found))
                     "MapDiskToTarget(existing): %v"
                 else ok (fv_lun found));
  ok {| VolumeId := encodeVolID
          (iscsi_volID req s existingTargetName targetIQN existingLUN (fv_vhdxPath found)
             (fv_sizeBytes found));
        vCapacityBytes := fv_sizeBytes found;
        VolumeContext := iscsi_context (targetPortalWithPort s) targetIQN existingLUN
                           (cr_Parameters req);
        ContentSource := None |}.

(** A new volume. *)
Definition createIscsiNew (cs : ControllerServer) (req : CreateVolumeRequest) (s : IscsiSettings)
  : controller Volume :=
  '(vhdxPath, actual) ← backend_must cs (CreateVirtualDisk (cr_Name req) (parentDir s) (size s))
                          "CreateVirtualDisk: %v";
  targetIQN ← ensure_target cs (targetName s) (requestedTargetIQN s) "EnsureTarget: %v";
  _ ← configureTargetChapFromSecrets cs (targetName s) (cr_Secrets req);
  lun ← backend_must cs (MapDiskToTarget (targetName s) vhdxPath) "MapDiskToTarget: %v";
  ok {| VolumeId := encodeVolID (iscsi_volID req s (targetName s) targetIQN lun vhdxPath actual);
        vCapacityBytes := actual;
        VolumeContext := iscsi_context (targetPortalWithPort s) targetIQN lun (cr_Parameters req);
        ContentSource := None |}.

Definition createIscsiVolume (cs : ControllerServer) (req : CreateVolumeRequest) : controller Volume :=
  s ← lift (iscsi_settings req);
  match GetSnapshot (cr_ContentSource req) with
  | Some snapshotId => createIscsiFromSnapshot cs req s snapshotId
  | None =>
      found ← backend_must cs (GetVolumeByName (cr_Name req) (parentDir s)) "GetVolumeByName: %v";
      if fv_exists found then createIscsiExisting cs req s found
      else createIscsiNew cs req s
  end.

(** ** CreateVolume: file shares *)

Definition with_NfsServer (i : VolumeInfo) (server : string) : VolumeInfo :=
  {| iVolumeName := iVolumeName i; iProtocol := iProtocol i; iTargetPortal := iTargetPortal i;
     iTargetName := iTargetName i; iTargetIQN := iTargetIQN i; iLUN := iLUN i;
     iVHDXPath := iVHDXPath i; iSharePath := iSharePath i; iNfsServer := server;
     iNfsExportPath := iNfsExportPath i; iSmbServer := iSmbServer i;
     iSmbShareName := iSmbShareName i; iCapacityBytes := iCapacityBytes i;
     iCreatedAt := iCreatedAt i; iSizeBytes := iSizeBytes i; iTargets := iTargets i |}.
Definition with_SmbServer (i : VolumeInfo) (server : string) : VolumeInfo :=
  {| iVolumeName := iVolumeName i; iProtocol := iProtocol i; iTargetPortal := iTargetPortal i;
     iTargetName := iTargetName i; iTargetIQN := iTargetIQN i; iLUN := iLUN i;
     iVHDXPath := iVHDXPath i; iSharePath := iSharePath i; iNfsServer := iNfsServer i;
     iNfsExportPath := iNfsExportPath i; iSmbServer := server;
     iSmbShareName := iSmbShareName i; iCapacityBytes := iCapacityBytes i;
     iCreatedAt := iCreatedAt i; iSizeBytes := iSizeBytes i; iTargets := iTargets i |}.
(** The disk behind a share, mounted at [sharePath], of [actual] bytes. *)
Definition with_disk (i : VolumeInfo) (vhdxPath sharePath : string) (actual : Z) : VolumeInfo :=
  {| iVolumeName := iVolumeName i; iProtocol := iProtocol i; iTargetPortal := iTargetPortal i;
     iTargetName := iTargetName i; iTargetIQN := iTargetIQN i; iLUN := iLUN i;
     iVHDXPath := vhdxPath; iSharePath := sharePath; iNfsServer := iNfsServer i;
     iNfsExportPath := iNfsExportPath i; iSmbServer := iSmbServer i;
     iSmbShareName := iSmbShareName i; iCapacityBytes := maxInt64 (iCapacityBytes i) actual;
     iCreatedAt := iCreatedAt i; iSizeBytes := actual; iTargets := iTargets i |}.

(** The disk of a new VHDX-backed share: exported from a snapshot, found, or created. *)
Definition share_disk (cs : ControllerServer) (req : CreateVolumeRequest)
  (name vhdxParentDir : string) (size : Z) (found : FoundVolume) : controller (string * Z) :=
  match GetSnapshot (cr_ContentSource req) with
  | Some snapshotId =>
      sid ← (match decodeSnapID snapshotId with
             | Ok sid => ok sid
             | Panicked => Ret Panicked
             | Err _ => fail InvalidArgument "invalid snapshotId: %v"
             end);
      vhdxPath ← backend_must cs (ExportSnapshotAsVirtualDisk (snSnapshotID sid))
                   "ExportSnapshotAsVirtualDisk: %v";
      vi ← with_driver cs (fun _ => call (E := backend) (GetVolumeInfo vhdxPath));
      ok (vhdxPath, if failed vi then fv_sizeBytes found else iSizeBytes (value vi))
  | None =>
      if fv_vhdxPath found == "" then
        backend_must cs (CreateVirtualDisk name vhdxParentDir size) "CreateVirtualDisk: %v"
      else ok (fv_vhdxPath found, fv_sizeBytes found)
  end.

Definition share_volume (vid : VolumeID) (capacityBytes : Z) (context : Params)
  (req : CreateVolumeRequest) : Volume :=
  {| VolumeId := EncodeVolumeID (Some vid); vCapacityBytes := capacityBytes;
     VolumeContext := context; ContentSource := cr_ContentSource req |}.

Definition nfs_volume (req : CreateVolumeRequest) (name nfsServer shareBackend : string) (size : Z)
  (nfsOpts : NfsShareOptions) (info : VolumeInfo) : Volume :=
  let info := if nfsServer != "" then with_NfsServer info nfsServer else info in
  let capacityBytes := maxInt64 (iCapacityBytes info) size in
  let volumeID := applyNfsOptionsToVolumeID
                    (fileShareVolumeID name ProtocolNFS shareBackend info capacityBytes) nfsOpts in
  share_volume volumeID capacityBytes (volumeContextForVolumeID volumeID) req.

(** [&VolumeID{Protocol: ProtocolSMB, SmbServer: server, SmbShareName: share}]. *)
Definition smb_address (server share : string) : VolumeID :=
  {| Name := ""; vProtocol := ProtocolSMB; ShareBackend := ""; SharePath := ""; TargetPortal := "";
     TargetName := ""; TargetIQN := ""; LUN := 0; VHDXPath := ""; NfsServer := "";
     NfsExportPath := ""; NfsAuthentication := ""; NfsMountAuthentication := "";
     SmbServer := server; SmbShareName := share; CapacityBytes := 0; nameSpecified := false;
     lunSpecified := false |}.

Definition smb_volume (req : CreateVolumeRequest) (name smbServer shareBackend : string) (size : Z)
  (info : VolumeInfo) : Volume :=
  let info := if smbServer != "" then with_SmbServer info smbServer else info in
  let capacityBytes := maxInt64 (iCapacityBytes info) size in
  share_volume (fileShareVolumeID name ProtocolSMB shareBackend info capacityBytes) capacityBytes
    (volumeContextForVolumeID (smb_address (iSmbServer info) (iSmbShareName info))) req.

Definition createVHDXBackedNfsVolume (cs : ControllerServer) (req : CreateVolumeRequest)
  (name shareParentDir nfsServer : string) (size : Z) (nfsOpts : NfsShareOptions)
  : controller Volume :=
  let params := cr_Parameters req in
  let '(vhdxParentDir, _) := getStringParam params "vhdxParentPath" in
  _ ← lift (validateWindowsPathParam vhdxParentDir false);
  let sharePath := joinWindowsPath shareParentDir name in
  '(exists_, info) ← backend_must cs (GetNfsShare name shareParentDir) "GetNfsShare: %v";
  found ← backend_must cs (GetVolumeByName name vhdxParentDir) "GetVolumeByName: %v";
  info ←
    (if negb exists_ then
       '(vhdxPath, actual) ← share_disk cs req name vhdxParentDir size found;
       _ ← backend_must cs (MountFileShareVirtualDisk vhdxPath sharePath)
             "MountFileShareVirtualDisk: %v";
       info ← backend_must cs
         (CreateNfsShare name shareParentDir (maxInt64 size actual)
            (splitCSVParam (param params "nfsClientName")) nfsOpts) "CreateNfsShare: %v";
       ok (with_disk info vhdxPath sharePath actual)
     else
       let mountPath := firstNonEmpty [iSharePath info; iVHDXPath info; sharePath] in
       if fv_vhdxPath found == "" then
         fail FailedPrecondition "NFS share %q exists but VHDX %q was not found"
       else
         _ ← backend_must cs (MountFileShareVirtualDisk (fv_vhdxPath found) mountPath)
               "MountFileShareVirtualDisk(existing): %v";
         ok (with_disk info (fv_vhdxPath found) mountPath (fv_sizeBytes found)));
  ok (nfs_volume req name nfsServer fileShareBackendVHDX size nfsOpts info).

Definition createNfsVolume (cs : ControllerServer) (req : CreateVolumeRequest) : controller Volume :=
  let params := cr_Parameters req in
  let '(parentDir, provided) := getStringParam params "shareParentPath" in
  if negb provided then lift (invalid "parameter shareParentPath is required") else
  _ ← lift (validateWindowsPathParam parentDir true);
  shareBackend ← lift (fileShareBackendFromParams cs params);
  let '(nfsServer, _) := getStringParam params "nfsServer" in
  nfsOpts ← lift (nfsOptionsFromParams params);
  size ← lift (requiredBytesFromRange (cr_CapacityRange req) 1);
  let name := cr_Name req in
  if shareBackend == fileShareBackendVHDX
  then createVHDXBackedNfsVolume cs req name parentDir nfsServer size nfsOpts
  else match GetSnapshot (cr_ContentSource req) with
  | Some _ => lift (invalid "directory-backed NFS volumes do not support restore from snapshots")
  | None =>
      '(exists_, info) ← backend_must cs (GetNfsShare name parentDir) "GetNfsShare: %v";
      info ←
        (if negb exists_ then
           backend_must cs (CreateNfsShare name parentDir size
                              (splitCSVParam (param params "nfsClientName")) nfsOpts)
             "CreateNfsShare: %v"
         else ok info);
      ok (nfs_volume req name nfsServer shareBackend size nfsOpts info)
  end.

Definition createVHDXBackedSmbVolume (cs : ControllerServer) (req : CreateVolumeRequest)
  (name shareParentDir smbServer : string) (size : Z) (smbOpts : SmbShareOptions)
  : controller Volume :=
  let params := cr_Parameters req in
  let '(vhdxParentDir, _) := getStringParam params "vhdxParentPath" in
  _ ← lift (validateWindowsPathParam vhdxParentDir false);
  let sharePath := joinWindowsPath shareParentDir name in
  '(exists_, info) ← backend_must cs (GetSmbShare name shareParentDir) "GetSmbShare: %v";
  found ← backend_must cs (GetVolumeByName name vhdxParentDir) "GetVolumeByName: %v";
  info ←
    (if negb exists_ then
       '(vhdxPath, actual) ← share_disk cs req name vhdxParentDir size found;
       _ ← backend_must cs (MountFileShareVirtualDisk vhdxPath sharePath)
             "MountFileShareVirtualDisk: %v";
       info ← backend_must cs
         (CreateSmbShare name shareParentDir (maxInt64 size actual)
            (splitCSVParam (param params "smbFullAccess"))
            (splitCSVParam (param params "smbChangeAccess"))
            (splitCSVParam (param params "smbReadAccess")) smbOpts) "CreateSmbShare: %v";
       ok (with_disk info vhdxPath sharePath actual)
     else
       let mountPath := firstNonEmpty [iSharePath info; iVHDXPath info; sharePath] in
       if fv_vhdxPath found == "" then
         fail FailedPrecondition "SMB share %q exists but VHDX %q was not found"
       else
         _ ← backend_must cs (MountFileShareVirtualDisk (fv_vhdxPath found) mountPath)
               "MountFileShareVirtualDisk(existing): %v";
         ok (with_disk info (fv_vhdxPath found) mountPath (fv_sizeBytes found)));
  ok (smb_volume req name smbServer fileShareBackendVHDX size info).

Definition createSmbVolume (cs : ControllerServer) (req : CreateVolumeRequest) : controller Volume :=
  let params := cr_Parameters req in
  let '(parentDir, provided) := getStringParam params "shareParentPath" in
  if negb provided then lift (invalid "parameter shareParentPath is required") else
  _ ← lift (validateWindowsPathParam parentDir true);
  shareBackend ← lift (fileShareBackendFromParams cs params);
  let '(smbServer, _) := getStringParam params "smbServer" in
  smbOpts ← lift (smbOptionsFromParams params);
  size ← lift (requiredBytesFromRange (cr_CapacityRange req) 1);
  let name := cr_Name req in
  if shareBackend == fileShareBackendVHDX
  then createVHDXBackedSmbVolume cs req name parentDir smbServer size smbOpts
  else match GetSnapshot (cr_ContentSource req) with
  | Some _ => lift (invalid "directory-backed SMB volumes do not support restore from snapshots")
  | None =>
      '(exists_, info) ← backend_must cs (GetSmbShare name parentDir) "GetSmbShare: %v";
      info ←
        (if negb exists_ then
           backend_must cs (CreateSmbShare name parentDir size
                              (splitCSVParam (param params "smbFullAccess"))
                              (splitCSVParam (param params "smbChangeAccess"))
                              (splitCSVParam (param params "smbReadAccess")) smbOpts)
             "CreateSmbShare: %v"
         else ok info);
      ok (smb_volume req name smbServer shareBackend size info)
  end.

(** ** CreateVolume *)

Definition CreateVolume (cs : ControllerServer) (req : CreateVolumeRequest) : controller Volume :=
  if cr_Name req == "" then lift (invalid "volume name is required")
  else match cr_VolumeCapabilities req with
  | [] => lift (invalid "volume capabilities are required")
  | modes =>
      let params := cr_Parameters req in
      protocol ← lift (protocolFromParams cs params);
      if negb (forallb (fun mode => supportsAccessModeForProtocol cs mode protocol) modes)
      then lift (invalid "access mode is not supported by this driver")
      else match cr_ContentSource req with
      | Some (SourceClone _) | Some SourceOther =>
          lift (invalid "only snapshot volume content sources are supported")
      | _ =>
          if protocol == ProtocolNFS then createNfsVolume cs req
          else if protocol == ProtocolSMB then createSmbVolume cs req
          else createIscsiVolume cs req
      end
  end.

(** ** DeleteVolume *)

(** The name of the target to delete: the id's, or the one its IQN belongs to. *)
Definition deleteTargetNameForVolume (cs : ControllerServer) (id : volID) : controller string :=
  let targetName := TrimSpace (lTargetName id) in
  if targetName != "" then ok targetName
  else
    let targetIQN := TrimSpace (lTargetIQN id) in
    if targetIQN == "" then ok ""
    else targetName ← backend_must cs (LookupTargetNameByIQN targetIQN) "LookupTargetNameByIQN: %v";
         ok (TrimSpace targetName).

(** The disk of a VHDX-backed share is unmounted, then deleted. *)
Definition delete_share_disk (cs : ControllerServer) (decoded : VolumeID) (sharePath : string)
  : controller unit :=
  if ((ShareBackend decoded == fileShareBackendVHDX) && (VHDXPath decoded != ""))%bool then
    _ ← backend_must cs (UnmountFileShareVirtualDisk (VHDXPath decoded) sharePath)
          "UnmountFileShareVirtualDisk: %v";
    backend_must cs (DeleteVirtualDisk (VHDXPath decoded)) "DeleteVirtualDisk: %v"
  else ok tt.

Definition deleteNfsVolume (cs : ControllerServer) (decoded : VolumeID) : controller unit :=
  let sharePath := firstNonEmpty [SharePath decoded; VHDXPath decoded] in
  _ ← delete_share_disk cs decoded sharePath;
  backend_must cs (DeleteNfsShare (Name decoded) sharePath) "DeleteNfsShare: %v".

Definition deleteSmbVolume (cs : ControllerServer) (decoded : VolumeID) : controller unit :=
  let sharePath := firstNonEmpty [SharePath decoded; VHDXPath decoded] in
  _ ← delete_share_disk cs decoded sharePath;
  backend_must cs (DeleteSmbShare (Name decoded) sharePath) "DeleteSmbShare: %v".

Definition deleteIscsiVolume (cs : ControllerServer) (id : volID) : controller unit :=
  let targetName := targetNameFromVolID id in
  _ ← (if ((targetName != "") && (lVHDXPath id != ""))%bool then
         backend_must cs (UnmapDiskFromTarget targetName (lVHDXPath id)) "UnmapDiskFromTarget: %v"
       else ok tt);
  if lVHDXPath id != "" then
    deleteTargetName ← deleteTargetNameForVolume cs id;
    _ ← backend_must cs (DeleteVirtualDisk (lVHDXPath id)) "DeleteVirtualDisk: %v";
    if deleteTargetName != "" then
      backend_must cs (DeleteTarget deleteTargetName) "DeleteTarget: %v"
    else ok tt
  else ok tt.

Definition DeleteVolume (cs : ControllerServer) (volumeId : string) : controller unit :=
  if volumeId == "" then lift (invalid "volume_id is required")
  else match decodeAnyVolumeID volumeId with
  | Panicked => Ret Panicked
  | Err _ => ok tt
  | Ok (decoded, id) =>
      if vProtocol decoded == ProtocolNFS then deleteNfsVolume cs decoded
      else if vProtocol decoded == ProtocolSMB then deleteSmbVolume cs decoded
      else deleteIscsiVolume cs id
  end.

(** ** Publishing *)

Record ControllerPublishVolumeRequest := {
  cp_VolumeId : string;
  cp_NodeId : string;
  cp_AccessMode : AccessMode;
  cp_Secrets : Params
}.

(** The checks of [ControllerPublishVolume] and [ControllerUnpublishVolume]. *)
Definition require_ids (volumeId nodeId : string) : res unit :=
  if ((volumeId == "") && (nodeId == ""))%bool then invalid "volume_id and node_id are required"
  else if volumeId == "" then invalid "volume_id are required"
  else if nodeId == "" then invalid "node_id are required"
  else Ok tt.

(** [decodeAnyVolumeID] where an id that cannot be read is not found. *)
Definition decode_or_not_found (id format : string) : res (VolumeID * volID) :=
  match decodeAnyVolumeID id with
  | Ok d => Ok d
  | Err _ => Err (StatusErr NotFound format)
  | Panicked => Panicked
  end.

Definition ControllerPublishVolume (cs : ControllerServer) (req : ControllerPublishVolumeRequest)
  : controller Params :=
  _ ← lift (require_ids (cp_VolumeId req) (cp_NodeId req));
  '(decoded, id) ← lift (decode_or_not_found (cp_VolumeId req) "invalid volume_id: %v");
  if negb (supportsAccessModeForProtocol cs (cp_AccessMode req) (vProtocol decoded))
  then fail FailedPrecondition "access mode is not supported by this driver"
  else if file_protocol (vProtocol decoded) then ok (volumeContextForVolumeID decoded)
  else
    let initiatorIQN := cp_NodeId req in
    if negb (HasPrefix initiatorIQN "iqn.")
    then lift (invalid "node_id must be an initiator IQN, got %q")
    else
      let targetName := targetNameFromVolID id in
      if ((targetName == "") || (lTargetIQN id == ""))%bool
      then lift (invalid "volume_id is missing target name or target IQN")
      else
        _ ← configureTargetChapFromSecrets cs targetName (cp_Secrets req);
        _ ← backend_must cs (AllowInitiator targetName initiatorIQN) "AllowInitiator: %v";
        ok (list_to_map [("targetPortal", lTargetPortal id); ("iqn", lTargetIQN id);
                         ("lun", Itoa (lLUN id))]).

Definition ControllerUnpublishVolume (cs : ControllerServer) (volumeId nodeId : string)
  : controller unit :=
  _ ← lift (require_ids volumeId nodeId);
  match decodeAnyVolumeID volumeId with
  | Panicked => Ret Panicked
  | Err _ => ok tt
  | Ok (decoded, id) =>
      if file_protocol (vProtocol decoded) then ok tt
      else
        let targetName := targetNameFromVolID id in
        if targetName != "" then
          backend_must cs (DenyInitiator targetName nodeId) "DenyInitiator: %v"
        else ok tt
  end.

(** ** Queries *)

(** The confirmed capabilities, or the message of a refusal. *)
Inductive ValidateVolumeCapabilitiesResponse :=
| Confirmed (caps : list AccessMode)
| Message (m : string).

Definition ValidateVolumeCapabilities (cs : ControllerServer) (volumeId : string)
  (modes : list AccessMode) : controller ValidateVolumeCapabilitiesResponse :=
  if ((volumeId == "") || match modes with [] => true | _ => false end)%bool
  then lift (invalid "volume_id and volume_capabilities are required")
  else
    '(decoded, _) ← lift (decode_or_not_found volumeId "invalid volume_id: %v");
    if forallb (fun mode => supportsAccessModeForProtocol cs mode (vProtocol decoded)) modes
    then ok (Confirmed modes)
    else ok (Message "access mode is not supported by this driver").

(** Volumes are not enumerated. *)
Definition ListVolumes (cs : ControllerServer) : controller (list Volume) := ok [].

Definition GetCapacity (cs : ControllerServer) (params : Params) : controller Z :=
  protocol ← lift (protocolFromParams cs params);
  let '(shareParentDir, _) := getStringParam params "shareParentPath" in
  let '(vhdxParentDir, _) := getStringParam params "vhdxParentPath" in
  '(parentDir, shareParentRequired) ←
    (if file_protocol protocol then
       shareBackend ← lift (fileShareBackendFromParams cs params);
       if shareBackend != fileShareBackendVHDX then ok (shareParentDir, true)
       else ok (vhdxParentDir, false)
     else ok (vhdxParentDir, false));
  _ ← lift (validateWindowsPathParam shareParentDir shareParentRequired);
  _ ← lift (validateWindowsPathParam vhdxParentDir false);
  backend_must cs (GetDirectoryFreeCapacity parentDir) "GetDirectoryFreeCapacity: %v".

Definition ControllerGetCapabilities (cs : ControllerServer) : controller (list ControllerCap) :=
  with_driver cs (fun d => ok (cscap d)).

(** ** Snapshots *)

Record Snapshot := {
  SnapshotId : string;
  SourceVolumeId : string;
  CreationTime : Z;
  snapSizeBytes : Z;
  snapReadyToUse : bool
}.

(** A volume whose storage cannot be snapshotted. *)
Definition directory_backed (decoded : VolumeID) : bool :=
  (file_protocol (vProtocol decoded) && (ShareBackend decoded != fileShareBackendVHDX))%bool.

(** The disk that the volume of an id has. *)
Definition snapshot_source (volumeId : string) : res string :=
  '(decoded, vid) ← decode_or_not_found volumeId "invalid source_volume_id: %v";
  if directory_backed decoded then
    Err (StatusErr FailedPrecondition "directory-backed NFS/SMB volumes do not support snapshots")
  else
    let sourcePath := if VHDXPath decoded == "" then lVHDXPath vid else VHDXPath decoded in
    if sourcePath == "" then invalid "source volume %q does not include a backend path"
    else Ok sourcePath.

Definition snapshot_of (sourceVolumeId : string) (s : SnapshotInfo) : Snapshot :=
  {| SnapshotId := encodeSnapID {| snSnapshotID := SnapshotID s; snOriginalPath := OriginalPath s |};
     SourceVolumeId := sourceVolumeId; CreationTime := sCreatedAt s; snapSizeBytes := sSizeBytes s;
     snapReadyToUse := true |}.

Definition CreateSnapshot (cs : ControllerServer) (sourceVolumeId name : string)
  : controller Snapshot :=
  if sourceVolumeId == "" then lift (invalid "source_volume_id required")
  else
    sourcePath ← lift (snapshot_source sourceVolumeId);
    let desc := TrimSpace name in
    snap ← backend_must cs (Backend.CreateSnapshot sourcePath desc) "CreateSnapshot: %v";
    ok (snapshot_of sourceVolumeId snap).

Definition DeleteSnapshot (cs : ControllerServer) (snapshotId : string) : controller unit :=
  if snapshotId == "" then lift (invalid "snapshot_id required")
  else match decodeSnapID snapshotId with
  | Panicked => Ret Panicked
  | Err _ => ok tt
  | Ok sid => _ ← backend_try cs (Backend.DeleteSnapshot (snSnapshotID sid)); ok tt
  end.

(** The snapshots of a request: the one it names, those of a volume, or none. *)
Definition listed_snapshots (cs : ControllerServer) (snapshotId sourceVolumeId : string)
  : controller (list SnapshotInfo) :=
  if snapshotId != "" then
    match decodeSnapID snapshotId with
    | Panicked => Ret Panicked
    | Err _ => fail NotFound "invalid snapshot_id: %v"
    | Ok sid =>
        all ← backend_must cs (Backend.ListSnapshots (snOriginalPath sid)) "ListSnapshots: %v";
        ok (match List.find (fun s => EqualFold (SnapshotID s) (snSnapshotID sid)) all with
            | Some s => [s]
            | None => []
            end)
    end
  else if sourceVolumeId != "" then
    sourcePath ← lift (snapshot_source sourceVolumeId);
    backend_must cs (Backend.ListSnapshots sourcePath) "ListSnapshots: %v"
  else ok [].

Definition ListSnapshots (cs : ControllerServer) (snapshotId sourceVolumeId : string)
  : controller (list Snapshot) :=
  let unsupported := match cs_Driver cs with
                     | Some d => ((Driver.protocol d != "") && (Driver.protocol d != ProtocolISCSI)
                                  && (Driver.fileShareBackend d != fileShareBackendVHDX))%bool
                     | None => false
                     end in
  if unsupported then
    fail Unimplemented "ListSnapshots is only supported for iSCSI and VHDX-backed file-share snapshots"
  else
    snaps ← listed_snapshots cs snapshotId sourceVolumeId;
    ok (map (snapshot_of "") snaps).

(** ** Expansion *)

Record ControllerExpandVolumeResponse := { ceCapacityBytes : Z; NodeExpansionRequired : bool }.

Definition ControllerExpandVolume (cs : ControllerServer) (volumeId : string)
  (range : option CapacityRange) : controller ControllerExpandVolumeResponse :=
  match range with
  | None => lift (invalid "volume_id and capacity_range are required")
  | Some range =>
    if volumeId == "" then lift (invalid "volume_id and capacity_range are required") else
    '(decoded, id) ← lift (decode_or_not_found volumeId "invalid volume_id: %v");
    let want := RequiredBytes range in
    if (want <=? 0)%Z then lift (invalid "required_bytes must be > 0")
    else if file_protocol (vProtocol decoded) then
      if VHDXPath decoded == "" then lift (invalid "volume %q does not include a backing path")
      else if ShareBackend decoded == fileShareBackendVHDX then
        actual ← backend_must cs (ResizeVirtualDisk (VHDXPath decoded) want) "ResizeVirtualDisk: %v";
        _ ← backend_must cs (MountFileShareVirtualDisk (VHDXPath decoded) (SharePath decoded))
              "MountFileShareVirtualDisk: %v";
        ok {| ceCapacityBytes := actual; NodeExpansionRequired := false |}
      else
        actual ← backend_must cs (ResizeFileShare (VHDXPath decoded) want) "ResizeFileShare: %v";
        ok {| ceCapacityBytes := actual; NodeExpansionRequired := false |}
    else
      actual ← backend_must cs (ResizeVirtualDisk (lVHDXPath id) want) "ResizeVirtualDisk: %v";
      ok {| ceCapacityBytes := actual; NodeExpansionRequired := true |}
  end.

(** ** ControllerGetVolume *)

Record ControllerGetVolumeResponse := { cg_Volume : Volume; PublishedNodeIds : list string }.

Definition ControllerGetVolume (cs : ControllerServer) (volumeId : string)
  : controller ControllerGetVolumeResponse :=
  if volumeId == "" then lift (invalid "volume_id required")
  else
    '(decoded, id) ← lift (decode_or_not_found volumeId "invalid volume_id: %v");
    if file_protocol (vProtocol decoded) then
      ok {| cg_Volume := {| VolumeId := volumeId; vCapacityBytes := CapacityBytes decoded;
                            VolumeContext := volumeContextForVolumeID decoded;
                            ContentSource := None |};
            PublishedNodeIds := [] |}
    else
      vi ← backend_must cs (GetVolumeInfo (lVHDXPath id)) "GetVolumeInfo: %v";
      if iVHDXPath vi == "" then fail NotFound "volume not found"
      else
        published ← backend_try cs (GetTargetInitiators (targetNameFromVolID id));
        ok {| cg_Volume :=
                {| VolumeId := volumeId; vCapacityBytes := iSizeBytes vi;
                   VolumeContext := list_to_map [("vhdxPath", lVHDXPath id); ("iqn", lTargetIQN id);
                                                 ("lun", volumeInfoLUNString (iLUN vi))];
                   ContentSource := None |};
              PublishedNodeIds := published |}.
