(* ===== verification/ControllerFacts.v ===== *)
(** * The controller: which requests its RPCs make, and in which order. *)
From S2P Require Import Prelude GoStrings GoStrconv VolumeID VolumeTypes LegacyID Params Chap Prog Driver.
From S2P Require Import Backend Controller.

(** ** Requests *)

Lemma only_must (P : op backend -> Prop) cs o format : P o -> only P (backend_must cs o format).
Proof.
  intros H. unfold backend_must, with_driver. destruct (cs_Driver cs); [|done].
  unfold must. apply only_bind; [by split|]. intros r. by destruct (failed r).
Qed.
Lemma only_try (P : op backend -> Prop) cs o : P o -> only P (backend_try cs o).
Proof.
  intros H. unfold backend_try, with_driver. destruct (cs_Driver cs); [|done].
  unfold try. apply only_bind; [by split|]. by intros r.
Qed.
Lemma only_lift {A} (P : op backend -> Prop) (r : res A) : only P (lift r : controller A).
Proof. done. Qed.

(** [only_steps] walks a handler; the requests it makes are left as goals when
    they are not decided at once. *)
Ltac only_step :=
  match goal with
  | |- forall _, _ => intros
  | |- only _ (_ ≫= _) => apply only_bind
  | |- only ?P (backend_must ?cs ?o ?f) => refine (only_must P cs o f _); try (cbv; tauto)
  | |- only ?P (backend_try ?cs ?o) => refine (only_try P cs o _); try (cbv; tauto)
  | |- only _ (lift _) => apply only_lift
  | |- only _ (ok _) => exact I
  | |- only _ (fail _ _) => exact I
  | |- only _ (Ret _) => exact I
  | |- context [match ?x with _ => _ end] => destruct x
  end.
Ltac only_steps := repeat (cbv zeta; only_step).

(** A request that removes or detaches nothing. *)
Definition keeps (o : op backend) : Prop := ~ destructive o.

Section creates.
Context (cs : ControllerServer) (req : CreateVolumeRequest).

Lemma ensure_target_keeps n i f : only keeps (ensure_target cs n i f).
Proof. unfold ensure_target. only_steps. Qed.
Lemma configureTargetChap_keeps n sec : only keeps (configureTargetChapFromSecrets cs n sec).
Proof. unfold configureTargetChapFromSecrets. only_steps. Qed.
Lemma share_disk_keeps n d sz found : only keeps (share_disk cs req n d sz found).
Proof.
  unfold share_disk, with_driver. only_steps; (split; [cbv; tauto|done]).
Qed.

Lemma createIscsi_keeps : only keeps (createIscsiVolume cs req).
Proof.
  unfold createIscsiVolume, createIscsiFromSnapshot, createIscsiExisting, createIscsiNew.
  only_steps; (apply ensure_target_keeps || apply configureTargetChap_keeps).
Qed.
Lemma createNfs_keeps : only keeps (createNfsVolume cs req).
Proof. unfold createNfsVolume, createVHDXBackedNfsVolume. only_steps; apply share_disk_keeps. Qed.
Lemma createSmb_keeps : only keeps (createSmbVolume cs req).
Proof. unfold createSmbVolume, createVHDXBackedSmbVolume. only_steps; apply share_disk_keeps. Qed.

Lemma CreateVolume_keeps : only keeps (CreateVolume cs req).
Proof.
  unfold CreateVolume. only_steps;
    (apply createNfs_keeps || apply createSmb_keeps || apply createIscsi_keeps).
Qed.

(** C23: creating a volume never removes or detaches anything on the storage
    server, whatever it answers and whether or not the request succeeds. *)
Theorem CreateVolume_not_destructive : only keeps (CreateVolume cs req).
Proof. exact CreateVolume_keeps. Qed.
End creates.

(** The RPCs that answer a question only read from the storage server. *)
Theorem queries_read_only (cs : ControllerServer) (volumeId snapshotId : string)
  (modes : list AccessMode) (params : Params) :
  only (E := backend) reads (ValidateVolumeCapabilities cs volumeId modes)
  /\ only (E := backend) reads (ListVolumes cs) /\ only (E := backend) reads (GetCapacity cs params)
  /\ only (E := backend) reads (ControllerGetCapabilities cs) /\ only (E := backend) reads (ListSnapshots cs snapshotId volumeId)
  /\ only (E := backend) reads (ControllerGetVolume cs volumeId).
Proof.
  unfold ValidateVolumeCapabilities, ListVolumes, GetCapacity, ControllerGetCapabilities,
    ListSnapshots, listed_snapshots, ControllerGetVolume, with_driver.
  split_and!; only_steps.
Qed.

(** ** The rules for a backend call under a monitor *)

Lemma safe_must {M} (m : monitor backend M) s cs o format (Q : res (backend_result o) -> M -> Prop) :
  (cs_Driver cs = None -> Q Panicked s) -> allowed m s o ->
  (forall r, assumed m s o r ->
     if failed r then Q (Err (StatusErr Internal format)) (step m s o r)
     else Q (Ok (value r)) (step m s o r)) ->
  safe m s (backend_must cs o format) Q.
Proof.
  intros HP Ha H. unfold backend_must, with_driver. destruct (cs_Driver cs); [|by apply HP].
  unfold must. apply safe_bind. split; [done|]. intros r Hr. specialize (H r Hr). simpl.
  by destruct (failed r).
Qed.
Lemma safe_try {M} (m : monitor backend M) s cs o (Q : res (backend_result o) -> M -> Prop) :
  (cs_Driver cs = None -> Q Panicked s) -> allowed m s o ->
  (forall r, assumed m s o r -> Q (Ok (value r)) (step m s o r)) ->
  safe m s (backend_try cs o) Q.
Proof.
  intros HP Ha H. unfold backend_try, with_driver. destruct (cs_Driver cs); [|by apply HP].
  unfold try. apply safe_bind. split; [done|]. intros r Hr. simpl. auto.
Qed.

Ltac must_step :=
  match goal with
  | |- safe ?m ?s (backend_must ?cs ?o ?f) ?Q => refine (safe_must m s cs o f Q _ _ _)
  | |- safe ?m ?s (backend_try ?cs ?o) ?Q => refine (safe_try m s cs o Q _ _ _)
  end.

(** ** Deletion *)

(** Of two texts the first that is not blank. *)
Definition either (a b : string) : string :=
  if TrimSpace a == "" then (if TrimSpace b == "" then "" else b) else a.
Lemma either_spec a b : firstNonEmpty [a; b] = either a b.
Proof. unfold either. cbn. destruct (TrimSpace a == ""), (TrimSpace b == ""); done. Qed.

(** The folder that the share of an id is of. *)
Definition share_folder (v : VolumeID) : string := either (SharePath v) (VHDXPath v).
(** The target of an id: the one it names, or the one that its IQN was found to be of. *)
Definition target_of (l : volID) (looked_up : list (string * string)) (t : string) : Prop :=
  t <> "" /\ if TrimSpace (lTargetName l) == ""
             then exists r, (TrimSpace (lTargetIQN l), r) ∈ looked_up /\ t = TrimSpace r
             else t = TrimSpace (lTargetName l).

(** The requests that detach or delete storage of the volume of an id, and no other. *)
Definition own_removal (v : VolumeID) (l : volID) (looked_up : list (string * string)) (o : backend_op) : Prop :=
  match o with
  | UnmapDiskFromTarget t p =>
      file_protocol (vProtocol v) = false /\ t = either (lTargetName l) (lTargetIQN l) /\ p = lVHDXPath l /\ p <> ""
  | Backend.DeleteVirtualDisk p =>
      p <> "" /\ if file_protocol (vProtocol v) then ShareBackend v = fileShareBackendVHDX /\ p = VHDXPath v
                 else p = lVHDXPath l
  | DeleteTarget t => file_protocol (vProtocol v) = false /\ target_of l looked_up t
  | UnmountFileShareVirtualDisk p m =>
      file_protocol (vProtocol v) = true /\ ShareBackend v = fileShareBackendVHDX /\ p = VHDXPath v /\ p <> ""
      /\ m = share_folder v
  | DeleteNfsShare n p => vProtocol v = ProtocolNFS /\ n = Name v /\ p = share_folder v
  | DeleteSmbShare n p => vProtocol v = ProtocolSMB /\ n = Name v /\ p = share_folder v
  | _ => False
  end.

(** What has been looked up, detached and deleted so far, by calls that succeeded: a
    disk and what it was detached from, a disk, a target, a share. *)
Record removal := {
  looked_up : list (string * string);
  detached : list (string * string);
  deleted_disks : list string;
  deleted_targets : list string;
  deleted_shares : list (Protocol * string * string)
}.
Definition nothing_removed : removal :=
  {| looked_up := []; detached := []; deleted_disks := []; deleted_targets := []; deleted_shares := [] |}.

Definition removal_step (s : removal) (o : backend_op) : returned (backend_result o) -> removal :=
  let with_detached x := {| looked_up := looked_up s; detached := x :: detached s; deleted_disks := deleted_disks s;
                            deleted_targets := deleted_targets s; deleted_shares := deleted_shares s |} in
  let with_share x := {| looked_up := looked_up s; detached := detached s; deleted_disks := deleted_disks s;
                         deleted_targets := deleted_targets s; deleted_shares := x :: deleted_shares s |} in
  match o with
  | LookupTargetNameByIQN i => fun r =>
      if failed r then s
      else {| looked_up := (i, value r) :: looked_up s; detached := detached s; deleted_disks := deleted_disks s;
              deleted_targets := deleted_targets s; deleted_shares := deleted_shares s |}
  | UnmapDiskFromTarget t p => fun r => if failed r then s else with_detached (p, t)
  | UnmountFileShareVirtualDisk p m => fun r => if failed r then s else with_detached (p, m)
  | Backend.DeleteVirtualDisk p => fun r =>
      if failed r then s
      else {| looked_up := looked_up s; detached := detached s; deleted_disks := p :: deleted_disks s;
              deleted_targets := deleted_targets s; deleted_shares := deleted_shares s |}
  | DeleteTarget t => fun r =>
      if failed r then s
      else {| looked_up := looked_up s; detached := detached s; deleted_disks := deleted_disks s;
              deleted_targets := t :: deleted_targets s; deleted_shares := deleted_shares s |}
  | DeleteNfsShare n p => fun r => if failed r then s else with_share (ProtocolNFS, n, p)
  | DeleteSmbShare n p => fun r => if failed r then s else with_share (ProtocolSMB, n, p)
  | _ => fun _ => s
  end.

(** The order of a deletion: a disk only once it is detached (unless it has no
    target to be detached from), a target or a share only once the disk is gone. *)
Definition in_order (v : VolumeID) (l : volID) (s : removal) (o : backend_op) : Prop :=
  match o with
  | Backend.DeleteVirtualDisk p =>
      if file_protocol (vProtocol v) then (p, share_folder v) ∈ detached s
      else either (lTargetName l) (lTargetIQN l) <> "" -> (p, either (lTargetName l) (lTargetIQN l)) ∈ detached s
  | DeleteTarget t => lVHDXPath l ∈ deleted_disks s
  | DeleteNfsShare _ _ | DeleteSmbShare _ _ =>
      ShareBackend v = fileShareBackendVHDX -> VHDXPath v <> "" -> VHDXPath v ∈ deleted_disks s
  | _ => True
  end.
Definition removal_allowed (v : VolumeID) (l : volID) (s : removal) (o : op backend) : Prop :=
  o = LookupTargetNameByIQN (TrimSpace (lTargetIQN l)) \/ own_removal v l (looked_up s) o /\ in_order v l s o.
Definition removal_monitor (v : VolumeID) (l : volID) : monitor backend removal :=
  {| allowed := removal_allowed v l; assumed := fun _ _ _ => True; step := removal_step |}.

(** What is gone when a deletion reports success. *)
Definition volume_removed (v : VolumeID) (l : volID) (s : removal) : Prop :=
  if file_protocol (vProtocol v) then
    (vProtocol v, Name v, share_folder v) ∈ deleted_shares s
    /\ (ShareBackend v = fileShareBackendVHDX -> VHDXPath v <> "" -> VHDXPath v ∈ deleted_disks s)
  else lVHDXPath l <> "" -> lVHDXPath l ∈ deleted_disks s
       /\ (TrimSpace (lTargetName l) <> "" -> TrimSpace (lTargetName l) ∈ deleted_targets s)
       /\ (TrimSpace (lTargetName l) = "" -> TrimSpace (lTargetIQN l) <> "" ->
           exists r, (TrimSpace (lTargetIQN l), r) ∈ looked_up s
                     /\ (TrimSpace r = "" \/ TrimSpace r ∈ deleted_targets s)).

Section deletion.
Context (cs : ControllerServer) (v : VolumeID) (l : volID).

Lemma delete_share_disk_safe :
  file_protocol (vProtocol v) = true ->
  safe (removal_monitor v l) nothing_removed (delete_share_disk cs v (share_folder v))
    (fun r s => forall u, r = Ok u -> ShareBackend v = fileShareBackendVHDX -> VHDXPath v <> "" ->
                VHDXPath v ∈ deleted_disks s).
Proof.
  intros Hf. unfold delete_share_disk.
  destruct (String.eqb_spec (ShareBackend v) fileShareBackendVHDX) as [E|E]; [|by intros ? _ ?].
  destruct (String.eqb_spec (VHDXPath v) "") as [Ep|Ep]; [by intros ? _ _ ?|].
  cbn [andb negb]. apply safe_bind; must_step; [done|right; by split_and!|].
  intros [? []] _; simpl; [done|]. must_step; [done| |].
  - right. cbn. rewrite Hf. split_and!; [done..|by left].
  - intros [? []] _; simpl; [done|]. intros _ _ _ _. by left.
Qed.

(** The name of the target: the id's, or what its IQN was found to be of. *)
Lemma target_name_safe s :
  safe (removal_monitor v l) s (deleteTargetNameForVolume cs l) (fun r s' =>
    detached s' = detached s /\ deleted_disks s' = deleted_disks s
    /\ forall t, r = Ok t ->
        if TrimSpace (lTargetName l) == ""
        then TrimSpace (lTargetIQN l) = "" /\ t = ""
             \/ exists r, (TrimSpace (lTargetIQN l), r) ∈ looked_up s' /\ t = TrimSpace r
        else t = TrimSpace (lTargetName l)).
Proof.
  unfold deleteTargetNameForVolume. destruct (TrimSpace (lTargetName l) == "") eqn:E; cbn [negb].
  - destruct (String.eqb_spec (TrimSpace (lTargetIQN l)) "") as [Ei|Ei].
    + split_and!; [done..|]. intros t [= <-]. by left.
    + apply safe_bind. must_step; [done|by left|]. intros [n []] _; [done|]. split_and!; [done..|].
      intros t [= <-]. right. exists n. split; [by left|done].
  - split_and!; [done..|]. by intros t [= <-].
Qed.

Lemma deleteIscsi_safe :
  file_protocol (vProtocol v) = false ->
  safe (removal_monitor v l) nothing_removed (deleteIscsiVolume cs l)
    (fun r s => r = Ok tt -> volume_removed v l s).
Proof.
  intros Hf. unfold deleteIscsiVolume, volume_removed, targetNameFromVolID. rewrite Hf, either_spec. apply safe_bind.
  destruct (String.eqb_spec (lVHDXPath l) "") as [Ep|Ep]; [by rewrite andb_false_r|].
  assert (forall s, in_order v l s (DeleteVirtualDisk (lVHDXPath l)) ->
    safe (removal_monitor v l) s
      (deleteTargetName ← deleteTargetNameForVolume cs l;
       _ ← backend_must cs (DeleteVirtualDisk (lVHDXPath l)) "DeleteVirtualDisk: %v";
       if deleteTargetName != "" then
         backend_must cs (DeleteTarget deleteTargetName) "DeleteTarget: %v"
       else ok tt)
      (fun r s => r = Ok tt -> lVHDXPath l <> "" -> lVHDXPath l ∈ deleted_disks s
         /\ (TrimSpace (lTargetName l) <> "" -> TrimSpace (lTargetName l) ∈ deleted_targets s)
         /\ (TrimSpace (lTargetName l) = "" -> TrimSpace (lTargetIQN l) <> "" ->
             exists r, (TrimSpace (lTargetIQN l), r) ∈ looked_up s
                       /\ (TrimSpace r = "" \/ TrimSpace r ∈ deleted_targets s)))) as H.
  { intros s Hd. apply safe_bind. eapply safe_mono; [apply target_name_safe|].
    intros [t|e|] s' (Hdet & _ & Ht); [|done..]. specialize (Ht t eq_refl).
    apply safe_bind; must_step; [done| |].
    { right. cbn in Hd |- *. rewrite Hf in Hd |- *. by rewrite Hdet. }
    intros [? []] _; simpl; [done|].
    destruct (String.eqb_spec (TrimSpace (lTargetName l)) "") as [En|En].
    - destruct (String.eqb_spec t "") as [E|E]; cbn [negb].
      + simpl. intros _ _. split_and!; [by left|done|]. intros _ Hi. destruct Ht as [[]|(r & Hr & ->)]; [done|].
        exists r. by split; [|left].
      + destruct Ht as [[]|(r & Hr & ->)]; [done|].
        must_step; [done|right; split; [|by left]; split; [done|]; split; [done|]|].
        { apply String.eqb_eq in En as ->. by exists r. }
        intros [? []] _; simpl; [done|]. intros _ _. split_and!; [by left|done|]. intros _ _. exists r.
        by split; [|right; left].
    - subst t. apply String.eqb_neq in En as En'. rewrite En'. cbn [negb].
      must_step; [done|right; split; [|by left]; split; [done|]; split; [done|by rewrite En']|].
      intros [? []] _; simpl; [done|]. intros _ _. by split_and!; [left|left|]. }
  destruct (String.eqb_spec (either (lTargetName l) (lTargetIQN l)) "") as [Et|Et]; cbn [andb negb].
  - simpl. apply H. cbn. by rewrite Hf.
  - must_step; [done|right; by split_and!|]. intros [? []] _; simpl; [done|].
    apply H. cbn. rewrite Hf. intros _. by left.
Qed.

Lemma deletion_safe :
  safe (removal_monitor v l) nothing_removed
    (if vProtocol v == ProtocolNFS then deleteNfsVolume cs v
     else if vProtocol v == ProtocolSMB then deleteSmbVolume cs v else deleteIscsiVolume cs l)
    (fun r s => r = Ok tt -> volume_removed v l s).
Proof.
  destruct (String.eqb_spec (vProtocol v) ProtocolNFS) as [E|E];
    [|destruct (String.eqb_spec (vProtocol v) ProtocolSMB) as [E'|E']].
  3: { apply deleteIscsi_safe. unfold file_protocol. by rewrite <- !String.eqb_neq in *; rewrite E, E'. }
  all: assert (file_protocol (vProtocol v) = true) as Hf by (unfold file_protocol; rewrite ?E, ?E'; done).
  all: unfold deleteNfsVolume, deleteSmbVolume, volume_removed; rewrite Hf, either_spec; fold (share_folder v).
  all: apply safe_bind; eapply safe_mono; [by apply delete_share_disk_safe|]; intros [[]|e|] s Hs; [|done..].
  all: specialize (Hs tt eq_refl); must_step; [done|right; by split|]; intros [? []] _; simpl; [done|]; intros _.
  - rewrite E. by split; [left|].
  - rewrite E'. by split; [left|].
Qed.
End deletion.


Definition legacy_example : volID :=
  {| VolumeName := "pvc-1"; lTargetPortal := "10.0.0.5:3260"; lTargetName := "pvc-1";
     lTargetIQN := "iqn.1991-05.com.microsoft:pvc-1"; lLUN := 0; lVHDXPath := "D:\v\pvc-1.vhdx";
     SizeBytes := 1073741824 |}.
Definition example_server : ControllerServer := {| cs_Driver := Some (NewDriver "" "unix:///csi.sock") |}.


(** ** Creation of iSCSI volumes *)

(** What the storage server has reported so far. *)
Record mapping := {
  targets : list (string * string);            (* name and IQN of an ensured target *)
  protected : list string;                     (* targets whose CHAP was configured *)
  mapped : list (string * string * Z);         (* target, disk, LUN *)
  known_disks : list string;                   (* found, made or exported *)
  found_disk : option FoundVolume              (* the volume found under the name *)
}.
Definition nothing_mapped : mapping :=
  {| targets := []; protected := []; mapped := []; known_disks := []; found_disk := None |}.

Definition mapping_step (s : mapping) (o : backend_op) : returned (backend_result o) -> mapping :=
  let with_disk p := {| targets := targets s; protected := protected s; mapped := mapped s;
                        known_disks := p :: known_disks s; found_disk := found_disk s |} in
  match o with
  | EnsureTarget t _ => fun r =>
      if failed r then s
      else {| targets := (t, value r) :: targets s; protected := protected s; mapped := mapped s;
              known_disks := known_disks s; found_disk := found_disk s |}
  | ConfigureTargetChap t _ => fun r =>
      if failed r then s
      else {| targets := targets s; protected := t :: protected s; mapped := mapped s;
              known_disks := known_disks s; found_disk := found_disk s |}
  | MapDiskToTarget t p => fun r =>
      if failed r then s
      else {| targets := targets s; protected := protected s; mapped := (t, p, value r) :: mapped s;
              known_disks := known_disks s; found_disk := found_disk s |}
  | CreateVirtualDisk _ _ _ => fun r => if failed r then s else with_disk (value r).1
  | ExportSnapshotAsVirtualDisk _ => fun r => if failed r then s else with_disk (value r)
  | GetVolumeByName _ _ => fun r =>
      if failed r then s
      else {| targets := targets s; protected := protected s; mapped := mapped s;
              known_disks := if fv_exists (value r) then fv_vhdxPath (value r) :: known_disks s else known_disks s;
              found_disk := if fv_exists (value r) then Some (value r) else None |}
  | _ => fun _ => s
  end.

(** Whether the secrets of a request ask for CHAP. *)
Definition wants_chap (secrets : Params) : Prop :=
  exists o, targetChapOptionsFromSecrets secrets = Ok o /\ Enabled o = true.

(** A disk that was found under the request's name, made with it, or exported from its
    snapshot is mapped to an ensured target only, and to a protected one if CHAP is asked
    for and the volume was not there before.  The target is the one of the request, or that
    of the volume found. *)
Definition mapping_allowed (req : CreateVolumeRequest) (st : IscsiSettings) (s : mapping) (o : op backend) : Prop :=
  match (o : backend_op) with
  | MapDiskToTarget t p =>
      p ∈ known_disks s /\ t ∈ (targets s).*1
      /\ (wants_chap (cr_Secrets req) -> t ∈ protected s \/ found_disk s <> None)
  | ConfigureTargetChap t opts =>
      t ∈ (targets s).*1 /\ targetChapOptionsFromSecrets (cr_Secrets req) = Ok opts /\ Enabled opts = true
  | EnsureTarget t _ => t = targetName st \/ t <> "" /\ exists f, found_disk s = Some f /\ t = fv_targetName f
  | GetVolumeByName n d => n = cr_Name req /\ d = parentDir st
  | CreateVirtualDisk n d z => n = cr_Name req /\ d = parentDir st /\ z = size st /\ found_disk s = None
  | ExportSnapshotAsVirtualDisk i =>
      exists id sid, GetSnapshot (cr_ContentSource req) = Some id /\ decodeSnapID id = Ok sid /\ i = snSnapshotID sid
  | GetVolumeInfo p => p ∈ known_disks s
  | _ => False
  end.
Definition mapping_monitor (req : CreateVolumeRequest) (st : IscsiSettings) : monitor backend mapping :=
  {| allowed := mapping_allowed req st; assumed := fun _ _ _ => True; step := mapping_step |}.

(** The disk is at the LUN of the target: mapped in this request, or found so. *)
Definition reachable_at (s : mapping) (l : volID) : Prop :=
  (lTargetName l, lVHDXPath l, lLUN l) ∈ mapped s
  \/ exists f, found_disk s = Some f /\ fv_vhdxPath f = lVHDXPath l /\ fv_lun f = lLUN l
               /\ 0 <= fv_lun f /\ (fv_targetName f = "" \/ fv_targetName f = lTargetName l).

(** What a created volume tells its user. *)
Definition describes (req : CreateVolumeRequest) (vol : Volume) (s : mapping) : Prop :=
  exists l, VolumeId vol = encodeVolID l
    /\ VolumeName l = cr_Name req /\ lTargetIQN l <> ""
    /\ (lTargetName l, lTargetIQN l) ∈ targets s /\ reachable_at s l
    /\ vCapacityBytes vol = SizeBytes l
    /\ VolumeContext vol !! "targetPortal" = Some (lTargetPortal l)
    /\ VolumeContext vol !! "iqn" = Some (lTargetIQN l)
    /\ VolumeContext vol !! "lun" = Some (Itoa (lLUN l)).

Lemma iscsi_params_lookup ctx params k :
  k <> "iface" -> withIscsiVolumeContextParams ctx params !! k = ctx !! k.
Proof.
  intros H. unfold withIscsiVolumeContextParams. destruct (getStringParam params "iface") as [i []];
    [|done]. by rewrite lookup_insert_ne.
Qed.

Section iscsi.
Context (cs : ControllerServer) (req : CreateVolumeRequest) (st : IscsiSettings).
Let m := mapping_monitor req st.
Let described (r : res Volume) (s : mapping) : Prop := forall vol, r = Ok vol -> describes req vol s.

Lemma ensure_target_safe s n i f :
  allowed m s (EnsureTarget n i) ->
  safe m s (ensure_target cs n i f)
    (fun r s' => forall iqn, r = Ok iqn -> iqn <> "" /\ (n, iqn) ∈ targets s'
       /\ protected s' = protected s /\ mapped s' = mapped s /\ known_disks s' = known_disks s
       /\ found_disk s' = found_disk s).
Proof.
  intros Ha. unfold ensure_target. apply safe_bind. must_step; [done|exact Ha|].
  intros [iqn []] _; simpl; [done|]. destruct (String.eqb_spec iqn ""); [by simpl|].
  simpl. intros ? [= <-]. split_and!; [done|by left|done..].
Qed.

Lemma configureTargetChap_safe s n :
  n ∈ (targets s).*1 ->
  safe m s (configureTargetChapFromSecrets cs n (cr_Secrets req))
    (fun r s' => r = Ok tt -> targets s' = targets s /\ mapped s' = mapped s
       /\ known_disks s' = known_disks s /\ found_disk s' = found_disk s /\ (wants_chap (cr_Secrets req) -> n ∈ protected s')).
Proof.
  intros Hn. unfold configureTargetChapFromSecrets. apply safe_bind.
  destruct (targetChapOptionsFromSecrets (cr_Secrets req)) as [o|e|] eqn:Eo; [|done..].
  simpl. destruct (Enabled o) eqn:Ee; simpl.
  - must_step; [done|by split_and!|]. intros [[] []] _; simpl; [done|].
    intros _. split_and!; [done..|]. intros _. by left.
  - intros _. split_and!; [done..|]. intros (o' & Eo' & Ee'). congruence.
Qed.

Lemma describes_iscsi s n iqn lun p sz params ctx src :
  iqn <> "" -> (n, iqn) ∈ targets s -> reachable_at s (iscsi_volID req st n iqn lun p sz) ->
  ctx !! "targetPortal" = Some (targetPortalWithPort st) ->
  ctx !! "iqn" = Some iqn -> ctx !! "lun" = Some (Itoa lun) ->
  describes req {| VolumeId := encodeVolID (iscsi_volID req st n iqn lun p sz);
                   vCapacityBytes := sz;
                   VolumeContext := withIscsiVolumeContextParams ctx params;
                   ContentSource := src |} s.
Proof.
  intros Hi Ht Hr H1 H2 H3. eexists. split; [reflexivity|]. cbn [VolumeContext vCapacityBytes].
  rewrite !iscsi_params_lookup by done. by split_and!.
Qed.

(** After the target is there and protected, the disk is mapped. *)
Lemma target_then_map_safe s i f p fmt (k : string -> Z -> controller Volume) :
  let n := targetName st in
  p ∈ known_disks s ->
  (forall s' iqn lun, iqn <> "" -> (n, iqn) ∈ targets s' -> (n, p, lun) ∈ mapped s' -> p ∈ known_disks s' ->
     safe m s' (k iqn lun) described) ->
  safe m s
    (targetIQN ← ensure_target cs n i f;
     _ ← configureTargetChapFromSecrets cs n (cr_Secrets req);
     lun ← backend_must cs (MapDiskToTarget n p) fmt;
     k targetIQN lun) described.
Proof.
  intros n Hp Hk. apply safe_bind. eapply safe_mono; [apply ensure_target_safe; by left|].
  intros [iqn|e|] s1 H1; [|done..]. destruct (H1 iqn eq_refl) as (Hi & Ht & _ & _ & Ed & _).
  assert (n ∈ (targets s1).*1) as Hin by (apply list_elem_of_fmap; by exists (n, iqn)).
  apply safe_bind. eapply safe_mono; [by apply configureTargetChap_safe|].
  intros [[]|e|] s2 H2; [|done..]. destruct (H2 eq_refl) as (Et & _ & Ed2 & _ & Hprot).
  apply safe_bind. must_step; [done| |].
  - split_and!; [by rewrite Ed2, Ed|by rewrite Et|]. intros Hw. left. by apply Hprot.
  - intros [lun []] _; simpl; [done|]. apply Hk; simpl; [done|by rewrite Et|by left|by rewrite Ed2, Ed].
Qed.

Lemma createIscsiFromSnapshot_safe s id :
  GetSnapshot (cr_ContentSource req) = Some id ->
  safe m s (createIscsiFromSnapshot cs req st id) described.
Proof.
  intros Hid. unfold createIscsiFromSnapshot. apply safe_bind.
  destruct (decodeSnapID id) as [sid|e|] eqn:Es; [|done..]. simpl. apply safe_bind.
  must_step; [done|by exists id, sid|]. intros [p []] _; simpl; [done|].
  apply (target_then_map_safe _ _ _ _ _ (fun targetIQN lun =>
    vi ← backend_try cs (GetVolumeInfo p); _)); [by left|].
  intros s' iqn lun Hi Ht Hm Hp. apply safe_bind. must_step; [done|done|].
  intros [vi []] _; intros vol [= <-]; (apply describes_iscsi; [done|done|by left|done..]).
Qed.

Lemma createIscsiNew_safe s : found_disk s = None -> safe m s (createIscsiNew cs req st) described.
Proof.
  intros Hf. unfold createIscsiNew. apply safe_bind. must_step; [done|done|].
  intros [[p actual] []] _; simpl; [done|].
  apply (target_then_map_safe _ _ _ _ _ (fun targetIQN lun => _)); [by left|].
  intros s' iqn lun Hi Ht Hm _. intros vol [= <-]. apply describes_iscsi; [done|done|by left|done..].
Qed.

Lemma createIscsiExisting_safe s f :
  found_disk s = Some f -> fv_vhdxPath f ∈ known_disks s -> safe m s (createIscsiExisting cs req st f) described.
Proof.
  intros Hf Hd. unfold createIscsiExisting. destruct (_ && _ && _)%bool; [done|].
  set (n := if fv_targetName f == "" then targetName st else fv_targetName f).
  assert (fv_targetName f = "" \/ fv_targetName f = n) as Hn.
  { unfold n. destruct (String.eqb_spec (fv_targetName f) ""); [by left|by right]. }
  apply safe_bind. eapply safe_mono; [apply ensure_target_safe|].
  { unfold n. destruct (String.eqb_spec (fv_targetName f) ""); [by left|]. right. by split; [|exists f]. }
  intros [iqn|e|] s1 H1; [|done..]. destruct (H1 iqn eq_refl) as (Hi & Ht & _ & _ & Ed & Ef).
  apply safe_bind. destruct (Z.ltb_spec (fv_lun f) 0) as [Hl|Hl].
  - must_step; [done| |].
    + split_and!; [by rewrite Ed|apply list_elem_of_fmap; by exists (n, iqn)|]. intros _. right. by rewrite Ef, Hf.
    + intros [lun []] _; simpl; [done|]. intros vol [= <-].
      apply describes_iscsi; [done|done|left; by left|done..].
  - intros vol [= <-]. apply describes_iscsi; [done|done| |done..].
    right. exists f. rewrite Ef. by split_and!.
Qed.
End iscsi.

(** C10: an iSCSI volume is created by mapping a disk (found under the request's name, made
    with it, or exported from the request's snapshot) to the target of the request, or of
    the volume found, which was ensured, and protected by CHAP if the secrets ask for it
    unless a volume was found: that one is mapped without.  The id and the context that
    come back describe that target, the disk and its LUN; nothing else is requested, and
    nothing at all when the parameters are refused. *)
Theorem createIscsiVolume_describes (cs : ControllerServer) (req : CreateVolumeRequest) :
  match iscsi_settings req with
  | Ok st => safe (mapping_monitor req st) nothing_mapped (createIscsiVolume cs req)
               (fun r s => forall vol, r = Ok vol -> describes req vol s)
  | _ => only (fun _ => False) (createIscsiVolume cs req)
  end.
Proof.
  unfold createIscsiVolume. destruct (iscsi_settings req) as [st|e|]; [|done..]. apply safe_bind. simpl.
  destruct (GetSnapshot (cr_ContentSource req)) as [id|] eqn:Ei; [by apply createIscsiFromSnapshot_safe|].
  apply safe_bind. must_step; [done|done|]. intros [f []] _; simpl; [done|].
  destruct (fv_exists f); [apply createIscsiExisting_safe; [done|by left]|by apply createIscsiNew_safe].
Qed.
