(* ===== verification/StorageContract.v ===== *)
(** * The contract of the storage server, and what the controller gets from it

    [CreateVolume] may be repeated by its caller at any time; that it then gives the
    same volume depends on what the storage server remembers.  The contract states
    that, for the requests an iSCSI creation makes, as the scripts of
    [pkg/iscsi/backend_winrm.go] promise it.  A storage server in memory shows that
    the contract can be met, and runs the controller on concrete requests. *)
From S2P Require Import Prelude GoStrings GoStrconv VolumeID VolumeTypes LegacyID Params Chap Prog Driver.
From S2P Require Import Backend Controller ControllerFacts.

(** ** The contract *)

Record storage := {
  disks : gmap (string * string) (string * Z);   (* volume name and folder: path and size *)
  target_iqns : gmap string string;              (* target: its IQN *)
  luns : gmap string (string * Z)                (* disk: the target it is mapped to, and its LUN *)
}.

(** What is known of the volume of a name in a folder. *)
Definition find_volume (s : storage) (name parentDir : string) : FoundVolume :=
  match disks s !! (name, parentDir) with
  | None => {| fv_exists := false; fv_vhdxPath := ""; fv_sizeBytes := 0; fv_targetName := "";
               fv_targetIQN := ""; fv_lun := -1 |}
  | Some (path, size) =>
      match luns s !! path with
      | None => {| fv_exists := true; fv_vhdxPath := path; fv_sizeBytes := size;
                   fv_targetName := ""; fv_targetIQN := ""; fv_lun := -1 |}
      | Some (t, lun) => {| fv_exists := true; fv_vhdxPath := path; fv_sizeBytes := size;
                            fv_targetName := t;
                            fv_targetIQN := match target_iqns s !! t with Some i => i | None => "" end;
                            fv_lun := lun |}
      end
  end.

(** The answers a storage server in state [s] may give when it does not fail:
    lookups tell what is stored; a created disk has the size asked for, at a path
    of its own; a target has an IQN, which it keeps when it is asked for with that
    IQN or none; a mapped disk has a LUN. *)
Definition answers (s : storage) (o : backend_op) : returned (backend_result o) -> Prop :=
  match o with
  | GetVolumeByName n d => fun r => failed r = true \/ value r = find_volume s n d
  | CreateVirtualDisk n d size => fun r =>
      failed r = true \/ (size <= (value r).2 /\ luns s !! (value r).1 = None)
  | EnsureTarget t i => fun r =>
      failed r = true
      \/ (TrimSpace (value r) <> ""
          /\ forall i', target_iqns s !! t = Some i' -> i = i' -> value r = i')
  | MapDiskToTarget t p => fun r => failed r = true \/ 0 <= value r < 2 ^ 31
  | _ => fun _ => True
  end.

Definition storage_step (s : storage) (o : backend_op) : returned (backend_result o) -> storage :=
  match o with
  | CreateVirtualDisk n d size => fun r =>
      if failed r then s
      else {| disks := <[(n, d) := value r]> (disks s); target_iqns := target_iqns s; luns := luns s |}
  | EnsureTarget t i => fun r =>
      if failed r then s
      else {| disks := disks s; target_iqns := <[t := value r]> (target_iqns s); luns := luns s |}
  | MapDiskToTarget t p => fun r =>
      if failed r then s
      else {| disks := disks s; target_iqns := target_iqns s; luns := <[p := (t, value r)]> (luns s) |}
  | _ => fun _ => s
  end.

Definition contract : monitor backend storage :=
  Monitor backend storage (fun _ _ => True) answers storage_step.

(** Disks are mapped to targets with a name. *)
Definition mapped_to_targets (s : storage) : Prop :=
  forall p t lun, luns s !! p = Some (t, lun) -> t <> "".

(** ** Repeated creation *)

Section repeat.
Context (cs : ControllerServer) (req : CreateVolumeRequest) (st : IscsiSettings).

(** The volume that the server's memory describes. *)
Definition remembered (s : storage) (vol : Volume) : Prop :=
  exists p size t lun iqn,
    disks s !! (cr_Name req, parentDir st) = Some (p, size)
    /\ ((0 <? Controller.size st) && (0 <? size) && (size <? Controller.size st))%Z%bool = false
    /\ luns s !! p = Some (t, lun) /\ t <> "" /\ 0 <= lun
    /\ target_iqns s !! t = Some iqn /\ TrimSpace iqn <> ""
    /\ vol = {| VolumeId := encodeVolID (iscsi_volID req st t iqn lun p size);
                vCapacityBytes := size;
                VolumeContext := iscsi_context (targetPortalWithPort st) iqn lun (cr_Parameters req);
                ContentSource := None |}.

Lemma ensure_target_contract s t i f :
  safe contract s (ensure_target cs t i f)
    (fun r s' => forall iqn, r = Ok iqn ->
       TrimSpace iqn <> "" /\ target_iqns s' = <[t := iqn]> (target_iqns s)
       /\ disks s' = disks s /\ luns s' = luns s
       /\ (forall i', target_iqns s !! t = Some i' -> i = i' -> iqn = i')).
Proof.
  unfold ensure_target. apply safe_bind. must_step; [done|done|].
  intros [iqn []] Ha; simpl; [done|]. destruct Ha as [[=]|[Hn Hk]]. cbn [value] in *.
  destruct (iqn == ""); [by simpl|]. intros x [= <-]. by split_and!.
Qed.
Lemma configureTargetChap_contract s n sec :
  safe contract s (configureTargetChapFromSecrets cs n sec) (fun r s' => s' = s).
Proof.
  unfold configureTargetChapFromSecrets. apply safe_bind.
  destruct (targetChapOptionsFromSecrets sec) as [o|e|]; [|done..]. simpl.
  destruct (Enabled o); cbn [negb]; [|done]. must_step; [done|done|]. by intros [[] []] _.
Qed.

(** The first creation. *)
Lemma createIscsiNew_contract s :
  targetName st <> "" ->
  safe contract s (createIscsiNew cs req st)
    (fun r s' => forall vol, r = Ok vol -> remembered s' vol).
Proof.
  intros Hn. unfold createIscsiNew. apply safe_bind. must_step; [done|done|].
  intros [[p actual] []] Ha; simpl; [done|]. destruct Ha as [[=]|[Hsz Hl]]. cbn [value fst snd] in *.
  apply safe_bind. eapply safe_mono; [apply ensure_target_contract|].
  intros [iqn|e|] s1 H1; [|done..]. destruct (H1 iqn eq_refl) as (Hi & Et & Ed & El & _).
  apply safe_bind. eapply safe_mono; [apply configureTargetChap_contract|].
  intros [[]|e|] s2 ->; [|done..]. apply safe_bind. must_step; [done|done|].
  intros [lun []] Hm; simpl; [done|]. destruct Hm as [[=]|Hm]. cbn [value] in Hm.
  intros vol [= <-]. exists p, actual, (targetName st), lun, iqn. simpl.
  rewrite Ed, El, Et. simpl. rewrite !lookup_insert_eq.
  assert ((actual <? Controller.size st)%Z = false) as -> by (apply Z.ltb_ge; lia).
  rewrite andb_false_r. split_and!; (done || lia).
Qed.

Lemma createIscsiExisting_contract s :
  mapped_to_targets s -> targetName st <> "" ->
  fv_exists (find_volume s (cr_Name req) (parentDir st)) = true ->
  safe contract s (createIscsiExisting cs req st (find_volume s (cr_Name req) (parentDir st)))
    (fun r s' => forall vol, r = Ok vol -> remembered s' vol).
Proof.
  intros Hwf Hn He. unfold createIscsiExisting. unfold find_volume in *.
  destruct (disks s !! (cr_Name req, parentDir st)) as [[p size]|] eqn:Ed0; [|discriminate].
  set (f := match luns s !! p with Some _ => _ | None => _ end) in *.
  assert (fv_vhdxPath f = p /\ fv_sizeBytes f = size) as [Ep Es].
  { unfold f. by destruct (luns s !! p) as [[]|]. }
  rewrite Ep, Es. destruct (_ && _ && _)%bool eqn:Hsz; [done|].
  set (t := if fv_targetName f == "" then targetName st else fv_targetName f).
  assert (t <> "") as Ht.
  { unfold t. by destruct (String.eqb_spec (fv_targetName f) ""). }
  apply safe_bind. eapply safe_mono; [apply ensure_target_contract|].
  intros [iqn|e|] s1 H1; [|done..]. destruct (H1 iqn eq_refl) as (Hi & Et & Ed & El & _).
  apply safe_bind. destruct (Z.ltb_spec (fv_lun f) 0) as [Hl|Hl].
  - must_step; [done|done|]. intros [lun []] Hm; simpl; [done|].
    destruct Hm as [[=]|Hm]. cbn [value] in Hm. intros vol [= <-].
    exists p, size, t, lun, iqn. simpl. rewrite Ed, El, Et. simpl.
    rewrite !lookup_insert_eq. split_and!; (done || lia).
  - intros vol [= <-].
    destruct (luns s !! p) as [[t0 lun0]|] eqn:El0; [|unfold f in Hl; simpl in Hl; lia].
    pose proof (Hwf _ _ _ El0) as Ht0. apply String.eqb_neq in Ht0.
    unfold t, f in *. cbn [fv_targetName fv_lun] in *. rewrite Ht0 in *.
    exists p, size, t0, lun0, iqn. rewrite Ed, El, Et, lookup_insert_eq.
    split_and!; (done || lia).
Qed.

Lemma createIscsi_first s :
  mapped_to_targets s -> GetSnapshot (cr_ContentSource req) = None ->
  iscsi_settings req = Ok st -> targetName st <> "" ->
  safe contract s (createIscsiVolume cs req)
    (fun r s' => forall vol, r = Ok vol -> remembered s' vol).
Proof.
  intros Hwf Hsrc Hst Hn. unfold createIscsiVolume. rewrite Hst, Hsrc. apply safe_bind. simpl.
  apply safe_bind. must_step; [done|done|]. intros [f []] Ha; simpl; [done|].
  destruct Ha as [[=]|Ef]. cbn [value] in Ef. subst f.
  destruct (fv_exists _) eqn:E; [by apply createIscsiExisting_contract|].
  by apply createIscsiNew_contract.
Qed.

(** A repetition, when the server remembers the volume: it gives the same volume,
    or a storage call fails. *)
Definition again (vol : Volume) (r : res Volume) : Prop :=
  match r with
  | Ok vol' => vol' = vol
  | Err e => exists format, e = StatusErr Internal format
  | Panicked => cs_Driver cs = None
  end.

Lemma createIscsi_again s vol :
  remembered s vol -> GetSnapshot (cr_ContentSource req) = None -> iscsi_settings req = Ok st ->
  safe contract s (createIscsiVolume cs req) (fun r _ => again vol r).
Proof.
  intros (p & size & t & lun & iqn & Ed & Hsz & El & Ht & Hl & Et & Hi & ->) Hsrc Hst.
  unfold createIscsiVolume. rewrite Hst, Hsrc. unfold lift. apply safe_bind. simpl.
  apply safe_bind. must_step; [done|done|]. intros [f []] Ha; simpl; [by eexists|].
  destruct Ha as [[=]|Ef]. cbn [value] in Ef.
  unfold find_volume in Ef. rewrite Ed, El, Et in Ef. subst f. cbn [fv_exists].
  unfold createIscsiExisting. cbn [fv_sizeBytes fv_targetName fv_targetIQN fv_lun fv_vhdxPath].
  rewrite Hsz. apply String.eqb_neq in Ht. rewrite Ht.
  assert (firstNonEmpty [iqn; requestedTargetIQN st] = iqn) as ->.
  { simpl. apply String.eqb_neq in Hi. by rewrite Hi. }
  apply safe_bind. unfold ensure_target. apply safe_bind. must_step; [done|done|].
  intros [iqn' []] Ha; simpl; [by eexists|]. destruct Ha as [[=]|[_ Hk]]. cbn [value] in Hk.
  rewrite (Hk iqn Et eq_refl). assert ((iqn == "") = false) as ->.
  { apply String.eqb_neq. by intros ->. }
  simpl. destruct (Z.ltb_spec lun 0); [lia|]. by simpl.
Qed.
End repeat.

Lemma validateISCSITargetName_nonempty n u : validateISCSITargetName n = Ok u -> n <> "".
Proof. intros H ->. by vm_compute in H. Qed.
Lemma iscsi_settings_targetName req st : iscsi_settings req = Ok st -> targetName st <> "".
Proof.
  unfold iscsi_settings. intros H. destruct (getStringParam _ "targetPortal") as [tp []]; [|discriminate].
  cbn [negb] in H. do 3 (apply res_bind_Ok in H as (? & _ & H)).
  destruct (getStringParam _ "vhdxParentPath") as [pd ?].
  do 3 (apply res_bind_Ok in H as (? & _ & H)).
  destruct (iscsiTargetForVolume _ _) as [tn ti]. apply res_bind_Ok in H as (? & Hv & H).
  injection H as <-. by eapply validateISCSITargetName_nonempty.
Qed.

(** Two creations in a row, and the volumes they gave. *)
Definition create_twice (cs : ControllerServer) (req : CreateVolumeRequest)
  : controller (Volume * res Volume) :=
  v1 ← createIscsiVolume cs req;
  catch (createIscsiVolume cs req) (fun r => ok (v1, r)).

(** C1: with a storage server that keeps the contract, and on which disks are mapped to
    targets with a name, a creation of an iSCSI volume that is not made from a snapshot can
    be repeated once it has succeeded: the same volume comes back, or a storage call fails;
    it is never refused as too small or created anew. *)
Theorem createIscsiVolume_idempotent (cs : ControllerServer) (req : CreateVolumeRequest) (s : storage) :
  mapped_to_targets s -> GetSnapshot (cr_ContentSource req) = None ->
  safe contract s (create_twice cs req)
    (fun r _ => forall v1 r2, r = Ok (v1, r2) -> again cs v1 r2).
Proof.
  intros Hwf Hsrc. unfold create_twice. destruct (iscsi_settings req) as [st|e|] eqn:Hst.
  - apply safe_bind. eapply safe_mono.
    { apply (createIscsi_first cs req st s Hwf Hsrc Hst). by eapply iscsi_settings_targetName. }
    intros [v1|e|] s' Hv; [|done..]. apply safe_prog_bind. eapply safe_mono.
    { by apply (createIscsi_again cs req st s' v1 (Hv v1 eq_refl)). }
    intros r s'' Hr. by intros ? ? [= <- <-].
  - unfold createIscsiVolume. by rewrite Hst.
  - unfold createIscsiVolume. by rewrite Hst.
Qed.

(** ** A storage server in memory *)

(** Answers that keep the contract, as far as creation goes; the other requests
    fail.  As in [backend_winrm.go], the LUN of a mapped disk is 0. *)
Definition memory_answer (s : storage) (o : backend_op) : returned (backend_result o) :=
  match o with
  | GetVolumeByName n d => Returned (find_volume s n d) false
  | CreateVirtualDisk n d size =>
      let path := d +:+ "\" +:+ n +:+ ".vhdx" in
      Returned (path, size) (bool_decide (is_Some (luns s !! path)))
  | EnsureTarget t i =>
      Returned (if TrimSpace i != "" then i
                else match target_iqns s !! t with
                     | Some i' => i'
                     | None => "iqn.1991-05.com.microsoft:" +:+ t
                     end) false
  | MapDiskToTarget t p => Returned 0 false
  | ConfigureTargetChap _ _ => Returned tt false
  | UnmapDiskFromTarget _ _ | DeleteVirtualDisk _ | DeleteTarget _ | AllowInitiator _ _
  | DenyInitiator _ _ | Backend.DeleteSnapshot _ | DeleteNfsShare _ _ | DeleteSmbShare _ _
  | RestoreSnapshotAsFileShare _ _ | MountFileShareVirtualDisk _ _
  | UnmountFileShareVirtualDisk _ _ => Returned tt true
  | LookupTargetNameByIQN _ | ExportSnapshotAsVirtualDisk _ => Returned "" true
  | GetDirectoryFreeCapacity _ | ResizeVirtualDisk _ _ | ResizeFileShare _ _ => Returned 0 true
  | Backend.CreateSnapshot _ _ =>
      Returned {| SnapshotID := ""; OriginalPath := ""; SourceVolume := ""; Description := "";
                  sCreatedAt := 0; sSizeBytes := 0; ReadyToUse := false |} true
  | Backend.ListSnapshots _ => Returned [] true
  | GetVolumeInfo _ => Returned zero_VolumeInfo true
  | GetTargetInitiators _ => Returned [] true
  | CreateNfsShare _ _ _ _ _ | CreateSmbShare _ _ _ _ _ _ _ => Returned zero_VolumeInfo true
  | GetNfsShare _ _ | GetSmbShare _ _ => Returned (false, zero_VolumeInfo) true
  end.
Definition memory_server : handler backend storage :=
  fun o s => (memory_answer s o, storage_step s o (memory_answer s o)).

(** The targets of the server have an IQN. *)
Definition memory_ok (ms s : storage) : Prop :=
  ms = s /\ map_Forall (fun _ i => TrimSpace i <> "") (target_iqns s).

Lemma TrimSpace_iqn t : TrimSpace ("iqn.1991-05.com.microsoft:" +:+ t) <> "".
Proof. apply GoUrlParse.TrimSpace_visible_nonempty. reflexivity. Qed.

Lemma memory_iqn_ok s t i :
  map_Forall (fun _ i => TrimSpace i <> "") (target_iqns s) ->
  TrimSpace (value (memory_answer s (EnsureTarget t i))) <> "".
Proof.
  intros H. simpl. destruct (String.eqb_spec (TrimSpace i) ""); cbn [negb]; [|done].
  destruct (target_iqns s !! t) eqn:E; [exact (H _ _ E)|apply TrimSpace_iqn].
Qed.

(** The server in memory keeps the contract. *)
Lemma memory_server_contract : implements contract memory_server memory_ok.
Proof.
  intros ms s o [-> H] _. simpl. split.
  - destruct o; simpl; try done; try (by right).
    + right. split; [by apply memory_iqn_ok|]. intros i' E <-. simpl.
      pose proof (H _ _ E) as Hi. apply String.eqb_neq in Hi. by rewrite Hi.
    + destruct (luns s !! _) eqn:E; [by left|right]. by split.
  - split; [done|]. destruct o; try done.
    + apply map_Forall_insert_2; [|done]. by apply (memory_iqn_ok s targetName targetIQN).
    + simpl. by case_match.
Qed.

Definition empty_storage : storage := {| disks := ∅; target_iqns := ∅; luns := ∅ |}.
Definition example_request : CreateVolumeRequest :=
  {| cr_Name := "pvc-1"; cr_VolumeCapabilities := [SINGLE_NODE_WRITER];
     cr_Parameters := list_to_map [("targetPortal", "10.0.0.5"); ("vhdxParentPath", "D:\v");
                                   ("iface", "default")];
     cr_Secrets := ∅; cr_CapacityRange := None; cr_ContentSource := None |}.

Lemma createIscsiVolume_idempotent_witness :
  safe contract empty_storage (create_twice example_server example_request)
    (fun r _ => forall v1 r2, r = Ok (v1, r2) -> again example_server v1 r2)
  /\ exists v s log, run memory_server (create_twice example_server example_request) empty_storage
                     = (Ok (v, Ok v), s, log).
Proof.
  split.
  - apply createIscsiVolume_idempotent; [|reflexivity]. intros p t lun H. by vm_compute in H.
  - eexists _, _, _. vm_compute. reflexivity.
Defined.

(** After a creation whose CHAP configuration failed, the repetition finds the
    disk and maps it without configuring CHAP. *)
Definition chap_request : CreateVolumeRequest :=
  {| cr_Name := "pvc-1"; cr_VolumeCapabilities := [SINGLE_NODE_WRITER];
     cr_Parameters := list_to_map [("targetPortal", "10.0.0.5"); ("vhdxParentPath", "D:\v")];
     cr_Secrets := example_secrets; cr_CapacityRange := None; cr_ContentSource := None |}.
Definition chap_fails : handler backend storage := fun o s =>
  match (o : backend_op) as o return (returned (backend_result o) * storage) with
  | ConfigureTargetChap _ _ => (Returned tt true, s)
  | o => memory_server o s
  end.
Definition is_chap (o : op backend) : bool :=
  match (o : backend_op) with ConfigureTargetChap _ _ => true | _ => false end.

Example chap_skipped_on_repetition :
  let '(r1, s1, _) := run chap_fails (createIscsiVolume example_server chap_request) empty_storage in
  let '(r2, _, log2) := run memory_server (createIscsiVolume example_server chap_request) s1 in
  is_Ok r1 = false /\ is_Ok r2 = true /\ existsb is_chap log2 = false.
Proof. vm_compute. done. Qed.
