(* ===== verification/Concurrency.v ===== *)
(** * Concurrent creation of a volume

    The controller takes no lock, and a request that timed out for its caller may still
    run when it is repeated.  Two creations of the same iSCSI volume, their requests to
    the storage server in any order, give the same volume if both succeed. *)
From S2P Require Import Prelude GoStrings GoStrconv VolumeID VolumeTypes LegacyID Params Chap Prog Driver.
From S2P Require Import Backend Controller ControllerFacts StorageContract Interleaving.

(** ** The contract of a shared server

    As the scripts of [pkg/iscsi/backend_winrm.go] promise it: a disk that exists is
    returned as it is; a target keeps its IQN unless it is asked for with one that differs
    in more than case, and gets that one then, up to case; IQNs have no blanks around them;
    a disk that is mapped already keeps its LUN. *)
Section shared.
Context (fold : string -> string).   (* the case folding of PowerShell's comparisons *)
Definition same_iqn (a b : string) : Prop := fold a = fold (TrimSpace b).
#[local] Instance same_iqn_dec a b : Decision (same_iqn a b).
Proof. unfold same_iqn. apply _. Defined.
Definition shared_answers (s : storage) (o : backend_op) : returned (backend_result o) -> Prop :=
  match o with
  | GetVolumeByName n d => fun r => failed r = true \/ value r = find_volume s n d
  | CreateVirtualDisk n d size => fun r =>
      failed r = true
      \/ match disks s !! (n, d) with
         | Some v => value r = v
         | None => luns s !! (value r).1 = None
         end
  | EnsureTarget t i => fun r =>
      failed r = true
      \/ ((TrimSpace (value r) = value r /\ value r <> "")
          /\ (forall i', target_iqns s !! t = Some i' -> TrimSpace i = "" \/ same_iqn i' i -> value r = i')
          /\ ((forall i', target_iqns s !! t = Some i' -> ~ same_iqn i' i) -> TrimSpace i <> "" ->
              same_iqn (value r) i))
  | MapDiskToTarget t p => fun r =>
      failed r = true
      \/ (0 <= value r < 2 ^ 31 /\ forall lun, luns s !! p = Some (t, lun) -> value r = lun)
  | _ => fun _ => True
  end.
Definition shared : monitor backend storage :=
  Monitor backend storage (fun _ _ => True) shared_answers storage_step.

Section create.
Context (cs : ControllerServer) (req : CreateVolumeRequest) (st : IscsiSettings).
Context (Hname : targetName st <> "").

Abbreviation key := (cr_Name req, parentDir st).
Abbreviation disk s := (disks s !! key).
Abbreviation own := (targetName st).
Abbreviation requested := (requestedTargetIQN st).

(** The IQN of a target is settled: there is one, and for the target of the request it is
    the one that is asked for, up to case. *)
Definition settled (s : storage) (t i : string) : Prop :=
  target_iqns s !! t = Some i /\ (TrimSpace i = i /\ i <> "")
  /\ (t = own -> TrimSpace requested = "" \/ same_iqn i requested).
(** The disk, once it is mapped, is mapped to a target with a name and a settled IQN. *)
Definition sound (s : storage) : Prop :=
  forall p size t lun, disk s = Some (p, size) -> luns s !! p = Some (t, lun) ->
    t <> "" /\ 0 <= lun /\ exists i, settled s t i.
(** Mapped, if at all, to the target of the request. *)
Definition to_own (s : storage) : Prop :=
  forall p size t lun, disk s = Some (p, size) -> luns s !! p = Some (t, lun) -> t = own.

(** What a creation of the volume does to the server. *)
Record agrees (s s' : storage) : Prop := {
  ag_disk : forall v, disk s = Some v -> disk s' = Some v;
  ag_mapped : forall p size x, disk s = Some (p, size) -> luns s !! p = Some x -> luns s' !! p = Some x;
  ag_fresh : forall p size t lun, disk s' = Some (p, size) -> luns s' !! p = Some (t, lun) ->
    t = own \/ (disk s = Some (p, size) /\ luns s !! p = Some (t, lun));
  ag_settled : forall t i, settled s t i -> settled s' t i;
  ag_sound : sound s -> sound s'
}.
#[local] Instance agrees_preorder : PreOrder agrees.
Proof.
  split.
  - intros s. split; auto.
  - intros s1 s2 s3 [A1 B1 C1 D1 E1] [A2 B2 C2 D2 E2]. split; eauto.
    intros p size t lun Hd Hl. destruct (C2 _ _ _ _ Hd Hl) as [?|[Hd' Hl']]; eauto.
Qed.
Lemma to_own_agrees s s' : agrees s s' -> to_own s -> to_own s'.
Proof. intros A H p size t lun Hd Hl. destruct (ag_fresh _ _ A _ _ _ _ Hd Hl) as [?|[]]; [done|by eapply H]. Qed.

(** ** The requests *)

Lemma create_agrees s n r :
  shared_answers s (CreateVirtualDisk (cr_Name req) (parentDir st) n) r ->
  agrees s (storage_step s (CreateVirtualDisk (cr_Name req) (parentDir st) n) r)
  /\ (failed r = false -> disk (storage_step s (CreateVirtualDisk (cr_Name req) (parentDir st) n) r) = Some (value r)).
Proof.
  destruct r as [[p size] []]; cbn [shared_answers storage_step failed value fst]; [by split|].
  intros [[=]|H]. split; [|intros _; cbn; by rewrite lookup_insert_eq]. destruct (disks s !! key) as [v|] eqn:Hd.
  - subst v. rewrite insert_id by done. destruct s; by split; eauto.
  - assert (disk s = None) as Hn by exact Hd. split; cbn [disks luns].
    + intros v. by rewrite Hn.
    + intros p' size' x. by rewrite Hn.
    + intros p' size' t lun. rewrite lookup_insert_eq. intros [= <- <-]. by rewrite H.
    + by intros t i.
    + intros _ p' size' t lun. cbn [disks luns]. rewrite lookup_insert_eq. intros [= <- <-]. by rewrite H.
Qed.

Lemma ensure_agrees s t i r :
  (t = own /\ (i = requested \/ (i = "" /\ TrimSpace requested = ""))) \/ settled s t i ->
  shared_answers s (EnsureTarget t i) r ->
  agrees s (storage_step s (EnsureTarget t i) r)
  /\ (failed r = false -> settled (storage_step s (EnsureTarget t i) r) t (value r)).
Proof.
  intros Hi. destruct r as [iqn []]; cbn [shared_answers storage_step failed value]; [by split|].
  intros [[=]|(Hn & Hk & Hs)].
  assert (forall j, settled s t j -> iqn = j) as Hj.
  { intros j (Hj & [Hjt _] & Hjo). apply Hk; [done|]. destruct Hi as [[Ht Hi]|(Hi & _ & _)].
    - destruct Hi as [-> | [-> _]]; [by apply Hjo|by left].
    - right. assert (i = j) as -> by congruence. unfold same_iqn. by rewrite Hjt. }
  assert (t = own -> TrimSpace requested = "" \/ same_iqn iqn requested) as Ho.
  { intros Ht. destruct Hi as [[_ Hi]|Hi]; [|rewrite (Hj i Hi); by apply Hi].
    destruct (decide (TrimSpace requested = "")) as [|Hb]; [by left|right]. destruct Hi as [-> | [_ ?]]; [|done].
    destruct (target_iqns s !! t) as [i'|] eqn:Et.
    - destruct (decide (same_iqn i' requested)) as [E|E]; [by rewrite (Hk i' eq_refl (or_intror E))|].
      apply Hs; [|done]. by intros x [= <-].
    - apply Hs; [|done]. by intros x. }
  set (s' := {| disks := disks s; target_iqns := <[t := iqn]> (target_iqns s); luns := luns s |}).
  assert (forall t' i', settled s t' i' -> settled s' t' i') as Hset.
  { intros t' i' Hs'. pose proof Hs' as (H1 & H2 & H3). split; [|by split]. cbn.
    destruct (decide (t' = t)) as [-> |]; [|by rewrite lookup_insert_ne]. rewrite lookup_insert_eq.
    by rewrite (Hj i'). }
  split.
  - split; auto.
    intros Hw p size t' lun Hd Hl. destruct (Hw p size t' lun Hd Hl) as (? & ? & j & ?). eauto.
  - intros _. split; [|by split]. cbn. by rewrite lookup_insert_eq.
Qed.

Lemma map_agrees s p size iqn r :
  disk s = Some (p, size) -> to_own s -> settled s own iqn ->
  shared_answers s (MapDiskToTarget own p) r ->
  agrees s (storage_step s (MapDiskToTarget own p) r)
  /\ (failed r = false -> luns (storage_step s (MapDiskToTarget own p) r) !! p = Some (own, value r)).
Proof.
  intros Hd Ho Hs. destruct r as [lun []]; cbn [shared_answers storage_step failed value]; [by split|].
  intros [[=]|[Hl Hk]]. split; [|intros _; cbn; by rewrite lookup_insert_eq].
  split; cbn [disks luns]; auto.
  - intros p' size' [t' lun'] Hd' Hl'. rewrite Hd in Hd'. injection Hd' as <- <-.
    pose proof (Ho _ _ _ _ Hd Hl') as ->. rewrite lookup_insert_eq. do 2 f_equal. by apply Hk.
  - intros p' size' t' lun' Hd'. rewrite Hd in Hd'. injection Hd' as <- <-. rewrite lookup_insert_eq.
    intros [= <- <-]. by left.
  - intros _ p' size' t' lun' Hd'. cbn [disks luns] in *. rewrite Hd in Hd'. injection Hd' as <- <-.
    rewrite lookup_insert_eq. intros [= <- <-]. split_and!; [done|lia|]. by exists iqn.
Qed.

(** ** The creation *)

(** A result that is a value satisfies [P], now and later. *)
Definition gives {A} (P : A -> storage -> Prop) (r : res A) (s : storage) : Prop :=
  forall a, r = Ok a -> P a s.
Definition stable {A} (P : A -> storage -> Prop) : Prop := forall a s s', P a s -> agrees s s' -> P a s'.

Lemma amid_gives_bind {A B} s (p : controller A) (f : A -> controller B) (P : A -> storage -> Prop)
  (Q : B -> storage -> Prop) :
  stable Q -> amid shared agrees s p (gives P) ->
  (forall a s', P a s' -> amid shared agrees s' (f a) (gives Q)) ->
  amid shared agrees s (p ≫= f) (gives Q).
Proof.
  intros HQ Hp Hf. apply (amid_bind shared agrees).
  - eapply amid_mono; [exact Hp|]. intros [a|e|] s' H; [by apply Hf, H|done..].
  - intros r s1 s2 H Hs b ->. by eapply HQ; [apply H|].
Qed.
Lemma amid_must (P : storage -> Prop) s o format Q :
  P s -> (forall s1 s2, P s1 -> agrees s1 s2 -> P s2) -> stable Q ->
  (forall s1 r, P s1 -> shared_answers s1 o r ->
     agrees s1 (storage_step s1 o r) /\ (failed r = false -> Q (value r) (storage_step s1 o r))) ->
  amid shared agrees s (backend_must cs o format) (gives Q).
Proof.
  intros HP Hst HQ H. unfold backend_must, with_driver. destruct (cs_Driver cs); [|by intros s1 _ a].
  intros s1 H1. split; [done|]. intros r Hr. destruct (H s1 r) as [Ha Hq]; [by eapply Hst|done|].
  split; [done|]. cbn. destruct (failed r); intros s2 H2 a [= <-]. by eapply HQ; [apply Hq|].
Qed.

(** The volume that the state of the server describes. *)
Definition described (vol : Volume) (s : storage) : Prop :=
  exists p size t lun iqn,
    disk s = Some (p, size) /\ luns s !! p = Some (t, lun) /\ settled s t iqn
    /\ vol = {| VolumeId := encodeVolID (iscsi_volID req st t iqn lun p size);
                vCapacityBytes := size;
                VolumeContext := iscsi_context (targetPortalWithPort st) iqn lun (cr_Parameters req);
                ContentSource := None |}.
Lemma described_stable : stable described.
Proof.
  intros vol s s' (p & size & t & lun & iqn & Hd & Hl & Hs & ->) A. exists p, size, t, lun, iqn.
  split_and!; [by apply (ag_disk _ _ A)|by eapply (ag_mapped _ _ A)|by apply (ag_settled _ _ A)|done].
Qed.
Lemma described_unique s v1 v2 : described v1 s -> described v2 s -> v1 = v2.
Proof.
  intros (p & size & t & lun & iqn & Hd & Hl & (Hs & _) & ->) (p' & size' & t' & lun' & iqn' & Hd' & Hl' & (Hs' & _) & ->).
  rewrite Hd in Hd'. injection Hd' as <- <-. rewrite Hl in Hl'. injection Hl' as <- <-.
  rewrite Hs in Hs'. by injection Hs' as <-.
Qed.

Lemma ensure_target_settles s t i format :
  (t = own /\ (i = requested \/ (i = "" /\ TrimSpace requested = ""))) \/ settled s t i ->
  amid shared agrees s (ensure_target cs t i format) (gives (fun iqn s' => settled s' t iqn)).
Proof.
  intros Hi. assert (stable (fun iqn s' => settled s' t iqn)) as Hst.
  { intros iqn s1 s2 H A. by apply (ag_settled _ _ A). }
  apply (amid_gives_bind _ _ _ (fun iqn s' => settled s' t iqn)); [done| |].
  - refine (amid_must (fun s' => (t = own /\ (i = requested \/ (i = "" /\ TrimSpace requested = ""))) \/ settled s' t i)
              s (EnsureTarget t i) format _ Hi _ Hst _).
    + intros s1 s2 [?|H] A; [by left|right]. by apply (ag_settled _ _ A).
    + intros s1 r. apply ensure_agrees.
  - intros iqn s' H. destruct (iqn == ""); [by intros s1 _ a|]. intros s1 A a [= <-]. by eapply Hst.
Qed.

Lemma configureTargetChap_amid s t sec (P : storage -> Prop) :
  P s -> (forall s1 s2, P s1 -> agrees s1 s2 -> P s2) ->
  amid shared agrees s (configureTargetChapFromSecrets cs t sec) (gives (fun _ => P)).
Proof.
  intros HP Hst. assert (stable (fun _ : unit => P)) as HQ by by intros _; apply Hst.
  unfold configureTargetChapFromSecrets. apply (amid_gives_bind _ _ _ (fun _ => P)); [done| |].
  - intros s1 A a _. by eapply Hst.
  - intros opts s1 H1. destruct (negb (Enabled opts)); [intros s2 A a _; by eapply Hst|].
    refine (amid_must P s1 (ConfigureTargetChap t opts) _ _ H1 Hst HQ _). intros s2 r H2 _. by split.
Qed.

(** Mapping the disk to the target of the request. *)
Lemma map_own s p size iqn format :
  disk s = Some (p, size) -> to_own s -> settled s own iqn ->
  amid shared agrees s (backend_must cs (MapDiskToTarget own p) format)
    (gives (fun lun s' => disk s' = Some (p, size) /\ luns s' !! p = Some (own, lun) /\ settled s' own iqn)).
Proof.
  intros Hd Ho Hs.
  refine (amid_must (fun s' => disk s' = Some (p, size) /\ to_own s' /\ settled s' own iqn)
            s (MapDiskToTarget own p) format _ _ _ _ _); [done|..].
  - intros s1 s2 (? & ? & ?) A. split_and!; [by apply (ag_disk _ _ A)|by eapply to_own_agrees|].
    by apply (ag_settled _ _ A).
  - intros lun s1 s2 (? & ? & ?) A. split_and!; [by apply (ag_disk _ _ A)|by eapply (ag_mapped _ _ A)|].
    by apply (ag_settled _ _ A).
  - intros s1 r (Hd1 & Ho1 & Hs1) Hr. destruct (map_agrees s1 p size iqn r Hd1 Ho1 Hs1 Hr) as [A Hl].
    split; [done|]. intros Hf. split_and!; [by apply (ag_disk _ _ A)|by apply Hl|by apply (ag_settled _ _ A)].
Qed.

Lemma amid_gives_frame {A} s (p : controller A) (Q : A -> storage -> Prop) (P : storage -> Prop) :
  (forall s1 s2, P s1 -> agrees s1 s2 -> P s2) -> P s -> amid shared agrees s p (gives Q) ->
  amid shared agrees s p (gives (fun a s' => Q a s' /\ P s')).
Proof.
  intros HP Hs Hp. eapply amid_mono; [exact (amid_frame shared agrees s p _ P HP Hs Hp)|].
  intros r s' [H1 H2] a ->. split; [by apply H1|done].
Qed.
Lemma disk_stable v s1 s2 : disk s1 = Some v /\ to_own s1 -> agrees s1 s2 -> disk s2 = Some v /\ to_own s2.
Proof. intros [Hd Ho] A. split; [by apply (ag_disk _ _ A)|by eapply to_own_agrees]. Qed.

Lemma createIscsiNew_amid s :
  to_own s -> amid shared agrees s (createIscsiNew cs req st) (gives described).
Proof.
  intros Ho. apply (amid_gives_bind _ _ _ (fun v s' => disk s' = Some v /\ to_own s')); [apply described_stable| |].
  - refine (amid_must to_own s (CreateVirtualDisk (cr_Name req) (parentDir st) (size st)) _ _ Ho _ _ _).
    + intros s1 s2 H A. by eapply to_own_agrees.
    + intros v s1 s2. apply disk_stable.
    + intros s1 r Ho1 Hr. destruct (create_agrees s1 _ r Hr) as [A Hd]. split; [done|]. intros Hf.
      split; [by apply Hd|by eapply to_own_agrees].
  - intros [p size] s1 H1. eapply amid_gives_bind; [apply described_stable|..].
    + apply amid_gives_frame with (P := fun s' => disk s' = Some (p, size) /\ to_own s'); [apply disk_stable|done|].
      apply ensure_target_settles. left. by split; [|left].
    + cbv beta. intros iqn s2 [Hs2 H2]. eapply amid_gives_bind; [apply described_stable|..].
      * apply (configureTargetChap_amid s2 _ _ (fun s' => settled s' own iqn /\ disk s' = Some (p, size) /\ to_own s'));
          [done|]. intros s3 s4 [H3 H4] A. split; [by apply (ag_settled _ _ A)|by eapply disk_stable].
      * cbv beta. intros _ s3 (Hs3 & Hd3 & Ho3). eapply amid_gives_bind; [apply described_stable|by apply map_own|].
        cbv beta. intros lun s4 (Hd4 & Hl4 & Hs4) s5 A vol [= <-]. apply (described_stable _ s4); [|done].
        by exists p, size, own, lun, iqn.
Qed.

Lemma described_of s p size t lun iqn :
  disk s = Some (p, size) -> luns s !! p = Some (t, lun) -> settled s t iqn ->
  amid shared agrees s (ok {| VolumeId := encodeVolID (iscsi_volID req st t iqn lun p size);
                              vCapacityBytes := size;
                              VolumeContext := iscsi_context (targetPortalWithPort st) iqn lun (cr_Parameters req);
                              ContentSource := None |} : controller Volume) (gives described).
Proof.
  intros Hd Hl Hs s1 A vol [= <-]. apply (described_stable _ s); [|done]. by exists p, size, t, lun, iqn.
Qed.

Lemma createIscsiExisting_amid s0 s :
  sound s0 -> agrees s0 s -> fv_exists (find_volume s0 (cr_Name req) (parentDir st)) = true ->
  amid shared agrees s (createIscsiExisting cs req st (find_volume s0 (cr_Name req) (parentDir st))) (gives described).
Proof.
  intros Hw A He. unfold find_volume in *. destruct (disk s0) as [[p size]|] eqn:Hd0; [|done].
  pose proof (ag_disk _ _ A _ Hd0) as Hd. unfold createIscsiExisting.
  destruct (luns s0 !! p) as [[t lun]|] eqn:Hl0;
    cbn [fv_exists fv_vhdxPath fv_sizeBytes fv_targetName fv_targetIQN fv_lun];
    (destruct (_ && _ && _)%bool; [by intros s1 _ vol|]).
  - destruct (Hw _ _ _ _ Hd0 Hl0) as (Ht & Hlun & iqn0 & Hs0). pose proof Hs0 as (E0 & [Htr0 Hn0] & _). rewrite E0.
    apply String.eqb_neq in Ht. rewrite Ht. apply String.eqb_neq in Hn0. cbn [firstNonEmpty]. rewrite Htr0, Hn0.
    cbn [negb]. destruct (Z.ltb_spec lun 0); [lia|].
    pose proof (ag_mapped _ _ A _ _ _ Hd0 Hl0) as Hl. pose proof (ag_settled _ _ A _ _ Hs0) as Hs.
    eapply amid_gives_bind; [apply described_stable|..].
    + apply amid_gives_frame with (P := fun s' => disk s' = Some (p, size) /\ luns s' !! p = Some (t, lun)); [|done|].
      * intros s1 s2 [H1 H2] A'. split; [by apply (ag_disk _ _ A')|by eapply (ag_mapped _ _ A')].
      * apply ensure_target_settles. by right.
    + cbv beta. intros iqn s2 (Hs2 & Hd2 & Hl2). by apply described_of.
  - assert (to_own s) as Ho.
    { apply (to_own_agrees s0); [done|]. intros p' size' t lun Hd' Hl'. congruence. }
    change (firstNonEmpty [""; requested]) with (if TrimSpace requested != "" then requested else "").
    eapply amid_gives_bind; [apply described_stable|..].
    + apply amid_gives_frame with (P := fun s' => disk s' = Some (p, size) /\ to_own s'); [apply disk_stable|done|].
      apply ensure_target_settles. left. split; [done|].
      destruct (String.eqb_spec (TrimSpace requested) ""); [by right|by left].
    + cbv beta. intros iqn s2 (Hs2 & Hd2 & Ho2).
      eapply amid_gives_bind; [apply described_stable|by apply map_own|].
      cbv beta. intros lun s3 (Hd3 & Hl3 & Hs3). by apply described_of.
Qed.

Lemma createIscsiVolume_amid s :
  GetSnapshot (cr_ContentSource req) = None -> iscsi_settings req = Ok st -> sound s ->
  amid shared agrees s (createIscsiVolume cs req) (gives described).
Proof.
  intros Hsrc Hst Hw. unfold createIscsiVolume. rewrite Hst, Hsrc. unfold lift.
  change (Ret (Ok st) ≫= ?f) with (f st). cbv beta.
  apply (amid_gives_bind _ _ _ (fun f s' => exists s0, sound s0 /\ agrees s0 s'
           /\ f = find_volume s0 (cr_Name req) (parentDir st))); [apply described_stable| |].
  - refine (amid_must sound s (GetVolumeByName (cr_Name req) (parentDir st)) _ _ Hw _ _ _).
    + intros s1 s2 H A. by apply (ag_sound _ _ A).
    + intros f s1 s2 (s0 & ? & ? & ?) A. exists s0. split_and!; [done|by etrans|done].
    + intros s1 r H1 Hr. split; [done|]. intros Hf. exists s1. split_and!; [done..|].
      destruct Hr as [Hr|Hr]; [congruence|done].
  - intros f s1 (s0 & H0 & A & ->). destruct (fv_exists _) eqn:He; [by apply createIscsiExisting_amid|].
    apply createIscsiNew_amid. apply (to_own_agrees s0); [done|]. intros p size t lun Hd _.
    unfold find_volume in He. rewrite Hd in He. by destruct (luns s0 !! p) as [[]|].
Qed.
End create.

(** At the start, the disk of the volume, if it is there and mapped, is mapped to a
    target whose IQN is not another than the request asks for. *)
Definition sound_for (req : CreateVolumeRequest) (s : storage) : Prop :=
  forall st, iscsi_settings req = Ok st -> sound req st s.
End shared.

(** C5: two creations of the same iSCSI volume, not from a snapshot, at the same time, on a
    server that keeps the contract [shared_answers] and on which the target of the volume's
    disk, if it is mapped, has the IQN that is asked for: whatever the order of their
    requests, if both succeed they return the same volume, and the server then has its
    disk, mapped to its target with its LUN. *)
Theorem concurrent_creations_agree (fold : string -> string) (cs : ControllerServer) (req : CreateVolumeRequest) (s s' : storage)
  (r1 r2 : res Volume) (v1 v2 : Volume) :
  GetSnapshot (cr_ContentSource req) = None -> sound_for fold req s ->
  interleaved (shared fold) s (createIscsiVolume cs req) (createIscsiVolume cs req) r1 r2 s' ->
  r1 = Ok v1 -> r2 = Ok v2 ->
  v1 = v2 /\ exists st, iscsi_settings req = Ok st /\ described fold req st v1 s'.
Proof.
  intros Hsrc Hw Hi H1 H2. destruct (iscsi_settings req) as [st|e|] eqn:Hst.
  - pose proof (createIscsiVolume_amid fold cs req st (iscsi_settings_targetName _ _ Hst) s Hsrc Hst (Hw st Hst)) as H.
    pose proof (agrees_preorder fold req st) as Hpre.
    destruct (interleaved_amid (shared fold) (agrees fold req st) s _ _ _ _ r1 r2 s' H H Hi) as [D1 D2].
    specialize (D1 v1 H1). specialize (D2 v2 H2). split; [by eapply described_unique|by exists st].
  - exfalso. unfold createIscsiVolume in Hi. rewrite Hst in Hi. inversion Hi; by subst.
  - exfalso. unfold createIscsiVolume in Hi. rewrite Hst in Hi. inversion Hi; by subst.
Qed.

(** ** A shared server in memory *)

Definition shared_answer (s : storage) (o : backend_op) : returned (backend_result o) :=
  match o with
  | CreateVirtualDisk n d size =>
      match disks s !! (n, d) with
      | Some v => Returned v false
      | None => memory_answer s (CreateVirtualDisk n d size)
      end
  | EnsureTarget t i =>
      let asked := TrimSpace i in
      Returned (match target_iqns s !! t with
                | Some i' => if (asked == "") || (ToLower i' == ToLower asked) then i' else asked
                | None => if asked == "" then "iqn.1991-05.com.microsoft:" +:+ TrimSpace t else asked
                end) (negb (TrimSpace asked == asked) || negb (TrimSpace ("iqn.1991-05.com.microsoft:" +:+ TrimSpace t)
                                                               == "iqn.1991-05.com.microsoft:" +:+ TrimSpace t))
  | o => memory_answer s o
  end.
Definition shared_server : handler backend storage :=
  fun o s => (shared_answer s o, storage_step s o (shared_answer s o)).
Definition shared_ok (ms s : storage) : Prop :=
  ms = s /\ map_Forall (fun _ i => TrimSpace i = i /\ i <> "") (target_iqns s)
  /\ map_Forall (fun _ x => x.2 = 0) (luns s).

Lemma shared_iqn_ok s t i :
  map_Forall (fun _ i => TrimSpace i = i /\ i <> "") (target_iqns s) ->
  failed (shared_answer s (EnsureTarget t i)) = false ->
  let iqn := value (shared_answer s (EnsureTarget t i)) in TrimSpace iqn = iqn /\ iqn <> "".
Proof.
  intros Hi. cbn [shared_answer failed value]. intros [H1 H2]%orb_false_elim. apply negb_false_iff in H1, H2. go_bool.
  destruct (target_iqns s !! t) as [i'|] eqn:E.
  - destruct (_ || _)%bool eqn:Eb; [by apply (Hi _ _ E)|]. apply orb_false_elim in Eb as [Eb _]. by go_bool.
  - destruct (TrimSpace i == "") eqn:Eb; go_bool; [|done]. by split; [|destruct (TrimSpace t)].
Qed.
Lemma shared_server_ensure s t i :
  map_Forall (fun _ i => TrimSpace i = i /\ i <> "") (target_iqns s) ->
  shared_answers ToLower s (EnsureTarget t i) (shared_answer s (EnsureTarget t i)).
Proof.
  intros Hi. unfold shared_answers. destruct (failed (shared_answer s (EnsureTarget t i))) eqn:Ef; [by left|right].
  split; [by apply shared_iqn_ok|]. cbn [shared_answer value failed]. unfold same_iqn. split.
  - intros i' -> H. destruct (_ || _)%bool eqn:Eb; [done|]. apply orb_false_elim in Eb as [E1 E2]. go_bool.
    by destruct H.
  - intros H Hne. destruct (target_iqns s !! t) as [i'|] eqn:E.
    + destruct (_ || _)%bool eqn:Eb; [|done]. apply orb_prop in Eb as [Eb|Eb]; go_bool; [done|]. by destruct (H i' eq_refl).
    + apply String.eqb_neq in Hne. by rewrite Hne.
Qed.
Lemma shared_server_contract : implements (shared ToLower) shared_server shared_ok.
Proof.
  intros ms s o (-> & Hi & Hl) _. simpl. split.
  - destruct o; try done; try (by right).
    + by apply shared_server_ensure.
    + cbn [shared_answers shared_answer]. destruct (disks s !! (name, parentDir)) as [v|] eqn:E; [by right|].
      cbn. destruct (luns s !! _) eqn:El; [by left|by right].
    + right. split; [done|]. intros lun E. symmetry. exact (Hl _ _ E).
  - split; [done|]. destruct o; try done.
    + cbn [storage_step]. destruct (failed _) eqn:Ef; [done|]. split; [|done].
      apply map_Forall_insert_2; [|done]. by apply shared_iqn_ok.
    + cbn [shared_answer storage_step]. destruct (disks s !! (name, parentDir)); [done|].
      cbn. by case_match.
    + split; [done|]. by apply map_Forall_insert_2.
Qed.

(** The first creation has made the disk when the second one starts and ends. *)
Definition overtaken : list bool := [true; true; false; false; false; false].

Lemma concurrent_creations_agree_witness :
  exists v1 v2 s', interleaved (shared ToLower) empty_storage (createIscsiVolume example_server example_request)
                     (createIscsiVolume example_server example_request) (Ok v1) (Ok v2) s' /\ v1 = v2.
Proof.
  pose (p := createIscsiVolume example_server example_request).
  assert (let '(r1, r2, _, _) := run_two overtaken shared_server p p empty_storage in
          is_Ok r1 = true /\ is_Ok r2 = true) as H by (vm_compute; done).
  assert (shared_ok empty_storage empty_storage) as H0 by (split_and!; [done|by intros ? ? ?..]).
  pose proof (run_two_interleaved (shared ToLower) shared_server shared_ok shared_server_contract (fun _ _ => I)
                overtaken p p empty_storage empty_storage H0) as Hi.
  destruct (run_two overtaken shared_server p p empty_storage) as [[[r1 r2] s] log].
  destruct Hi as (s' & _ & Hi). destruct H as [H1 H2]. destruct r1 as [v1| |]; try done. destruct r2 as [v2| |]; try done.
  exists v1, v2, s'. split; [exact Hi|].
  apply (concurrent_creations_agree ToLower example_server example_request empty_storage s' (Ok v1) (Ok v2) v1 v2); try done.
Defined.

(** With CHAP the disk that one creation has made is mapped by the other, which takes it
    for an existing volume, before CHAP is configured. *)
Definition is_map (o : op backend) : bool :=
  match (o : backend_op) with MapDiskToTarget _ _ => true | _ => false end.
Fixpoint maps_before_chap (log : list (op backend)) : bool :=
  match log with
  | [] => false
  | o :: rest => if is_chap o then false else if is_map o then true else maps_before_chap rest
  end.
Example mapped_before_chap :
  let p := createIscsiVolume example_server chap_request in
  let '(r1, r2, _, log) := run_two overtaken shared_server p p empty_storage in
  is_Ok r1 = true /\ is_Ok r2 = true /\ maps_before_chap log = true
  /\ maps_before_chap (run shared_server p empty_storage).2 = false.
Proof. vm_compute. done. Qed.
