(* ===== verification/LifeCycle.v ===== *)
(** * The life of an iSCSI volume

    A volume is created, used by any requests for it, and deleted.  With a storage server
    that does what it is asked for, or fails, the server is then as it was before: no
    disk, mapping, target, credential or admitted initiator is left behind. *)
From S2P Require Import Prelude GoStrings GoStrconv GoJsonFacts VolumeID VolumeTypes LegacyID Params Chap Prog Driver.
From S2P Require Import Backend Controller ControllerFacts StorageContract.

(** ** The storage server *)

Record server := {
  sv_disks : gmap (string * string) (string * Z);   (* volume name and folder: path and size *)
  sv_luns : gmap string (string * Z);               (* disk: target and LUN *)
  sv_targets : gmap string string;                  (* target: IQN *)
  sv_chap : gset string;                            (* targets with credentials *)
  sv_initiators : gset (string * string)            (* target and initiator *)
}.

Definition at_path (p : string) (kv : (string * string) * (string * Z)) : Prop := kv.2.1 = p.
#[export] Instance at_path_dec p kv : Decision (at_path p kv).
Proof. unfold at_path. apply _. Defined.

Definition find_disk (s : server) (n d : string) : FoundVolume :=
  match sv_disks s !! (n, d) with
  | None => {| fv_exists := false; fv_vhdxPath := ""; fv_sizeBytes := 0; fv_targetName := "";
               fv_targetIQN := ""; fv_lun := -1 |}
  | Some (path, size) =>
      match sv_luns s !! path with
      | None => {| fv_exists := true; fv_vhdxPath := path; fv_sizeBytes := size;
                   fv_targetName := ""; fv_targetIQN := ""; fv_lun := -1 |}
      | Some (t, lun) => {| fv_exists := true; fv_vhdxPath := path; fv_sizeBytes := size;
                            fv_targetName := t;
                            fv_targetIQN := match sv_targets s !! t with Some i => i | None => "" end;
                            fv_lun := lun |}
      end
  end.

Definition resize_at (p : string) (z : Z) (v : string * Z) : string * Z :=
  if decide (v.1 = p) then (v.1, z) else v.
(** What a request that succeeds does. *)
Definition server_step (s : server) (o : backend_op) : returned (backend_result o) -> server :=
  match o with
  | CreateVirtualDisk n d _ => fun r =>
      if failed r then s else
      {| sv_disks := <[(n, d) := value r]> (sv_disks s); sv_luns := sv_luns s; sv_targets := sv_targets s;
         sv_chap := sv_chap s; sv_initiators := sv_initiators s |}
  | ResizeVirtualDisk p _ => fun r =>
      if failed r then s else
      {| sv_disks := resize_at p (value r) <$> sv_disks s;
         sv_luns := sv_luns s; sv_targets := sv_targets s; sv_chap := sv_chap s; sv_initiators := sv_initiators s |}
  | Backend.DeleteVirtualDisk p => fun r =>
      if failed r then s else
      {| sv_disks := filter (fun kv => ~ at_path p kv) (sv_disks s); sv_luns := sv_luns s;
         sv_targets := sv_targets s; sv_chap := sv_chap s; sv_initiators := sv_initiators s |}
  | MapDiskToTarget t p => fun r =>
      if failed r then s else
      {| sv_disks := sv_disks s; sv_luns := <[p := (t, value r)]> (sv_luns s); sv_targets := sv_targets s;
         sv_chap := sv_chap s; sv_initiators := sv_initiators s |}
  | UnmapDiskFromTarget _ p => fun r =>
      if failed r then s else
      {| sv_disks := sv_disks s; sv_luns := delete p (sv_luns s); sv_targets := sv_targets s;
         sv_chap := sv_chap s; sv_initiators := sv_initiators s |}
  | EnsureTarget t _ => fun r =>
      if failed r then s else
      {| sv_disks := sv_disks s; sv_luns := sv_luns s; sv_targets := <[t := value r]> (sv_targets s);
         sv_chap := sv_chap s; sv_initiators := sv_initiators s |}
  | DeleteTarget t => fun r =>
      if failed r then s else
      {| sv_disks := sv_disks s; sv_luns := sv_luns s; sv_targets := delete t (sv_targets s);
         sv_chap := sv_chap s ∖ {[t]}; sv_initiators := filter (fun ti => ti.1 <> t) (sv_initiators s) |}
  | ConfigureTargetChap t _ => fun r =>
      if failed r then s else
      {| sv_disks := sv_disks s; sv_luns := sv_luns s; sv_targets := sv_targets s;
         sv_chap := sv_chap s ∪ {[t]}; sv_initiators := sv_initiators s |}
  | AllowInitiator t i => fun r =>
      if failed r then s else
      {| sv_disks := sv_disks s; sv_luns := sv_luns s; sv_targets := sv_targets s;
         sv_chap := sv_chap s; sv_initiators := sv_initiators s ∪ {[(t, i)]} |}
  | DenyInitiator t i => fun r =>
      if failed r then s else
      {| sv_disks := sv_disks s; sv_luns := sv_luns s; sv_targets := sv_targets s;
         sv_chap := sv_chap s; sv_initiators := sv_initiators s ∖ {[(t, i)]} |}
  | _ => fun _ => s
  end.

(** What is known of a response: lookups tell what is stored; a new disk gets a path that
    was not in use; a LUN is a number of 31 bits, a size one of 63, and texts, which come
    out of JSON, are valid UTF-8. *)
Definition fresh_path (s : server) (p : string) : Prop :=
  map_Forall (fun _ v => v.1 <> p) (sv_disks s) /\ sv_luns s !! p = None.
Definition server_answers (s : server) (o : backend_op) : returned (backend_result o) -> Prop :=
  match o with
  | GetVolumeByName n d => fun r => failed r = true \/ value r = find_disk s n d
  | CreateVirtualDisk n d _ => fun r =>
      failed r = true
      \/ (fresh_path s (value r).1 /\ (value r).1 <> "" /\ valid_utf8 (value r).1 /\ 0 <= (value r).2 < 2 ^ 63)
  | EnsureTarget _ _ => fun r => failed r = true \/ (TrimSpace (value r) <> "" /\ valid_utf8 (value r))
  | MapDiskToTarget _ _ => fun r => failed r = true \/ 0 <= value r < 2 ^ 31
  | ResizeVirtualDisk _ _ => fun r => failed r = true \/ 0 <= value r < 2 ^ 63
  | _ => fun _ => True
  end.
Definition storage_server : monitor backend server :=
  Monitor backend server (fun _ _ => True) server_answers server_step.

(** ** What belongs to a volume *)

Section volume.
Context (cs : ControllerServer) (req : CreateVolumeRequest) (st : IscsiSettings) (s0 : server) (p : string).
Abbreviation key := (cr_Name req, parentDir st).
Abbreviation own := (targetName st).

(** Nothing of the volume is there yet. *)
Definition unborn : Prop :=
  sv_disks s0 !! key = None /\ sv_targets s0 !! own = None /\ own ∉ sv_chap s0
  /\ forall i, (own, i) ∉ sv_initiators s0.
Context (Hunborn : unborn) (Hpath : fresh_path s0 p).

(** The server differs from what it was in the volume's own things only. *)
Record around (s : server) : Prop := {
  ar_disks : delete key (sv_disks s) = sv_disks s0;
  ar_disk : forall v, sv_disks s !! key = Some v -> v.1 = p;
  ar_luns : delete p (sv_luns s) = sv_luns s0;
  ar_lun : forall x, sv_luns s !! p = Some x -> x.1 = own;
  ar_targets : delete own (sv_targets s) = sv_targets s0;
  ar_chap : sv_chap s ∖ {[own]} = sv_chap s0;
  ar_initiators : filter (fun ti => ti.1 <> own) (sv_initiators s) = sv_initiators s0
}.

(** The requests that concern the volume only. *)
Definition own_op (o : op backend) : Prop :=
  match (o : backend_op) with
  | EnsureTarget t _ | ConfigureTargetChap t _ | AllowInitiator t _ | DenyInitiator t _ | DeleteTarget t => t = own
  | MapDiskToTarget t q | UnmapDiskFromTarget t q => t = own /\ q = p
  | Backend.DeleteVirtualDisk q | ResizeVirtualDisk q _ => q = p
  | _ => False
  end.

Lemma around_disks s k v : around s -> sv_disks s !! k = Some v -> v.1 = p -> k = key.
Proof.
  intros A Hk Hv. destruct (decide (k = key)) as [|Hne]; [done|].
  pose proof (ar_disks _ A) as E. assert (sv_disks s0 !! k = Some v) as H by (by rewrite <- E, lookup_delete_ne).
  destruct Hpath as [Hf _]. by destruct (Hf _ _ H).
Qed.
Lemma around_filter s : around s -> filter (fun kv => ~ at_path p kv) (sv_disks s) = sv_disks s0.
Proof.
  intros A. rewrite <- (ar_disks _ A). apply map_eq. intros k. apply option_eq. intros v.
  rewrite map_lookup_filter_Some, lookup_delete_Some. unfold at_path. cbn [fst snd]. split.
  - intros [H1 H2]. split; [|done]. intros <-. by apply H2, (ar_disk _ A).
  - intros [H1 H2]. split; [done|]. intros Hv. by apply H1; symmetry; eapply around_disks.
Qed.

Lemma own_chap (X : gset string) t : (X ∪ {[t]}) ∖ {[t]} = X ∖ {[t]} /\ X ∖ {[t]} ∖ {[t]} = X ∖ {[t]}.
Proof. split; set_solver. Qed.
Abbreviation foreign := (filter (fun ti : string * string => ti.1 <> own)).
Lemma own_initiators (X : gset (string * string)) i :
  foreign (X ∪ {[(own, i)]}) = foreign X /\ foreign (X ∖ {[(own, i)]}) = foreign X /\ foreign (foreign X) = foreign X.
Proof. split_and!; apply set_eq; intros [t j]; rewrite !elem_of_filter; set_solver. Qed.
Lemma around_resized s z :
  around s ->
  delete key (resize_at p z <$> sv_disks s) = sv_disks s0.
Proof.
  intros A. rewrite <- fmap_delete, (ar_disks _ A). apply map_eq. intros k. rewrite lookup_fmap.
  destruct (sv_disks s0 !! k) as [v|] eqn:Ek; [|done]. cbn. destruct Hpath as [Hf _].
  unfold resize_at. by rewrite decide_False by exact (Hf _ _ Ek).
Qed.

Lemma around_step s (o : backend_op) r : own_op o -> around s -> around (server_step s o r).
Proof.
  intros Ho A. pose proof A as [A1 A2 A3 A4 A5 A6 A7].
  destruct o; cbn [own_op reads] in Ho; try done; cbn [server_step]; destruct (failed r); try done;
    try (match type of Ho with ?x = _ => subst x | _ => destruct Ho as [-> ->] end); split;
    cbn [sv_disks sv_luns sv_targets sv_chap sv_initiators]; try done.
  all: rewrite ?delete_insert_eq, ?delete_delete_eq, ?(proj1 (own_chap _ _)), ?(proj2 (own_chap _ _)); try done.
  - intros x. rewrite lookup_insert_eq. by intros [= <-].
  - intros x. by rewrite lookup_delete_eq.
  - by rewrite around_filter, <- A1, delete_delete_eq by done.
  - intros v. rewrite around_filter by done. destruct Hunborn as (Hk & _). by rewrite Hk.
  - by rewrite (proj2 (proj2 (own_initiators _ ""))).
  - by rewrite (proj1 (own_initiators _ _)).
  - by rewrite (proj1 (proj2 (own_initiators _ _))).
  - by apply around_resized.
  - intros v. rewrite lookup_fmap. destruct (sv_disks s !! key) as [[q z]|] eqn:Ek; [|done].
    specialize (A2 _ eq_refl). cbn in A2. subst q. cbn. unfold resize_at. by case_decide; intros [= <-].
Qed.
Lemma only_around {X} (prg : controller X) : forall s : server,
  only own_op prg -> around s -> safe storage_server s prg (fun _ s' => around s').
Proof.
  unfold only. induction prg as [a|o k IH]; intros s; [done|]. intros [Ho Hk] A. split; [done|]. intros r _.
  apply IH; [by apply Hk|by apply around_step].
Qed.

(** The disk is there, until its deletion is asked for. *)
Definition present (s : server) : Prop := exists z, sv_disks s !! key = Some (p, z).
Definition removes (o : op backend) : Prop :=
  match (o : backend_op) with Backend.DeleteVirtualDisk _ => True | _ => False end.
Lemma present_step s (o : backend_op) r :
  own_op o -> ~ removes o -> present s -> present (server_step s o r).
Proof.
  intros Ho Hn [z Hz]. destruct o; try done; cbn [server_step]; destruct (failed r); try (by exists z).
  exists (value r). cbn in Ho. subst vhdxPath. unfold sv_disks at 1. rewrite lookup_fmap, Hz. cbn. unfold resize_at.
  by rewrite decide_True by done.
Qed.
Definition uses (o : op backend) : Prop := own_op o /\ ~ removes o.
Lemma only_present {X} (prg : controller X) : forall s : server,
  only uses prg -> around s -> present s ->
  safe storage_server s prg (fun _ s' => around s' /\ present s').
Proof.
  unfold only. induction prg as [a|o k IH]; intros s; [done|]. intros [[Ho Hn] Hk] A P. split; [done|]. intros r _.
  apply IH; [by apply Hk|by apply around_step|by apply present_step].
Qed.

(** ** The requests for the volume *)

(** The id of the volume. *)
Definition names (v : volID) : Prop := volID_ok v /\ lVHDXPath v = p /\ lTargetName v = own.
Context (v : volID) (Hv : names v) (Hown : TrimSpace own = own /\ own <> "") (Hp : p <> "").

Lemma own_target : targetNameFromVolID v = own.
Proof.
  destruct Hv as (_ & _ & Ht), Hown as [Htr Hne]. unfold targetNameFromVolID. rewrite Ht. cbn. rewrite Htr.
  by apply String.eqb_neq in Hne as ->.
Qed.
Lemma decode_own : decodeAnyVolumeID (encodeVolID v) = Ok (of_legacy v, v).
Proof. destruct Hv as [Hok _]. by apply decodeAny_encodeVolID. Qed.

Lemma chap_uses t sec : t = own -> only uses (configureTargetChapFromSecrets cs t sec).
Proof.
  intros ->. apply only_bind; [apply only_lift|]. intros opts. destruct (negb (Enabled opts)); [done|].
  refine (only_must uses cs (ConfigureTargetChap own opts) _ _). by split; [|intros []].
Qed.
Lemma publish_uses preq : cp_VolumeId preq = encodeVolID v -> only uses (ControllerPublishVolume cs preq).
Proof.
  intros Hid. unfold ControllerPublishVolume, decode_or_not_found. rewrite Hid, decode_own.
  apply only_bind; [apply only_lift|]. intros _. unfold lift. change (Ret (Ok ?x) ≫= ?f) with (f x). cbv beta iota zeta.
  rewrite own_target. destruct (supportsAccessModeForProtocol _ _ _); [|done]. cbn [negb].
  destruct (file_protocol _); [done|]. destruct (HasPrefix _ _); [|done]. cbn [negb].
  destruct (_ || _)%bool; [done|]. apply only_bind; [by apply chap_uses|]. intros _.
  apply only_bind; [|done]. refine (only_must uses cs (AllowInitiator own (cp_NodeId preq)) _ _).
  by split; [|intros []].
Qed.
Lemma unpublish_uses node : only uses (ControllerUnpublishVolume cs (encodeVolID v) node).
Proof.
  unfold ControllerUnpublishVolume. rewrite decode_own. apply only_bind; [apply only_lift|]. intros _.
  cbv beta iota zeta. rewrite own_target.
  destruct (file_protocol _); [done|]. destruct (own != ""); [|done].
  refine (only_must uses cs (DenyInitiator own node) _ _). by split; [|intros []].
Qed.
Lemma expand_uses range : only uses (ControllerExpandVolume cs (encodeVolID v) range).
Proof.
  unfold ControllerExpandVolume, decode_or_not_found. rewrite decode_own. destruct range as [range|]; [|done].
  destruct (_ == ""); [done|]. unfold lift. change (Ret (Ok ?x) ≫= ?f) with (f x). cbv beta iota.
  destruct (_ <=? 0)%Z; [done|]. change (file_protocol (vProtocol (of_legacy v))) with false. cbv iota.
  apply only_bind; [|done]. 
  refine (only_must uses cs (ResizeVirtualDisk (lVHDXPath v) (RequiredBytes range)) _ _).
  destruct Hv as (_ & Hpv & _). by split; [|intros []].
Qed.
(** A repeated creation finds the disk, and maps it again if need be. *)
Lemma around_must s (o : backend_op) format (Q : res (backend_result o) -> server -> Prop) :
  uses o -> around s -> present s ->
  (forall r s', around s' -> present s' -> Q r s') -> (forall s', around s' -> present s' -> Q Panicked s') ->
  safe storage_server s (backend_must cs o format) Q.
Proof.
  intros Ho A P HQ HP. eapply safe_mono; [apply only_present; [by apply only_must|done..]|].
  intros r s' [A' P']. by apply HQ.
Qed.
Lemma again_safe s :
  GetSnapshot (cr_ContentSource req) = None -> iscsi_settings req = Ok st -> around s -> present s ->
  safe storage_server s (createIscsiVolume cs req) (fun _ s' => around s' /\ present s').
Proof.
  intros Hsrc Hst A P. unfold createIscsiVolume. rewrite Hst, Hsrc. unfold lift.
  change (Ret (Ok st) ≫= ?f) with (f st). cbv beta. apply safe_bind. must_step; [by intros|done|].
  intros [f []] Ha; cbn [failed value]; [by split|]. destruct Ha as [[=]|Ef]. cbn [value] in Ef.
  assert (step storage_server s (GetVolumeByName (cr_Name req) (parentDir st)) (Returned f false) = s) as -> by done.
  destruct P as [z Hz]. unfold find_disk in Ef. rewrite Hz in Ef.
  assert (fv_exists f = true /\ fv_vhdxPath f = p /\ (fv_targetName f = own \/ fv_targetName f = "")) as (He & Hf & Ht).
  { destruct (sv_luns s !! p) as [[t lun]|] eqn:El; subst f; cbn; [|by auto].
    pose proof (ar_lun _ A _ El) as Ht. cbn in Ht. auto. }
  rewrite He. apply only_present; [|done|by exists z]. clear Ef. unfold createIscsiExisting. rewrite Hf.
  destruct (_ && _ && _)%bool; [done|].
  assert ((if fv_targetName f == "" then own else fv_targetName f) = own) as ->.
  { destruct Ht as [-> | ->]; [|done]. by destruct (own == "") eqn:E. }
  unfold ensure_target. apply only_bind.
  - apply only_bind; [|intros i; by destruct (i == "")].
    refine (only_must uses cs (EnsureTarget own (firstNonEmpty [fv_targetIQN f; requestedTargetIQN st])) _ _).
    by split; [|intros []].
  - intros i. apply only_bind; [|done]. destruct (fv_lun f <? 0)%Z; [|done].
    refine (only_must uses cs (MapDiskToTarget own p) _ _). by split; [|intros []].
Qed.

(** ** Deletion *)

Lemma deletion_own : only own_op (DeleteVolume cs (encodeVolID v)).
Proof.
  unfold DeleteVolume. destruct (_ == ""); [done|]. rewrite decode_own.
  change (vProtocol (of_legacy v)) with ProtocolISCSI. cbn [String.eqb]. cbv iota beta.
  change (ProtocolISCSI == ProtocolNFS) with false. change (ProtocolISCSI == ProtocolSMB) with false. cbv iota.
  unfold deleteIscsiVolume, deleteTargetNameForVolume. rewrite own_target.
  destruct Hv as (_ & -> & ->). destruct Hown as [-> _]. apply only_bind.
  - destruct (_ && _)%bool; [|done]. by refine (only_must own_op cs (UnmapDiskFromTarget own p) _ _).
  - intros _. destruct (p != ""); [|done]. destruct (own != "") eqn:Eo.
    + unfold ok. change (Ret (Ok own) ≫= ?f) with (f own). cbv beta. apply only_bind.
      * by refine (only_must own_op cs (DeleteVirtualDisk p) _ _).
      * intros _. rewrite Eo. by refine (only_must own_op cs (DeleteTarget own) _ _).
    + go_bool. by destruct Hown.
Qed.
(** A deletion that succeeds leaves the server as it was before the creation. *)
Lemma deletion_restores s :
  around s ->
  safe storage_server s (DeleteVolume cs (encodeVolID v)) (fun r s' => forall u, r = Ok u -> s' = s0).
Proof.
  intros A. unfold DeleteVolume. destruct (_ == ""); [done|]. rewrite decode_own.
  change (vProtocol (of_legacy v)) with ProtocolISCSI. cbv iota beta.
  change (ProtocolISCSI == ProtocolNFS) with false. change (ProtocolISCSI == ProtocolSMB) with false. cbv iota.
  unfold deleteIscsiVolume, deleteTargetNameForVolume. rewrite own_target.
  destruct Hv as (_ & -> & ->), Hown as [-> Ho]. apply String.eqb_neq in Ho, Hp. rewrite Ho, Hp. cbn [negb andb].
  unfold ok. apply safe_bind. must_step; [done|done|]. intros [[] []] _; [done|]. cbn [failed value].
  change (Ret (Ok own) ≫= ?f) with (f own). cbv beta. rewrite Ho. cbn [negb].
  apply safe_bind. must_step; [done|done|]. intros [[] []] _; [done|]. cbn [failed value].
  must_step; [done|done|]. intros [[] []] _; [done|]. cbn [failed value]. intros _ _.
  cbn [step storage_server server_step failed sv_disks sv_luns sv_targets sv_chap sv_initiators].
  rewrite around_filter by done. rewrite (ar_luns _ A), (ar_targets _ A), (ar_chap _ A), (ar_initiators _ A). by destruct s0.
Qed.
End volume.

(** ** Creation *)

Section creation.
Context (cs : ControllerServer) (req : CreateVolumeRequest) (st : IscsiSettings) (s0 : server).
Abbreviation own := (targetName st).
Hypothesis Hunborn : unborn req st s0.
Hypothesis Htexts : valid_utf8 (cr_Name req) /\ valid_utf8 (targetPortalWithPort st) /\ valid_utf8 own.

Lemma around_created p z :
  fresh_path s0 p -> around req st s0 p
    {| sv_disks := <[(cr_Name req, parentDir st) := (p, z)]> (sv_disks s0); sv_luns := sv_luns s0;
       sv_targets := sv_targets s0; sv_chap := sv_chap s0; sv_initiators := sv_initiators s0 |}.
Proof.
  destruct Hunborn as (Hd & Ht & Hc & Hi). intros [_ Hl].
  split; cbn [sv_disks sv_luns sv_targets sv_chap sv_initiators].
  - by rewrite delete_insert_id.
  - intros v. rewrite lookup_insert_eq. by intros [= <-].
  - by apply delete_id.
  - intros x. by rewrite Hl.
  - by apply delete_id.
  - set_solver.
  - apply set_eq. intros [t i]. rewrite elem_of_filter. cbn. split; [by intros []|]. intros H. split; [|done].
    intros ->. by apply (Hi i).
Qed.

(** What a creation that succeeds has made. *)
Definition born (vol : Volume) (s : server) : Prop :=
  exists p v, fresh_path s0 p /\ p <> "" /\ VolumeId vol = encodeVolID v /\ names st p v
  /\ around req st s0 p s /\ present req st p s.

Lemma creation_safe :
  GetSnapshot (cr_ContentSource req) = None -> iscsi_settings req = Ok st ->
  safe storage_server s0 (createIscsiVolume cs req) (fun r s => forall vol, r = Ok vol -> born vol s).
Proof.
  intros Hsrc Hst. unfold createIscsiVolume. rewrite Hst, Hsrc. unfold lift.
  change (Ret (Ok st) ≫= ?f) with (f st). cbv beta. apply safe_bind. must_step; [by intros|done|].
  intros [f []] Ha; cbn [failed value]; [done|]. destruct Ha as [[=]|Ef]. cbn [value] in Ef.
  assert (step storage_server s0 (GetVolumeByName (cr_Name req) (parentDir st)) (Returned f false) = s0) as -> by done.
  unfold find_disk in Ef. destruct Hunborn as (Hd & _). rewrite Hd in Ef. subst f. cbn [fv_exists].
  unfold createIscsiNew. apply safe_bind. must_step; [done|done|].
  intros [[p z] []] Ha; cbn [failed value]; [done|]. destruct Ha as [[=]|(Hf & Hp & Hup & Hz)]. cbn [value fst snd] in *.
  pose proof (around_created p z Hf) as A. set (s1 := step _ _ _ _). change (around req st s0 p s1) in A.
  assert (present req st p s1) as P by (exists z; apply lookup_insert_eq). clearbody s1.
  unfold ensure_target. apply safe_bind, safe_bind. must_step; [done|done|].
  intros [iqn []] Ha; cbn [failed value]; [done|]. destruct Ha as [[=]|[Hi Hui]]. cbn [value] in *.
  assert (uses st p (EnsureTarget own (requestedTargetIQN st))) as U by by split; [|intros []].
  pose proof (around_step _ _ _ _ Hunborn Hf _ _ (Returned iqn false) (proj1 U) A) as A2.
  pose proof (present_step _ _ _ _ _ (Returned iqn false) (proj1 U) (proj2 U) P) as P2.
  set (s2 := server_step s1 _ _) in A2, P2. change (step _ _ _ _) with s2. clearbody s2. clear s1 A P U.
  destruct (iqn == ""); [done|]. unfold ok. change (safe storage_server s2 (Ret (Ok iqn)) ?Q) with (Q (Ok iqn) s2).
  cbv beta iota. apply safe_bind.
  eapply safe_mono; [apply only_present; [exact Hunborn|exact Hf|by apply chap_uses|exact A2|exact P2]|].
  intros [[]|e|] s3 [A3 P3]; [|done..]. apply safe_bind. must_step; [done|done|].
  intros [lun []] Ha; cbn [failed value]; [done|]. destruct Ha as [[=]|Hl]. cbn [value] in Hl.
  assert (uses st p (MapDiskToTarget own p)) as U by by split; [|intros []].
  intros vol [= <-]. exists p, (iscsi_volID req st own iqn lun p z). destruct Htexts as (? & ? & ?).
  split_and!; [done..| | |].
  - split; [|done]. split_and!; cbn; (done || lia).
  - exact (around_step _ _ _ _ Hunborn Hf _ _ (Returned lun false) (proj1 U) A3).
  - exact (present_step _ _ _ _ _ (Returned lun false) (proj1 U) (proj2 U) P3).
Qed.
End creation.

(** ** A life *)

(** A request for a volume that was created: the creation or the deletion once more, or a
    use of it. *)
Inductive request :=
| Again
| Removal
| Publish (node : string) (mode : AccessMode) (secrets : Params)
| Unpublish (node : string)
| Expand (range : option CapacityRange).

(** Its result is the caller's affair. *)
Definition forget {A} (prg : controller A) : controller unit := catch prg (fun _ => ok tt).
Definition serve_request (cs : ControllerServer) (req : CreateVolumeRequest) (volumeId : string) (u : request)
  : controller unit :=
  match u with
  | Again => forget (createIscsiVolume cs req)
  | Removal => forget (DeleteVolume cs volumeId)
  | Publish node mode secrets =>
      forget (ControllerPublishVolume cs {| cp_VolumeId := volumeId; cp_NodeId := node;
                                            cp_AccessMode := mode; cp_Secrets := secrets |})
  | Unpublish node => forget (ControllerUnpublishVolume cs volumeId node)
  | Expand range => forget (ControllerExpandVolume cs volumeId range)
  end.
Fixpoint serve_requests (cs : ControllerServer) (req : CreateVolumeRequest) (volumeId : string)
  (l : list request) : controller unit :=
  match l with
  | [] => ok tt
  | u :: rest => _ ← serve_request cs req volumeId u; serve_requests cs req volumeId rest
  end.

(** The volume is created; requests come in, deletions from some point on; a deletion
    ends it. *)
Definition life (cs : ControllerServer) (req : CreateVolumeRequest) (l1 l2 : list request) : controller unit :=
  vol ← createIscsiVolume cs req;
  _ ← serve_requests cs req (VolumeId vol) l1;
  _ ← serve_requests cs req (VolumeId vol) l2;
  DeleteVolume cs (VolumeId vol).

Section life.
Context (cs : ControllerServer) (req : CreateVolumeRequest) (st : IscsiSettings) (s0 : server).
Hypothesis Hst : iscsi_settings req = Ok st.
Hypothesis Hsrc : GetSnapshot (cr_ContentSource req) = None.
Hypothesis Hunborn : unborn req st s0.
Context (p : string) (v : volID) (Hf : fresh_path s0 p) (Hv : names st p v).
Hypothesis Hown : TrimSpace (targetName st) = targetName st /\ targetName st <> "".

Lemma safe_forget {M A} (m : monitor backend M) s (prg : controller A) (Q : M -> Prop) :
  safe m s prg (fun _ s' => Q s') -> safe m s (forget prg) (fun r s' => r = Ok tt /\ Q s').
Proof. intros H. apply safe_prog_bind. eapply safe_mono; [exact H|]. by intros r s'. Qed.

Lemma uses_own o : uses st p o -> own_op st p o.
Proof. by intros []. Qed.
Lemma request_uses u s :
  u <> Removal -> around req st s0 p s -> present req st p s ->
  safe storage_server s (serve_request cs req (encodeVolID v) u)
    (fun r s' => r = Ok tt /\ around req st s0 p s' /\ present req st p s').
Proof.
  intros Hu A P. destruct u; [|done|..]; apply safe_forget; [by apply again_safe|..]; apply only_present; try done.
  - by apply (publish_uses _ _ _ v).
  - by apply unpublish_uses.
  - by apply expand_uses.
Qed.
Lemma request_own u s :
  u <> Again -> around req st s0 p s ->
  safe storage_server s (serve_request cs req (encodeVolID v) u)
    (fun r s' => r = Ok tt /\ around req st s0 p s').
Proof.
  intros Hu A. destruct u; [done|..]; apply safe_forget; apply only_around; try done.
  - by apply deletion_own.
  - eapply only_weaken; [apply uses_own|]. by apply (publish_uses _ _ _ v).
  - eapply only_weaken; [apply uses_own|]. by apply unpublish_uses.
  - eapply only_weaken; [apply uses_own|]. by apply expand_uses.
Qed.
Lemma requests_safe (Q : server -> Prop) (P : request -> Prop) l :
  (forall u s, P u -> Q s -> safe storage_server s (serve_request cs req (encodeVolID v) u)
                               (fun r s' => r = Ok tt /\ Q s')) ->
  Forall P l -> forall s, Q s ->
  safe storage_server s (serve_requests cs req (encodeVolID v) l) (fun r s' => r = Ok tt /\ Q s').
Proof.
  intros H. induction 1 as [|u l Hu _ IH]; intros s HQ; [done|]. apply safe_bind.
  eapply safe_mono; [by apply H|]. intros r s' [-> HQ']. by apply IH.
Qed.
End life.


(** ** A server in memory *)

Definition life_answer (s : server) (o : backend_op) : returned (backend_result o) :=
  match o with
  | GetVolumeByName n d => Returned (find_disk s n d) false
  | CreateVirtualDisk n d size => Returned (d +:+ "\" +:+ n +:+ ".vhdx", size) false
  | EnsureTarget t i => Returned ("iqn.1991-05.com.microsoft:" +:+ t) false
  | MapDiskToTarget _ _ => Returned 0 false
  | ResizeVirtualDisk _ size => Returned size false
  | ConfigureTargetChap _ _ | UnmapDiskFromTarget _ _ | Backend.DeleteVirtualDisk _ | DeleteTarget _
  | AllowInitiator _ _ | DenyInitiator _ _ => Returned tt false
  | Backend.DeleteSnapshot _ | DeleteNfsShare _ _ | DeleteSmbShare _ _
  | RestoreSnapshotAsFileShare _ _ | MountFileShareVirtualDisk _ _
  | UnmountFileShareVirtualDisk _ _ => Returned tt true
  | LookupTargetNameByIQN _ | ExportSnapshotAsVirtualDisk _ => Returned "" true
  | GetDirectoryFreeCapacity _ | ResizeFileShare _ _ => Returned 0 true
  | Backend.CreateSnapshot _ _ => Returned zero_SnapshotInfo true
  | Backend.ListSnapshots _ => Returned [] true
  | GetVolumeInfo _ => Returned zero_VolumeInfo true
  | GetTargetInitiators _ => Returned [] true
  | CreateNfsShare _ _ _ _ _ | CreateSmbShare _ _ _ _ _ _ _ => Returned zero_VolumeInfo true
  | GetNfsShare _ _ | GetSmbShare _ _ => Returned (false, zero_VolumeInfo) true
  end.
Definition life_server : handler backend server :=
  fun o s => (life_answer s o, server_step s o (life_answer s o)).

(** Another volume is there already, and published. *)
Definition other_volume : server :=
  {| sv_disks := {[("pvc-0", "D:\v") := ("D:\v\pvc-0.vhdx", 5)]}; sv_luns := {["D:\v\pvc-0.vhdx" := ("pvc-0", 0)]};
     sv_targets := {["pvc-0" := "iqn.1991-05.com.microsoft:pvc-0"]}; sv_chap := {["pvc-0"]};
     sv_initiators := {[("pvc-0", "iqn.1993-08.org.debian:01:abc")]} |}.
Definition node_iqn : string := "iqn.1993-08.org.debian:01:abc".
Definition example_uses : list request :=
  [Publish node_iqn SINGLE_NODE_WRITER example_secrets; Again; Unpublish node_iqn;
   Expand (Some {| RequiredBytes := 4294967296; LimitBytes := 0 |})].

Definition example_settings : IscsiSettings :=
  {| targetPortalWithPort := "10.0.0.5:3260"; parentDir := "D:\v"; size := 1073741824;
     targetName := "pvc-1"; requestedTargetIQN := "" |}.


(** The check of a target's name is on the trimmed name, and the name is used as it is: a
    volume whose name begins with a blank asks the back end for a target of that name. *)
Definition blank_request (name : string) : CreateVolumeRequest :=
  {| cr_Name := name; cr_VolumeCapabilities := [SINGLE_NODE_WRITER];
     cr_Parameters := list_to_map [("targetPortal", "10.0.0.5"); ("vhdxParentPath", "D:\v")];
     cr_Secrets := ∅; cr_CapacityRange := None; cr_ContentSource := None |}.
Lemma blank_target_accepted :
  exists st, iscsi_settings (blank_request " pvc-0") = Ok st /\ targetName st = " pvc-0"
    /\ validateISCSITargetName (TrimSpace (targetName st)) = Ok tt.
Proof. eexists. split; [by vm_compute|]. split; by vm_compute. Qed.

(** A volume for a single node is published to a second one while the first has it. *)
Definition second_iqn : string := "iqn.1993-08.org.debian:01:def".
Lemma second_node_admitted :
  let uses := [Publish node_iqn SINGLE_NODE_WRITER example_secrets;
               Publish second_iqn SINGLE_NODE_WRITER example_secrets] in
  let '(r, s, _) := run life_server (vol ← createIscsiVolume example_server chap_request;
                       serve_requests example_server chap_request (VolumeId vol) uses : controller unit) other_volume in
  (r, bool_decide (("pvc-1", node_iqn) ∈ sv_initiators s /\ ("pvc-1", second_iqn) ∈ sv_initiators s)) = (Ok tt, true).
Proof. vm_compute. reflexivity. Qed.
