(* ===== verification/ControllerOps.v ===== *)
(** * The controller: publishing, expansion and file shares *)
From S2P Require Import Prelude GoStrings GoStrconv VolumeID VolumeTypes LegacyID Params Chap Prog Driver.
From S2P Require Import Backend Controller ControllerFacts.

(** ** Publishing *)

(** The targets protected and the initiators admitted so far. *)
Record admission := { chap_set : list string; admitted : list (string * string) }.
Definition nobody : admission := {| chap_set := []; admitted := [] |}.

Definition admission_step (s : admission) (o : backend_op) : returned (backend_result o) -> admission :=
  match o with
  | ConfigureTargetChap t _ => fun r =>
      if failed r then s else {| chap_set := t :: chap_set s; admitted := admitted s |}
  | AllowInitiator t i => fun r =>
      if failed r then s else {| chap_set := chap_set s; admitted := (t, i) :: admitted s |}
  | _ => fun _ => s
  end.

(** Only the node of the request is let in, at the volume's target, by an
    initiator name, and after CHAP was set up if the secrets ask for it. *)
Definition admission_allowed (v : VolumeID) (l : volID) (req : ControllerPublishVolumeRequest)
  (s : admission) (o : op backend) : Prop :=
  file_protocol (vProtocol v) = false
  /\ match (o : backend_op) with
     | ConfigureTargetChap t opts =>
         t = targetNameFromVolID l /\ targetChapOptionsFromSecrets (cp_Secrets req) = Ok opts
         /\ Enabled opts = true
     | AllowInitiator t i =>
         t = targetNameFromVolID l /\ t <> "" /\ i = cp_NodeId req /\ HasPrefix i "iqn." = true
         /\ (wants_chap (cp_Secrets req) -> t ∈ chap_set s)
     | _ => False
     end.
Definition admission_monitor v l req : monitor backend admission :=
  Monitor backend admission (admission_allowed v l req) (fun _ _ _ => True) admission_step.

(** The context a node gets. *)
Definition publish_context (v : VolumeID) (l : volID) : Params :=
  if file_protocol (vProtocol v) then volumeContextForVolumeID v
  else list_to_map [("targetPortal", lTargetPortal l); ("iqn", lTargetIQN l); ("lun", Itoa (lLUN l))].

(** C9: a volume is published to the node of the request alone: for an iSCSI
    volume the node's initiator is admitted at the volume's target, after CHAP is
    configured when there are session secrets; a file share needs no request. *)
Theorem ControllerPublishVolume_admits (cs : ControllerServer) (req : ControllerPublishVolumeRequest)
  (v : VolumeID) (l : volID) :
  decodeAnyVolumeID (cp_VolumeId req) = Ok (v, l) ->
  safe (admission_monitor v l req) nobody (ControllerPublishVolume cs req)
    (fun r s => forall ctx, r = Ok ctx ->
       ctx = publish_context v l
       /\ supportsAccessModeForProtocol cs (cp_AccessMode req) (vProtocol v) = true
       /\ (file_protocol (vProtocol v) = false ->
             (targetNameFromVolID l, cp_NodeId req) ∈ admitted s)).
Proof.
  intros Hd. unfold ControllerPublishVolume, publish_context. apply safe_bind.
  destruct (require_ids _ _) as [[]|e|]; [|done..]. simpl. apply safe_bind.
  unfold decode_or_not_found. rewrite Hd. simpl.
  destruct (supportsAccessModeForProtocol _ _ _); [|done]. cbn [negb].
  destruct (file_protocol (vProtocol v)) eqn:Hf; [by simpl; intros ctx [= <-]|].
  destruct (HasPrefix (cp_NodeId req) "iqn.") eqn:Hp; [|done]. cbn [negb].
  destruct (String.eqb_spec (targetNameFromVolID l) "") as [|Ht]; [done|].
  destruct (lTargetIQN l == ""); [done|]. cbn [orb]. apply safe_bind.
  eapply (safe_mono _ _ _ (fun r s => r = Ok tt ->
    wants_chap (cp_Secrets req) -> targetNameFromVolID l ∈ chap_set s)).
  { unfold configureTargetChapFromSecrets. apply safe_bind.
    destruct (targetChapOptionsFromSecrets (cp_Secrets req)) as [o|e|] eqn:Eo; [|done..].
    simpl. destruct (Enabled o) eqn:Ee; cbn [negb].
    - must_step; [done|by split_and!|]. intros [[] []] _; simpl; [done|]. intros _ _. by left.
    - intros _ (o' & Eo' & Ee'). congruence. }
  intros [[]|e|] s Hs; [|done..]. apply safe_bind. must_step; [done| |].
  - split; [done|]. split_and!; auto.
  - intros [[] []] _; simpl; [done|]. intros ctx [= <-]. split_and!; [done..|]. intros _. by left.
Qed.

Definition publish_request : ControllerPublishVolumeRequest :=
  {| cp_VolumeId := encodeVolID legacy_example; cp_NodeId := "iqn.1993-08.org.debian:01:abc";
     cp_AccessMode := SINGLE_NODE_WRITER; cp_Secrets := example_secrets |}.
Lemma ControllerPublishVolume_admits_witness :
  safe (admission_monitor (of_legacy legacy_example) legacy_example publish_request) nobody
    (ControllerPublishVolume example_server publish_request)
    (fun r s => forall ctx, r = Ok ctx ->
       ctx = publish_context (of_legacy legacy_example) legacy_example
       /\ supportsAccessModeForProtocol example_server SINGLE_NODE_WRITER ProtocolISCSI = true
       /\ (file_protocol ProtocolISCSI = false ->
             (targetNameFromVolID legacy_example, cp_NodeId publish_request) ∈ admitted s)).
Proof.
  exact (ControllerPublishVolume_admits example_server publish_request
           (of_legacy legacy_example) legacy_example
           ltac:(vm_compute; reflexivity)).
Defined.

(** ** Expansion *)

(** The size the storage server reported for a resize, and the disk mounted since. *)
Record growth := { grown : option Z; remounted : bool }.
Definition growth_step (s : growth) (o : backend_op) : returned (backend_result o) -> growth :=
  match o with
  | ResizeVirtualDisk _ _ | ResizeFileShare _ _ => fun r =>
      if failed r then s else {| grown := Some (value r); remounted := false |}
  | MountFileShareVirtualDisk _ _ => fun r =>
      if failed r then s else {| grown := grown s; remounted := true |}
  | _ => fun _ => s
  end.

(** The volume's own storage is resized, once, to the positive size asked for. *)
Definition growth_allowed (v : VolumeID) (l : volID) (want : Z) (s : growth) (o : op backend) : Prop :=
  match (o : backend_op) with
  | ResizeVirtualDisk p n =>
      grown s = None /\ n = want /\ 0 < want
      /\ (if file_protocol (vProtocol v)
          then p = VHDXPath v /\ p <> "" /\ ShareBackend v = fileShareBackendVHDX
          else p = lVHDXPath l)
  | ResizeFileShare p n =>
      grown s = None /\ n = want /\ 0 < want /\ file_protocol (vProtocol v) = true
      /\ p = VHDXPath v /\ p <> "" /\ ShareBackend v <> fileShareBackendVHDX
  | MountFileShareVirtualDisk p m => grown s <> None /\ p = VHDXPath v /\ m = SharePath v
  | _ => False
  end.
Definition growth_monitor v l want : monitor backend growth :=
  Monitor backend growth (growth_allowed v l want) (fun _ _ _ => True) growth_step.

(** C19: expansion resizes the volume's storage to the requested size, reports the
    size the storage server gives, asks the node to grow the file system for iSCSI
    volumes alone, and mounts the disk of a VHDX-backed share again. *)
Theorem ControllerExpandVolume_grows (cs : ControllerServer) (volumeId : string)
  (range : CapacityRange) (v : VolumeID) (l : volID) :
  decodeAnyVolumeID volumeId = Ok (v, l) ->
  safe (growth_monitor v l (RequiredBytes range)) {| grown := None; remounted := false |}
    (ControllerExpandVolume cs volumeId (Some range))
    (fun r s => forall resp, r = Ok resp ->
       grown s = Some (ceCapacityBytes resp)
       /\ NodeExpansionRequired resp = negb (file_protocol (vProtocol v))
       /\ remounted s = (file_protocol (vProtocol v) && (ShareBackend v == fileShareBackendVHDX))%bool).
Proof.
  intros Hd. unfold ControllerExpandVolume. destruct (volumeId == ""); [done|].
  apply safe_bind. unfold decode_or_not_found. rewrite Hd. simpl.
  destruct (Z.leb_spec (RequiredBytes range) 0) as [|Hw]; [done|].
  destruct (file_protocol (vProtocol v)) eqn:Hf.
  - destruct (String.eqb_spec (VHDXPath v) "") as [|Hp]; [done|].
    destruct (String.eqb_spec (ShareBackend v) fileShareBackendVHDX) as [Hs|Hs].
    + apply safe_bind. must_step; [done|simpl; rewrite Hf; by split_and!|].
      intros [n []] _; simpl; [done|]. apply safe_bind. must_step; [done|by split_and!|].
      intros [[] []] _; simpl; [done|]. by intros resp [= <-].
    + apply safe_bind. must_step; [done|simpl; by split_and!|].
      intros [n []] _; simpl; [done|]. by intros resp [= <-].
  - apply safe_bind. must_step; [done|simpl; rewrite Hf; by split_and!|].
    intros [n []] _; simpl; [done|]. by intros resp [= <-].
Qed.

Lemma ControllerExpandVolume_grows_witness :
  safe (growth_monitor (of_legacy legacy_example) legacy_example 2147483648)
    {| grown := None; remounted := false |}
    (ControllerExpandVolume example_server (encodeVolID legacy_example)
       (Some {| RequiredBytes := 2147483648; LimitBytes := 0 |}))
    (fun r s => forall resp, r = Ok resp ->
       grown s = Some (ceCapacityBytes resp)
       /\ NodeExpansionRequired resp = negb (file_protocol ProtocolISCSI)
       /\ remounted s = (file_protocol ProtocolISCSI && ("" == fileShareBackendVHDX))%bool).
Proof.
  exact (ControllerExpandVolume_grows example_server (encodeVolID legacy_example)
           {| RequiredBytes := 2147483648; LimitBytes := 0 |}
           (of_legacy legacy_example) legacy_example ltac:(vm_compute; reflexivity)).
Defined.

(** ** File shares *)

(** The disks that were found, exported or made; the disks mounted, and where; the share,
    once it was looked for: none, or what is known of it; and the volume found. *)
Record sharing := {
  disks : list string;
  mounts : list (string * string);
  share : option (option VolumeInfo);
  found_vol : option FoundVolume
}.
Definition no_share : sharing := {| disks := []; mounts := []; share := None; found_vol := None |}.

Definition sharing_step (s : sharing) (o : backend_op) : returned (backend_result o) -> sharing :=
  let know x := {| disks := disks s; mounts := mounts s; share := Some x; found_vol := found_vol s |} in
  let disk p := {| disks := p :: disks s; mounts := mounts s; share := share s; found_vol := found_vol s |} in
  match o with
  | MountFileShareVirtualDisk p m => fun r =>
      if failed r then s
      else {| disks := disks s; mounts := (p, m) :: mounts s; share := share s; found_vol := found_vol s |}
  | GetNfsShare _ _ | GetSmbShare _ _ => fun r =>
      if failed r then s else know (if (value r).1 then Some (value r).2 else None)
  | CreateNfsShare _ _ _ _ _ | CreateSmbShare _ _ _ _ _ _ _ => fun r =>
      if failed r then s else know (Some (value r))
  | GetVolumeByName _ _ => fun r =>
      if failed r then s
      else {| disks := fv_vhdxPath (value r) :: disks s; mounts := mounts s; share := share s;
              found_vol := Some (value r) |}
  | CreateVirtualDisk _ _ _ => fun r => if failed r then s else disk (value r).1
  | ExportSnapshotAsVirtualDisk _ => fun r => if failed r then s else disk (value r)
  | _ => fun _ => s
  end.

(** A request to create a share of a protocol: its name, folder and size. *)
Definition creates_share (proto : Protocol) (o : backend_op) : option (string * string * Z) :=
  match o with
  | CreateNfsShare n d z _ _ => if proto == ProtocolNFS then Some (n, d, z) else None
  | CreateSmbShare n d z _ _ _ _ => if proto == ProtocolSMB then Some (n, d, z) else None
  | _ => None
  end.
Definition looks_for_share (proto : Protocol) (o : backend_op) : option (string * string) :=
  match o with
  | GetNfsShare n d => if proto == ProtocolNFS then Some (n, d) else None
  | GetSmbShare n d => if proto == ProtocolSMB then Some (n, d) else None
  | _ => None
  end.
Section allowed.
Context (req : CreateVolumeRequest) (proto : Protocol) (kind : string) (sz : Z).
Definition share_parent : string := TrimSpace (param (cr_Parameters req) "shareParentPath").
Definition disk_parent : string := TrimSpace (param (cr_Parameters req) "vhdxParentPath").

(** The share of the request is looked for, and one is created only once none was found:
    under the name and the folder of the request, no smaller than asked for, and behind a
    mounted disk if it is VHDX-backed.  A disk is created, or exported from the request's
    snapshot, only then, and only if none was found; a disk that is mounted is one of these. *)
Definition sharing_allowed (s : sharing) (o : op backend) : Prop :=
  match (o : backend_op) with
  | CreateNfsShare _ _ _ _ _ | CreateSmbShare _ _ _ _ _ _ _ =>
      exists z, creates_share proto o = Some (cr_Name req, share_parent, z) /\ sz <= z
        /\ share s = Some None
        /\ (kind = fileShareBackendVHDX -> exists p, (p, joinWindowsPath share_parent (cr_Name req)) ∈ mounts s)
  | GetNfsShare _ _ | GetSmbShare _ _ => looks_for_share proto o = Some (cr_Name req, share_parent)
  | CreateVirtualDisk n d z =>
      n = cr_Name req /\ d = disk_parent /\ z = sz /\ kind = fileShareBackendVHDX /\ share s = Some None
      /\ exists f, found_vol s = Some f /\ fv_vhdxPath f = ""
  | ExportSnapshotAsVirtualDisk i =>
      kind = fileShareBackendVHDX /\ share s = Some None
      /\ exists id sid, GetSnapshot (cr_ContentSource req) = Some id /\ decodeSnapID id = Ok sid
                        /\ i = snSnapshotID sid
  | MountFileShareVirtualDisk p m =>
      kind = fileShareBackendVHDX /\ p ∈ disks s
      /\ (share s = Some None /\ m = joinWindowsPath share_parent (cr_Name req)
          \/ exists i, share s = Some (Some i)
             /\ m = either (iSharePath i) (either (iVHDXPath i) (joinWindowsPath share_parent (cr_Name req))))
  | GetVolumeByName n d => n = cr_Name req /\ d = disk_parent
  | GetVolumeInfo p => p ∈ disks s
  | _ => False
  end.
Definition sharing_monitor : monitor backend sharing :=
  Monitor backend sharing sharing_allowed (fun _ _ _ => True) sharing_step.

(** The volume of a share: its id names the request, the server (the request's, or the one
    reported) and the export or share that was reported, and where its storage is: the disk
    and where it is mounted, or the folder reported; the context has the address. *)
Definition share_described (vol : Volume) (s : sharing) : Prop :=
  exists vid info, VolumeId vol = EncodeVolumeID (Some vid) /\ share s = Some (Some info)
  /\ vProtocol vid = proto /\ Name vid = cr_Name req /\ ShareBackend vid = kind
  /\ vCapacityBytes vol = CapacityBytes vid /\ sz <= CapacityBytes vid
  /\ (if kind == fileShareBackendVHDX then (VHDXPath vid, SharePath vid) ∈ mounts s
      else VHDXPath vid = iVHDXPath info /\ SharePath vid = iVHDXPath info)
  /\ VolumeContext vol !! "protocol" = Some proto
  /\ if proto == ProtocolNFS then
       let server := TrimSpace (param (cr_Parameters req) "nfsServer") in
       NfsServer vid = (if server == "" then iNfsServer info else server)
       /\ NfsExportPath vid = iNfsExportPath info
       /\ VolumeContext vol !! "server" = Some (NfsServer vid)
       /\ VolumeContext vol !! "exportPath" = Some (NfsExportPath vid)
     else
       let server := TrimSpace (param (cr_Parameters req) "smbServer") in
       SmbServer vid = (if server == "" then iSmbServer info else server)
       /\ SmbShareName vid = iSmbShareName info
       /\ VolumeContext vol !! "server" = Some (SmbServer vid)
       /\ VolumeContext vol !! "share" = Some (SmbShareName vid).
Definition shares_as (r : res Volume) (s : sharing) : Prop := forall vol, r = Ok vol -> share_described vol s.
End allowed.

Lemma either3_spec a b c : firstNonEmpty [a; b; c] = either a (either b c).
Proof. unfold either. cbn. destruct (TrimSpace a == ""), (TrimSpace b == "") eqn:Eb, (TrimSpace c == "") eqn:Ec; cbn; rewrite ?Eb, ?Ec; done. Qed.
Lemma maxInt64_max a b : maxInt64 a b = Z.max a b.
Proof. unfold maxInt64. destruct (Z.ltb_spec b a); lia. Qed.

Section shares.
Context (cs : ControllerServer) (req : CreateVolumeRequest) (sz : Z).
Abbreviation parent := (share_parent req).
Abbreviation here := (joinWindowsPath parent (cr_Name req)).

(** What is known of the share and of its disk before the volume is described: the share
    reported is [info] but for the disk, and the disk is mounted. *)
Definition same_share (i info : VolumeInfo) : Prop :=
  iNfsServer i = iNfsServer info /\ iNfsExportPath i = iNfsExportPath info /\ iSmbServer i = iSmbServer info
  /\ iSmbShareName i = iSmbShareName info.
Definition ready (i : VolumeInfo) (s : sharing) : Prop :=
  (iVHDXPath i, iSharePath i) ∈ mounts s /\ exists info, share s = Some (Some info) /\ same_share i info.

Section vhdx.
Context (proto : Protocol).
Let m := sharing_monitor req proto fileShareBackendVHDX sz.

Lemma share_disk_safe s found :
  share s = Some None -> found_vol s = Some found -> fv_vhdxPath found ∈ disks s ->
  safe m s (share_disk cs req (cr_Name req) (disk_parent req) sz found)
    (fun r s' => forall pa, r = Ok pa -> share s' = Some None /\ pa.1 ∈ disks s').
Proof.
  intros Hs Hf Hd. unfold share_disk.
  destruct (GetSnapshot (cr_ContentSource req)) as [id|] eqn:Eg.
  - apply safe_bind. destruct (decodeSnapID id) as [sid|e|] eqn:Es; [|done..]. simpl. apply safe_bind.
    must_step; [done|split_and!; [done..|by exists id, sid]|]. intros [p []] _; simpl; [done|].
    apply safe_bind. unfold with_driver. destruct (cs_Driver cs); [|done]. simpl.
    split; [by left|]. intros [vi []] _ pa [= <-]; (split; [done|by left]).
  - destruct (String.eqb_spec (fv_vhdxPath found) "") as [E|E].
    + must_step; [done|split_and!; try done; by exists found|].
      intros [[p a] []] _; simpl; [done|]. intros pa [= <-]. split; [done|by left].
    + simpl. intros pa [= <-]. by split.
Qed.

(** The disk is mounted before the share is made, whichever protocol makes it. *)
Lemma share_new_safe s found (create : Z -> controller VolumeInfo) :
  share s = Some None -> found_vol s = Some found -> fv_vhdxPath found ∈ disks s ->
  (forall s' z, sz <= z -> share s' = Some None -> (exists p, (p, here) ∈ mounts s') ->
     safe m s' (create z) (fun r s'' => forall x, r = Ok x -> mounts s'' = mounts s' /\ share s'' = Some (Some x))) ->
  safe m s
    ('(vhdxPath, actual) ← share_disk cs req (cr_Name req) (disk_parent req) sz found;
     _ ← backend_must cs (MountFileShareVirtualDisk vhdxPath here) "MountFileShareVirtualDisk: %v";
     info ← create (maxInt64 sz actual);
     ok (with_disk info vhdxPath here actual))
    (fun r s' => forall info, r = Ok info -> ready info s').
Proof.
  intros Hs Hf Hd Hc. apply safe_bind. eapply safe_mono; [by apply share_disk_safe|].
  intros [[p a]|e|] s1 H1; [|done..]. destruct (H1 _ eq_refl) as [Hs1 Hp].
  apply safe_bind. must_step; [done|split_and!; [done..|by left]|]. intros [[] []] _; simpl; [done|].
  apply safe_bind. eapply safe_mono; [apply Hc; simpl; [rewrite maxInt64_max; lia|done|exists p; by left]|].
  intros [x|e|] s2 H2; [|done..]. destruct (H2 _ eq_refl) as [Hm2 Hs2]. simpl. intros info [= <-].
  split; [simpl; rewrite Hm2; by left|]. by exists x.
Qed.

(** The disk of a share that is there already is mounted again. *)
Lemma share_existing_safe s info found mountPath m1 m2 :
  share s = Some (Some info) -> fv_vhdxPath found ∈ disks s ->
  mountPath = firstNonEmpty [iSharePath info; iVHDXPath info; here] ->
  safe m s
    (if fv_vhdxPath found == "" then fail FailedPrecondition m1
     else _ ← backend_must cs (MountFileShareVirtualDisk (fv_vhdxPath found) mountPath) m2;
          ok (with_disk info (fv_vhdxPath found) mountPath (fv_sizeBytes found)))
    (fun r s' => forall i, r = Ok i -> ready i s').
Proof.
  intros Hs Hd Hm. destruct (fv_vhdxPath found == ""); [done|]. apply safe_bind.
  must_step; [done|split_and!; [done..|right; exists info; split; [done|by rewrite Hm; apply either3_spec]]|].
  intros [[] []] _; cbn [Backend.failed Backend.value]; [by intros i [=]|]. intros i [= <-].
  split; [by left|]. by exists info.
Qed.
End vhdx.

(** The share that is known, whether its disk is known too or not. *)
Definition known_share (kind : string) (i : VolumeInfo) (s : sharing) : Prop :=
  if kind == fileShareBackendVHDX then ready i s else share s = Some (Some i).
Lemma known_share_info kind i s :
  known_share kind i s ->
  exists info, share s = Some (Some info) /\ same_share i info
    /\ if kind == fileShareBackendVHDX then (iVHDXPath i, iSharePath i) ∈ mounts s else iVHDXPath i = iVHDXPath info.
Proof.
  unfold known_share. destruct (kind == fileShareBackendVHDX); [|by exists i].
  intros [Hm (info & Hs & Hi)]. by exists info.
Qed.

Lemma nfs_context v :
  vProtocol v = ProtocolNFS ->
  volumeContextForVolumeID v !! "protocol" = Some ProtocolNFS
  /\ volumeContextForVolumeID v !! "server" = Some (NfsServer v)
  /\ volumeContextForVolumeID v !! "exportPath" = Some (NfsExportPath v).
Proof.
  intros E. unfold volumeContextForVolumeID, ctx_nonempty. rewrite E.
  change (ProtocolNFS == ProtocolNFS) with true. cbv iota.
  destruct (_ != ""), (_ != ""); rewrite ?lookup_insert_ne by done; by split_and!.
Qed.
Lemma nfs_volume_described server kind opts i s :
  server = TrimSpace (param (cr_Parameters req) "nfsServer") -> known_share kind i s ->
  share_described req ProtocolNFS kind sz (nfs_volume req (cr_Name req) server kind sz opts i) s.
Proof.
  intros Hserver Hi. apply known_share_info in Hi as (info & Hs & (H1 & H2 & _) & Hdisk).
  unfold nfs_volume. cbv zeta. set (i' := if server != "" then with_NfsServer i server else i).
  assert (iVHDXPath i' = iVHDXPath i /\ iSharePath i' = iSharePath i /\ iNfsExportPath i' = iNfsExportPath i
    /\ iNfsServer i' = if server == "" then iNfsServer info else server) as (E1 & E2 & E3 & E4).
  { subst i'. by destruct (server == ""). }
  set (vid := applyNfsOptionsToVolumeID _ opts).
  assert (vProtocol vid = ProtocolNFS) as Hp by done. destruct (nfs_context vid Hp) as (C1 & C2 & C3).
  exists vid, info. unfold share_volume. cbn [VolumeId vCapacityBytes VolumeContext].
  assert (NfsServer vid = iNfsServer i') as Ev by done.
  split_and!; [done..| | |done|].
  - cbn. rewrite maxInt64_max. lia.
  - unfold vid. cbn. rewrite E1. destruct (kind == fileShareBackendVHDX); [by rewrite E2|by split].
  - cbn [String.eqb]. change (ProtocolNFS == ProtocolNFS) with true. cbv iota zeta. rewrite <- Hserver.
    split_and!; [by rewrite Ev|cbn; by rewrite E3|done|done].
Qed.

Lemma smb_volume_described server kind i s :
  server = TrimSpace (param (cr_Parameters req) "smbServer") -> known_share kind i s ->
  share_described req ProtocolSMB kind sz (smb_volume req (cr_Name req) server kind sz i) s.
Proof.
  intros Hserver Hi. apply known_share_info in Hi as (info & Hs & (_ & _ & H1 & H2) & Hdisk).
  unfold smb_volume. cbv zeta. set (i' := if server != "" then with_SmbServer i server else i).
  assert (iVHDXPath i' = iVHDXPath i /\ iSharePath i' = iSharePath i /\ iSmbShareName i' = iSmbShareName i
    /\ iSmbServer i' = if server == "" then iSmbServer info else server) as (E1 & E2 & E3 & E4).
  { subst i'. by destruct (server == ""). }
  set (vid := fileShareVolumeID _ _ _ _ _). exists vid, info. unfold share_volume.
  cbn [VolumeId vCapacityBytes VolumeContext].
  split_and!; [done..| | |done|].
  - cbn. rewrite maxInt64_max. lia.
  - unfold vid. cbn. rewrite E1. destruct (kind == fileShareBackendVHDX); [by rewrite E2|by split].
  - change (ProtocolSMB == ProtocolNFS) with false. cbv iota zeta. rewrite <- Hserver.
    split_and!; [cbn; by rewrite E4|cbn; by rewrite E3|done|done].
Qed.

(** The volumes. *)
Lemma createVHDXBackedNfsVolume_safe opts :
  safe (sharing_monitor req ProtocolNFS fileShareBackendVHDX sz) no_share
    (createVHDXBackedNfsVolume cs req (cr_Name req) parent (TrimSpace (param (cr_Parameters req) "nfsServer")) sz opts)
    (shares_as req ProtocolNFS fileShareBackendVHDX sz).
Proof.
  unfold createVHDXBackedNfsVolume, getStringParam. cbv zeta.
  apply safe_bind. destruct (validateWindowsPathParam _ false) as [[]|e|]; cbn [safe lift]; [|by intros vol [=]..].
  apply safe_bind. must_step; [by intros _ vol [=]|done|]. intros [[ex info] []] _; cbn [Backend.failed Backend.value]; [by intros vol [=]|].
  apply safe_bind. must_step; [by intros _ vol [=]|done|]. intros [found []] _; cbn [Backend.failed Backend.value]; [by intros vol [=]|].
  apply safe_bind. eapply (safe_mono _ _ _ (fun r s' => forall i, r = Ok i -> ready i s')).
  - destruct ex; cbn [negb]; [apply share_existing_safe; [done|by left|done]|].
    apply (share_new_safe ProtocolNFS _ _ (fun z => backend_must cs (CreateNfsShare _ _ z _ _) _)); [done|done|by left|].
    intros s' z Hz Hn Hm. must_step; [done|by exists z|]. intros [i []] _; simpl; [done|]. by intros x [= <-].
  - intros [i|e|] s' H; [|by intros vol [=]..]. intros vol [= <-]. apply nfs_volume_described; [done|].
    by apply H.
Qed.
Lemma createVHDXBackedSmbVolume_safe opts :
  safe (sharing_monitor req ProtocolSMB fileShareBackendVHDX sz) no_share
    (createVHDXBackedSmbVolume cs req (cr_Name req) parent (TrimSpace (param (cr_Parameters req) "smbServer")) sz opts)
    (shares_as req ProtocolSMB fileShareBackendVHDX sz).
Proof.
  unfold createVHDXBackedSmbVolume, getStringParam. cbv zeta.
  apply safe_bind. destruct (validateWindowsPathParam _ false) as [[]|e|]; cbn [safe lift]; [|by intros vol [=]..].
  apply safe_bind. must_step; [by intros _ vol [=]|done|]. intros [[ex info] []] _; cbn [Backend.failed Backend.value]; [by intros vol [=]|].
  apply safe_bind. must_step; [by intros _ vol [=]|done|]. intros [found []] _; cbn [Backend.failed Backend.value]; [by intros vol [=]|].
  apply safe_bind. eapply (safe_mono _ _ _ (fun r s' => forall i, r = Ok i -> ready i s')).
  - destruct ex; cbn [negb]; [apply share_existing_safe; [done|by left|done]|].
    apply (share_new_safe ProtocolSMB _ _ (fun z => backend_must cs (CreateSmbShare _ _ z _ _ _ _) _)); [done|done|by left|].
    intros s' z Hz Hn Hm. must_step; [done|by exists z|]. intros [i []] _; simpl; [done|]. by intros x [= <-].
  - intros [i|e|] s' H; [|by intros vol [=]..]. intros vol [= <-]. apply smb_volume_described; [done|].
    by apply H.
Qed.
End shares.

(** C11: a file share is created only once it was looked for and none was found: under the
    request's name, in its folder, no smaller than asked for, and behind a mounted disk if
    it is VHDX-backed, which was found, made with the size asked for, or exported from the
    request's snapshot.  The id that comes back names the request, the server, the export
    or share that was reported, and the disk and the path it is mounted at, or the folder;
    the context has the address; the capacity in the id is no less than asked for (the
    actual size of an existing share is not compared). *)
Theorem createShareVolume_describes (cs : ControllerServer) (req : CreateVolumeRequest)
  (kind : string) (sz : Z) :
  fileShareBackendFromParams cs (cr_Parameters req) = Ok kind ->
  requiredBytesFromRange (cr_CapacityRange req) 1 = Ok sz ->
  safe (sharing_monitor req ProtocolNFS kind sz) no_share (createNfsVolume cs req)
    (shares_as req ProtocolNFS kind sz)
  /\ safe (sharing_monitor req ProtocolSMB kind sz) no_share (createSmbVolume cs req)
       (shares_as req ProtocolSMB kind sz).
Proof.
  intros Hk Hsz. split.
  - unfold createNfsVolume. cbv zeta. unfold getStringParam. cbv zeta. destruct (negb _); [by intros vol [=]|].
    apply safe_bind. destruct (validateWindowsPathParam _ true); cbn [safe lift]; [|by intros vol [=]..].
    apply safe_bind. rewrite Hk. cbn [safe lift].
    apply safe_bind. destruct (nfsOptionsFromParams _) as [opts|e|]; cbn [safe lift]; [|by intros vol [=]..].
    apply safe_bind. rewrite Hsz. cbn [safe lift].
    destruct (kind == fileShareBackendVHDX) eqn:Ek.
    { apply String.eqb_eq in Ek as ->. apply createVHDXBackedNfsVolume_safe. }
    destruct (GetSnapshot _); [by intros vol [=]|]. apply safe_bind. must_step; [by intros _ vol [=]|done|].
    intros [[ex info] []] _; cbn [Backend.failed Backend.value]; [by intros vol [=]|]. apply safe_bind.
    eapply (safe_mono _ _ _ (fun r s' => forall i, r = Ok i -> share s' = Some (Some i))).
    + destruct ex; simpl; [by intros i [= <-]|]. must_step; [done| |].
      * exists sz. split_and!; [done|lia|done|]. intros ->. done.
      * intros [i []] _; simpl; [done|]. by intros x [= <-].
    + intros [i|e|] s' H; [|by intros vol [=]..]. intros vol [= <-]. apply nfs_volume_described; [done|].
      unfold known_share. rewrite Ek. by apply H.
  - unfold createSmbVolume. cbv zeta. unfold getStringParam. cbv zeta. destruct (negb _); [by intros vol [=]|].
    apply safe_bind. destruct (validateWindowsPathParam _ true); cbn [safe lift]; [|by intros vol [=]..].
    apply safe_bind. rewrite Hk. cbn [safe lift].
    apply safe_bind. destruct (smbOptionsFromParams _) as [opts|e|]; cbn [safe lift]; [|by intros vol [=]..].
    apply safe_bind. rewrite Hsz. cbn [safe lift].
    destruct (kind == fileShareBackendVHDX) eqn:Ek.
    { apply String.eqb_eq in Ek as ->. apply createVHDXBackedSmbVolume_safe. }
    destruct (GetSnapshot _); [by intros vol [=]|]. apply safe_bind. must_step; [by intros _ vol [=]|done|].
    intros [[ex info] []] _; cbn [Backend.failed Backend.value]; [by intros vol [=]|]. apply safe_bind.
    eapply (safe_mono _ _ _ (fun r s' => forall i, r = Ok i -> share s' = Some (Some i))).
    + destruct ex; simpl; [by intros i [= <-]|]. must_step; [done| |].
      * exists sz. split_and!; [done|lia|done|]. intros ->. done.
      * intros [i []] _; simpl; [done|]. by intros x [= <-].
    + intros [i|e|] s' H; [|by intros vol [=]..]. intros vol [= <-]. apply smb_volume_described; [done|].
      unfold known_share. rewrite Ek. by apply H.
Qed.

Definition share_request : CreateVolumeRequest :=
  {| cr_Name := "pvc-2"; cr_VolumeCapabilities := [MULTI_NODE_MULTI_WRITER];
     cr_Parameters := list_to_map [("shareParentPath", "D:\shares"); ("shareBackend", "VHDX")];
     cr_Secrets := ∅; cr_CapacityRange := None; cr_ContentSource := None |}.
Lemma createShareVolume_describes_witness :
  safe (sharing_monitor share_request ProtocolNFS fileShareBackendVHDX 1073741824) no_share
    (createNfsVolume example_server share_request)
    (shares_as share_request ProtocolNFS fileShareBackendVHDX 1073741824).
Proof.
  exact (proj1 (createShareVolume_describes example_server share_request fileShareBackendVHDX
                  1073741824 ltac:(vm_compute; reflexivity) ltac:(vm_compute; reflexivity))).
Defined.
