(* ===== verification/GoPath.v ===== *)
(** * Go's [path/filepath] on Unix: [Clean], [Join], [Dir] and [Base]. *)
From S2P Require Import Prelude GoStrings.

(** One element of a path against the elements before it, last first. *)
Definition clean_element (rooted : bool) (stack : list string) (e : string) : list string :=
  if ((e == "") || (e == "."))%bool then stack
  else if e == ".." then
    match stack with
    | [] => if rooted then [] else [".."]
    | top :: rest => if top == ".." then ".." :: stack else rest
    end
  else e :: stack.

Definition Clean (path : string) : string :=
  if path == "" then "."
  else
    let rooted := HasPrefix path "/" in
    let out := Join (rev (fold_left (clean_element rooted) (SplitByte path "/") [])) "/" in
    if rooted then "/" +:+ out else if out == "" then "." else out.

Fixpoint PathJoin (elements : list string) : string :=
  match elements with
  | [] => ""
  | e :: rest => if e == "" then PathJoin rest else Clean (Join elements "/")
  end.

Definition PathDir (path : string) : string :=
  match LastIndexByte path "/" with
  | Some i => Clean (str_take (S i) path)
  | None => Clean ""
  end.

Definition PathBase (path : string) : string :=
  if path == "" then "."
  else
    let p := TrimRight path "/" in
    let p := match LastIndexByte p "/" with Some i => str_drop (S i) p | None => p end in
    if p == "" then "/" else p.

Example Clean_examples :
  map Clean [""; "/"; "//a//b/"; "a/../.."; "/../a/./b"; "a/b/../c"; "./x"; "../../y"]
  = ["."; "/"; "/a/b"; ".."; "/a/b"; "a/c"; "x"; "../../y"].
Proof. reflexivity. Qed.
Example Dir_Base_examples :
  (map PathDir ["/a/b"; "/a"; "a"; ""; "/a/b/"; "a//b"],
   map PathBase ["/a/b"; "/"; "a"; ""; "/a/b/"; "a//b"])
  = (["/a"; "/"; "."; "."; "/a/b"; "a"], ["b"; "/"; "a"; "."; "b"; "b"]).
Proof. reflexivity. Qed.
Example Join_examples :
  (PathJoin ["/dev"; "sda"], PathJoin [""; "a"; ""; "../b"], PathJoin [""; ""])
  = ("/dev/sda", "b", "").
Proof. reflexivity. Qed.
