(* ===== verification/Host.v ===== *)
(** * The node's operating system

    What the node service and the iSCSI library ask of the host: commands, files,
    mounts and the clock.  The library's data types are here because a connector is
    written to and read from a file; its JSON text is left to the file system. *)
From S2P Require Import Prelude Prog.

(** ** Data of [pkg/iscsilib] *)

Record Secrets := {
  SecretsType : string;
  UserName : string;
  Password : string;
  UserNameIn : string;
  PasswordIn : string
}.
Definition zero_Secrets : Secrets :=
  {| SecretsType := ""; UserName := ""; Password := ""; UserNameIn := ""; PasswordIn := "" |}.

Inductive Device := {
  dName : string;
  Hctl : string;
  Children : list Device;
  dType : string;
  Transport : string;
  Size : string
}.

Record Connector := {
  cVolumeName : string;
  cTargetIqn : string;
  TargetPortals : list string;
  Lun : Z;
  AuthType : string;
  DiscoverySecrets : Secrets;
  SessionSecrets : Secrets;
  cInterface : string;
  MountTargetDevice : option Device;
  Devices : list Device;
  RetryCount : Z;
  CheckInterval : Z;
  DoDiscovery : bool;
  DoCHAPDiscovery : bool
}.

(** ** Requests *)

(** An error of the system: what it is and its text. *)
Record oserr := OsError { kind : os_kind; text : string }.

(** How a command ended: with status 0, with another status (an [exec.ExitError]
    and its text), or without having run. *)
Inductive exec_outcome := Exited0 | ExitedWith (status : Z) (text : string) | NotRun (e : oserr).
Record exec_result := {
  stdout : string;
  stderr : string;
  combined : string;
  outcome : exec_outcome;
  deadline_exceeded : bool
}.

(** [unix.Statfs_t]. *)
Record statfs_t := {
  Bsize : Z; Blocks : Z; Bfree : Z; Bavail : Z; Files : Z; Ffree : Z
}.

(** [mount.CleanupMountPoint]: its error, or the panic of a nil mounter. *)
Inductive cleanup_result := Cleaned (e : option oserr) | CleanupPanicked.

Inductive host_op :=
(* commands; a timeout in nanoseconds, or none *)
| Command (timeout : option Z) (name : string) (args : list string)
(* files *)
| Stat (path : string)
| Glob (pattern : string)
| WriteExisting (path content : string)
| CreateFile (path : string)
| WriteCreated (path content : string)
| ReadFile (path : string)
| MkdirAll (path : string)
| RemoveFile (path : string)
| OpenCreate (path : string)
| OpenExclusive (path : string)
| WriteOpened (path content : string)
| SyncFile (path : string)
| CloseFile (path : string)
(* clock, in nanoseconds *)
| Sleep (duration : Z)
| Now
(* mounts *)
| IsLikelyNotMountPoint (path : string)
| Mount (source target fsType : string) (options : list string)
| MountSensitive (source target fsType : string) (options sensitive : list string)
| FormatAndMount (source target fsType : string) (options : list string)
| FormatAndMountSensitive (source target fsType : string) (options sensitive : list string)
| Unmount (target : string)
| CleanupMountPoint (mounter : bool) (path : string)
| GetDeviceNameFromMount (path : string)
| Resize (device mountPoint : string)
| Statfs (path : string).

Definition host_resp (o : host_op) : Type :=
  match o with
  | Command _ _ _ => exec_result
  | Stat _ => oserr + bool           (* whether the mode has [os.ModeDevice] *)
  | Glob _ => oserr + list string
  | ReadFile _ => oserr + string
  | Now => Z
  | Sleep _ => unit
  | IsLikelyNotMountPoint _ => bool * option oserr
  | CleanupMountPoint _ _ => cleanup_result
  | GetDeviceNameFromMount _ => oserr + string
  | Statfs _ => oserr + statfs_t
  | _ => option oserr
  end.
Definition host : service := Service host_op host_resp.

Definition os_error {A} (e : oserr) : res A := Err (OsErr (kind e) (text e)).

Definition failing {A} (r : oserr + A) : go host A :=
  match r with inl e => lift (os_error e) | inr a => ok a end.
Definition failing_unit (r : option oserr) : go host unit :=
  match r with Some e => lift (os_error e) | None => ok tt end.

(** [os.IsNotExist] and [os.IsTimeout] on the error of a result. *)
Definition IsNotExist {A} (r : res A) : bool :=
  match r with Err (OsErr NotExist _) => true | _ => false end.
Definition IsTimeout {A} (r : res A) : bool :=
  match r with Err (OsErr Timeout _) => true | _ => false end.
(** [err.Error()], for the errors whose text is looked at. *)
Definition error_text {A} (r : res A) : string :=
  match r with
  | Err (OsErr _ t) => t
  | Err (PlainErr t) => t
  | Err (StatusErr _ t) => t
  | _ => ""
  end.

(** A host for examples: every command has the given answer, files and mounts work,
    and there is nothing to find. *)
Definition idle_host (answer : exec_result) : handler host unit := fun o s =>
  (match o return host_resp o with
   | Command _ _ _ => answer
   | Stat _ => inr false
   | Glob _ => inr []
   | ReadFile _ => inl (OsError NotExist "file does not exist")
   | Sleep _ => tt
   | Now => 0
   | IsLikelyNotMountPoint _ => (true, None)
   | CleanupMountPoint mounter _ => if mounter then Cleaned None else CleanupPanicked
   | GetDeviceNameFromMount _ => inr ""
   | Statfs _ => inl (OsError OtherKind "")
   | _ => None
   end, s).
