(* ===== verification/ConnectorFile.v ===== *)
(** * The file of a connector ([pkg/iscsilib/iscsi.go], [iscsiadm.go]): the JSON text of a
    [Connector], its devices and its secrets, and reading it back. *)
From S2P Require Import Prelude GoStrings GoStrconv GoStringsFacts GoJson GoJsonFacts Host.

(** ** Writing *)

Definition secrets_json (s : Secrets) : json :=
  JObj (omitempty "secretsType" (SecretsType s)
        ++ [("userName", JStr (UserName s)); ("password", JStr (Password s))]
        ++ omitempty "userNameIn" (UserNameIn s) ++ omitempty "passwordIn" (PasswordIn s)).
Fixpoint device_json (d : Device) : json :=
  JObj ([("name", JStr (dName d)); ("hctl", JStr (Hctl d));
         ("children", slice (map device_json (Children d)));
         ("type", JStr (dType d)); ("tran", JStr (Transport d))] ++ omitempty "size" (Size d)).
Definition connector_json (c : Connector) : json :=
  JObj [("volume_name", JStr (cVolumeName c)); ("target_iqn", JStr (cTargetIqn c));
        ("target_portal", slice (map JStr (TargetPortals c))); ("lun", JInt (Lun c));
        ("auth_type", JStr (AuthType c)); ("discovery_secrets", secrets_json (DiscoverySecrets c));
        ("session_secrets", secrets_json (SessionSecrets c)); ("interface", JStr (cInterface c));
        ("mount_target_device", pointer device_json (MountTargetDevice c));
        ("devices", slice (map device_json (Devices c)));
        ("retry_count", JInt (RetryCount c)); ("check_interval", JInt (CheckInterval c));
        ("do_discovery", JBool (DoDiscovery c)); ("do_chap_discovery", JBool (DoCHAPDiscovery c))].

Definition newline : string := String (ascii_of_N 10) "".
(** [json.NewEncoder(f).Encode(c)]: the text, which goes to the file in one piece. *)
Definition encode_connector (c : Connector) : string := json_text (connector_json c) +:+ newline.

(** ** Reading *)

Definition secrets_fields : list (field (A := Secrets)) :=
  [("secretsType", on SecretsType (fun x '(Build_Secrets _ u p ui pi) => Build_Secrets x u p ui pi) set_string);
   ("userName", on UserName (fun x '(Build_Secrets t _ p ui pi) => Build_Secrets t x p ui pi) set_string);
   ("password", on Password (fun x '(Build_Secrets t u _ ui pi) => Build_Secrets t u x ui pi) set_string);
   ("userNameIn", on UserNameIn (fun x '(Build_Secrets t u p _ pi) => Build_Secrets t u p x pi) set_string);
   ("passwordIn", on PasswordIn (fun x '(Build_Secrets t u p ui _) => Build_Secrets t u p ui x) set_string)].

Definition zero_Device : Device :=
  {| dName := ""; Hctl := ""; Children := []; dType := ""; Transport := ""; Size := "" |}.
Definition device_fields (set_device : json -> Device -> Device * bool) : list (field (A := Device)) :=
  [("name", on dName (fun x '(Build_Device _ h c t r s) => Build_Device x h c t r s) set_string);
   ("hctl", on Hctl (fun x '(Build_Device n _ c t r s) => Build_Device n x c t r s) set_string);
   ("children", on Children (fun x '(Build_Device n h _ t r s) => Build_Device n h x t r s)
                  (set_list set_device zero_Device));
   ("type", on dType (fun x '(Build_Device n h c _ r s) => Build_Device n h c x r s) set_string);
   ("tran", on Transport (fun x '(Build_Device n h c t _ s) => Build_Device n h c t x s) set_string);
   ("size", on Size (fun x '(Build_Device n h c t r _) => Build_Device n h c t r x) set_string)].
(** Devices are nested as deep as the text, at most. *)
Fixpoint set_device (fuel : nat) (j : json) (cur : Device) : Device * bool :=
  match fuel with
  | O => (cur, false)
  | S fuel' => set_struct (device_fields (set_device fuel')) j cur
  end.

Definition zero_Connector : Connector :=
  {| cVolumeName := ""; cTargetIqn := ""; TargetPortals := []; Lun := 0; AuthType := "";
     DiscoverySecrets := zero_Secrets; SessionSecrets := zero_Secrets; cInterface := "";
     MountTargetDevice := None; Devices := []; RetryCount := 0; CheckInterval := 0;
     DoDiscovery := false; DoCHAPDiscovery := false |}.
Definition connector_fields : list (field (A := Connector)) :=
  [("volume_name", on cVolumeName (fun x '(Build_Connector _ i p l a d s f m v r k y z) =>
      Build_Connector x i p l a d s f m v r k y z) set_string);
   ("target_iqn", on cTargetIqn (fun x '(Build_Connector n _ p l a d s f m v r k y z) =>
      Build_Connector n x p l a d s f m v r k y z) set_string);
   ("target_portal", on TargetPortals (fun x '(Build_Connector n i _ l a d s f m v r k y z) =>
      Build_Connector n i x l a d s f m v r k y z) (set_list set_string ""));
   ("lun", on Lun (fun x '(Build_Connector n i p _ a d s f m v r k y z) =>
      Build_Connector n i p x a d s f m v r k y z) (set_int 32));
   ("auth_type", on AuthType (fun x '(Build_Connector n i p l _ d s f m v r k y z) =>
      Build_Connector n i p l x d s f m v r k y z) set_string);
   ("discovery_secrets", on DiscoverySecrets (fun x '(Build_Connector n i p l a _ s f m v r k y z) =>
      Build_Connector n i p l a x s f m v r k y z) (set_struct secrets_fields));
   ("session_secrets", on SessionSecrets (fun x '(Build_Connector n i p l a d _ f m v r k y z) =>
      Build_Connector n i p l a d x f m v r k y z) (set_struct secrets_fields));
   ("interface", on cInterface (fun x '(Build_Connector n i p l a d s _ m v r k y z) =>
      Build_Connector n i p l a d s x m v r k y z) set_string);
   ("mount_target_device", on MountTargetDevice (fun x '(Build_Connector n i p l a d s f _ v r k y z) =>
      Build_Connector n i p l a d s f x v r k y z) (set_ptr (set_device max_depth) zero_Device));
   ("devices", on Devices (fun x '(Build_Connector n i p l a d s f m _ r k y z) =>
      Build_Connector n i p l a d s f m x r k y z) (set_list (set_device max_depth) zero_Device));
   ("retry_count", on RetryCount (fun x '(Build_Connector n i p l a d s f m v _ k y z) =>
      Build_Connector n i p l a d s f m v x k y z) (set_uint 64));
   ("check_interval", on CheckInterval (fun x '(Build_Connector n i p l a d s f m v r _ y z) =>
      Build_Connector n i p l a d s f m v r x y z) (set_uint 64));
   ("do_discovery", on DoDiscovery (fun x '(Build_Connector n i p l a d s f m v r k _ z) =>
      Build_Connector n i p l a d s f m v r k x z) set_bool);
   ("do_chap_discovery", on DoCHAPDiscovery (fun x '(Build_Connector n i p l a d s f m v r k y _) =>
      Build_Connector n i p l a d s f m v r k y x) set_bool)].
(** [json.Unmarshal(raw, &conn)], [conn] being zero; [None] is an error. *)
Definition decode_connector (raw : string) : option Connector := unmarshal connector_fields zero_Connector raw.

(** ** What is written is read back *)

Definition secrets_ok (s : Secrets) : Prop :=
  valid_utf8 (SecretsType s) /\ valid_utf8 (UserName s) /\ valid_utf8 (Password s)
  /\ valid_utf8 (UserNameIn s) /\ valid_utf8 (PasswordIn s).
Inductive device_ok : Device -> Prop :=
| DeviceOk n h c t r s :
    valid_utf8 n -> valid_utf8 h -> Forall device_ok c -> valid_utf8 t -> valid_utf8 r -> valid_utf8 s ->
    device_ok (Build_Device n h c t r s).
(** A connector that JSON can carry: valid UTF-8 text, integers of the width of their
    fields, and devices that are not nested deeper than a reader goes. *)
Definition connector_ok (c : Connector) : Prop :=
  valid_utf8 (cVolumeName c) /\ valid_utf8 (cTargetIqn c) /\ Forall valid_utf8 (TargetPortals c)
  /\ in_int32 (Lun c) /\ valid_utf8 (AuthType c) /\ secrets_ok (DiscoverySecrets c)
  /\ secrets_ok (SessionSecrets c) /\ valid_utf8 (cInterface c)
  /\ (forall d, MountTargetDevice c = Some d -> device_ok d) /\ Forall device_ok (Devices c)
  /\ 0 <= RetryCount c < 2 ^ 64 /\ 0 <= CheckInterval c < 2 ^ 64
  /\ (json_depth (connector_json c) <= max_depth)%nat.

(** Induction with the hypothesis for the children. *)
Lemma device_ok_ind' (P : Device -> Prop) :
  (forall n h c t r s, valid_utf8 n -> valid_utf8 h -> Forall P c -> valid_utf8 t -> valid_utf8 r ->
     valid_utf8 s -> P (Build_Device n h c t r s)) ->
  forall d, device_ok d -> P d.
Proof.
  intros H. fix IH 2. intros d []. apply H; try assumption.
  match goal with Hc : Forall device_ok _ |- _ => induction Hc; constructor; auto end.
Qed.

Lemma secrets_json_ok s : json_ok (secrets_json s).
Proof.
  constructor. assert (Forall (fun kv => json_ok kv.2) [("userName", JStr (UserName s)); ("password", JStr (Password s))])
    by (repeat constructor).
  unfold omitempty. repeat case_match; repeat constructor.
Qed.
Lemma device_json_ok d : json_ok (device_json d).
Proof.
  revert d. fix IH 1. intros [n h c t r s]. cbn [device_json dName Hctl Children dType Transport Size].
  assert (json_ok (slice (map device_json c))) as Hc.
  { apply json_ok_slice. induction c; constructor; auto. }
  clear IH. constructor. unfold omitempty. repeat case_match; repeat (constructor; try exact Hc).
Qed.
Lemma connector_json_ok c : json_ok (connector_json c).
Proof.
  pose proof (map_json_ok JStr (TargetPortals c) ok_str) as H1.
  pose proof (map_json_ok device_json (Devices c) device_json_ok) as H2.
  pose proof (secrets_json_ok (DiscoverySecrets c)) as H3. pose proof (secrets_json_ok (SessionSecrets c)) as H4.
  assert (json_ok (pointer device_json (MountTargetDevice c))) as H5
    by (destruct (MountTargetDevice c); [apply device_json_ok|constructor]).
  constructor. repeat (constructor; [cbn [snd]; (assumption || constructor)|]). constructor.
Qed.

Lemma set_secrets_text s :
  secrets_ok s -> set_struct secrets_fields (json_read (secrets_json s)) zero_Secrets = (s, true).
Proof.
  destruct s as [t u p ui pi]. intros (H1 & H2 & H3 & H4 & H5). cbn in H1, H2, H3, H4, H5.
  unfold secrets_json, omitempty. rewrite set_struct_text.
  cbn [SecretsType UserName Password UserNameIn PasswordIn].
  destruct (String.eqb_spec t ""), (String.eqb_spec ui ""), (String.eqb_spec pi ""); subst;
    store_all; done.
Qed.

Lemma set_device_text d : device_ok d ->
  forall fuel, (json_depth (device_json d) <= fuel)%nat ->
    set_device fuel (json_read (device_json d)) zero_Device = (d, true).
Proof.
  revert d. apply (device_ok_ind' (fun d => forall fuel, (json_depth (device_json d) <= fuel)%nat ->
    set_device fuel (json_read (device_json d)) zero_Device = (d, true))).
  intros n h c t r s H1 H2 Hc H3 H4 H5 fuel Hd.
  destruct fuel as [|fuel]; [simpl in Hd; lia|].
  assert (set_list (set_device fuel) zero_Device (json_read (slice (map device_json c))) [] = (c, true)) as Hs.
  { apply set_list_slice. cbn [device_json json_depth] in Hd. apply le_S_n in Hd. cbn [app foldr fst snd Children] in Hd.
    assert (json_depth (slice (map device_json c)) <= fuel)%nat as Hsl by lia. clear Hd.
    destruct c as [|d c]; [constructor|].
    change (S (foldr (fun x d => Nat.max (json_depth x) d) 0%nat (map device_json (d :: c))) <= fuel)%nat in Hsl.
    assert (Forall (fun x => (json_depth x <= fuel)%nat) (map device_json (d :: c))) as Hall
      by (apply depth_foldr; lia).
    rewrite Forall_map in Hall. eapply Forall_impl; [apply Forall_and; split; [exact Hc|exact Hall]|].
    intros x [Hx Hdx]. by apply Hx. }
  cbn [set_device device_json dName Hctl Children dType Transport Size]. unfold omitempty. rewrite set_struct_text.
  destruct (String.eqb_spec s ""); subst; cbn [app map fold_left]; store_all; store_as Hs; store_all; done.
Qed.

Lemma set_device_ptr o : (forall d, o = Some d -> device_ok d) ->
  (json_depth (pointer device_json o) <= max_depth)%nat ->
  set_ptr (set_device max_depth) zero_Device (json_read (pointer device_json o)) None = (o, true).
Proof.
  intros Ho Hd. destruct o as [d|]; [|done]. pose proof (set_device_text d (Ho d eq_refl) _ Hd) as H.
  destruct d. cbn [pointer]. etrans; [apply (f_equal (fun p => let '(a, ok) := p in (Some a, ok)) H)|done].
Qed.
Lemma set_devices_text l : Forall device_ok l -> (json_depth (slice (map device_json l)) <= max_depth)%nat ->
  set_list (set_device max_depth) zero_Device (json_read (slice (map device_json l))) [] = (l, true).
Proof.
  intros Ho Hd. apply set_list_slice. apply json_depth_slice in Hd. rewrite Forall_map in Hd.
  eapply Forall_impl; [apply Forall_and; split; [exact Ho|exact Hd]|].
  intros d [Hok Hdd]. by apply set_device_text.
Qed.
Lemma connector_depths c : (json_depth (connector_json c) <= max_depth)%nat ->
  (json_depth (pointer device_json (MountTargetDevice c)) <= max_depth)%nat
  /\ (json_depth (slice (map device_json (Devices c))) <= max_depth)%nat.
Proof.
  unfold connector_json. cbn [json_depth]. generalize max_depth. intros m H.
  cbn [foldr fst snd] in H. lia.
Qed.

(** The file of a connector gives the connector back. *)
Lemma decode_encode_connector (c : Connector) : connector_ok c -> decode_connector (encode_connector c) = Some c.
Proof.
  intros (H1 & H2 & Hp & H3 & H4 & Hd & Hs & H5 & Hm & Hv & H6 & H7 & Hdepth).
  destruct (connector_depths c Hdepth) as [Hdm Hdv].
  unfold decode_connector, encode_connector, unmarshal.
  rewrite parse_json_text; [|apply connector_json_ok|exact Hdepth|done].
  pose proof (set_device_ptr _ Hm Hdm) as Em. pose proof (set_devices_text _ Hv Hdv) as Ev.
  pose proof (set_secrets_text _ Hd) as Ed. pose proof (set_secrets_text _ Hs) as Es.
  assert (set_list set_string "" (json_read (slice (map JStr (TargetPortals c)))) [] = (TargetPortals c, true)) as Ep.
  { apply set_list_slice. eapply Forall_impl; [exact Hp|]. intros s Hu. by apply set_string_text. }
  change (json_read (connector_json c)) with (JObj (map member_read (match connector_json c with JObj l => l | _ => [] end))).
  cbv iota. cbn [connector_json map fold_left].
  store_all. store_as Ep. store_all. store_as Ed. store_as Es. store_all. store_as Em. store_as Ev.
  store_all. by destruct c.
Qed.
