(* ===== verification/Iscsiadm.v ===== *)
(** * iscsiadm ([pkg/iscsilib/iscsiadm.go], [ExecWithTimeout] of [multipath.go]) *)
From S2P Require Import Prelude GoStrings Prog Host.

Definition newline : ascii := "010"%char.
Definition second : Z := 1000000000.

(** What a command printed, and its error. *)
Abbreviation output := (string * option error)%type.

Definition exec_error (o : exec_outcome) : option error :=
  match o with
  | Exited0 => None
  | ExitedWith n t => Some (OsErr (ExitStatus n) t)
  | NotRun e => Some (OsErr (kind e) (text e))
  end.

(** [errors.Is(err, ee)] for a nil [ee *exec.ExitError]: it compares [err] with a
    nil pointer, and the errors of [cmd.Output] are not nil pointers. *)
Definition errors_Is_nil_ExitError (e : error) : bool := false.

Definition ExecWithTimeout (command : string) (args : list string) (timeout : Z) : go host output :=
  r ← call (E := host) (Command (Some timeout) command args);
  if deadline_exceeded r then ok ("", Some (OsErr Timeout "context deadline exceeded"))
  else
    let err := match exec_error (outcome r) with
               | Some e => Some (if errors_Is_nil_ExitError e
                                 then OsErr OtherKind (stderr r) else e)
               | None => None
               end in
    ok (stdout r, err).

Definition iscsiCmd (args : list string) : go host output :=
  ExecWithTimeout "iscsiadm" args (second * 3).

(** A command whose error is returned, as it is or under another text. *)
Definition cmd_must (args : list string) : go host string :=
  '(out, err) ← iscsiCmd args;
  match err with Some e => lift (Err e) | None => ok out end.
Definition cmd_or (args : list string) (format : string) : go host unit :=
  '(_, err) ← iscsiCmd args;
  match err with Some _ => lift (Err (PlainErr format)) | None => ok tt end.

Definition ListInterfaces : go host (list string * option error) :=
  '(out, err) ← iscsiCmd ["-m"; "iface"; "-o"; "show"]; ok (SplitByte out newline, err).

Definition ShowInterface (iface : string) : go host string :=
  cmd_must ["-m"; "iface"; "-o"; "show"; "-I"; iface].

Definition option_arg (name v : string) : list string := ["-n"; name; "-v"; v].
Definition option_arg_nonempty (name v : string) : list string :=
  if v != "" then option_arg name v else [].

Definition chap_args (baseArgs : list string) (secrets : Secrets) (discovery : bool)
  : list string :=
  if discovery then
    baseArgs ++ ["-o"; "update"] ++
    option_arg "discovery.sendtargets.auth.authmethod" "CHAP" ++
    option_arg "discovery.sendtargets.auth.username" (UserName secrets) ++
    option_arg "discovery.sendtargets.auth.password" (Password secrets) ++
    option_arg_nonempty "discovery.sendtargets.auth.username_in" (UserNameIn secrets) ++
    option_arg_nonempty "discovery.sendtargets.auth.password_in" (PasswordIn secrets)
  else
    baseArgs ++ ["-o"; "update"] ++
    option_arg "node.session.auth.authmethod" "CHAP" ++
    option_arg "node.session.auth.username" (UserName secrets) ++
    option_arg "node.session.auth.password" (Password secrets) ++
    option_arg_nonempty "node.session.auth.username_in" (UserNameIn secrets) ++
    option_arg_nonempty "node.session.auth.password_in" (PasswordIn secrets).
Definition createCHAPEntries (baseArgs : list string) (secrets : Secrets) (discovery : bool)
  : go host unit :=
  cmd_or (chap_args baseArgs secrets discovery) "failed to update discoverydb with CHAP, err: %v".

Definition CreateDBEntry (tgtIQN portal iFace : string) (discoverySecrets sessionSecrets : Secrets)
  : go host unit :=
  let baseArgs := ["-m"; "node"; "-T"; tgtIQN; "-p"; portal] in
  _ ← cmd_must (baseArgs ++ ["-I"; iFace; "-o"; "new"]);
  _ ← (if SecretsType discoverySecrets == "chap"
       then createCHAPEntries baseArgs discoverySecrets true else ok tt);
  if SecretsType sessionSecrets == "chap"
  then createCHAPEntries baseArgs sessionSecrets false else ok tt.

Definition Discoverydb (tp iface : string) (discoverySecrets : Secrets) (chapDiscovery : bool)
  : go host unit :=
  let baseArgs := ["-m"; "discoverydb"; "-t"; "sendtargets"; "-p"; tp; "-I"; iface] in
  _ ← cmd_or (baseArgs ++ ["-o"; "new"])
        "failed to create new entry of target in discoverydb, output: %v, err: %v";
  _ ← (if chapDiscovery then createCHAPEntries baseArgs discoverySecrets true else ok tt);
  '(_, err) ← iscsiCmd (baseArgs ++ ["--discover"]);
  match err with
  | Some _ =>
      _ ← iscsiCmd (baseArgs ++ ["-o"; "delete"]);
      lift (Err (PlainErr "failed to sendtargets to portal %s, err: %v"))
  | None => ok tt
  end.

Definition GetSessions : go host string := cmd_must ["-m"; "session"].

Definition Login (tgtIQN portal : string) : go host unit :=
  let baseArgs := ["-m"; "node"; "-T"; tgtIQN; "-p"; portal] in
  '(_, err) ← iscsiCmd (baseArgs ++ ["-l"]);
  match err with
  | Some _ =>
      _ ← iscsiCmd (baseArgs ++ ["-o"; "delete"]);
      lift (Err (PlainErr "failed to sendtargets to portal %s, err: %v"))
  | None => ok tt
  end.

(** ** What counts as already absent *)

Definition contains_any (msg : string) (markers : list string) : bool :=
  existsb (Contains msg) markers.

Definition isISCSIAlreadyAbsent (output : string) (err : option error) : bool :=
  match err with
  | None => false
  | Some e =>
      let outputMsg := ToLower output in
      let errMsg := ToLower (error_text (@Err unit e)) in
      let msg := outputMsg +:+ " " +:+ errMsg in
      if contains_any msg ["no matching sessions"; "no records found"; "no record found";
                           "not currently logged in"] then true
      else if TrimSpace outputMsg == "" then false
      else contains_any outputMsg ["not found"; "does not exist"; "not exist"; "could not find"]
  end.

(** Called on an error only ([err.Error()] of a nil error would panic). *)
Definition isISCSINodeDBEntryAlreadyAbsent (output : string) (err : error) : bool :=
  if isISCSIAlreadyAbsent output (Some err) then true
  else if TrimSpace output == "" then false
  else
    let msg := ToLower (output +:+ " " +:+ error_text (@Err unit err)) in
    (Contains msg "could not execute operation on all records" &&
     Contains msg "database failure")%bool.

Definition Logout (tgtIQN portal : string) : go host unit :=
  '(out, err) ← iscsiCmd ["-m"; "node"; "-T"; tgtIQN; "-p"; portal; "-u"];
  match err with
  | Some e => if isISCSIAlreadyAbsent out err then ok tt else lift (Err e)
  | None => ok tt
  end.

Definition DeleteDBEntry (tgtIQN : string) : go host unit :=
  '(out, err) ← iscsiCmd ["-m"; "node"; "-T"; tgtIQN; "-o"; "delete"];
  match err with
  | Some e => if isISCSINodeDBEntryAlreadyAbsent out e then ok tt else lift (Err e)
  | None => ok tt
  end.

Definition DeleteIFace (iface : string) : go host unit :=
  _ ← cmd_must ["-m"; "iface"; "-I"; iface; "-o"; "delete"]; ok tt.

#[global] Arguments ExecWithTimeout : simpl never.
#[global] Arguments iscsiCmd : simpl never.
#[global] Arguments cmd_must : simpl never.
#[global] Arguments cmd_or : simpl never.
