(* ===== verification/Devices.v ===== *)
(** * SCSI devices ([Device], lsblk and multipath: [pkg/iscsilib/iscsi.go],
    [multipath.go]) *)
From S2P Require Import Prelude GoStrings GoStrconv GoPath Prog Host Iscsiadm.

Definition GetPath (d : Device) : string :=
  if dType d == "mpath" then PathJoin ["/dev/mapper"; dName d] else PathJoin ["/dev"; dName d].

Definition with_Children (d : Device) (l : list Device) : Device :=
  {| dName := dName d; Hctl := Hctl d; Children := l; dType := dType d;
     Transport := Transport d; Size := Size d |}.

(** ** lsblk *)

(** A line of its output; [NAME,KNAME,PKNAME,HCTL,TYPE,TRAN,SIZE]. *)
Record lsblk_row := { row_device : Device; row_kname : string; row_pkname : string }.

(** The code checks for five columns and then reads seven. *)
Definition parse_row (line : string) : res lsblk_row :=
  let columns := SplitByte line " " in
  let column i := nth i columns "" in
  if (length columns <? 5)%nat then Err (PlainErr "invalid output from lsblk: %s")
  else if (length columns <? 7)%nat then Panicked
  else Ok {| row_device := {| dName := column 0%nat; Hctl := column 3%nat; Children := [];
                              dType := column 4%nat; Transport := column 5%nat;
                              Size := column 6%nat |};
             row_kname := column 1%nat; row_pkname := column 2%nat |}.

(** [devicesMap]: the last row of each kernel name. *)
Definition devicesMap (rows : list lsblk_row) : gmap string nat :=
  fold_left (fun m ir => <[row_kname (snd ir) := fst ir]> m) (zip (seq 0 (length rows)) rows) ∅.

(** The loop that attaches children; [devices] is the store the pointers of the
    code point into, and a child is copied as it is at that moment. *)
Fixpoint attach_children (index : gmap string nat) (i : nat) (pkNames : list string)
  (devices : list Device) : res (list Device) :=
  match pkNames with
  | [] => Ok devices
  | pkName :: rest =>
      if pkName == "" then attach_children index (S i) rest devices
      else
        match index !! pkName with
        | None => Err (PlainErr "invalid output from lsblk: parent device %q not found")
        | Some p =>
            match devices !! p, devices !! i with
            | Some parent, Some device =>
                attach_children index (S i) rest
                  (<[p := with_Children parent (Children parent ++ [device])]> devices)
            | _, _ => Panicked
            end
        end
  end.

(** The devices without a parent. *)
Definition roots (pkNames : list string) (devices : list Device) : list Device :=
  map snd (filter (fun '(pkName, _) => pkName = "") (zip pkNames devices)).

Definition parse_lsblk (out : string) : res (list Device) :=
  rows ← mapM parse_row (SplitByte (Trim out (String newline "")) newline);
  let pkNames := map row_pkname rows in
  devices ← attach_children (devicesMap rows) 0 pkNames (map row_device rows);
  Ok (roots pkNames devices).

Definition lsblk (devicePaths : list string) (strict : bool) : go host (list Device) :=
  r ← call (E := host)
        (Command None "lsblk" (["-rn"; "-o"; "NAME,KNAME,PKNAME,HCTL,TYPE,TRAN,SIZE"] ++ devicePaths));
  match outcome r with
  | Exited0 => lift (parse_lsblk (stdout r))
  | ExitedWith status t =>
      if (strict || negb (status =? 64)%Z)%bool
      then lift (Err (OsErr OtherKind
                        (Trim (stderr r) (String newline "") +:+ ", (" +:+ t +:+ ")")))
      else lift (parse_lsblk (stdout r))
  | NotRun e => lift (os_error e)
  end.

Definition GetSCSIDevices (devicePaths : list string) (strict : bool) : go host (list Device) :=
  lsblk devicePaths strict.

Definition GetISCSIDevices (devicePaths : list string) (strict : bool) : go host (list Device) :=
  scsiDevices ← GetSCSIDevices devicePaths strict;
  ok (filter (fun d => Transport d = "iscsi") scsiDevices).

(** ** Operations on a device *)

Definition Exists (d : Device) : go host bool :=
  r ← call (E := host) (Stat (GetPath d)); failing r.

Definition writeInSCSIDeviceFile (hctl file content : string) : go host unit :=
  r ← call (E := host)
        (WriteExisting (PathJoin ["/sys/class/scsi_device"; hctl; "device"; file]) content);
  failing_unit r.
Definition WriteDeviceFile (d : Device) (name content : string) : go host unit :=
  writeInSCSIDeviceFile (Hctl d) name content.
Definition Shutdown (d : Device) : go host unit :=
  WriteDeviceFile d "state" ("offline" +:+ String newline "").
Definition Delete (d : Device) : go host unit := WriteDeviceFile d "delete" "1".
Definition Rescan (d : Device) : go host unit := WriteDeviceFile d "rescan" "1".

(** [out[:len(out)-1]], which panics when there is no output. *)
Definition WWID (d : Device) : go host string :=
  '(out, err) ← ExecWithTimeout "scsi_id" ["-g"; "-u"; GetPath d] (1 * second);
  match err with
  | Some e => lift (Err e)
  | None => if out == "" then lift Panicked else ok (str_take (String.length out - 1) out)
  end.

Record HCTL := { HBA : Z; Channel : Z; Target : Z; LUN : Z }.
Definition HCTL_of (d : Device) : res HCTL :=
  match mapM Atoi (SplitByte (Hctl d) ":") with
  | Some [hba; channel; target; lun] =>
      Ok {| HBA := hba; Channel := channel; Target := target; LUN := lun |}
  | _ => Err (PlainErr "invalid HCTL (%s) for device %q")
  end.

(** ** Removal *)

Definition flush (d : Device) : go host unit :=
  catch (Exists d) (fun r =>
    match r with
    | Ok _ =>
        r ← call (E := host) (Command None "blockdev" ["--flushbufs"; GetPath d]);
        match exec_error (outcome r) with
        | Some _ => lift (Err (OsErr OtherKind (combined r)))
        | None => ok tt
        end
    | Err e => if IsNotExist r then ok tt else lift (Err e)
    | Panicked => lift Panicked
    end).

(** One device after its flush: offline, then deleted; [errs] keeps its first error. *)
Definition detach (d : Device) : go host (option error) :=
  let forgive (r : res unit) : go host (option error) :=
    match r with
    | Ok _ => ok None
    | Err e => ok (if IsNotExist r then None else Some e)
    | Panicked => lift Panicked
    end in
  catch (Shutdown d) (fun r =>
    match r with Ok _ => catch (Delete d) forgive | _ => forgive r end).

Fixpoint remove_devices (errs : option error) (devices : list Device) : go host unit :=
  match devices with
  | [] => match errs with Some e => lift (Err e) | None => ok tt end
  | d :: rest =>
      _ ← flush d;
      err ← detach d;
      remove_devices (match errs with Some e => Some e | None => err end) rest
  end.
Definition RemoveSCSIDevices (devices : list Device) : go host unit := remove_devices None devices.

(** ** Multipath *)

Definition FlushMultipathDevice (device : Device) : go host unit :=
  let devicePath := GetPath device in
  '(_, err) ← ExecWithTimeout "multipath" ["-f"; devicePath] (5 * second);
  match err with
  | None => ok tt
  | Some e =>
      r ← call (E := host) (Stat devicePath);
      match r with
      | inl {| kind := NotExist |} => ok tt
      | _ => if Contains (error_text (@Err unit e)) "map in use"
             then lift (Err (PlainErr "device is probably still in use somewhere else: %v"))
             else lift (Err e)
      end
  end.

Definition ResizeMultipathDevice (device : Device) : go host unit :=
  r ← call (E := host) (Command None "multipathd" ["resize"; "map"; dName device]);
  match exec_error (outcome r) with
  | Some _ => lift (Err (PlainErr "could not resize multipath device: %s (%v)"))
  | None => ok tt
  end.

Fixpoint common_child (found : option Device) (devices : list Device) : res (option Device) :=
  match devices with
  | [] => Ok found
  | d :: rest =>
      match Children d with
      | [child] =>
          match found with
          | Some f => if dName child != dName f
                      then Err (PlainErr "devices don't share a common multipath device: %v")
                      else common_child (Some child) rest
          | None => common_child (Some child) rest
          end
      | _ => Err (PlainErr "device is not mapped to exactly one multipath device%s: %v")
      end
  end.
Definition getMultipathDevice (devices : list Device) : res Device :=
  found ← common_child None devices;
  match found with
  | None => Err (PlainErr "multipath device not found")
  | Some d => if dType d != "mpath" then Err (PlainErr "device is not of mpath type: %v") else Ok d
  end.
