(* ===== verification/Connector.v ===== *)
(** * iSCSI connections ([Connector]: [pkg/iscsilib/iscsi.go], [expand.go]) *)
From S2P Require Import Prelude GoStrings GoStrconv GoPath Prog Host ConnectorFile Iscsiadm Devices.

(** ** Sessions *)

Record iscsiSession := {
  sProtocol : string; sID : Z; sPortal : string; sIQN : string; sName : string
}.

Definition split_head (s : string) (c : ascii) : string := nth 0 (SplitByte s c) "".

(** The value that [strconv.ParseInt(s, 10, 32)] returns, also with an error: digits that
    leave the range end the scan at its bound, and 0 stands for other texts. *)
Fixpoint scan_uint32 (acc : Z) (s : string) : option Z :=
  match s with
  | EmptyString => Some acc
  | String c s =>
      if is_digit c then
        let n := 10 * acc + (Z.of_N (N_of_ascii c) - 48) in
        if 2 ^ 32 - 1 <? n then Some (2 ^ 32 - 1) else scan_uint32 n s
      else None
  end.
Definition ParseInt32_value (s : string) : Z :=
  let '(negative, digits) := match s with
                             | String c t => if c =b "-" then (true, t) else if c =b "+" then (false, t) else (false, s)
                             | EmptyString => (false, s)
                             end in
  match (if digits == "" then None else scan_uint32 0 digits) with
  | None => 0
  | Some n => if negative then - Z.min n (2 ^ 31) else Z.min n (2 ^ 31 - 1)
  end.
Example ParseInt32_value_ex :
  map ParseInt32_value ["7"; "-7"; "+7"; "4294967296"; "2147483648x"; "99999999999x"; "-99999999999"; "x"; ""; "-"]
  = [7; -7; 7; 2147483647; 0; 2147483647; -2147483648; 0; 0; 0].
Proof. vm_compute. reflexivity. Qed.

(** [strings.Split(e[3], ":")[1]] panics when the name has no colon. *)
Definition parse_session (e : list string) : res (option iscsiSession) :=
  match e with
  | e0 :: e1 :: e2 :: e3 :: _ =>
      let id := ReplaceByte (ReplaceByte e1 "[" "") "]" "" in
      match SplitByte e3 ":" with
      | _ :: name :: _ =>
          Ok (Some {| sProtocol := split_head e0 ":";
                      sID := ParseInt32_value id;
                      sPortal := split_head e2 ",";
                      sIQN := e3;
                      sName := name |})
      | _ => Panicked
      end
  | _ => Ok None
  end.
Definition parseSessions (lines : string) : res (list iscsiSession) :=
  l ← mapM (fun entry => parse_session (Fields entry)) (SplitByte (TrimSpace lines) newline);
  Ok (omap id l).
#[global] Arguments parseSessions : simpl never.

Definition getCurrentSessions : go host (list iscsiSession) :=
  catch GetSessions (fun r =>
    match r with
    | Ok out => lift (parseSessions out)
    | Err (OsErr (ExitStatus 21) _) => ok []
    | Err e => lift (Err e)
    | Panicked => lift Panicked
    end).

Definition is_session (tgtPortal tgtIQN : string) (s : iscsiSession) : bool :=
  ((tgtIQN == sIQN s) && (tgtPortal == sPortal s))%bool.
Definition sessionExists (tgtPortal tgtIQN : string) : go host bool :=
  sessions ← getCurrentSessions;
  ok (existsb (is_session tgtPortal tgtIQN) sessions).

(** The regular expression of [extractTransportName] at the start of [s]: "iface",
    any character but a newline, "transport_name = " and the rest of the line, which
    has to end in a newline. *)
Definition transport_here (s : string) : option string :=
  if HasPrefix s "iface" then
    match DecodeRune (str_drop 5 s) with
    | Some (r, rest) =>
        if (negb (r =? 10)%N && HasPrefix rest "transport_name = ")%bool then
          let '(name, _, found) := CutByte (str_drop 17 rest) newline in
          if found then Some name else None
        else None
    | None => None
    end
  else None.
Fixpoint find_transport (s : string) : option string :=
  match transport_here s with
  | Some name => Some name
  | None => match s with String _ rest => find_transport rest | EmptyString => None end
  end.
Definition extractTransportName (output : string) : string :=
  match find_transport output with
  | None => ""
  | Some name => if name == "" then "tcp" else name
  end.

(** ** Waiting for a device *)

(** The path that exists: the path itself, or the first match of a pattern. *)
Definition pathExists (devicePath deviceTransport : string) : go host string :=
  if deviceTransport == "tcp" then
    r ← call (E := host) (Stat devicePath);
    _ ← failing r; ok devicePath
  else
    r ← call (E := host) (Glob devicePath);
    paths ← failing r;
    match paths with
    | [] => lift (Err (OsErr NotExist "file does not exist"))
    | p :: _ => ok p
    end.

(** The loop of [waitForPathToExist] with [retries] attempts after this one. *)
Fixpoint wait_loop (retries : nat) (devicePath : string) (intervalSeconds : Z)
  (deviceTransport : string) : go host string :=
  catch (pathExists devicePath deviceTransport) (fun r =>
    if IsNotExist r then
      match retries with
      | O => lift (Err (OsErr NotExist "file does not exist"))
      | S n =>
          _ ← call (E := host) (Sleep (int64_of (second * int64_of intervalSeconds)));
          wait_loop n devicePath intervalSeconds deviceTransport
      end
    else lift r).
Definition waitForPathToExist (devicePath : string) (maxRetries intervalSeconds : Z)
  (deviceTransport : string) : go host string :=
  if devicePath == "" then lift (Err (PlainErr "unable to check unspecified devicePath"))
  else wait_loop (Z.to_nat maxRetries) devicePath intervalSeconds deviceTransport.

(** ** Connecting *)

Definition defaultPort : string := "3260".

Definition discoverTarget (c : Connector) (targetIqn iFace portal : string) : go host unit :=
  _ ← (if DoDiscovery c then Discoverydb portal iFace (DiscoverySecrets c) (DoCHAPDiscovery c)
       else ok tt);
  if (DoCHAPDiscovery c || (SecretsType (SessionSecrets c) == "chap"))%bool
  then CreateDBEntry targetIqn portal iFace (DiscoverySecrets c) (SessionSecrets c)
  else ok tt.

Definition device_path (transport portal targetIqn : string) (lun : Z) : string :=
  if transport != "tcp"
  then Join ["/dev/disk/by-path/pci"; "*"; "ip"; portal; "iscsi"; targetIqn; "lun"; Itoa lun] "-"
  else Join ["/dev/disk/by-path/ip"; portal; "iscsi"; targetIqn; "lun"; Itoa lun] "-".

(** The rescan that finds newly mapped disks, and the logout when it hangs. *)
Definition rescan_sessions (baseArgs : list string) : go host unit :=
  '(_, err) ← iscsiCmd (baseArgs ++ ["-R"]);
  match err with
  | Some (OsErr Timeout _) =>
      r ← call (E := host) (Command None "iscsiadm" (baseArgs ++ ["-u"]));
      match exec_error (outcome r) with
      | Some _ => lift (Err (PlainErr "could not logout from target: %s"))
      | None => ok tt
      end
  | _ => ok tt
  end.

Definition connectTarget (c : Connector) (targetIqn target iFace iscsiTransport : string)
  : go host string :=
  let targetParts := SplitByte target ":" in
  let targetPortal := nth 0 targetParts "" in
  let targetPort := nth 1 targetParts defaultPort in
  _ ← rescan_sessions ["-m"; "node"; "-T"; targetIqn; "-p"; targetPortal];
  let portal := Join [targetPortal; targetPort] ":" in
  let devicePath := device_path iscsiTransport portal targetIqn (Lun c) in
  exists_ ← catch (sessionExists portal targetIqn)
              (fun r => match r with
                        | Ok b => ok b
                        | Err _ => ok false
                        | Panicked => lift Panicked
                        end);
  if exists_ : bool then
    waitForPathToExist devicePath (RetryCount c) (CheckInterval c) iscsiTransport
  else
    _ ← discoverTarget c targetIqn iFace portal;
    _ ← Login targetIqn portal;
    waitForPathToExist devicePath (RetryCount c) (CheckInterval c) iscsiTransport.

(** The portals one after the other: the paths of those that connected. *)
Fixpoint connect_targets (c : Connector) (iFace transport : string) (portals : list string)
  : go host (list string) :=
  match portals with
  | [] => ok []
  | target :: rest =>
      r ← catch (connectTarget c (cTargetIqn c) target iFace transport)
            (fun r => match r with
                      | Ok p => ok [p]
                      | Err _ => ok []
                      | Panicked => lift Panicked
                      end);
      paths ← connect_targets c iFace transport rest;
      ok (r ++ paths)
  end.

Definition getMountTargetDevice (c : Connector) : res Device :=
  match Devices c with
  | [] => Err (PlainErr "could not find mount target device: connector does not contain any device")
  | [d] => Ok d
  | _ => getMultipathDevice (Devices c)
  end.

(** [c.MountTargetDevice.Type] of a nil device panics. *)
Definition mount_target (c : Connector) : res Device :=
  match MountTargetDevice c with Some d => Ok d | None => Panicked end.
Definition IsMultipathEnabled (c : Connector) : res bool :=
  d ← mount_target c; Ok (dType d == "mpath").

(** What the loop of [IsMultipathConsistent] remembers: the first LUN (or -1), and
    the device of each controller. *)
Record consistency := { refLUN : Z; HBAs : gmap Z string }.

Definition check_address (s : consistency) (d : Device) : res consistency :=
  if dType d == "mpath" then Ok s
  else
    h ← HCTL_of d;
    lun ← (if (refLUN s =? -1)%Z then Ok (LUN h)
           else if negb (LUN h =? refLUN s)%Z
                then Err (PlainErr "devices LUNs differ: %s (%d) != %s (%d)")
                else Ok (refLUN s));
    match HBAs s !! HBA h with
    | Some _ => Err (PlainErr "two devices are using the same controller (%d): %s and %s")
    | None => Ok {| refLUN := lun; HBAs := <[HBA h := dName d]> (HBAs s) |}
    end.

Fixpoint check_devices (reference : Device) (s : consistency) (devices : list Device)
  : go host unit :=
  match devices with
  | [] => ok tt
  | d :: rest =>
      if Size d != Size reference
      then lift (Err (PlainErr "devices size differ: %s (%s) != %s (%s)"))
      else
        s ← lift (check_address s d);
        wwid ← catch (WWID d)
                 (fun r => match r with
                           | Err _ => lift (Err (PlainErr "could not find WWID for device %s: %v"))
                           | r => lift r
                           end);
        if wwid != dName reference
        then lift (Err (PlainErr "devices WWIDs differ: %s (wwid:%s) != %s (wwid:%s)"))
        else check_devices reference s rest
  end.
Definition IsMultipathConsistent (c : Connector) : go host unit :=
  reference ← lift (mount_target c);
  check_devices reference {| refLUN := -1; HBAs := ∅ |} (reference :: Devices c).

(** ** Changing a connector *)

Definition with_defaults (c : Connector) : Connector :=
  {| cVolumeName := cVolumeName c; cTargetIqn := cTargetIqn c; TargetPortals := TargetPortals c;
     Lun := Lun c; AuthType := AuthType c; DiscoverySecrets := DiscoverySecrets c;
     SessionSecrets := SessionSecrets c; cInterface := cInterface c;
     MountTargetDevice := MountTargetDevice c; Devices := Devices c;
     RetryCount := if (RetryCount c =? 0)%Z then 10 else RetryCount c;
     CheckInterval := if (CheckInterval c =? 0)%Z then 1 else CheckInterval c;
     DoDiscovery := DoDiscovery c; DoCHAPDiscovery := DoCHAPDiscovery c |}.

Definition with_devices (target : option Device) (devices : list Device) (c : Connector)
  : Connector :=
  {| cVolumeName := cVolumeName c; cTargetIqn := cTargetIqn c; TargetPortals := TargetPortals c;
     Lun := Lun c; AuthType := AuthType c; DiscoverySecrets := DiscoverySecrets c;
     SessionSecrets := SessionSecrets c; cInterface := cInterface c;
     MountTargetDevice := target; Devices := devices;
     RetryCount := RetryCount c; CheckInterval := CheckInterval c;
     DoDiscovery := DoDiscovery c; DoCHAPDiscovery := DoCHAPDiscovery c |}.
Definition set_devices (devices : list Device) : method host Connector unit :=
  update (fun c => with_devices (MountTargetDevice c) devices c).
Definition set_target (target : option Device) : method host Connector unit :=
  update (fun c => with_devices target (Devices c) c).

Definition iface_of (c : Connector) : string :=
  if cInterface c != "" then cInterface c else "default".

(** The devices of the paths that were found; none at all removes the interface. *)
Definition find_devices (iFace : string) (devicePaths : list string)
  : method host Connector unit :=
  _ ← match devicePaths with
      | [] => set_devices []
      | _ =>
          r ← handling (GetISCSIDevices devicePaths true);
          match r with
          | Ok devices => set_devices devices
          | Err e => _ ← set_devices []; returning (Err e)
          | Panicked => returning Panicked
          end
      end;
  c ← self;
  match Devices c with
  | [] =>
      _ ← doing (iscsiCmd ["-m"; "iface"; "-I"; iFace; "-o"; "delete"]);
      returning (Err (PlainErr "failed to find device path: %s, last error seen: %v"))
  | _ => returning (Ok tt)
  end.

(** The check before a multipath device is used. *)
Definition multipath_guard (c : Connector) : go host unit :=
  enabled ← lift (IsMultipathEnabled c);
  if enabled : bool then
    catch (IsMultipathConsistent c)
      (fun r => match r with
                | Err _ => lift (Err (PlainErr "multipath is inconsistent: %v"))
                | r => lift r
                end)
  else ok tt.

(** The device to mount.  When there is none, the devices are removed; the inner
    [err] hides the reason, so the caller gets "" and no error if that succeeds. *)
Definition choose_target : method host Connector string :=
  c ← self;
  match getMountTargetDevice c with
  | Ok d =>
      _ ← set_target (Some d);
      c ← self;
      _ ← doing (multipath_guard c);
      d ← returning (mount_target c);
      returning (Ok (GetPath d))
  | Err _ =>
      _ ← set_target None;
      _ ← doing (RemoveSCSIDevices (Devices c));
      _ ← set_devices [];
      returning (Ok "")
  | Panicked => returning Panicked
  end.

Definition Connect : method host Connector string :=
  _ ← update with_defaults;
  c ← self;
  let iFace := iface_of c in
  out ← doing (ShowInterface iFace);
  let iscsiTransport := extractTransportName out in
  devicePaths ← doing (connect_targets c iFace iscsiTransport (TargetPortals c));
  _ ← find_devices iFace devicePaths;
  choose_target.

(** ** Disconnecting *)

(** The logouts of [Disconnect], all of them tried; whether one failed. *)
Fixpoint logout_all (targetIqn : string) (targets : list string) : go host bool :=
  match targets with
  | [] => ok false
  | target :: rest =>
      let targetPortal := TrimSpace target in
      failed ← (if targetPortal == "" then ok false
                else catch (Logout targetIqn targetPortal)
                       (fun r => match r with
                                 | Ok _ => ok false
                                 | Err _ => ok true
                                 | Panicked => lift Panicked
                                 end));
      others ← logout_all targetIqn rest;
      ok (failed || others)%bool
  end.
Definition Disconnect (targetIqn : string) (targets : list string) : go host unit :=
  failed ← logout_all targetIqn targets;
  dbFailed ← catch (DeleteDBEntry targetIqn)
               (fun r => match r with
                         | Ok _ => ok false
                         | Err _ => ok true
                         | Panicked => lift Panicked
                         end);
  if (failed || dbFailed)%bool then lift (Err (PlainErr "errors.Join")) else ok tt.
Definition Connector_Disconnect (c : Connector) : go host unit :=
  Disconnect (cTargetIqn c) (TargetPortals c).

Definition DisconnectVolume (c : Connector) : go host unit :=
  enabled ← lift (IsMultipathEnabled c);
  d ← lift (mount_target c);
  if enabled : bool then
    _ ← multipath_guard c;
    _ ← FlushMultipathDevice d;
    RemoveSCSIDevices (Devices c)
  else RemoveSCSIDevices [d].

(** ** The file of a connector *)

Definition Persist (c : Connector) (filePath : string) : go host unit :=
  r ← call (E := host) (CreateFile filePath);
  match r with
  | Some _ => lift (Err (PlainErr "error creating iSCSI persistence file %s: %s"))
  | None =>
      r ← call (E := host) (WriteCreated filePath (encode_connector c));
      match r with
      | Some _ => lift (Err (PlainErr "error encoding connector: %v"))
      | None => ok tt
      end
  end.

(** Reading the file and its JSON. *)
Definition read_connector (filePath : string) : go host Connector :=
  r ← call (E := host) (ReadFile filePath);
  match r with
  | inl e => lift (os_error e)
  | inr raw =>
      match decode_connector raw with
      | Some c => ok c
      | None => lift (Err (PlainErr "json: cannot unmarshal"))
      end
  end.

Definition nil_target_text : string := "mountTargetDevice in the connector is nil".

Definition GetConnectorFromFile (filePath : string) : go host Connector :=
  c ← read_connector filePath;
  let devicePaths := map GetPath (Devices c) in
  match MountTargetDevice c with
  | None => lift (Err (OsErr OtherKind nil_target_text))
  | Some d =>
      devices ← GetSCSIDevices [GetPath d] false;
      match devices with
      | [] => lift (Err (OsErr OtherKind ("mountTargetDevice " +:+ GetPath d +:+ " not found")))
      | target :: _ =>
          devices ← GetSCSIDevices devicePaths false;
          ok (with_devices (Some target) devices c)
      end
  end.

(** ** Expansion *)

Definition ExpandVolume (volumePath : string) : go host unit :=
  _ ← iscsiCmd ["-m"; "session"; "--rescan"];
  st ← call (E := host) (Stat volumePath);
  match st with
  | inl _ => lift (Err (PlainErr "stat %q failed: %w"))
  | inr true => ok tt
  | inr false =>
      r ← call (E := host) (GetDeviceNameFromMount volumePath);
      match r with
      | inl _ => lift (Err (PlainErr "cannot resolve device from mount %q: %v"))
      | inr dev =>
          if dev == "" then lift (Err (PlainErr "cannot resolve device from mount %q: %v"))
          else
            _ ← (if (HasPrefix dev "/dev/dm-" || Contains dev "/mapper/")%bool then
                   catch (ResizeMultipathDevice
                            {| dName := PathBase dev; Hctl := ""; Children := []; dType := "";
                               Transport := ""; Size := "" |})
                     (fun r => match r with Panicked => lift Panicked | _ => ok tt end)
                 else ok tt);
            r ← call (E := host) (Resize dev volumePath);
            match r with
            | Some _ => lift (Err (PlainErr "filesystem resize failed for %s at %s: %w"))
            | None => ok tt
            end
      end
  end.
