(* ===== verification/IscsiFacts.v ===== *)
(** * The iSCSI library: order and completeness of what it does to the host. *)
From S2P Require Import Prelude GoStrings GoStringsFacts GoStrconv GoPath Prog Host ConnectorFile Iscsiadm Devices Connector.

(** ** Commands *)

(** An iscsiadm request, and its output from the answer of the host. *)
Definition iscsiadm (args : list string) : host_op := Command (Some (second * 3)) "iscsiadm" args.
Definition cmd_output (r : exec_result) : output :=
  if deadline_exceeded r then ("", Some (OsErr Timeout "context deadline exceeded"))
  else (stdout r, exec_error (outcome r)).
Definition succeeded (r : exec_result) : bool :=
  match snd (cmd_output r) with None => true | Some _ => false end.

Section commands.
Context {M : Type} (m : monitor host M).

Lemma safe_exec s cmd args t Q :
  allowed m s (Command (Some t) cmd args) ->
  (forall r, assumed m s (Command (Some t) cmd args) r ->
     Q (Ok (cmd_output r)) (step m s (Command (Some t) cmd args) r)) ->
  safe m s (ExecWithTimeout cmd args t) Q.
Proof.
  intros Ha HQ. unfold ExecWithTimeout. apply safe_bind. split; [done|]. intros r Hr.
  specialize (HQ r Hr). unfold cmd_output in HQ. cbn [safe].
  destruct (deadline_exceeded r); [done|]. by destruct (exec_error (outcome r)).
Qed.
Lemma safe_iscsiCmd s args Q :
  allowed m s (iscsiadm args) ->
  (forall r, assumed m s (iscsiadm args) r ->
     Q (Ok (cmd_output r)) (step m s (iscsiadm args) r)) ->
  safe m s (iscsiCmd args) Q.
Proof. apply safe_exec. Qed.

(** A command whose failure is an error of the program. *)
Lemma safe_cmd_must s args Q :
  allowed m s (iscsiadm args) ->
  (forall r, assumed m s (iscsiadm args) r ->
     match snd (cmd_output r) with
     | None => Q (Ok (fst (cmd_output r)))
     | Some e => Q (Err e)
     end (step m s (iscsiadm args) r)) ->
  safe m s (cmd_must args) Q.
Proof.
  intros Ha HQ. apply safe_bind, safe_iscsiCmd; [done|]. intros r Hr.
  specialize (HQ r Hr). destruct (cmd_output r) as [out [e|]]; done.
Qed.
Lemma safe_cmd_or s args f Q :
  allowed m s (iscsiadm args) ->
  (forall r, assumed m s (iscsiadm args) r ->
     Q (if succeeded r then Ok tt else Err (PlainErr f)) (step m s (iscsiadm args) r)) ->
  safe m s (cmd_or args f) Q.
Proof.
  intros Ha HQ. apply safe_bind, safe_iscsiCmd; [done|]. intros r Hr.
  specialize (HQ r Hr). unfold succeeded in HQ. by destruct (cmd_output r) as [out [e|]].
Qed.
Lemma safe_call s (o : op host) Q :
  allowed m s o -> (forall r, assumed m s o r -> Q (Ok r) (step m s o r)) ->
  safe m s (call o) Q.
Proof. by split. Qed.
End commands.

(** One step of a program under a monitor. *)
Ltac host_step :=
  match goal with
  | |- safe _ _ (_ ≫= _) _ => apply safe_bind
  | |- safe _ _ (catch _ _) _ => apply safe_prog_bind
  | |- safe _ _ (iscsiCmd _) _ => apply safe_iscsiCmd
  | |- safe _ _ (cmd_must _) _ => apply safe_cmd_must
  | |- safe _ _ (cmd_or _ _) _ => apply safe_cmd_or
  | |- safe _ _ (ExecWithTimeout _ _ _) _ => apply safe_exec
  | |- safe _ _ (call _) _ => apply safe_call
  | |- safe _ _ (lift _) _ => cbn [safe lift]
  | |- safe _ _ (ok _) _ => cbn [safe ok]
  | |- safe _ _ (Ret _) _ => cbn [safe]
  end.

(** The monitor that writes down the requests. *)
Definition recorder : monitor host (list host_op) :=
  Monitor host (list host_op) (fun _ _ => True) (fun _ _ _ => True) (fun s o _ => s ++ [o]).

(** ** Waiting for a device *)

Definition is_sleep (o : host_op) : bool := match o with Sleep _ => true | _ => false end.
Fixpoint sleeps (log : list host_op) : nat :=
  match log with
  | [] => 0
  | o :: rest => if is_sleep o then S (sleeps rest) else sleeps rest
  end.

Lemma pathExists_once s path transport Q :
  (forall r, r <> Panicked ->
     Q r (s ++ [if transport == "tcp" then Stat path else Glob path])) ->
  safe recorder s (pathExists path transport) Q.
Proof.
  intros HQ. unfold pathExists.
  destruct (transport == "tcp"); repeat host_step; try done; intros [e|[]] _; cbn; by apply HQ.
Qed.

Lemma wait_loop_bounded retries : forall path interval transport s,
  safe recorder s (wait_loop retries path interval transport)
    (fun r log => exists log', log = s ++ log'
       /\ (sleeps log' <= retries /\ length log' = 2 * sleeps log' + 1)%nat
       /\ (IsNotExist r = true -> sleeps log' = retries) /\ r <> Panicked).
Proof.
  induction retries as [|n IH]; intros path interval transport s; cbn [wait_loop];
    host_step; apply pathExists_once; intros r Hr;
    set (o := if transport == "tcp" then Stat path else Glob path);
    assert (is_sleep o = false) as Ho by (by subst o; destruct (transport == "tcp"));
    destruct (IsNotExist r) eqn:En.
  - host_step. exists [o]. cbn. rewrite Ho. cbn. split_and!; by try lia.
  - host_step. exists [o]. cbn. rewrite Ho. cbn. rewrite En. split_and!; by try lia.
  - host_step. host_step; [done|]. intros r0 _. cbn [step recorder].
    eapply safe_mono; [apply IH|]. intros r' log (log' & -> & [Hl Hn] & He & Hp).
    exists (o :: Sleep (int64_of (second * int64_of interval)) :: log').
    rewrite <- !app_assoc. cbn. rewrite Ho. cbn.
    split_and!; try done; try lia. intros E. by rewrite (He E).
  - host_step. exists [o]. cbn. rewrite Ho. cbn. rewrite En. split_and!; by try lia.
Qed.

(** C31: [waitForPathToExist] ends, whatever the host answers: it sleeps at most
    [maxRetries] times, looks once more than it sleeps, does not panic, and gives up
    with "does not exist" only after all its attempts. *)
Theorem waitForPathToExist_bounded (path transport : string) (maxRetries interval : Z) :
  safe recorder [] (waitForPathToExist path maxRetries interval transport)
    (fun r log => (sleeps log <= Z.to_nat maxRetries)%nat
       /\ (path <> "" -> length log = 2 * sleeps log + 1)%nat
       /\ (IsNotExist r = true -> sleeps log = Z.to_nat maxRetries) /\ r <> Panicked).
Proof.
  unfold waitForPathToExist. destruct (path == "") eqn:E; go_bool.
  - cbn. split_and!; by try lia.
  - eapply safe_mono; [apply wait_loop_bounded|]. intros r log (log' & -> & [? ?] & ? & ?).
    by split_and!.
Qed.

(** ** Disconnecting *)

Definition logout_args (iqn portal : string) : list string := ["-m"; "node"; "-T"; iqn; "-p"; portal; "-u"].
Definition delete_args (iqn : string) : list string := ["-m"; "node"; "-T"; iqn; "-o"; "delete"].
Definition logout_request (iqn portal : string) : host_op := iscsiadm (logout_args iqn portal).
Definition delete_request (iqn : string) : host_op := iscsiadm (delete_args iqn).

(** The sessions of a host, by target and portal, and the targets of which it has records. *)
Record iscsi_state := { sessions : gset (string * string); records : gset string }.

(** What a tool says that has not found what it was to remove, in small letters. *)
Definition absence_phrases : list string :=
  ["no matching sessions"; "no records found"; "no record found"; "not currently logged in";
   "not found"; "does not exist"; "not exist"; "could not find"].
Definition says (r : exec_result) (phrase : string) : bool :=
  let '(out, err) := cmd_output r in
  let failure := match err with Some e => error_text (@Err unit e) | None => "" end in
  (Contains (ToLower out +:+ " " +:+ ToLower failure) phrase
   || Contains (ToLower (out +:+ " " +:+ failure)) phrase)%bool.
Definition says_absent (r : exec_result) : bool := existsb (says r) absence_phrases.
Definition says_no_record (r : exec_result) : bool :=
  (says_absent r
   || (says r "could not execute operation on all records" && says r "database failure"))%bool.

(** A removal that succeeds removes; one that fails may have left what was there. *)
Definition iscsi_step (h : iscsi_state) (o : host_op) : host_resp o -> iscsi_state :=
  match o with
  | Command _ name args => fun r =>
      match args with
      | [_; _; _; iqn; _; portal; _] =>
          if decide (name = "iscsiadm" /\ args = logout_args iqn portal /\ succeeded r = true)
          then {| sessions := sessions h ∖ {[(iqn, portal)]}; records := records h |} else h
      | [_; _; _; iqn; _; _] =>
          if decide (name = "iscsiadm" /\ args = delete_args iqn /\ succeeded r = true)
          then {| sessions := sessions h; records := records h ∖ {[iqn]} |} else h
      | _ => h
      end
  | _ => fun _ => h
  end.
(** A removal of what is there, when it fails, does not say that it is absent.  (A session
    that is there has its record too: iscsiadm keeps the records of sessions in use.) *)
Definition tool_honest (h : iscsi_state) (o : host_op) : host_resp o -> Prop :=
  match o with
  | Command _ _ _ => fun r => succeeded r = false ->
      (forall iqn portal, o = logout_request iqn portal -> (iqn, portal) ∈ sessions h -> says_absent r = false)
      /\ (forall iqn, o = delete_request iqn -> iqn ∈ records h -> says_no_record r = false)
  | _ => fun _ => True
  end.

(** What the program takes for absent is what the tool says to be absent. *)
Lemma says_left r p out e :
  cmd_output r = (out, Some e) -> Contains (ToLower out) p = true -> says r p = true.
Proof. intros E H. unfold says. rewrite E, Contains_left; [done|exact H]. Qed.
Lemma existsb_from (f g : string -> bool) l l' :
  (forall x, x ∈ l -> f x = true -> g x = true) -> (forall x, x ∈ l -> x ∈ l') ->
  existsb f l = true -> existsb g l' = true.
Proof.
  intros Hf Hl (x & Hin & Hx)%existsb_exists. apply existsb_exists. exists x.
  apply list_elem_of_In in Hin. split; [by apply list_elem_of_In, Hl|by apply Hf].
Qed.
Lemma absent_said r out e :
  cmd_output r = (out, Some e) -> isISCSIAlreadyAbsent out (Some e) = true -> says_absent r = true.
Proof.
  intros E. unfold isISCSIAlreadyAbsent, contains_any.
  destruct (existsb _ _) eqn:H1.
  - intros _. eapply existsb_from, H1; [|unfold absence_phrases; set_solver].
    intros p _ Hp. unfold says. by rewrite E, Hp.
  - destruct (_ == ""); [done|]. intros H2. eapply existsb_from, H2; [|unfold absence_phrases; set_solver].
    intros p _ Hp. by eapply says_left.
Qed.
Lemma no_record_said r out e :
  cmd_output r = (out, Some e) -> isISCSINodeDBEntryAlreadyAbsent out e = true -> says_no_record r = true.
Proof.
  intros E. unfold isISCSINodeDBEntryAlreadyAbsent, says_no_record.
  destruct (isISCSIAlreadyAbsent out (Some e)) eqn:H1.
  - intros _. by rewrite (absent_said r out e E H1).
  - destruct (_ == ""); [done|]. intros [H2 H3]%andb_prop. unfold says. rewrite E, H2, H3.
    by rewrite !orb_true_r.
Qed.

(** Nothing is added, and what belongs to another target stays. *)
Definition torn_from (iqn : string) (h h' : iscsi_state) : Prop :=
  sessions h' ⊆ sessions h /\ records h' ⊆ records h
  /\ (forall x, x ∈ sessions h -> fst x <> iqn -> x ∈ sessions h')
  /\ (forall t, t ∈ records h -> t <> iqn -> t ∈ records h').
#[export] Instance torn_from_preorder iqn : PreOrder (torn_from iqn).
Proof.
  split; [by intros h|]. intros x y z (? & ? & ? & ?) (? & ? & ? & ?). unfold torn_from.
  split_and!; [set_solver..|auto|auto].
Qed.
(** The sessions of a target at its portals, and its record, are gone. *)
Definition torn_down (iqn : string) (targets : list string) (h : iscsi_state) : Prop :=
  (forall t, t ∈ targets -> TrimSpace t <> "" -> (iqn, TrimSpace t) ∉ sessions h) /\ iqn ∉ records h.

(** Disconnecting under any monitor that has the state of the host in view. *)
Section tearing.
Context {M : Type} (m : monitor host M) (view : M -> iscsi_state) (Inv : M -> Prop) (iqn : string).
Context (Hallowed : forall s o, Inv s -> (exists portal, o = logout_request iqn portal) \/ o = delete_request iqn ->
           allowed m s o).
Context (Hassumed : forall s o r, Inv s -> assumed m s o r -> tool_honest (view s) o r).
Context (Hstep : forall s o r, Inv s -> (exists portal, o = logout_request iqn portal) \/ o = delete_request iqn ->
           Inv (step m s o r) /\ view (step m s o r) = iscsi_step (view s) o r).

Lemma Logout_tears portal s :
  Inv s -> safe m s (Logout iqn portal)
    (fun r s' => Inv s' /\ torn_from iqn (view s) (view s')
       /\ (r = Ok tt -> (iqn, portal) ∉ sessions (view s'))).
Proof.
  intros Hs. assert (exists p, logout_request iqn portal = logout_request iqn p) as Ho by by eexists.
  unfold Logout. host_step. host_step; [by apply Hallowed; [|left]|]. intros r Hr.
  change (iscsiadm ["-m"; "node"; "-T"; iqn; "-p"; portal; "-u"]) with (logout_request iqn portal) in *.
  destruct (Hstep s (logout_request iqn portal) r Hs (or_introl Ho)) as [Hi Hv]. pose proof (Hassumed _ _ _ Hs Hr) as Hh.
  set (s' := step m s _ r) in *. clearbody s'.
  assert (torn_from iqn (view s) (view s') /\ (succeeded r = true -> (iqn, portal) ∉ sessions (view s'))
          /\ (succeeded r = false -> view s' = view s)) as (Ht & Hok & Hsame).
  { rewrite Hv. cbn [iscsi_step logout_request iscsiadm logout_args]. destruct (succeeded r) eqn:E.
    - rewrite decide_True by done. split_and!; [|set_solver|done]. split_and!; cbn; set_solver.
    - rewrite decide_False by (intros (_ & _ & H); discriminate H). by split_and!. }
  assert (succeeded r = match snd (cmd_output r) with Some _ => false | None => true end) as Es
    by (unfold succeeded; by destruct (snd (cmd_output r))).
  destruct (cmd_output r) as [out [e|]] eqn:E; cbn [snd] in Es; [|by split_and!; auto].
  specialize (Hh Es) as [Hh _]. cbn [lift safe ok].
  destruct (isISCSIAlreadyAbsent out (Some e)) eqn:Ea; cbn [safe]; (split_and!; [done..|]); [|done].
  intros _ Hin. rewrite Hsame in Hin by done. specialize (Hh iqn portal eq_refl Hin).
  by rewrite (absent_said r out e E Ea) in Hh.
Qed.
Lemma logout_all_tears l : forall s, Inv s ->
  safe m s (logout_all iqn l)
    (fun r s' => Inv s' /\ torn_from iqn (view s) (view s')
       /\ (r = Ok false -> forall t, t ∈ l -> TrimSpace t <> "" -> (iqn, TrimSpace t) ∉ sessions (view s'))).
Proof.
  induction l as [|t l IH]; intros s Hs; cbn [logout_all].
  { split_and!; [done..|]. intros _ t Ht. by apply not_elem_of_nil in Ht. }
  cbv zeta. host_step. eapply (safe_mono _ _ _ (fun r s' => Inv s' /\ torn_from iqn (view s) (view s')
      /\ (r = Ok false -> TrimSpace t <> "" -> (iqn, TrimSpace t) ∉ sessions (view s')))).
  { destruct (TrimSpace t == "") eqn:E; go_bool; [by split_and!|]. host_step.
    eapply safe_mono; [by apply Logout_tears|].
    intros [[]|e|] s' (Hi & Hg & Hr); (split_and!; [done..|]); try done. intros _ _. by apply Hr. }
  intros [failed|e|] s1 (Hi & Hg & Hr); [|by split_and!..]. host_step.
  eapply safe_mono; [by apply IH|].
  intros [others|e|] s2 (Hi2 & Hg2 & Hr2); (split_and!; [done|by etrans|]); [|done..]. intros [= Hf].
  apply orb_false_iff in Hf as [-> ->]. intros t' [->|Ht']%elem_of_cons Hne; [|by apply Hr2].
  destruct Hg2 as [Hsub _]. intros Hin. by apply (Hr eq_refl Hne), Hsub.
Qed.
Lemma Disconnect_tears targets s :
  Inv s -> safe m s (Disconnect iqn targets)
    (fun r s' => Inv s' /\ torn_from iqn (view s) (view s') /\ (r = Ok tt -> torn_down iqn targets (view s'))).
Proof.
  intros Hs. unfold Disconnect. host_step.
  eapply safe_mono; [by apply logout_all_tears|]. intros [failed|e|] s1 (Hi & Hg & Hr); [|by split_and!..].
  host_step. host_step. unfold DeleteDBEntry. host_step.
  host_step; [by apply Hallowed; [|right]|]. intros r Ha.
  change (iscsiadm ["-m"; "node"; "-T"; iqn; "-o"; "delete"]) with (delete_request iqn) in *.
  destruct (Hstep s1 (delete_request iqn) r Hi (or_intror eq_refl)) as [Hi2 Hv]. pose proof (Hassumed _ _ _ Hi Ha) as Hh.
  set (s2 := step m s1 _ r) in *. clearbody s2.
  assert (torn_from iqn (view s1) (view s2) /\ (succeeded r = true -> iqn ∉ records (view s2))
          /\ (succeeded r = false -> view s2 = view s1)) as (Ht & Hok & Hsame).
  { rewrite Hv. cbn [iscsi_step delete_request iscsiadm delete_args]. destruct (succeeded r) eqn:E.
    - rewrite decide_True by done. split_and!; [|set_solver|done]. split_and!; cbn; set_solver.
    - rewrite decide_False by (intros (_ & _ & H); discriminate H). by split_and!. }
  assert (torn_from iqn (view s) (view s2)) as Hall by by etrans.
  assert (succeeded r = match snd (cmd_output r) with Some _ => false | None => true end) as Es
    by (unfold succeeded; by destruct (snd (cmd_output r))).
  assert (failed = false -> iqn ∉ records (view s2) -> torn_down iqn targets (view s2)) as Hend.
  { intros -> Hrec. split; [|done]. intros t Hin Hne Hx. destruct Ht as [Hsub _].
    by apply (Hr eq_refl t Hin Hne), Hsub. }
  destruct (cmd_output r) as [out [e|]] eqn:E; cbn [snd] in Es.
  - specialize (Hh Es) as [_ Hh].
    destruct (isISCSINodeDBEntryAlreadyAbsent out e) eqn:Ea; destruct failed; cbn [lift safe ok];
      (split_and!; [done..|]); try done.
    intros _. apply Hend; [done|]. intros Hin. rewrite Hsame in Hin by done.
    specialize (Hh iqn eq_refl Hin). by rewrite (no_record_said r out e E Ea) in Hh.
  - destruct failed; cbn [lift safe ok]; (split_and!; [done..|]); auto; done.
Qed.
End tearing.

(** The requests so far, and whether all of them succeeded. *)
Definition went_well (o : host_op) : host_resp o -> bool :=
  match o with Command _ _ _ => succeeded | _ => fun _ => true end.
Definition asking : monitor host (list host_op * bool) :=
  Monitor host (list host_op * bool) (fun _ _ => True) (fun _ _ _ => True)
    (fun '(log, well) o r => (log ++ [o], (well && went_well o r)%bool)).
Lemma Logout_asks iqn portal log well (Q : res unit -> list host_op * bool -> Prop) :
  (forall r good, r <> Panicked -> (good = true -> r = Ok tt) ->
     Q r (log ++ [logout_request iqn portal], (well && good)%bool)) ->
  safe asking (log, well) (Logout iqn portal) Q.
Proof.
  intros HQ. unfold Logout. host_step. host_step; [done|]. intros r _. cbn [step asking].
  assert (succeeded r = match snd (cmd_output r) with Some _ => false | None => true end) as Es
    by (unfold succeeded; by destruct (snd (cmd_output r))).
  cbn [went_well iscsiadm]. destruct (cmd_output r) as [out [e|]]; cbn [snd] in Es; rewrite Es;
    [destruct (isISCSIAlreadyAbsent out (Some e))|]; by apply HQ.
Qed.
Definition portals_of (targets : list string) : list string := filter (fun t => t <> "") (map TrimSpace targets).
Lemma logout_all_asks iqn targets : forall log well,
  safe asking (log, well) (logout_all iqn targets)
    (fun r s => exists failed good, r = Ok failed /\ (good = true -> failed = false)
       /\ s = (log ++ map (logout_request iqn) (portals_of targets), (well && good)%bool)).
Proof.
  unfold portals_of. induction targets as [|t rest IH]; intros log well; cbn [logout_all map].
  - exists false, true. by rewrite app_nil_r, andb_true_r.
  - cbv zeta. destruct (TrimSpace t == "") eqn:E; go_bool.
    + rewrite filter_cons_False by (rewrite E; tauto). host_step. cbn.
      host_step. eapply safe_mono; [apply IH|]. intros r s (failed & good & -> & Hg & ->). cbn. by exists failed, good.
    + rewrite filter_cons_True by done. host_step. host_step.
      apply Logout_asks. intros r good Hp Hg.
      destruct r as [[]|e|]; [| |done]; cbn; host_step;
        (eapply safe_mono; [apply IH|]); intros r s (failed & others & -> & Ho & ->); cbn;
        eexists _, (good && others)%bool; (split; [done|]); rewrite <- app_assoc, andb_assoc; (split; [|done]);
        intros [H1 H2]%andb_prop; [by apply Ho|by specialize (Hg H1)].
Qed.
Definition disconnect_requests (iqn : string) (targets : list string) : list host_op :=
  map (logout_request iqn) (portals_of targets) ++ [delete_request iqn].
Lemma Disconnect_asks iqn targets :
  safe asking ([], true) (Disconnect iqn targets)
    (fun r '(log, well) => log = disconnect_requests iqn targets /\ r <> Panicked /\ (well = true -> r = Ok tt)).
Proof.
  unfold Disconnect, disconnect_requests. host_step. eapply safe_mono; [apply logout_all_asks|].
  intros r s (failed & good & -> & Hg & ->). host_step. host_step. unfold DeleteDBEntry.
  host_step. host_step; [done|]. intros r _. cbn [step asking app].
  assert (succeeded r = match snd (cmd_output r) with Some _ => false | None => true end) as Es
    by (unfold succeeded; by destruct (snd (cmd_output r))).
  cbn [went_well iscsiadm]. fold (delete_args iqn) (iscsiadm (delete_args iqn)) (delete_request iqn).
  destruct (cmd_output r) as [out [e|]]; cbn [snd] in Es; rewrite Es;
    [destruct (isISCSINodeDBEntryAlreadyAbsent out e)|]; destruct failed; cbn [lift safe ok];
    (split_and!; [done..|]); rewrite ?andb_true_r, ?andb_false_r; cbn; intros H; try done; by specialize (Hg H).
Qed.

(** The requests so far, whether all of them succeeded, and what the host has. *)
Record teardown := { requests : list host_op; all_well : bool; host_has : iscsi_state }.
Definition disconnecting : monitor host teardown :=
  Monitor host teardown (fun _ _ => True) (fun s => tool_honest (host_has s))
    (fun s o r => {| requests := requests s ++ [o]; all_well := (all_well s && went_well o r)%bool;
                     host_has := iscsi_step (host_has s) o r |}).

(** C24: [Disconnect] logs out of every portal that is not blank, in order, and then
    deletes the record of the target, whatever fails in between, and asks for nothing
    else.  When it reports success, none of these sessions and no record of the target is
    left on the host (which, when it fails to remove what it has, does not say that it has
    not); sessions and records of other targets stay.  It reports success if all requests
    succeeded.  A session that was absent before may still make it fail. *)
Theorem Disconnect_complete (iqn : string) (targets : list string) (h : iscsi_state) :
  safe disconnecting {| requests := []; all_well := true; host_has := h |} (Disconnect iqn targets)
    (fun r s =>
       requests s = map (logout_request iqn) (portals_of targets) ++ [delete_request iqn]
       /\ r <> Panicked /\ (all_well s = true -> r = Ok tt)
       /\ torn_from iqn h (host_has s) /\ (r = Ok tt -> torn_down iqn targets (host_has s))).
Proof.
  set (s0 := {| requests := [] |}).
  eapply safe_mono.
  { apply safe_conj; [|apply (Disconnect_tears disconnecting host_has (fun _ => True)); by auto].
    apply (safe_refine asking disconnecting (fun s s' => s = (requests s', all_well s')) ([], true));
      [|done|apply Disconnect_asks].
    intros s s' o -> _. split; [done|]. by intros r _. }
  intros r s [(s1 & -> & ? & ? & ?) (_ & ? & ?)]. by split_and!.
Qed.

(** The tool reports a missing session on its standard error, with status 21.
    [ExecWithTimeout] means to make that the text of the error, but compares it with
    a nil pointer, so that [Logout] does not recognise it. *)
Example absent_session_not_recognised :
  let answer := {| stdout := ""; stderr := "iscsiadm: No matching sessions found";
                   combined := "iscsiadm: No matching sessions found";
                   outcome := ExitedWith 21 "exit status 21"; deadline_exceeded := false |} in
  fst (fst (run (idle_host answer) (Logout "iqn.2024-01.example:t" "10.0.0.1:3260") tt))
  = Err (OsErr (ExitStatus 21) "exit status 21").
Proof. vm_compute. reflexivity. Qed.

(** ** Connecting to a portal *)

(** Waiting is invisible to a monitor that ignores looks and sleeps. *)
Lemma safe_wait {M} (m : monitor host M) s path retries interval transport Q :
  (forall o : host_op, match o with Stat _ | Glob _ | Sleep _ => True | _ => False end ->
     allowed m s o /\ forall r, step m s o r = s) ->
  (forall r, (forall p, r = Ok p -> transport = "tcp" -> p = path) -> Q r s) ->
  safe m s (waitForPathToExist path retries interval transport) Q.
Proof.
  intros Hm HQ. unfold waitForPathToExist. destruct (path == ""); [by apply HQ|].
  assert (forall P, (forall r, (forall p, r = Ok p -> transport = "tcp" -> p = path) -> P r s) ->
            safe m s (pathExists path transport) P) as Hp.
  { intros P HP. unfold pathExists. destruct (transport == "tcp") eqn:E; go_bool; host_step.
    - host_step; [by apply Hm|]. intros r _. rewrite (proj2 (Hm (Stat path) I)). host_step.
      destruct r; cbn; apply HP; naive_solver.
    - host_step; [by apply Hm|]. intros r _. rewrite (proj2 (Hm (Glob path) I)). host_step.
      destruct r as [e|[]]; cbn; apply HP; naive_solver. }
  induction (Z.to_nat retries) as [|n IH]; cbn [wait_loop]; host_step; apply Hp; intros r Hr;
    (destruct (IsNotExist r); [|by apply HQ]).
  - by apply HQ.
  - host_step. host_step; [by apply Hm|]. intros r' _. by rewrite (proj2 (Hm (Sleep (int64_of (second * int64_of interval))) I)).
Qed.

Section connecting.
Context (c : Connector) (iqn portal iFace : string).

Definition node_args : list string := ["-m"; "node"; "-T"; iqn; "-p"; portal].
Definition discover_args : list string :=
  ["-m"; "discoverydb"; "-t"; "sendtargets"; "-p"; portal; "-I"; iFace; "--discover"].
Definition session_chap_args : list string := chap_args node_args (SessionSecrets c) false.
Definition login_request : host_op := iscsiadm (node_args ++ ["-l"]).

(** What the answers so far have established: whether the sessions that the tool has listed
    have that of the portal, once it was asked, ... *)
Record progress := { listed : option bool; discovered : bool; chap_set : bool; logged_in : bool }.
Definition lists_session (r : exec_result) : bool :=
  match cmd_output r with
  | (out, None) => match parseSessions out with
                   | Ok l => existsb (is_session portal iqn) l
                   | _ => false
                   end
  | _ => false
  end.
Definition progressed (s : progress) (args : list string) (r : exec_result) : progress :=
  if decide (args = ["-m"; "session"]) then
    {| listed := Some (lists_session r); discovered := discovered s; chap_set := chap_set s;
       logged_in := logged_in s |}
  else if decide (args = discover_args) then
    {| listed := listed s; discovered := (discovered s || succeeded r)%bool; chap_set := chap_set s;
       logged_in := logged_in s |}
  else if decide (args = session_chap_args) then
    {| listed := listed s; discovered := discovered s; chap_set := (chap_set s || succeeded r)%bool;
       logged_in := logged_in s |}
  else if decide (args = node_args ++ ["-l"]) then
    {| listed := listed s; discovered := discovered s; chap_set := chap_set s;
       logged_in := (logged_in s || succeeded r)%bool |}
  else s.

(** A login needs that the sessions were looked at and this one is not among them, and the
    discovery and the session credentials that were asked for. *)
Definition may_login (s : progress) : Prop :=
  listed s = Some false /\ (DoDiscovery c = true -> discovered s = true)
  /\ (SecretsType (SessionSecrets c) = "chap" -> chap_set s = true).
Definition is_login (args : list string) : Prop :=
  match args with [_; _; _; _; _; _; flag] => flag = "-l" | _ => False end.
Definition connecting : monitor host progress :=
  Monitor host progress
    (fun s o => match o with
                | Command _ _ args => is_login args -> o = login_request /\ may_login s
                | _ => True
                end) (fun _ _ _ => True)
    (fun s o => match o with
                | Command _ _ args => progressed s args
                | _ => fun _ => s
                end).

Lemma connecting_other s args Q :
  args <> ["-m"; "session"] -> args <> discover_args -> args <> session_chap_args ->
  args <> node_args ++ ["-l"] -> ~ is_login args ->
  (forall r, Q r s) -> safe connecting s (iscsiCmd args) Q.
Proof.
  intros H1 H2 H3 H4 H5 HQ. apply safe_iscsiCmd.
  - by intros H.
  - intros r _. cbn. unfold progressed. by rewrite !decide_False by done.
Qed.

Ltac differs := let H := fresh in intros H; cbn in H; (discriminate H || destruct H).
Ltac other_cmd := (unfold cmd_or, cmd_must); apply safe_bind, connecting_other; [differs..|].

(** A step that moves [s] at most by discovery and credentials. *)
Definition prepares (s s' : progress) : Prop :=
  listed s' = listed s /\ logged_in s' = logged_in s
  /\ (discovered s = true -> discovered s' = true) /\ (chap_set s = true -> chap_set s' = true).

Lemma discovery_chap_other s base Q :
  (forall args, chap_args base (DiscoverySecrets c) true = args ->
     args <> ["-m"; "session"] /\ args <> discover_args /\ args <> session_chap_args
     /\ args <> node_args ++ ["-l"] /\ ~ is_login args) ->
  (forall r, Q r s) -> safe connecting s (createCHAPEntries base (DiscoverySecrets c) true) Q.
Proof.
  intros Hd HQ. unfold createCHAPEntries, cmd_or. destruct (Hd _ eq_refl) as (? & ? & ? & ? & ?).
  apply safe_bind, connecting_other; try done. intros [[out [e|]]|e|]; cbn; apply HQ.
Qed.

Lemma Discoverydb_prepares s :
  safe connecting s (Discoverydb portal iFace (DiscoverySecrets c) (DoCHAPDiscovery c))
    (fun r s' => prepares s s' /\ (r = Ok tt -> discovered s' = true)).
Proof.
  unfold Discoverydb. host_step. other_cmd. intros [[out [e|]]|e|]; cbn; try by split.
  host_step.
  assert (safe connecting s
    ('(_, err) ← iscsiCmd discover_args;
     match err with
     | Some _ =>
         _ ← iscsiCmd ["-m"; "discoverydb"; "-t"; "sendtargets"; "-p"; portal;
                       "-I"; iFace; "-o"; "delete"];
         lift (Err (PlainErr "failed to sendtargets to portal %s, err: %v"))
     | None => ok tt
     end) (fun r s' => prepares s s' /\ (r = Ok tt -> discovered s' = true))) as Hk.
  { host_step. host_step; [by intros H|]. intros r _.
    cbn [step connecting iscsiadm]. unfold progressed. rewrite decide_False by differs.
    rewrite decide_True by done. unfold succeeded, prepares.
    destruct (cmd_output r) as [o [e|]]; cbn.
    - other_cmd. intros [[o' e']|e'|]; cbn; rewrite orb_false_r; by split_and!.
    - rewrite orb_true_r. by split_and!. }
  destruct (DoCHAPDiscovery c); [|exact Hk].
  apply discovery_chap_other; [intros args <-; split_and!; differs|].
  intros [[]|e|]; [exact Hk|by split..].
Qed.

Lemma CreateDBEntry_prepares s :
  safe connecting s (CreateDBEntry iqn portal iFace (DiscoverySecrets c) (SessionSecrets c))
    (fun r s' => prepares s s' /\ discovered s' = discovered s
       /\ (r = Ok tt -> SecretsType (SessionSecrets c) = "chap" -> chap_set s' = true)).
Proof.
  unfold CreateDBEntry. host_step. other_cmd. intros [[out [e|]]|e|]; cbn; try by split_and!.
  host_step.
  assert (safe connecting s
    (if SecretsType (SessionSecrets c) == "chap"
     then createCHAPEntries node_args (SessionSecrets c) false else ok tt)
    (fun r s' => prepares s s' /\ discovered s' = discovered s
       /\ (r = Ok tt -> SecretsType (SessionSecrets c) = "chap" -> chap_set s' = true))) as Hk.
  { destruct (_ == "chap") eqn:E; go_bool; [|by split_and!].
    unfold createCHAPEntries. host_step; [differs|]. intros r _.
    cbn [step connecting iscsiadm]. unfold progressed. rewrite !decide_False by differs.
    rewrite decide_True by done. unfold prepares. cbn.
    destruct (succeeded r); rewrite ?orb_true_r, ?orb_false_r; by split_and!. }
  destruct (SecretsType (DiscoverySecrets c) == "chap"); [|exact Hk].
  apply discovery_chap_other; [intros args <-; split_and!; differs|].
  intros [[]|e|]; [exact Hk|by split_and!..].
Qed.

Lemma discoverTarget_prepares s :
  safe connecting s (discoverTarget c iqn iFace portal)
    (fun r s' => prepares s s' /\ (r = Ok tt -> listed s = Some false -> may_login s')).
Proof.
  unfold discoverTarget, may_login. host_step.
  assert (forall s1, prepares s s1 -> (DoDiscovery c = true -> discovered s1 = true) ->
    safe connecting s1
      (if (DoCHAPDiscovery c || (SecretsType (SessionSecrets c) == "chap"))%bool
       then CreateDBEntry iqn portal iFace (DiscoverySecrets c) (SessionSecrets c) else ok tt)
      (fun r s' => prepares s s' /\ (r = Ok tt -> listed s = Some false -> listed s' = Some false /\
         (DoDiscovery c = true -> discovered s' = true) /\
         (SecretsType (SessionSecrets c) = "chap" -> chap_set s' = true)))) as Hk.
  { intros s1 (Hl & Hi & Hd & Hc) Hdisc. unfold prepares.
    destruct (_ || _)%bool eqn:E; go_bool.
    - eapply safe_mono; [apply CreateDBEntry_prepares|].
      intros r s' ((-> & -> & Hd' & Hc') & Hd2 & Hok). rewrite Hl, Hi, Hd2.
      split_and!; auto.
    - cbn. rewrite Hl, Hi. split_and!; auto; intros _ ?; split_and!; auto; congruence. }
  destruct (DoDiscovery c) eqn:E; [|by apply Hk].
  eapply safe_mono; [apply Discoverydb_prepares|].
  intros [[]|e|] s' [Hp Hok]; [apply Hk; auto|by split..].
Qed.

Definition no_progress : progress :=
  {| listed := None; discovered := false; chap_set := false; logged_in := false |}.

Lemma rescan_nothing tp Q :
  (forall r, Q r no_progress) ->
  safe connecting no_progress (rescan_sessions ["-m"; "node"; "-T"; iqn; "-p"; tp]) Q.
Proof.
  intros HQ. unfold rescan_sessions. other_cmd.
  intros [[out [[| |[] ?]|]]|e|]; cbn; auto.
  split; [intros H; discriminate H|]. intros r _. unfold progressed.
  rewrite !decide_False by differs. destruct (exec_error (outcome r)); apply HQ.
Qed.

(** The look at the sessions: its answer is what the monitor sees. *)
Lemma sessionExists_listed Q :
  (forall b, Q (Ok b) {| listed := Some b; discovered := false; chap_set := false; logged_in := false |}) ->
  (forall s, Q Panicked s) ->
  safe connecting no_progress
    (catch (sessionExists portal iqn)
       (fun r => match r with Ok b => ok b | Err _ => ok false | Panicked => lift Panicked end)) Q.
Proof.
  intros HQ HP. host_step. unfold sessionExists, getCurrentSessions, GetSessions.
  host_step. host_step. host_step; [differs|]. intros r _. cbn [step connecting iscsiadm].
  unfold progressed. rewrite decide_True by done. unfold lists_session. cbn.
  destruct (cmd_output r) as [out [e|]]; cbn.
  - destruct e as [| |[| |n|] ?]; try apply HQ.
    destruct (decide (n = 21)) as [->|Hn]; [apply HQ|]. destruct n as [|n|]; try apply HQ.
    repeat (destruct n; try apply HQ).
  - destruct (parseSessions out) as [l|e|]; cbn; [apply HQ..|apply HP].
Qed.

Lemma login_then_wait (path transport : string) s :
  may_login s ->
  safe connecting s
    (_ ← Login iqn portal;
     waitForPathToExist path (RetryCount c) (CheckInterval c) transport)
    (fun r s => forall p, r = Ok p -> (listed s = Some true \/ logged_in s = true)
       /\ (transport = "tcp" -> p = path)).
Proof.
  intros Hs. host_step. unfold Login. host_step. host_step; [intros _; by split|]. intros r _.
  cbn [step connecting iscsiadm]. unfold progressed. rewrite !decide_False by differs.
  rewrite decide_True by done. unfold succeeded. destruct (cmd_output r) as [out [e|]]; cbn.
  - other_cmd. by intros [[o e']|e'|].
  - apply safe_wait; [by intros []|]. intros r' Hr p ->. rewrite orb_true_r.
    split; [by right|]. intros Ht. by apply Hr.
Qed.

End connecting.

Definition portal_of (target : string) : string :=
  Join [nth 0 (SplitByte target ":") ""; nth 1 (SplitByte target ":") defaultPort] ":".


(** ** The file of a connector, written and read *)

(** The files as the program has left them. *)
Definition file_step (s : gmap string string) (o : host_op) : host_resp o -> gmap string string :=
  match o with
  | CreateFile p => fun r => match r with None => <[p := ""]> s | Some _ => s end
  | WriteCreated p t => fun r => match r with None => <[p := default "" (s !! p) +:+ t]> s | Some _ => delete p s end
  | RemoveFile p => fun _ => delete p s
  | _ => fun _ => s
  end.
(** A file that is known is read as it was left; only files are touched. *)
Definition file_system : monitor host (gmap string string) :=
  Monitor host (gmap string string)
    (fun _ o => match o with CreateFile _ | WriteCreated _ _ | ReadFile _ => True | _ => False end)
    (fun s o => match o return host_resp o -> Prop with
                | ReadFile p => fun r => forall t, s !! p = Some t -> r = inr t
                | _ => fun _ => True
                end)
    file_step.

(** C34: the connector that is written to a file is the one that is read from it: what
    stands between the two is an error of the operating system while it was written. *)
Theorem persisted_connector_read (c : Connector) (path : string) (s : gmap string string) :
  connector_ok c ->
  safe file_system s (_ ← Persist c path; read_connector path)
    (fun r s' => r = Ok c /\ s' = <[path := encode_connector c]> s
                 \/ r = Err (PlainErr "error creating iSCSI persistence file %s: %s") /\ s' = s
                 \/ r = Err (PlainErr "error encoding connector: %v") /\ s' = delete path s).
Proof.
  intros Hc. apply safe_bind. unfold Persist. host_step. split; [done|]. intros [e|] _.
  { cbn. auto. }
  host_step. split; [done|]. intros [e|] _; cbn [step file_system file_step].
  { right; right. split; [done|]. apply delete_insert_eq. }
  rewrite lookup_insert_eq, insert_insert_eq. cbn [default String.append prog_bind safe ok lift id].
  unfold read_connector. host_step. split; [done|]. intros r Hr. cbn [assumed file_system] in Hr.
  rewrite (Hr _ (lookup_insert_eq _ _ _)).
  cbn [safe]. rewrite decode_encode_connector by done. left. split; reflexivity.
Qed.

Definition example_disk : Device :=
  {| dName := "sda"; Hctl := "2:0:0:1"; Children := []; dType := "disk"; Transport := "iscsi"; Size := "" |}.
Definition example_connector : Connector :=
  {| cVolumeName := "pvc-1"; cTargetIqn := "iqn.1991-05.com.microsoft:pvc-1"; TargetPortals := ["10.0.0.5:3260"];
     Lun := 1; AuthType := "chap"; DiscoverySecrets := zero_Secrets;
     SessionSecrets := {| SecretsType := "chap"; UserName := "u"; Password := "<secret>"; UserNameIn := "";
                          PasswordIn := "" |};
     cInterface := "default"; MountTargetDevice := Some example_disk; Devices := [example_disk];
     RetryCount := 10; CheckInterval := 1; DoDiscovery := true; DoCHAPDiscovery := false |}.
Lemma example_connector_ok : connector_ok example_connector.
Proof.
  assert (device_ok example_disk) as Hd by (constructor; by_decide || constructor).
  unfold connector_ok, secrets_ok, in_int32. split_and!; try (by_decide || (cbn; lia)).
    - intros d [= <-]. exact Hd.
    - by repeat constructor.
Qed.
Lemma persisted_connector_read_witness :
  connector_ok example_connector /\
  safe file_system ∅ (_ ← Persist example_connector "/c.json"; read_connector "/c.json")
    (fun r s' => r = Ok example_connector /\ s' = {["/c.json" := encode_connector example_connector]}
                 \/ r = Err (PlainErr "error creating iSCSI persistence file %s: %s") /\ s' = ∅
                 \/ r = Err (PlainErr "error encoding connector: %v") /\ s' = ∅).
Proof.
  split; [exact example_connector_ok|]. exact (persisted_connector_read example_connector "/c.json" ∅ example_connector_ok).
Defined.
