(* ===== verification/DeviceFacts.v ===== *)
(** * SCSI devices: what lsblk reports, how devices are removed, and what a multipath
    device guarantees. *)
From S2P Require Import Prelude GoStrings GoStrconv GoPath Prog Host Iscsiadm Devices Connector.
From S2P Require Import IscsiFacts.

(** ** lsblk *)

Lemma map_lookup_Some {A B} (f : A -> B) l i y :
  (exists x, l !! i = Some x /\ y = f x) -> map f l !! i = Some y.
Proof.
  intros (x & Hx & ->). revert i Hx. induction l as [|a l IH]; intros [|i] Hx; try done; cbn in *;
    [by simplify_eq|by apply IH].
Qed.

(** The names of the rows, from row [i] on, whose parent is row [p]. *)
Fixpoint child_names (index : gmap string nat) (p : nat) (rows : list lsblk_row) : list string :=
  match rows with
  | [] => []
  | row :: rest =>
      (if decide (row_pkname row <> "" /\ index !! row_pkname row = Some p)
       then [dName (row_device row)] else []) ++ child_names index p rest
  end.

(** The rows still to come are in the store, under their names. *)
Definition rows_at (i : nat) (rows : list lsblk_row) (devices : list Device) : Prop :=
  forall k row, rows !! k = Some row ->
    exists d, devices !! (i + k)%nat = Some d /\ dName d = dName (row_device row).

Lemma rows_at_tail i row rows devices :
  rows_at i (row :: rows) devices -> rows_at (S i) rows devices.
Proof. intros H k r Hr. destruct (H (S k) r Hr) as (d & Hd & ?). exists d. by rewrite Nat.add_succ_r in Hd. Qed.
Lemma rows_at_insert i rows devices p d d' :
  rows_at i rows devices -> devices !! p = Some d -> dName d' = dName d ->
  rows_at i rows (<[p := d']> devices).
Proof.
  intros H Hp Hd k row Hr. destruct (H k row Hr) as (e & He & Hn).
  destruct (decide (p = (i + k)%nat)) as [->|Hpk].
  - exists d'. rewrite list_lookup_insert_eq by (by eapply lookup_lt_Some).
    rewrite Hp in He. by simplify_eq; split; [|congruence].
  - exists e. by rewrite list_lookup_insert_ne.
Qed.

(** A device of the store before and after the loop. *)
Definition grown (names : list string) (d d' : Device) : Prop :=
  dName d' = dName d /\ dType d' = dType d /\ Transport d' = Transport d /\ Hctl d' = Hctl d
  /\ Size d' = Size d /\ map dName (Children d') = map dName (Children d) ++ names.

Lemma attach_children_grown index : forall rows i devices devices',
  attach_children index i (map row_pkname rows) devices = Ok devices' ->
  rows_at i rows devices ->
  length devices' = length devices
  /\ forall p d, devices !! p = Some d ->
       exists d', devices' !! p = Some d' /\ grown (child_names index p rows) d d'.
Proof.
  induction rows as [|row rows IH]; intros i devices devices' H Hn; cbn [map attach_children] in H.
  - simplify_res. split; [done|]. intros p d Hd. exists d. unfold grown. cbn. by rewrite app_nil_r.
  - cbn [child_names]. pose proof (rows_at_tail _ _ _ _ Hn) as Ht.
    destruct (row_pkname row == "") eqn:E; go_bool.
    { destruct (IH _ _ _ H Ht) as [Hl Hc]. split; [done|].
      intros p d Hd. rewrite decide_False by tauto. by apply Hc. }
    destruct (index !! row_pkname row) as [q|] eqn:Eq; [|done].
    destruct (devices !! q) as [parent|] eqn:Ep; [|done].
    destruct (devices !! i) as [device|] eqn:Ed; [|done].
    destruct (IH _ _ _ H) as [Hl Hc]; [by eapply rows_at_insert|].
    rewrite length_insert in Hl. split; [done|]. intros p d Hd.
    destruct (decide (p = q)) as [->|Hpq].
    + rewrite Ep in Hd. simplify_eq.
      destruct (Hc q (with_Children d (Children d ++ [device]))) as (d' & ? & ? & ? & ? & ? & ? & Hch);
        [apply list_lookup_insert_eq; by eapply lookup_lt_Some|].
      exists d'. split; [done|]. split_and!; try done. rewrite Hch, decide_True by done. cbn.
      rewrite map_app, <- app_assoc. do 2 f_equal.
      destruct (Hn 0%nat row eq_refl) as (e & He & <-). rewrite Nat.add_0_r, Ed in He.
      by injection He as ->.
    + destruct (Hc p d) as (d' & ? & Hg); [by rewrite list_lookup_insert_ne|].
      exists d'. split; [done|]. rewrite decide_False; [done|]. intros [_ ?]. congruence.
Qed.

(** The rows without a parent, with their places. *)
Definition root_rows (start : nat) (rows : list lsblk_row) : list (nat * lsblk_row) :=
  filter (fun pr => row_pkname (snd pr) = "") (zip (seq start (length rows)) rows).

Lemma roots_rows (R : nat -> lsblk_row -> Device -> Prop) : forall rows start devices,
  length devices = length rows ->
  (forall k row d, rows !! k = Some row -> devices !! k = Some d -> R (start + k)%nat row d) ->
  Forall2 (fun pr d => R (fst pr) (snd pr) d) (root_rows start rows)
    (roots (map row_pkname rows) devices).
Proof.
  induction rows as [|row rows IH]; intros start [|d devices] Hl HR; try done; try by constructor.
  unfold root_rows, roots in *. cbn [length seq zip zip_with map].
  assert (Forall2 (fun pr d => R (fst pr) (snd pr) d) (root_rows (S start) rows)
            (roots (map row_pkname rows) devices)) as Ht.
  { apply IH; [by injection Hl|]. intros k r d' Hr Hd. specialize (HR (S k) r d' Hr Hd).
    by rewrite Nat.add_succ_r in HR. }
  specialize (HR 0%nat row d eq_refl eq_refl). rewrite Nat.add_0_r in HR.
  destruct (decide (row_pkname row = "")).
  - rewrite !filter_cons_True by done. by constructor.
  - by rewrite !filter_cons_False by done.
Qed.

(** The devices read from lsblk are the rows without a parent, in order, with the
    columns of their row; the names of their children are those of the rows that name
    them as parent, in order. *)
Theorem parse_lsblk_roots (out : string) (devices : list Device) :
  parse_lsblk out = Ok devices ->
  exists rows, mapM parse_row (SplitByte (Trim out (String newline "")) newline) = Ok rows
    /\ Forall2 (fun pr d => grown (child_names (devicesMap rows) (fst pr) rows)
                              (row_device (snd pr)) d)
         (root_rows 0 rows) devices.
Proof.
  unfold parse_lsblk. intros H. apply res_bind_Ok in H as (rows & Hrows & H). cbv zeta in H.
  apply res_bind_Ok in H as (ds & Ha & H). injection H as <-. exists rows. split; [done|].
  apply attach_children_grown in Ha as [Hl Hc].
  - rewrite length_map in Hl. apply (roots_rows (fun p row d => grown (child_names (devicesMap rows) p rows) (row_device row) d)); [done|]. intros k row d Hr Hd.
    destruct (Hc k (row_device row)) as (d' & Hd' & Hg);
      [by apply map_lookup_Some; eauto|].
    rewrite Hd in Hd'. by injection Hd' as <-.
  - intros k row Hr. exists (row_device row). split; [|done]. apply map_lookup_Some; eauto.
Qed.

Definition two_paths : string :=
  Join ["sda sda  1:0:0:0 disk iscsi 1G"; "mpatha dm-0 sda  mpath  1G";
        "sdb sdb  2:0:0:0 disk iscsi 1G"; "mpatha dm-0 sdb  mpath  1G"; ""] (String newline "").
Lemma parse_lsblk_roots_witness : exists rows,
  mapM parse_row (SplitByte (Trim two_paths (String newline "")) newline) = Ok rows
  /\ Forall2 (fun pr d => grown (child_names (devicesMap rows) (fst pr) rows)
                            (row_device (snd pr)) d)
       (root_rows 0 rows) (match parse_lsblk two_paths with Ok l => l | _ => [] end).
Proof. exact (parse_lsblk_roots two_paths _ ltac:(vm_compute; reflexivity)). Defined.

(** A child is copied before its own children are known, so that grandchildren are
    lost; and a line of five or six columns passes the check and panics. *)
Example grandchildren_lost :
  option_map (fun d => map Children (Children d))
    (match parse_lsblk (Join ["sda sda  1:0:0:0 disk iscsi 1G"; "sda1 sda1 sda  part  1G";
                              "vg dm-0 sda1  lvm  1G"] (String newline ""))
     with Ok [d] => Some d | _ => None end) = Some [[]].
Proof. vm_compute. reflexivity. Qed.
Example short_row_panics : parse_lsblk "sda sda  1:0:0:0 disk" = Panicked.
Proof. vm_compute. reflexivity. Qed.
Example session_without_colon_panics :
  parseSessions "tcp: [1] 10.0.0.1:3260,1 eui.02004567A425678D" = Panicked.
Proof. vm_compute. reflexivity. Qed.

(** ** Removing devices *)

Definition state_file (d : Device) : string :=
  PathJoin ["/sys/class/scsi_device"; Hctl d; "device"; "state"].
Definition delete_file (d : Device) : string :=
  PathJoin ["/sys/class/scsi_device"; Hctl d; "device"; "delete"].
Definition offline_text : string := "offline" +:+ String newline "".

(** What the answers have established: device nodes whose buffers are flushed, or that are
    absent; multipath maps that are flushed, or absent; state files that were written, and
    control files that took the write or are gone. *)
Record removal := {
  settled : list string; unmapped : list string; offline : list string; removed : list string
}.
Definition nothing_removed : removal := {| settled := []; unmapped := []; offline := []; removed := [] |}.

Definition absent {A} (r : oserr + A) : bool :=
  match r with inl {| kind := NotExist |} => true | _ => false end.
Definition written (r : option oserr) : bool := match r with None => true | Some _ => false end.
Definition last_write (content : string) (r : option oserr) : bool :=
  match r with
  | None => content != offline_text
  | Some {| kind := NotExist |} => true
  | Some _ => false
  end.

Definition command_ok (timeout : option Z) (r : exec_result) : bool :=
  match timeout with
  | Some _ => succeeded r
  | None => match exec_error (outcome r) with None => true | Some _ => false end
  end.
Definition if_ok (b : bool) (p : string) (l : list string) : list string := if b then p :: l else l.
Definition removal_step (s : removal) (o : host_op) : host_resp o -> removal :=
  match o with
  | Stat p => fun r =>
      {| settled := if_ok (absent r) p (settled s); unmapped := if_ok (absent r) p (unmapped s);
         offline := offline s; removed := removed s |}
  | Command timeout name [flag; p] => fun r =>
      {| settled := if_ok (bool_decide (name = "blockdev" /\ flag = "--flushbufs") && command_ok timeout r) p
                      (settled s);
         unmapped := if_ok (bool_decide (name = "multipath" /\ flag = "-f") && command_ok timeout r) p
                      (unmapped s);
         offline := offline s; removed := removed s |}
  | WriteExisting p content => fun r =>
      {| settled := settled s; unmapped := unmapped s;
         offline := if_ok (written r && (content == offline_text)) p (offline s);
         removed := if_ok (last_write content r) p (removed s) |}
  | _ => fun _ => s
  end.

Section removing.
Context (devices : list Device) (first : option Device).

Definition first_settled (s : removal) : Prop :=
  match first with Some d => GetPath d ∈ unmapped s | None => True end.
Definition may_write (s : removal) (path content : string) : Prop :=
  first_settled s /\ exists d, d ∈ devices
  /\ ((path = state_file d /\ content = offline_text /\ GetPath d ∈ settled s)
      \/ (path = delete_file d /\ content = "1" /\ state_file d ∈ offline s)).
(** The disks are read with scsi_id, a device is flushed with [blockdev --flushbufs], the map
    with [multipath -f]. *)
Definition may_run (name : string) (args : list string) : Prop :=
  name = "scsi_id"
  \/ (name = "blockdev" /\ exists d, d ∈ devices /\ args = ["--flushbufs"; GetPath d])
  \/ (name = "multipath" /\ exists d, first = Some d /\ args = ["-f"; GetPath d]).
Definition removing : monitor host removal :=
  Monitor host removal
    (fun s o => match o with
                | WriteExisting path content => may_write s path content
                | Command _ name args => may_run name args
                | Stat _ => True
                | _ => False
                end)
    (fun _ _ _ => True) removal_step.

Definition extends (s s' : removal) : Prop :=
  (forall x, x ∈ settled s -> x ∈ settled s') /\ (forall x, x ∈ unmapped s -> x ∈ unmapped s')
  /\ (forall x, x ∈ offline s -> x ∈ offline s') /\ (forall x, x ∈ removed s -> x ∈ removed s').
#[export] Instance extends_preorder : PreOrder extends.
Proof.
  split; [intros x; unfold extends; by split_and!|].
  intros x y z (? & ? & ? & ?) (? & ? & ? & ?). unfold extends. split_and!; auto.
Qed.
Lemma first_settled_extends s s' : extends s s' -> first_settled s -> first_settled s'.
Proof. intros (_ & H & _) Hf. unfold first_settled in *. destruct first; auto. Qed.

Lemma elem_if_ok b p l x : x ∈ l -> x ∈ if_ok b p l.
Proof. destruct b; [by constructor|done]. Qed.
Lemma removal_step_extends s o r : extends s (removal_step s o r).
Proof.
  destruct o as [t n [|a [|p [|]]]|p| |p content| | | | | | | | | | | | | | | | | | | | | |]; try done; cbn;
    split_and!; cbn; auto using elem_if_ok.
Qed.

Lemma flush_settles s d :
  d ∈ devices -> safe removing s (flush d) (fun r s' => extends s s' /\ (r = Ok tt -> GetPath d ∈ settled s')).
Proof.
  intros Hd. unfold flush, Exists. host_step. host_step. host_step; [done|]. intros r _.
  pose proof (removal_step_extends s (Stat (GetPath d)) r) as He.
  destruct r as [[k t]|b]; cbn [failing lift safe os_error kind text].
  - destruct k; split; try exact He; try done. intros _. by constructor.
  - host_step. host_step. host_step; [right; left; split; [done|by exists d]|].
    intros r' _. cbn [step removing].
    pose proof (removal_step_extends (removal_step s (Stat (GetPath d)) (inr b))
      (Command None "blockdev" ["--flushbufs"; GetPath d]) r') as He'.
    cbn [removal_step command_ok step removing] in He' |- *.
    destruct (exec_error (outcome r')) as [e|]; (split; [by etrans|]); [done|].
    intros _. by constructor.
Qed.

Lemma detach_removes s d :
  d ∈ devices -> first_settled s -> GetPath d ∈ settled s ->
  safe removing s (detach d)
    (fun r s' => extends s s' /\ r <> Panicked /\
       (r = Ok None -> state_file d ∈ removed s' \/ delete_file d ∈ removed s')).
Proof.
  intros Hd Hf Hs. unfold detach. host_step. unfold Shutdown, WriteDeviceFile, writeInSCSIDeviceFile.
  host_step. host_step; [split; [done|]; exists d; split; [done|]; by left|]. intros r _.
  fold (state_file d). cbn [step removing].
  pose proof (removal_step_extends s (WriteExisting (state_file d) offline_text) r) as He.
  destruct r as [[k t]|]; cbn [failing_unit lift safe os_error kind text].
  - destruct k; cbn; split_and!; try done. intros _. left. by constructor.
  - host_step. host_step. unfold Delete, WriteDeviceFile, writeInSCSIDeviceFile. host_step.
    set (s1 := removal_step s _ _). fold (delete_file d).
    host_step.
    + split; [by eapply first_settled_extends|]. exists d. split; [done|]. right. split_and!; [done..|].
      subst s1. cbn. by constructor.
    + intros r _. cbn [step removing].
      pose proof (removal_step_extends s1 (WriteExisting (delete_file d) "1") r) as He'.
      destruct r as [[k t]|]; cbn [failing_unit lift safe os_error kind text].
      * destruct k; cbn; split_and!; try done; try by etrans. intros _. right. by constructor.
      * split_and!; [by etrans|done|]. intros _. right. by constructor.
Qed.

Lemma remove_devices_ordered l : forall errs s,
  (forall d, d ∈ l -> d ∈ devices) -> first_settled s ->
  safe removing s (remove_devices errs l)
    (fun r s' => extends s s' /\ (r = Ok tt -> errs = None /\
       forall d, d ∈ l -> state_file d ∈ removed s' \/ delete_file d ∈ removed s')).
Proof.
  induction l as [|d l IH]; intros errs s Hl Hf; cbn [remove_devices].
  - destruct errs; cbn; split; try done. intros _. split; [done|]. intros d Hd. by apply elem_of_nil in Hd.
  - host_step. eapply safe_mono; [apply flush_settles, Hl; by constructor|]. intros [[]|e|] s1 [He1 Hs1];
      [|by split..].
    host_step. eapply safe_mono.
    { apply (detach_removes s1 d); [apply Hl; by constructor|by eapply first_settled_extends|by apply Hs1]. }
    intros [err|e|] s2 (He2 & Hp & Hd); [|by split; [etrans|]|done].
    eapply safe_mono; [apply IH|].
    + intros x Hx. apply Hl. by constructor.
    + eapply first_settled_extends; [|done]. by etrans.
    + intros r s3 [He3 Hr]. split; [by do 2 (etrans; [done|])|]. intros Hok.
      destruct (Hr Hok) as [Herr Hall].
      destruct errs; [done|]. subst err. split; [done|]. intros x [->|Hx]%elem_of_cons; [|by apply Hall].
      destruct He3 as (_ & _ & _ & He3). destruct (Hd eq_refl); [left|right]; by apply He3.
Qed.

(** Programs that only read what identifies a disk. *)
Definition no_write (o : host_op) : Prop :=
  match o with Command _ name _ => name = "scsi_id" | _ => False end.
Lemma only_extends {A} (p : prog host A) s :
  only (E := host) no_write p -> safe removing s p (fun _ s' => extends s s').
Proof.
  unfold only. revert s. induction p as [a|o k IH]; intros s; cbn [safe]; [done|].
  intros [Ha Hk]. split; [destruct o; try done; by left|]. intros r _. eapply safe_mono; [by apply IH, Hk|].
  intros a s' He. etrans; [|exact He]. apply removal_step_extends.
Qed.

Lemma check_devices_no_write reference l : forall s,
  only (E := host) no_write (check_devices reference s l).
Proof.
  induction l as [|d l IH]; intros s; cbn [check_devices]; [done|].
  destruct (Size d != Size reference); [done|]. apply only_bind; [done|]. intros s'.
  apply only_bind.
  - unfold only. host_step. unfold WWID. host_step. host_step; [done|]. intros r _.
    destruct (cmd_output r) as [out [e|]]; [done|]. by destruct (out == "").
  - intros w. by destruct (w != dName reference).
Qed.
Lemma multipath_guard_no_write c : only (E := host) no_write (multipath_guard c).
Proof.
  unfold multipath_guard. apply only_bind; [done|]. intros []; [|done].
  unfold only. host_step. eapply safe_mono.
  - unfold IsMultipathConsistent. apply (only_bind (E := host) no_write); [done|].
    intros d. apply check_devices_no_write.
  - by intros [[]|e|] [] _.
Qed.

Lemma FlushMultipathDevice_settles s d :
  first = Some d ->
  safe removing s (FlushMultipathDevice d)
    (fun r s' => extends s s' /\ (r = Ok tt -> GetPath d ∈ unmapped s')).
Proof.
  intros Hf. unfold FlushMultipathDevice. host_step. host_step; [right; right; split; [done|by exists d]|].
  intros r _. cbn [step removing].
  set (o := Command _ _ _). pose proof (removal_step_extends s o r) as He.
  subst o. cbn [removal_step command_ok] in He |- *. unfold succeeded in *.
  destruct (cmd_output r) as [out [e|]]; cbn [snd] in He |- *.
  - host_step. host_step; [done|]. intros st _. cbn [step removing].
    match goal with |- context [removal_step ?s1 (Stat ?p) st] =>
      pose proof (removal_step_extends s1 (Stat p) st) as He' end.
    destruct st as [[[] t]|b]; try (destruct (Contains _ _)); cbn in He, He' |- *;
      (split; [by etrans|]); try done. intros _. by constructor.
  - split; [done|]. intros _. by constructor.
Qed.

End removing.

Definition to_remove (c : Connector) (d : Device) : list Device :=
  if dType d == "mpath" then Devices c else [d].
Definition map_of (d : Device) : option Device := if dType d == "mpath" then Some d else None.
Definition all_removed (l : list Device) (s : removal) : Prop :=
  forall d, d ∈ l -> state_file d ∈ removed s \/ delete_file d ∈ removed s.
Lemma DisconnectVolume_removes c d :
  MountTargetDevice c = Some d ->
  safe (removing (to_remove c d) (map_of d)) nothing_removed (DisconnectVolume c)
    (fun r s => r = Ok tt -> all_removed (to_remove c d) s).
Proof.
  intros Ed. unfold to_remove, map_of, all_removed, DisconnectVolume.
  assert (mount_target c = Ok d) as Et by (unfold mount_target; by rewrite Ed).
  assert (IsMultipathEnabled c = Ok (dType d == "mpath")) as ->
    by (unfold IsMultipathEnabled; by rewrite Et).
  rewrite Et.
  host_step. cbn [safe lift]. host_step. cbn [safe lift].
  destruct (dType d == "mpath") eqn:E.
  - host_step. eapply safe_mono; [apply only_extends, multipath_guard_no_write|].
    intros [[]|e|] s1 _; [|done..]. host_step.
    eapply safe_mono; [by apply FlushMultipathDevice_settles|]. intros [[]|e|] s2 [_ Hs]; [|done..].
    eapply safe_mono; [apply remove_devices_ordered; [done|by apply Hs]|].
    intros r s3 [_ Hr] Hok. by apply Hr.
  - eapply safe_mono; [apply remove_devices_ordered; [done|done]|].
    intros r s3 [_ Hr] Hok. by apply Hr.
Qed.


(** ** What is left of a removal that fails

    The requests with their answers. *)
Abbreviation exchange := { o : host_op & host_resp o }.
Definition tracer : monitor host (list exchange) :=
  Monitor host (list exchange) (fun _ _ => True) (fun _ _ _ => True) (fun tr o r => tr ++ [existT o r]).
Definition missing (e : oserr) : bool := match kind e with NotExist => true | _ => false end.
Definition refused (x : exchange) : bool :=
  match x with
  | existT o r =>
      match o return host_resp o -> bool with
      | Command timeout _ _ => fun r => negb (command_ok timeout r)
      | Stat _ => fun r => match r with inl e => negb (missing e) | inr _ => false end
      | WriteExisting _ _ => fun r => match r with Some e => negb (missing e) | None => false end
      | _ => fun _ => false
      end r
  end.
Definition troubled (tr : list exchange) : bool := existsb refused tr.
Definition removal_of (tr : list exchange) : removal :=
  fold_left (fun s (x : exchange) => removal_step s (projT1 x) (projT2 x)) tr nothing_removed.

Definition scsi_id_request (d : Device) : host_op := Command (Some (1 * second)) "scsi_id" ["-g"; "-u"; GetPath d].
(** The devices of a connector are removed, or a request for that was refused, or those of
    a multipath device were looked at and found to be inconsistent. *)
Definition removal_tried (c : Connector) (d : Device) (tr : list exchange) : Prop :=
  all_removed (to_remove c d) (removal_of tr)
  \/ troubled tr = true
  \/ (dType d = "mpath" /\ Forall (fun x => no_write (projT1 x)) tr
      /\ exists r rest, tr = existT (scsi_id_request d) r :: rest).

Definition longer (tr tr' : list exchange) : Prop := exists new, tr' = tr ++ new.
#[export] Instance longer_preorder : PreOrder longer.
Proof.
  split; [intros x; exists []; by rewrite app_nil_r|]. intros x y z [a ->] [b ->]. exists (a ++ b). by rewrite app_assoc.
Qed.
Lemma longer_one tr x : longer tr (tr ++ [x]).
Proof. by exists [x]. Qed.
Lemma troubled_longer tr tr' : longer tr tr' -> troubled tr = true -> troubled tr' = true.
Proof. intros [new ->] H. unfold troubled. rewrite existsb_app. by apply orb_true_intro; left. Qed.
Lemma troubled_last tr x : refused x = true -> troubled (tr ++ [x]) = true.
Proof. intros H. unfold troubled. rewrite existsb_app. cbn. by rewrite H, orb_true_r. Qed.
Lemma only_longer {A} P (p : prog host A) tr :
  only (E := host) P p -> safe tracer tr p (fun _ tr' => exists new, tr' = tr ++ new /\ Forall (fun x => P (projT1 x)) new).
Proof.
  unfold only. revert tr. induction p as [a|o k IH]; intros tr; cbn [safe].
  - intros _. exists []. by rewrite app_nil_r.
  - intros [Ho Hk]. split; [done|]. intros r _. eapply safe_mono; [by apply IH, Hk|].
    intros a tr' (new & -> & Hnew). eexists. cbn [step tracer]. rewrite <- app_assoc. split; [done|]. by constructor.
Qed.

(** A program whose errors come of refused requests. *)
Definition blames {A} (r : res A) (tr tr' : list exchange) : Prop :=
  longer tr tr' /\ forall e, r = Err e -> troubled tr' = true.
Lemma flush_blames tr d : safe tracer tr (flush d) (fun r tr' => blames r tr tr').
Proof.
  unfold flush, Exists. host_step. host_step. host_step; [done|]. intros r _. cbn [step tracer].
  destruct r as [[k t]|b]; cbn [failing lift safe os_error kind text].
  - assert (longer tr (tr ++ [existT (Stat (GetPath d)) (inl (OsError k t))])) as Hl by apply longer_one.
    destruct k; cbn; (split; [exact Hl|]); try done; intros; by apply troubled_last.
  - host_step. host_step. host_step; [done|]. intros r _. cbn [step tracer].
    destruct (exec_error (outcome r)) as [e|] eqn:E; (split; [etrans; apply longer_one|]); [|done].
    intros _ _. apply troubled_last. cbn. by rewrite E.
Qed.
Lemma detach_blames tr d :
  safe tracer tr (detach d)
    (fun r tr' => longer tr tr' /\ (forall e, r <> Err e) /\ (forall e, r = Ok (Some e) -> troubled tr' = true)).
Proof.
  unfold detach. host_step. unfold Shutdown, Delete, WriteDeviceFile, writeInSCSIDeviceFile.
  host_step. host_step; [done|]. intros r _. cbn [step tracer].
  destruct r as [[k t]|]; cbn [failing_unit lift safe os_error kind text].
  - destruct k; cbn; (split; [apply longer_one|split; [done|]]); try done; intros; by apply troubled_last.
  - host_step. host_step. host_step. host_step; [done|]. intros r _. cbn [step tracer].
    destruct r as [[k t]|]; cbn [failing_unit lift safe os_error kind text].
    + destruct k; cbn; (split; [etrans; apply longer_one|split; [done|]]); try done; intros; by apply troubled_last.
    + split; [etrans; apply longer_one|by split].
Qed.
Lemma remove_devices_blames l : forall errs tr,
  (errs <> None -> troubled tr = true) ->
  safe tracer tr (remove_devices errs l) (fun r tr' => blames r tr tr').
Proof.
  induction l as [|d l IH]; intros errs tr He; cbn [remove_devices].
  { destruct errs as [e|]; (split; [done|]); [|done]. intros _ _. by apply He. }
  host_step. eapply safe_mono; [apply flush_blames|]. intros [[]|e|] tr1 [Hl1 Hb]; [| |by split].
  2:{ split; [done|]. intros _ _. by eapply Hb. }
  host_step. eapply safe_mono; [apply detach_blames|]. intros [err|e|] tr2 (Hl2 & Hn & Ho); [|by destruct (Hn e)|].
  2:{ split; [by etrans|done]. }
  eapply safe_mono; [apply IH|].
  - destruct errs as [e|]; [intros _; eapply troubled_longer; [etrans; [exact Hl1|exact Hl2]|by apply He]|].
    destruct err as [e|]; [intros _; by eapply Ho|done].
  - intros r tr3 [Hl3 Hr]. split; [do 2 (etrans; [done|]); done|done].
Qed.
Lemma FlushMultipathDevice_blames tr d : safe tracer tr (FlushMultipathDevice d) (fun r tr' => blames r tr tr').
Proof.
  unfold FlushMultipathDevice. host_step. host_step; [done|]. intros r _. cbn [step tracer].
  destruct (cmd_output r) as [out [e|]] eqn:E; [|split; [apply longer_one|done]].
  host_step. host_step; [done|]. intros st _. cbn [step tracer].
  assert (troubled ((tr ++ [existT (Command (Some (5 * second)) "multipath" ["-f"; GetPath d]) r])
                    ++ [existT (Stat (GetPath d)) st]) = true) as Ht.
  { eapply troubled_longer; [apply longer_one|]. apply troubled_last. cbn. unfold succeeded. by rewrite E. }
  destruct st as [[[] t]|b]; try (destruct (Contains _ _)); cbn; (split; [etrans; apply longer_one|done]).
Qed.

Lemma multipath_guard_looks c d :
  MountTargetDevice c = Some d -> dType d = "mpath" ->
  safe tracer [] (multipath_guard c)
    (fun _ tr => Forall (fun x => no_write (projT1 x)) tr /\ exists r rest, tr = existT (scsi_id_request d) r :: rest).
Proof.
  intros Hd Ht. apply safe_conj.
  { eapply safe_mono; [apply (only_longer no_write), multipath_guard_no_write|]. by intros a tr (new & -> & ?). }
  unfold multipath_guard, IsMultipathEnabled, mount_target. rewrite Hd. cbn [res_bind mbind]. rewrite Ht.
  host_step. cbn [lift safe String.eqb Ascii.eqb Bool.eqb]. unfold IsMultipathConsistent, mount_target. rewrite Hd.
  host_step. host_step. cbn [lift safe check_devices].
  rewrite String.eqb_refl. cbn [negb]. host_step. unfold check_address. rewrite Ht. cbn [lift safe String.eqb Ascii.eqb Bool.eqb].
  host_step. host_step. unfold WWID. host_step. host_step; [done|]. intros r _. cbn [step tracer app].
  fold (scsi_id_request d).
  assert (forall (p : prog host (res unit)) (Q : res unit -> list exchange -> Prop),
            (forall a tr, (exists r' rest, tr = existT (scsi_id_request d) r' :: rest) -> Q a tr) ->
            safe tracer [existT (scsi_id_request d) r] p Q) as H.
  { intros p Q HQ. eapply safe_mono; [apply (only_longer (fun _ => True)), only_any|].
    intros a tr (new & -> & _). apply HQ. by exists r, new. }
  destruct (cmd_output r) as [out [e|]]; cbn [lift safe]; [by exists r, []|].
  destruct (out == ""); cbn [lift safe ok]; [by exists r, []|].
  destruct (str_take _ out == dName d); cbn [negb lift safe]; [|by exists r, []].
  apply H. intros [[]|e|] tr (r' & rest & ->); by exists r', rest.
Qed.

Lemma DisconnectVolume_blames c d :
  MountTargetDevice c = Some d ->
  safe tracer [] (DisconnectVolume c) (fun r tr => r = Ok tt \/ r = Panicked \/ troubled tr = true
    \/ (dType d = "mpath" /\ Forall (fun x => no_write (projT1 x)) tr
        /\ exists r rest, tr = existT (scsi_id_request d) r :: rest)).
Proof.
  intros Hd. unfold DisconnectVolume, IsMultipathEnabled, mount_target. rewrite Hd. cbn [res_bind mbind].
  host_step. cbn [lift safe]. host_step. cbn [lift safe].
  assert (forall A (r : res A) tr tr', blames r tr tr' -> r = Panicked \/ troubled tr' = true \/ exists a, r = Ok a) as Hb.
  { intros A [a|e|] tr tr' [_ H]; [right; right; by exists a|right; left; by eapply H|by left]. }
  destruct (dType d == "mpath") eqn:E; go_bool.
  - host_step. eapply safe_mono; [by apply multipath_guard_looks|]. intros [[]|e|] tr Hg; [|by auto..].
    host_step. eapply safe_mono; [apply FlushMultipathDevice_blames|].
    intros [[]|e|] tr1 [Hl1 Hb1]; [|right; right; left; by eapply Hb1|by auto].
    eapply safe_mono; [apply (remove_devices_blames _ None); done|].
    intros r tr2 H. destruct (Hb _ _ _ _ H) as [?|[?|[[] ?]]]; auto.
  - eapply safe_mono; [apply (remove_devices_blames _ None); done|].
    intros r tr2 H. destruct (Hb _ _ _ _ H) as [?|[?|[[] ?]]]; auto.
Qed.

Lemma DisconnectVolume_tries c d :
  MountTargetDevice c = Some d ->
  safe tracer [] (DisconnectVolume c) (fun r tr => r <> Panicked -> removal_tried c d tr).
Proof.
  intros Hd. eapply safe_mono.
  { apply safe_conj; [by apply DisconnectVolume_blames|].
    apply (safe_refine (removing (to_remove c d) (map_of d)) tracer (fun s tr => s = removal_of tr)
             nothing_removed []); [|done|by apply DisconnectVolume_removes].
    intros s tr o -> _. split; [done|]. intros r _. split; [done|]. cbn [step tracer removing].
    unfold removal_of. by rewrite fold_left_app. }
  intros r tr [Hr (s & -> & Hok)] Hp. unfold removal_tried. destruct Hr as [Hr|[Hr|Hr]]; [auto|done|auto].
Qed.

(** ** What a consistent multipath device guarantees *)

Lemma check_address_Ok s d s' :
  check_address s d = Ok s' ->
  (dType d = "mpath" /\ s' = s)
  \/ (dType d <> "mpath" /\ exists h, HCTL_of d = Ok h /\ HBAs s !! HBA h = None
      /\ HBAs s' = <[HBA h := dName d]> (HBAs s)
      /\ ((refLUN s = -1 /\ refLUN s' = LUN h) \/ (LUN h = refLUN s /\ refLUN s' = refLUN s))).
Proof.
  unfold check_address. intros H. destruct (dType d == "mpath") eqn:E; go_bool;
    [simplify_res; by left|]. right. split; [done|].
  apply res_bind_Ok in H as (h & Hh & H). apply res_bind_Ok in H as (lun & Hl & H).
  exists h. split; [done|]. destruct (HBAs s !! HBA h); [done|]. split; [done|].
  injection H as <-. cbn. split; [done|].
  destruct (refLUN s =? -1)%Z eqn:E1; [go_bool; simplify_res; by left|].
  destruct (LUN h =? refLUN s)%Z eqn:E2; [|done]. go_bool. cbn [negb] in Hl. injection Hl as <-. by right.
Qed.

(** Controllers are distinct, and LUNs equal but for the -1 that no device has. *)
Definition same_disk (s : consistency) (l : list Device) : Prop :=
  exists hs lun, mapM HCTL_of (filter (fun d => dType d <> "mpath") l) = Ok hs
  /\ NoDup (map HBA hs) /\ (forall h, h ∈ hs -> HBAs s !! HBA h = None)
  /\ (refLUN s = -1 \/ lun = refLUN s) /\ (forall h, h ∈ hs -> LUN h = -1 \/ LUN h = lun).

Lemma same_disk_cons s s' d l :
  check_address s d = Ok s' -> same_disk s' l -> same_disk s (d :: l).
Proof.
  intros [[Hm ->]|(Hm & h & Hh & Hnew & Hins & Href)]%check_address_Ok
    (hs & lun & Hhs & Hnd & Hfresh & Hlun & Hall); unfold same_disk.
  { exists hs, lun. rewrite filter_cons_False by tauto. by split_and!. }
  exists (h :: hs), lun. rewrite filter_cons_True by done. cbn [mapM map mbind res_bind].
  rewrite Hh. cbn. rewrite Hhs. cbn. split_and!; try done.
  - constructor; [|done]. intros (h' & Hh' & Hin)%list_elem_of_fmap.
    specialize (Hfresh h' Hin). by rewrite Hins, <- Hh', lookup_insert_eq in Hfresh.
  - intros h' [->|Hin]%elem_of_cons; [done|]. specialize (Hfresh h' Hin). rewrite Hins in Hfresh.
    by apply lookup_insert_None in Hfresh as [? ?].
  - destruct Href as [[-> ?]|[? ?]]; [by left|]. rewrite <- H0. destruct Hlun; [left|right]; congruence.
  - intros h' [->|Hin]%elem_of_cons; [|by apply Hall].
    destruct (decide (LUN h = -1)); [by left|right]. destruct Href as [[_ Hr]|[Hr1 Hr2]], Hlun; congruence.
Qed.

(** The monitor that writes down what [scsi_id] printed for which device. *)
Definition identified : monitor host (list (string * string)) :=
  Monitor host (list (string * string)) (fun _ _ => True) (fun _ _ _ => True)
    (fun s o => match o with
                | Command _ "scsi_id" [_; _; path] => fun r =>
                    match cmd_output r with
                    | (out, None) => (path, str_take (String.length out - 1) out) :: s
                    | _ => s
                    end
                | _ => fun _ => s
                end).

Lemma check_devices_consistent reference l : forall s seen,
  safe identified seen (check_devices reference s l)
    (fun r seen' => (forall x, x ∈ seen -> x ∈ seen') /\ (r = Ok tt ->
       Forall (fun d => Size d = Size reference) l /\ same_disk s l
       /\ Forall (fun d => (GetPath d, dName reference) ∈ seen') l)).
Proof.
  induction l as [|d l IH]; intros s seen; cbn [check_devices].
  - cbn. split; [done|]. intros _. split_and!; [done| |done].
    exists [], (refLUN s). split_and!; try done; [constructor|by intros h ?%elem_of_nil|by right|
      by intros h ?%elem_of_nil].
  - destruct (Size d == Size reference) eqn:E; cbn [negb]; [|by cbn]. go_bool.
    host_step. cbn [lift safe]. destruct (check_address s d) as [s'|e|] eqn:Ea; [|by split..].
    host_step. host_step. unfold WWID. host_step. host_step; [done|]. intros r _.
    cbn [step identified]. destruct (cmd_output r) as [out [e|]]; cbn [lift safe].
    + by cbn.
    + destruct (out == ""); cbn [lift safe ok]; [by split; [intros; by constructor|]|].
      destruct (str_take _ out == dName reference) eqn:Ew; cbn [negb]; go_bool;
        [|split; [intros; by constructor|done]].
      eapply safe_mono; [apply IH|]. intros r' seen' [Hin Hok].
      split; [intros x Hx; apply Hin; by constructor|]. intros Hr.
      destruct (Hok Hr) as (Hsz & Hsame & Hw). split_and!.
      * by constructor.
      * by eapply same_disk_cons.
      * constructor; [|done]. apply Hin. rewrite <- Ew. by constructor.
Qed.

(** C38: when [IsMultipathConsistent] accepts, the map and its devices have one size
    and one WWID, which is the name of the map, the devices are on distinct controllers
    and have one LUN (-1, which marks that none was seen, apart). *)
Theorem IsMultipathConsistent_sound (c : Connector) :
  safe identified [] (IsMultipathConsistent c)
    (fun r seen => r = Ok tt -> exists d, MountTargetDevice c = Some d
       /\ Forall (fun x => Size x = Size d) (Devices c)
       /\ Forall (fun x => (GetPath x, dName d) ∈ seen) (d :: Devices c)
       /\ exists hs lun,
            mapM HCTL_of (filter (fun x => dType x <> "mpath") (d :: Devices c)) = Ok hs
            /\ NoDup (map HBA hs) /\ forall h, h ∈ hs -> LUN h = -1 \/ LUN h = lun).
Proof.
  unfold IsMultipathConsistent, mount_target. host_step. cbn [lift safe].
  destruct (MountTargetDevice c) as [d|]; [|done].
  eapply safe_mono; [apply check_devices_consistent|]. intros r seen [_ Hok] Hr.
  destruct (Hok Hr) as (Hsz & (hs & lun & Hhs & Hnd & _ & _ & Hlun) & Hw).
  exists d. inversion Hsz. split_and!; try done. by exists hs, lun.
Qed.

(** ** Connecting *)

Lemma only_anything {E A} (p : prog E A) : only (fun _ => True) p.
Proof. unfold only. induction p as [a|o k IH]; cbn; [done|]. by split. Qed.

Definition anything : monitor host unit := every (E := host) (fun _ => True).
Lemma safe_anything {A} (p : prog host A) (Q : A -> unit -> Prop) :
  (forall a, Q a tt) -> safe anything tt p Q.
Proof. intros HQ. eapply safe_mono; [apply only_anything|]. intros a [] _. apply HQ. Qed.

Lemma GetISCSIDevices_transport paths strict (Q : res (list Device) -> unit -> Prop) :
  (forall r, (forall l, r = Ok l -> Forall (fun d => Transport d = "iscsi") l) -> Q r tt) ->
  safe anything tt (GetISCSIDevices paths strict) Q.
Proof.
  intros HQ. unfold GetISCSIDevices. apply safe_bind, safe_anything. intros [l|e|]; cbn; apply HQ; try done.
  intros l' H. injection H as <-. apply Forall_forall. by intros d [? ?]%list_elem_of_filter.
Qed.

Lemma common_child_names l : forall found d,
  common_child found l = Ok (Some d) ->
  (forall f, found = Some f -> dName f = dName d)
  /\ Forall (fun x => exists y, Children x = [y] /\ dName y = dName d) l.
Proof.
  induction l as [|x l IH]; intros found d H; cbn in H.
  - simplify_res. by split; [intros f [= ->]|].
  - destruct (Children x) as [|y [|]] eqn:Ey; [done| |done].
    destruct found as [f|].
    + destruct (dName y == dName f) eqn:E; [|done]. go_bool.
      destruct (IH _ _ H) as [Hf Hl]. split; [|constructor; [|done]; exists y; by split; [|apply Hf]].
      intros f' [= <-]. rewrite <- E. by apply Hf.
    + destruct (IH _ _ H) as [Hf Hl]. split; [done|]. constructor; [|done].
      exists y. by split; [|apply Hf].
Qed.

(** The device to mount, from the devices of a connector. *)
Definition mounts (devices : list Device) (d : Device) : Prop :=
  devices = [d] \/ (dType d = "mpath" /\ (1 < length devices)%nat /\
    Forall (fun x => exists y, Children x = [y] /\ dName y = dName d) devices).
Lemma getMountTargetDevice_Ok c d : getMountTargetDevice c = Ok d -> mounts (Devices c) d.
Proof.
  unfold getMountTargetDevice, mounts. destruct (Devices c) as [|x [|y l]]; intros H; [done|by simplify_res; left|].
  right. unfold getMultipathDevice in H. apply res_bind_Ok in H as ([f|] & Hf & H); [|done].
  destruct (dType f == "mpath") eqn:E; [|done]. go_bool. cbn in H. simplify_res.
  split; [done|]. split; [cbn; lia|]. by apply common_child_names in Hf as [_ ?].
Qed.

(** What [Connect] may change. *)
Definition same_volume (c c' : Connector) : Prop :=
  c' = with_devices (MountTargetDevice c') (Devices c') (with_defaults c).

Definition connected (c : Connector) (r : res string) (c' : Connector) : Prop :=
  same_volume c c' /\ forall p, r = Ok p ->
    (exists d, MountTargetDevice c' = Some d /\ p = GetPath d /\ mounts (Devices c') d
       /\ Forall (fun x => Transport x = "iscsi") (Devices c'))
    \/ (p = "" /\ MountTargetDevice c' = None /\ Devices c' = []).

Lemma find_devices_iscsi c c1 iFace paths Q :
  same_volume c c1 ->
  (forall r c2, same_volume c c2 ->
     (r = Ok tt -> Forall (fun x => Transport x = "iscsi") (Devices c2)) -> Q (r, c2) tt) ->
  safe anything tt (find_devices iFace paths c1) Q.
Proof.
  intros Hs HQ. unfold find_devices.
  assert (forall l, same_volume c (with_devices (MountTargetDevice c1) l c1)) as Hd
    by (intros l; unfold same_volume in *; rewrite Hs; done).
  assert (forall l, Forall (fun x => Transport x = "iscsi") l ->
    safe anything tt
      ((c ← self;
        match Devices c with
        | [] =>
            _ ← doing (iscsiCmd ["-m"; "iface"; "-I"; iFace; "-o"; "delete"]);
            returning (Err (PlainErr "failed to find device path: %s, last error seen: %v"))
        | _ => returning (Ok tt)
        end) (with_devices (MountTargetDevice c1) l c1)) Q) as Hk.
  { intros l Hl. apply safe_method_bind. cbn [safe self]. destruct l as [|d l]; cbn [Devices with_devices].
    - apply safe_method_bind, safe_doing, safe_anything. intros []; cbn; by apply HQ.
    - cbn. by apply HQ. }
  apply safe_method_bind. destruct paths as [|p paths].
  - cbn [safe set_devices update]. by apply Hk.
  - apply safe_method_bind. unfold handling. apply safe_prog_bind, GetISCSIDevices_transport.
    intros [l|e|] Hl; cbn [safe].
    + apply Hk. by apply Hl.
    + cbn. by apply HQ.
    + by apply HQ.
Qed.

(** When [Connect] returns a path, it is that of the device the connector now
    names, which is the one iSCSI disk that was found or the multipath map all of them
    belong to; but it also returns "" without an error, when no device can be chosen
    and those that were found could be removed. Nothing else of the connector changes
    but the defaults of its retries. *)
Theorem Connect_result (c : Connector) :
  safe anything tt (Connect c) (fun '(r, c') _ => connected c r c').
Proof.
  unfold Connect. apply safe_method_bind. cbn [safe update].
  apply safe_method_bind. cbn [safe self].
  assert (same_volume c (with_defaults c)) as Hs by done.
  apply safe_method_bind, safe_doing, safe_anything. intros [out|e|]; [|by split..].
  apply safe_method_bind, safe_doing, safe_anything. intros [paths|e|]; [|by split..].
  apply safe_method_bind, (find_devices_iscsi c); [done|].
  intros [[]|e|] c2 Hs2 Hi; [|by split..]. specialize (Hi eq_refl).
  assert (forall t l, same_volume c (with_devices t l c2)) as Hd
    by (intros t l; unfold same_volume in *; rewrite Hs2; done).
  unfold choose_target. apply safe_method_bind. cbn [safe self].
  destruct (getMountTargetDevice c2) as [d|e|] eqn:E; [| |by split].
  - apply safe_method_bind. cbn [safe set_target update]. apply safe_method_bind. cbn [safe self].
    apply safe_method_bind, safe_doing, safe_anything. intros [[]|e|]; [|by split..].
    cbn. split; [done|]. intros p [= <-]. left. exists d. cbn.
    split_and!; try done. by apply getMountTargetDevice_Ok.
  - apply safe_method_bind. cbn [safe set_target update].
    apply safe_method_bind, safe_doing, safe_anything. intros [[]|e'|]; [|by split..].
    cbn. split; [exact (Hd None [])|]. intros p [= <-]. by right.
Qed.

(** The portal of an IPv6 target is cut at its first colon. *)
Example ipv6_portal_cut : portal_of "[fd00::1]:3260" = "[fd00:".
Proof. reflexivity. Qed.
