(* ===== verification/NodeParams.v ===== *)
(** * What the node reads from a request ([pkg/iscsi/nodeserver.go], first part)

    Mount options, the address of a volume from the contexts of a request, and CHAP
    secrets in the form of the iSCSI library. *)
From S2P Require Import Prelude GoStrings GoStrconv Prog Host VolumeID VolumeTypes Params Chap Controller.

(** The access type of a capability: block, mount, or neither. *)
Inductive AccessType := BlockAccess | MountAccess (FsType : string) (MountFlags : list string) | NoAccess.

Definition getStr (m : Params) (k : string) : string * bool :=
  let v := TrimSpace (param m k) in
  (v, match m !! k with Some _ => v != "" | None => false end).

Definition fsTypeFromCapability (vc : option AccessType) : string :=
  match vc with Some (MountAccess fsType _) => TrimSpace fsType | _ => "" end.

(** Options are trimmed, and blank ones dropped. *)
Definition nonblank (opts : list string) : list string :=
  filter (fun o => o <> "") (map TrimSpace opts).

Definition mountOptionsFromCapability (vc : option AccessType) : list string :=
  match vc with Some (MountAccess _ flags) => nonblank flags | _ => [] end.

Definition appendMountOptions (opts : list string) (raw : string) : list string :=
  opts ++ nonblank (SplitByte raw ",").

Definition isSensitiveMountOption (opt : string) : bool :=
  let '(key, _, ok) := CutByte (ToLower (TrimSpace opt)) "=" in
  if negb ok then false
  else
    let key := TrimSpace key in
    ((key == "password") || (key == "pass") || (key == "credentials") || (key == "credential"))%bool.

(** The normal and the sensitive options. *)
Fixpoint splitSensitiveMountOptions (opts : list string) : list string * list string :=
  match opts with
  | [] => ([], [])
  | opt :: rest =>
      let '(normal, sensitive) := splitSensitiveMountOptions rest in
      let trimmed := TrimSpace opt in
      if trimmed == "" then (normal, sensitive)
      else if isSensitiveMountOption trimmed then (normal, trimmed :: sensitive)
      else (trimmed :: normal, sensitive)
  end.

Definition mountOptionsReadOnly (opts : list string) : bool :=
  existsb (fun opt => let o := ToLower (TrimSpace opt) in ((o == "ro") || (o == "readonly"))%bool) opts.

Definition appendOptionIfMissing (opts : list string) (prefix value : string) : list string :=
  if value == "" then opts
  else if ((prefix != "") && existsb (fun opt => HasPrefix (ToLower opt) (ToLower prefix)) opts)%bool
  then opts
  else opts ++ [value].

(** ** Values from several contexts *)

Fixpoint firstContextValue (key : string) (contexts : list Params) : string :=
  match contexts with
  | [] => ""
  | ctx :: rest => let '(value, ok) := getStr ctx key in
                   if ok then value else firstContextValue key rest
  end.

Fixpoint first_key (keys : list string) (ctx : Params) : option string :=
  match keys with
  | [] => None
  | key :: rest => let '(value, ok) := getStr ctx key in
                   if ok then Some value else first_key rest ctx
  end.
Fixpoint firstContextValueForKeys (keys : list string) (contexts : list Params) : string :=
  match contexts with
  | [] => ""
  | ctx :: rest => match first_key keys ctx with
                   | Some value => value
                   | None => firstContextValueForKeys keys rest
                   end
  end.

Definition firstSecretValue (secrets : Params) (keys : list string) : option string :=
  first_key keys secrets.

(** [None] is the nil map. *)
Definition volumeContextFromVolumeID (volumeID : string) (proto : Protocol) : option Params :=
  match DecodeVolumeID volumeID with
  | Ok decoded => if vProtocol decoded != proto then None else Some (volumeContextForVolumeID decoded)
  | _ => None
  end.

Definition iscsiConnectionFromContexts (volumeID : string) (contexts : list Params)
  : res (string * string * Z) :=
  let contexts := contexts ++ option_list (volumeContextFromVolumeID volumeID ProtocolISCSI) in
  let portal := firstContextValueForKeys ["targetPortal"; "portal"] contexts in
  if portal == "" then invalid "targetPortal is required in publishContext, volumeContext, or volumeId"
  else
    _ ← validateTargetPortal portal;
    let iqn := firstContextValueForKeys ["iqn"; "targetIQN"; "targetIqn"] contexts in
    if iqn == "" then invalid "iqn is required in publishContext, volumeContext, or volumeId"
    else
      let lunStr := firstContextValueForKeys ["lun"; "LUN"] contexts in
      if lunStr == "" then invalid "lun is required in publishContext, volumeContext, or volumeId"
      else
        match Atoi lunStr with
        | None => invalid "invalid lun: %q"
        | Some li => if (li <? 0)%Z then invalid "lun must be non-negative, got %q"
                     else Ok (portal, iqn, li)
        end.

Fixpoint protocolFromContext (contexts : list Params) : Protocol :=
  match contexts with
  | [] => ""
  | ctx :: rest =>
      let proto := ToLower (TrimSpace (param ctx "protocol")) in
      if proto == ProtocolNFS then ProtocolNFS
      else if proto == ProtocolSMB then ProtocolSMB
      else protocolFromContext rest
  end.

Definition publishProtocol (publishContext volumeContext : Params) (volumeId : string) : Protocol :=
  let proto := protocolFromContext [publishContext; volumeContext] in
  if proto != "" then proto
  else match ParseProtocolFromVolumeID volumeId with
       | Ok proto => if ((proto == ProtocolNFS) || (proto == ProtocolSMB))%bool then proto
                     else ProtocolISCSI
       | _ => ProtocolISCSI
       end.

Definition mountOptionsFromContext (vc : Params) : list string :=
  let '(v, ok) := getStr vc "mountOptions" in if ok then appendMountOptions [] v else [].

Definition nfsMountAuthenticationFromContext (contexts : list Params) : res string :=
  let value := firstContextValue "nfsMountAuthentication" contexts in
  if value != "" then normalizeNfsAuthenticationFlavor value
  else
    let raw := firstContextValue "nfsAuthentication" contexts in
    let raw := if raw == "" then firstContextValue "nfsauthentication" contexts else raw in
    auth ← normalizeNfsAuthentication raw;
    Ok (preferredNfsMountAuthentication auth).

(** ** CHAP secrets *)

Record ChapSecrets := {
  disc : Secrets; sess : Secrets; doChapDisc : bool; authType : string
}.

Definition secrets_from (secrets : Params) (prefix : string) : option Secrets :=
  let value k := TrimSpace (param secrets (prefix +:+ k)) in
  if value "username" != "" then
    Some {| SecretsType := "chap"; UserName := value "username"; Password := value "password";
            UserNameIn := value "username_in"; PasswordIn := value "password_in" |}
  else None.

Definition parseChapSecrets (secrets : Params) : res ChapSecrets :=
  _ ← validateChapSecrets secrets;
  let d := secrets_from secrets "discovery.sendtargets.auth." in
  let s := secrets_from secrets "node.session.auth." in
  Ok {| disc := match d with Some x => x | None => zero_Secrets end;
        sess := match s with Some x => x | None => zero_Secrets end;
        doChapDisc := match d with Some _ => true | None => false end;
        authType := match s with Some _ => "chap" | None => "" end |}.

(** ** The parts of a stage and of a publish request *)

Record StageSettings := {
  portal : string; iqn : string; lun : Z; fsType : string; mountOpts : list string;
  iface : string; chap : ChapSecrets
}.

Definition fs_type (vc : option AccessType) (volumeContext : Params) : string :=
  let fsType := fsTypeFromCapability vc in
  let '(v, ok) := getStr volumeContext "fsType" in
  let fsType := if (ok && (fsType == ""))%bool then v else fsType in
  if fsType == "" then "ext4" else fsType.
Definition mount_opts (vc : option AccessType) (volumeContext : Params) : list string :=
  mountOptionsFromCapability vc ++ mountOptionsFromContext volumeContext.
