(* ===== verification/Node.v ===== *)
(** * The CSI node service ([pkg/iscsi/nodeserver.go], [fsstats_linux.go])

    Staging, publishing and their reversal over the host and the iSCSI library.  An
    RPC is a method of the node server, whose executor, mounter and resizer are nil
    until [init] has run. *)
From S2P Require Import Prelude GoStrings GoStrconv GoPath Prog Host Devices Connector.
From S2P Require Import VolumeID VolumeTypes Params Chap Driver Controller NodeParams.

Record nodeServer := {
  ns_Driver : option driver;
  ns_exec : bool;
  ns_mounter : bool;
  ns_resizer : bool
}.
Definition NewNodeServer (d : driver) : nodeServer :=
  {| ns_Driver := Some d; ns_exec := false; ns_mounter := false; ns_resizer := false |}.

Definition rpc (A : Type) : Type := method host nodeServer A.
#[export] Instance rpc_ret : MRet rpc := method_ret.
#[export] Instance rpc_bind : MBind rpc := @method_bind host nodeServer.

Definition init : rpc unit :=
  update (fun ns => {| ns_Driver := ns_Driver ns; ns_exec := true; ns_mounter := true;
                       ns_resizer := true |}).

Definition reject {A} (c : Code) (format : string) : rpc A := returning (Err (StatusErr c format)).

(** A call of [ns.mounter], which panics when it is nil. *)
Definition mounter (o : host_op) : rpc (host_resp o) := fun ns =>
  if ns_mounter ns then doing (call (E := host) o) ns else Ret (Panicked, ns).

(** A program whose error becomes a [codes.Internal] status. *)
Definition internally {A} (format : string) (m : go host A) : rpc A :=
  doing (catch m (fun r => match r with
                           | Err _ => fail Internal format
                           | r => lift r
                           end)).
Definition mounter_must (o : host_op) (e : host_resp o -> option oserr) (format : string) : rpc unit :=
  r ← mounter o;
  match e r with Some _ => reject Internal format | None => returning (Ok tt) end.

(** ** Files and mounts *)

Definition mkdir (path : string) : go host unit :=
  r ← call (E := host) (MkdirAll path); failing_unit r.

Definition mountPrepared (source target fsType : string) (opts sensitiveOpts : list string)
  (format : string) : rpc unit :=
  match sensitiveOpts with
  | [] => mounter_must (Mount source target fsType opts) id format
  | _ => mounter_must (MountSensitive source target fsType opts sensitiveOpts) id format
  end.
Definition formatAndMountPrepared (source target fsType : string) (opts sensitiveOpts : list string)
  (format : string) : rpc unit :=
  match sensitiveOpts with
  | [] => mounter_must (FormatAndMount source target fsType opts) id format
  | _ => mounter_must (FormatAndMountSensitive source target fsType opts sensitiveOpts) id format
  end.

(** [IsLikelyNotMountPoint], an error other than "does not exist" being one. *)
Definition not_exist (e : oserr) : bool := match kind e with NotExist => true | _ => false end.
Definition check_mount (path format : string) : rpc (bool * option oserr) :=
  '(notMnt, merr) ← mounter (IsLikelyNotMountPoint path);
  match merr with
  | Some e => if not_exist e then returning (Ok (notMnt, merr)) else reject Internal format
  | None => returning (Ok (notMnt, merr))
  end.

Definition probeWritablePath (path : string) : go host unit :=
  now ← call (E := host) Now;
  let probePath := PathJoin [path; ".csi-ready-" +:+ Itoa now] in
  r ← call (E := host) (OpenExclusive probePath);
  _ ← failing_unit r;
  writeErr ← call (E := host) (WriteOpened probePath ("ok" +:+ String (ascii_of_N 10) ""));
  syncErr ← call (E := host) (SyncFile probePath);
  closeErr ← call (E := host) (CloseFile probePath);
  removeErr ← call (E := host) (RemoveFile probePath);
  match writeErr, syncErr, closeErr, removeErr with
  | None, None, None, None => ok tt
  | _, _, _, _ => lift (Err (PlainErr "errors.Join"))
  end.

Definition millisecond : Z := 1000000.
Definition stagedFilesystemReadyWait : Z := 10000 * millisecond.
Definition stagedFilesystemProbeDelay : Z := 500 * millisecond.
Definition nodePublishDeviceWait : Z := 60000 * millisecond.

(** A loop that tries [attempt] until it succeeds or the clock is past [deadline].  It
    has fuel, which is enough while the clock runs ([polling_ends]); [stuck] marks
    that it ran out. *)
Definition stuck : error := PlainErr "the clock stands still".
Fixpoint poll (fuel : nat) (attempt : go host unit) (deadline delay : Z) (late : error)
  : go host unit :=
  match fuel with
  | O => lift (Err stuck)
  | S fuel =>
      catch attempt (fun r =>
        match r with
        | Ok _ => ok tt
        | Panicked => lift Panicked
        | Err _ =>
            now ← call (E := host) Now;
            if (deadline <? now)%Z then lift (Err late)
            else
              _ ← call (E := host) (Sleep delay);
              poll fuel attempt deadline delay late
        end)
  end.
Definition poll_fuel (timeout delay : Z) : nat := S (S (Z.to_nat (timeout / delay))).
Definition polling (attempt : go host unit) (timeout delay : Z) (late : error) : go host unit :=
  now ← call (E := host) Now;
  poll (poll_fuel timeout delay) attempt (now + timeout)%Z delay late.

Definition waitForStagedFilesystemReady (path : string) (opts : list string) (timeout : Z)
  : go host unit :=
  if mountOptionsReadOnly opts then ok tt
  else polling (probeWritablePath path) timeout stagedFilesystemProbeDelay
         (PlainErr "timed out waiting for writable filesystem at %s: %w").

Definition stat (path : string) : go host bool := r ← call (E := host) (Stat path); failing r.

Definition waitForPath (path : string) (timeout : Z) : go host unit :=
  polling (_ ← stat path; ok tt) timeout (300 * millisecond) (PlainErr "timed out waiting for %s").

(** [isBlockDevice]; a path that does not exist is none. *)
Definition isBlockDevice (p : string) : go host bool :=
  catch (stat p) (fun r => if IsNotExist r then ok false else lift r).

Definition ensureFile (target : string) : go host unit :=
  _ ← mkdir (PathDir target);
  catch (stat target) (fun r =>
    match r with
    | Ok _ => ok tt
    | Err e =>
        if IsNotExist r then
          r ← call (E := host) (OpenCreate target);
          _ ← failing_unit r;
          r ← call (E := host) (CloseFile target);
          failing_unit r
        else lift (Err e)
    | Panicked => lift Panicked
    end).

(** ** The connector of a staging path *)

Definition stageConnectorFile (staging : string) : string :=
  let staging := Clean staging in
  PathJoin [PathDir staging; "." +:+ PathBase staging +:+ ".connector.json"].
Definition legacyStageConnectorFile (staging : string) : string :=
  PathJoin [staging; "connector.json"].
Definition connector_paths (staging : string) (includeLegacy : bool) : list string :=
  stageConnectorFile staging :: (if includeLegacy then [legacyStageConnectorFile staging] else []).

Fixpoint first_connector (lastErr : error) (paths : list string) : go host Connector :=
  match paths with
  | [] => lift (Err lastErr)
  | path :: rest =>
      catch (GetConnectorFromFile path) (fun r =>
        match r with
        | Err e => if IsNotExist r then first_connector e rest else lift (Err e)
        | r => lift r
        end)
  end.
(** [lastErr] starts as nil, but there is always a path. *)
Definition getConnectorFromStaging (staging : string) (includeLegacy : bool) : go host Connector :=
  first_connector (PlainErr "nil") (connector_paths staging includeLegacy).

Definition readPersistedConnector (path : string) : go host Connector :=
  conn ← read_connector path;
  match MountTargetDevice conn with
  | None => lift (Err (OsErr OtherKind nil_target_text))
  | Some _ => ok conn
  end.

Definition isMissingMountTargetDevice (e : error) : bool :=
  let msg := ToLower (error_text (@Err unit e)) in
  (Contains msg "mounttargetdevice" && Contains msg "not found")%bool.

Fixpoint first_cleanup_connector (lastErr : error) (paths : list string) : go host Connector :=
  match paths with
  | [] => lift (Err lastErr)
  | path :: rest =>
      catch (GetConnectorFromFile path) (fun r =>
        match r with
        | Err e =>
            if IsNotExist r then first_cleanup_connector e rest
            else if negb (isMissingMountTargetDevice e) then lift (Err e)
            else
              catch (readPersistedConnector path) (fun r =>
                match r with
                | Err e => if IsNotExist r then first_cleanup_connector e rest else lift (Err e)
                | r => lift r
                end)
        | r => lift r
        end)
  end.
Definition getCleanupConnectorFromStaging (staging : string) (includeLegacy : bool)
  : go host Connector :=
  first_cleanup_connector (PlainErr "nil") (connector_paths staging includeLegacy).

Fixpoint remove_files (paths : list string) : go host unit :=
  match paths with
  | [] => ok tt
  | path :: rest =>
      r ← call (E := host) (RemoveFile path);
      match r with
      | Some e => if not_exist e then remove_files rest else lift (os_error e)
      | None => remove_files rest
      end
  end.
Definition removeStagingConnectorFiles (staging : string) : go host unit :=
  remove_files (connector_paths staging true).
