(* ===== verification/NodeService.v ===== *)
(** * The RPCs of the node service ([pkg/iscsi/nodeserver.go], second part) *)
From S2P Require Import Prelude GoStrings GoStrconv GoPath Prog Host Devices Connector.
From S2P Require Import VolumeID VolumeTypes Params Chap Driver Controller NodeParams Node.

Record NodeStageVolumeRequest := {
  st_VolumeId : string;
  st_PublishContext : Params;
  st_StagingTargetPath : string;
  st_VolumeCapability : option AccessType;
  st_Secrets : Params;
  st_VolumeContext : Params
}.

Definition is_block (vc : option AccessType) : bool :=
  match vc with Some BlockAccess => true | _ => false end.
Definition file_share (proto : Protocol) : bool :=
  ((proto == ProtocolNFS) || (proto == ProtocolSMB))%bool.

Definition parseStage (req : NodeStageVolumeRequest) : rpc StageSettings :=
  _ ← init;
  let vc := st_VolumeContext req in
  '(portal, iqn, lun) ← returning
    (iscsiConnectionFromContexts (st_VolumeId req) [st_PublishContext req; vc]);
  let '(v, ok) := getStr vc "iface" in
  chap ← returning (parseChapSecrets (st_Secrets req));
  returning (Ok {| portal := portal; iqn := iqn; lun := lun;
                   fsType := fs_type (st_VolumeCapability req) vc;
                   mountOpts := mount_opts (st_VolumeCapability req) vc;
                   iface := if ok then v else "default"; chap := chap |}).

(** ** File shares *)

(** The source of a share and its file system type. *)
Definition share_source (proto : Protocol) (contexts : list Params) : res (string * string) :=
  if proto == ProtocolNFS then
    let server := firstContextValueForKeys ["nfsServer"; "server"] contexts in
    let exportPath := firstContextValueForKeys ["nfsExportPath"; "exportPath"] contexts in
    if ((server == "") || (exportPath == ""))%bool
    then invalid "nfsServer/server and nfsExportPath/exportPath are required in publishContext, volumeContext, or volumeId"
    else Ok (server +:+ ":" +:+ exportPath, "nfs")
  else if proto == ProtocolSMB then
    let server := firstContextValueForKeys ["smbServer"; "server"] contexts in
    let share := firstContextValueForKeys ["smbShareName"; "share"] contexts in
    if ((server == "") || (share == ""))%bool
    then invalid "smbServer/server and smbShareName/share are required in publishContext, volumeContext, or volumeId"
    else Ok ("//" +:+ server +:+ "/" +:+ share, "cifs")
  else Ok ("", "").

Definition option_from (value : option string) (prefix : string) (opts : list string) : list string :=
  match value with Some v => appendOptionIfMissing opts prefix (prefix +:+ v) | None => opts end.
Definition context_value (ctx : Params) (key : string) : option string :=
  let '(v, ok) := getStr ctx key in if ok then Some v else None.

(** The normal and the sensitive options of the mount. *)
Definition share_options (proto : Protocol) (req : NodeStageVolumeRequest)
  (volumeIDContext : Params) : res (list string * list string) :=
  let pc := st_PublishContext req in
  let vc := st_VolumeContext req in
  let opts := mountOptionsFromCapability (st_VolumeCapability req) ++ mountOptionsFromContext vc in
  '(opts, sensitiveOpts) ←
    (if proto == ProtocolNFS then
       let opts := option_from (context_value vc "nfsVersion") "vers=" opts in
       authentication ← nfsMountAuthenticationFromContext [vc; pc; volumeIDContext];
       Ok (if authentication != ""
           then appendOptionIfMissing opts "sec=" ("sec=" +:+ authentication) else opts, [])
     else if proto == ProtocolSMB then
       let secret keys := firstSecretValue (st_Secrets req) keys in
       let opts := option_from (context_value vc "smbVersion") "vers=" opts in
       let opts := option_from (secret ["smbUsername"; "username"]) "username=" opts in
       let sensitiveOpts := option_from (secret ["smbPassword"; "password"]) "password=" [] in
       let opts := option_from (secret ["smbDomain"; "domain"]) "domain=" opts in
       let opts := match context_value vc "smbSeal" with
                   | Some seal => if bool_decide (ParseBool seal = Some true)
                                  then appendOptionIfMissing opts "seal" "seal" else opts
                   | None => opts
                   end in
       Ok (opts, sensitiveOpts)
     else Ok (opts, []));
  let '(opts, extracted) := splitSensitiveMountOptions opts in
  Ok (opts, extracted ++ sensitiveOpts).

Definition stageFileShareVolume (req : NodeStageVolumeRequest) (proto : Protocol) : rpc unit :=
  _ ← init;
  if is_block (st_VolumeCapability req)
  then reject InvalidArgument "%s volumes do not support block mode"
  else
    let pc := st_PublishContext req in
    let vc := st_VolumeContext req in
    let volumeIDContext := match volumeContextFromVolumeID (st_VolumeId req) proto with
                           | Some ctx => ctx
                           | None => ∅
                           end in
    '(source, fsType) ← returning (share_source proto [pc; vc; volumeIDContext]);
    '(opts, sensitiveOpts) ← returning (share_options proto req volumeIDContext);
    _ ← internally "mkdir staging: %v" (mkdir (st_StagingTargetPath req));
    '(notMnt, _) ← check_mount (st_StagingTargetPath req) "check staging mount: %v";
    if notMnt : bool then
      mountPrepared source (st_StagingTargetPath req) fsType opts sensitiveOpts "mount %s volume: %v"
    else returning (Ok tt).

(** ** NodeStageVolume, NodeUnstageVolume *)

Definition stage_connector (req : NodeStageVolumeRequest) (s : StageSettings) : Connector :=
  {| cVolumeName := st_VolumeId req; cTargetIqn := iqn s; TargetPortals := [portal s];
     Lun := int32_of (lun s); AuthType := authType (chap s);
     DiscoverySecrets := disc (chap s); SessionSecrets := sess (chap s);
     cInterface := iface s; MountTargetDevice := None; Devices := [];
     RetryCount := 60; CheckInterval := 2; DoDiscovery := true;
     DoCHAPDiscovery := doChapDisc (chap s) |}.

(** [iscsilibConnect(conn)]: the device, and the connector as it is then. *)
Definition connect (conn : Connector) : rpc (string * Connector) :=
  doing (prog_bind (Connect conn) (fun '(r, conn) =>
    match r with
    | Ok device => if device == "" then fail Internal "iSCSI connect failed: %v"
                   else ok (device, conn)
    | Err _ => fail Internal "iSCSI connect failed: %v"
    | Panicked => lift Panicked
    end)).

(** The connector is written beside the staging path; if that fails, the volume is
    disconnected again. *)
Definition failed_of (m : go host unit) : go host bool :=
  catch m (fun r => match r with Ok _ => ok false | Err _ => ok true | Panicked => lift Panicked end).
Definition rollback (conn : Connector) : rpc unit :=
  volumeErr ← doing (failed_of (DisconnectVolume conn));
  logoutErr ← doing (failed_of (Connector_Disconnect conn));
  if (volumeErr || logoutErr)%bool
  then reject Internal "persist iSCSI connector: %v (rollback disconnect failed: %v)"
  else reject Internal "persist iSCSI connector: %v".
Definition persist_or_rollback (conn : Connector) (connectorFile : string) : rpc unit :=
  _ ← internally "mkdir iSCSI connector directory: %v" (mkdir (PathDir connectorFile));
  persistErr ← doing (failed_of (Persist conn connectorFile));
  if persistErr : bool then rollback conn else returning (Ok tt).

Definition stage_filesystem (req : NodeStageVolumeRequest) (s : StageSettings) (device : string)
  : rpc unit :=
  '(notMnt, _) ← check_mount (st_StagingTargetPath req) "check staging mount: %v";
  _ ← internally "mkdir staging: %v" (mkdir (st_StagingTargetPath req));
  let '(normalMountOpts, sensitiveMountOpts) := splitSensitiveMountOptions (mountOpts s) in
  _ ← (if notMnt : bool then
         formatAndMountPrepared device (st_StagingTargetPath req) (fsType s) normalMountOpts
           sensitiveMountOpts "format+mount staging failed: %v"
       else returning (Ok tt));
  internally "staging filesystem not ready: %v"
    (waitForStagedFilesystemReady (st_StagingTargetPath req) normalMountOpts
       stagedFilesystemReadyWait).

Definition NodeStageVolume (req : NodeStageVolumeRequest) : rpc unit :=
  if st_VolumeId req == "" then reject InvalidArgument "volumeID missing"
  else if st_StagingTargetPath req == "" then reject InvalidArgument "stagingTargetPath missing"
  else match st_VolumeCapability req with
  | None => reject InvalidArgument "volumeCapability missing"
  | Some _ =>
      let proto := publishProtocol (st_PublishContext req) (st_VolumeContext req) (st_VolumeId req) in
      if file_share proto then stageFileShareVolume req proto
      else
        s ← parseStage req;
        '(device, conn) ← connect (stage_connector req s);
        _ ← persist_or_rollback conn (stageConnectorFile (st_StagingTargetPath req));
        if is_block (st_VolumeCapability req)
        then internally "mkdir staging: %v" (mkdir (st_StagingTargetPath req))
        else stage_filesystem req s device
  end.

(** A connector, if there is a file of one. *)
Definition cleanup_connector (staging : string) (includeLegacy : bool) : rpc (option Connector) :=
  doing (catch (getCleanupConnectorFromStaging staging includeLegacy) (fun r =>
    match r with
    | Ok conn => ok (Some conn)
    | Err _ => if IsNotExist r then ok None else fail Internal "load iSCSI connector: %v"
    | Panicked => lift Panicked
    end)).

(** [mount.CleanupMountPoint] with [ns.mounter], which may be nil. *)
Definition cleanup_mount (path format : string) : rpc unit := fun ns =>
  (r ← doing (call (E := host) (CleanupMountPoint (ns_mounter ns) path));
   match r with
   | Cleaned None => returning (Ok tt)
   | Cleaned (Some e) => if not_exist e then returning (Ok tt) else reject Internal format
   | CleanupPanicked => returning Panicked
   end : rpc unit) ns.

Definition disconnect (staging : string) (conn : Connector) : rpc unit :=
  _ ← internally "iSCSI disconnect volume failed: %v" (DisconnectVolume conn);
  _ ← internally "iSCSI logout failed: %v" (Connector_Disconnect conn);
  internally "remove iSCSI connector file failed: %v" (removeStagingConnectorFiles staging).

Definition NodeUnstageVolume (volumeId staging : string) : rpc unit :=
  if volumeId == "" then reject InvalidArgument "volumeID missing"
  else if staging == "" then reject InvalidArgument "stagingTargetPath missing"
  else
    _ ← init;
    conn ← cleanup_connector staging false;
    '(notMnt, mountErr) ← check_mount staging "check staging mount: %v";
    _ ← (match mountErr with
         | None => if notMnt : bool then returning (Ok tt)
                   else mounter_must (Unmount staging) id "unstage unmount failed: %v"
         | Some _ => returning (Ok tt)
         end);
    conn ← (match conn with
            | Some c => returning (Ok (Some c))
            | None => cleanup_connector staging true
            end);
    _ ← (match conn with Some c => disconnect staging c | None => returning (Ok tt) end);
    cleanup_mount staging "unstage cleanup failed: %v".

(** ** NodePublishVolume, NodeUnpublishVolume *)

Record NodePublishVolumeRequest := {
  pb_VolumeId : string;
  pb_PublishContext : Params;
  pb_StagingTargetPath : string;
  pb_TargetPath : string;
  pb_VolumeCapability : option AccessType;
  pb_Readonly : bool;
  pb_VolumeContext : Params
}.

Definition bind_options (ro : bool) : list string := "bind" :: (if ro then ["ro"] else []).

Definition by_path (portal iqn : string) (lun : Z) : string :=
  PathJoin ["/dev/disk/by-path"; "ip-" +:+ portal +:+ "-iscsi-" +:+ iqn +:+ "-lun-" +:+ Itoa lun].

Record PublishSettings := {
  p_portal : string; p_iqn : string; p_lun : Z; p_fsType : string; p_mountOpts : list string
}.
Definition parsePublish (req : NodePublishVolumeRequest) : rpc PublishSettings :=
  _ ← init;
  let vc := pb_VolumeContext req in
  '(portal, iqn, lun) ← returning
    (iscsiConnectionFromContexts (pb_VolumeId req) [pb_PublishContext req; vc]);
  returning (Ok {| p_portal := portal; p_iqn := iqn; p_lun := lun;
                   p_fsType := fs_type (pb_VolumeCapability req) vc;
                   p_mountOpts := mount_opts (pb_VolumeCapability req) vc |}).

Definition publish_share (req : NodePublishVolumeRequest) : rpc unit :=
  if is_block (pb_VolumeCapability req)
  then reject InvalidArgument "%s volumes do not support block mode"
  else
    let staging := pb_StagingTargetPath req in
    if staging == "" then reject InvalidArgument "stagingTargetPath required for mount volumes"
    else
      _ ← internally "mkdir target: %v" (mkdir (pb_TargetPath req));
      mountPrepared staging (pb_TargetPath req) "" (bind_options (pb_Readonly req)) []
        "bind-mount publish failed: %v".

Definition bind_mount (source target : string) (ro : bool) (format : string) : rpc unit :=
  let '(opts, sensitiveOpts) := splitSensitiveMountOptions (bind_options ro) in
  mountPrepared source target "" opts sensitiveOpts format.

Definition publish_block (req : NodePublishVolumeRequest) (s : PublishSettings) : rpc unit :=
  let staging := pb_StagingTargetPath req in
  if staging == "" then reject InvalidArgument "stagingTargetPath is required for block to load connector"
  else
    conn ← handling (getConnectorFromStaging staging true);
    let target := match conn with Ok c => MountTargetDevice c | _ => None end in
    device ← match target with
             | None =>
                 let device := by_path (p_portal s) (p_iqn s) (p_lun s) in
                 _ ← internally "cannot resolve device for block publish: %v"
                       (waitForPath device nodePublishDeviceWait);
                 returning (Ok device)
             | Some d => returning (Ok (GetPath d))
             end;
    _ ← internally "create block target: %v" (ensureFile (pb_TargetPath req));
    bind_mount device (pb_TargetPath req) (pb_Readonly req) "bind-mount block device: %v".

(** The staging mount of a node that was restarted. *)
Definition recover_staging (req : NodePublishVolumeRequest) (s : PublishSettings) : rpc unit :=
  let staging := pb_StagingTargetPath req in
  '(notMnt, merr) ← mounter (IsLikelyNotMountPoint staging);
  match merr, notMnt with
  | None, true =>
      conn ← internally "staging recovery failed: %v" (getConnectorFromStaging staging true);
      d ← returning (mount_target conn);
      device ← (if GetPath d == "" then
                  let device := by_path (p_portal s) (p_iqn s) (p_lun s) in
                  _ ← internally "recover staging path: %v" (waitForPath device (60 * 1000 * millisecond));
                  returning (Ok device)
                else returning (Ok (GetPath d)));
      let '(normalMountOpts, sensitiveMountOpts) := splitSensitiveMountOptions (p_mountOpts s) in
      formatAndMountPrepared device staging (p_fsType s) normalMountOpts sensitiveMountOpts
        "format+mount staging fallback failed: %v"
  | _, _ => returning (Ok tt)
  end.

Definition NodePublishVolume (req : NodePublishVolumeRequest) : rpc unit :=
  if pb_VolumeId req == "" then reject InvalidArgument "volumeID missing"
  else if pb_TargetPath req == "" then reject InvalidArgument "targetPath missing"
  else match pb_VolumeCapability req with
  | None => reject InvalidArgument "volumeCapability missing"
  | Some _ =>
      let proto := publishProtocol (pb_PublishContext req) (pb_VolumeContext req) (pb_VolumeId req) in
      if file_share proto then publish_share req
      else
        s ← parsePublish req;
        if is_block (pb_VolumeCapability req) then publish_block req s
        else if pb_StagingTargetPath req == ""
        then reject InvalidArgument "stagingTargetPath required for mount volumes"
        else
          _ ← recover_staging req s;
          _ ← internally "mkdir target: %v" (mkdir (pb_TargetPath req));
          bind_mount (pb_StagingTargetPath req) (pb_TargetPath req) (pb_Readonly req)
            "bind-mount publish failed: %v"
  end.

Definition NodeUnpublishVolume (volumeId targetPath : string) : rpc unit :=
  if volumeId == "" then reject InvalidArgument "volumeID missing"
  else if targetPath == "" then reject InvalidArgument "targetPath missing"
  else cleanup_mount targetPath "cleanup target mount: %v".

(** ** Information, statistics, expansion *)

Definition NodeGetInfo : rpc string :=
  ns ← self; returning (match ns_Driver ns with Some d => Ok (nodeID d) | None => Panicked end).

Inductive NodeCap := STAGE_UNSTAGE_VOLUME | NODE_EXPAND_VOLUME.
Definition NodeGetCapabilities : rpc (list NodeCap) :=
  returning (Ok [STAGE_UNSTAGE_VOLUME; NODE_EXPAND_VOLUME]).

Inductive UsageUnit := UNIT_BYTES | UNIT_INODES.
Record VolumeUsage := { Unit : UsageUnit; Available : Z; Total : Z; Used : Z }.

(** [fsUsage] on Linux: the usage in bytes and in inodes. *)
Definition fsUsage (st : statfs_t) : VolumeUsage * VolumeUsage :=
  let bsize := int64_of (Bsize st) in
  let capacity := int64_of (int64_of (Blocks st) * bsize) in
  let inodesTotal := int64_of (Files st) in
  let inodesFree := int64_of (Ffree st) in
  ({| Unit := UNIT_BYTES;
      Available := int64_of (int64_of (Bavail st) * bsize);
      Total := capacity;
      Used := int64_of (capacity - int64_of (int64_of (Bfree st) * bsize)) |},
   {| Unit := UNIT_INODES; Available := inodesFree; Total := inodesTotal;
      Used := int64_of (inodesTotal - inodesFree) |}).

(** A call of [ns.exec], which panics when it is nil. *)
Definition executor (name : string) (args : list string) : rpc exec_result := fun ns =>
  if ns_exec ns then doing (call (E := host) (Command None name args)) ns else Ret (Panicked, ns).

Definition block_stats (path : string) : rpc (list VolumeUsage) :=
  r ← executor "blockdev" ["--getsize64"; path];
  match outcome r with
  | Exited0 =>
      match ParseInt 64 (TrimSpace (combined r)) with
      | Some size => returning (Ok [{| Unit := UNIT_BYTES; Available := size; Total := size; Used := 0 |}])
      | None => reject Internal "parse block size: %v"
      end
  | _ => reject Internal "blockdev failed: %v, out=%s"
  end.

Definition NodeGetVolumeStats (volumeId volumePath : string) : rpc (list VolumeUsage) :=
  if volumeId == "" then reject InvalidArgument "volumeID missing"
  else if volumePath == "" then reject InvalidArgument "volumePath missing"
  else
    block ← handling (isBlockDevice volumePath);
    match block with
    | Ok true => block_stats volumePath
    | _ =>
        r ← doing (call (E := host) (Statfs volumePath));
        match r with
        | inl e =>
            if not_exist e then
              returning (Ok [{| Unit := UNIT_BYTES; Available := 0; Total := 0; Used := 0 |};
                             {| Unit := UNIT_INODES; Available := 0; Total := 0; Used := 0 |}])
            else reject Internal "statfs failed: %v"
        | inr st => returning (Ok [fst (fsUsage st); snd (fsUsage st)])
        end
    end.

Definition NodeExpandVolume (volumeId volumePath : string) : rpc unit :=
  if volumeId == "" then reject InvalidArgument "volumeID missing"
  else if volumePath == "" then reject InvalidArgument "volumePath missing"
  else
    _ ← init;
    match ParseProtocolFromVolumeID volumeId with
    | Ok proto => if file_share proto then returning (Ok tt)
                  else internally "expand failed: %v" (ExpandVolume volumePath)
    | _ => internally "expand failed: %v" (ExpandVolume volumePath)
    end.
