(* ===== verification/NodeFacts.v ===== *)
(** * The node service: secrets, addresses and the clock. *)
From S2P Require Import Prelude GoStrings GoStringsFacts GoStrconv GoPath Prog Host Iscsiadm Devices Connector.
From S2P Require Import IscsiFacts DeviceFacts VolumeID VolumeTypes LegacyID Params Chap Driver Controller.
From S2P Require Import ControllerOps NodeParams Node NodeService.

(** ** Sensitive options *)

(** The keys whose values are credentials, or name a file of them. *)
Definition secret_keys : list string := ["password"; "pass"; "credentials"; "credential"].
(** An option that is not a credential: whatever the letters of its key are, and the blanks
    around it, what precedes its first [=] is none of these keys. *)
Definition plain (opt : string) : Prop :=
  forall key value, str_all (free "=") key = true -> ToLower (TrimSpace opt) = key +:+ String "=" value ->
    TrimSpace key ∉ secret_keys.
Lemma not_sensitive_plain opt : isSensitiveMountOption opt = false -> plain opt.
Proof.
  unfold isSensitiveMountOption. intros H key value Hk E. rewrite E, CutByte_app in H by done. cbn [negb] in H.
  unfold secret_keys. repeat (apply orb_false_elim in H as [H ?]). go_bool. set_solver.
Qed.

Lemma splitSensitive_spec opts normal sensitive :
  splitSensitiveMountOptions opts = (normal, sensitive) ->
  Forall plain normal /\ Forall (fun o => isSensitiveMountOption o = true) sensitive
  /\ normal ++ sensitive ≡ₚ nonblank opts.
Proof.
  revert normal sensitive. induction opts as [|opt opts IH]; intros normal sensitive H; cbn in H.
  - by simplify_eq.
  - destruct (splitSensitiveMountOptions opts) as [n s]. destruct (IH n s eq_refl) as (Hn & Hs & Hp).
    unfold nonblank in *. cbn [map].
    destruct (TrimSpace opt == "") eqn:E; go_bool.
    { simplify_eq. rewrite filter_cons_False by (rewrite E; tauto). done. }
    rewrite filter_cons_True by done.
    destruct (isSensitiveMountOption (TrimSpace opt)) eqn:Es; simplify_eq; split_and!;
      try done; try by (constructor; try by apply not_sensitive_plain).
    by rewrite <- Permutation_middle, Hp.
Qed.

(** The options of a mount request are plain. *)
Definition secretless (o : host_op) : Prop :=
  match o with
  | Mount _ _ _ opts | FormatAndMount _ _ _ opts
  | MountSensitive _ _ _ opts _ | FormatAndMountSensitive _ _ _ opts _ => Forall plain opts
  | _ => True
  end.
(** What the iSCSI library asks for, but for writing the file of a connector. *)
Definition library_request (o : host_op) : Prop :=
  match o with
  | Command _ _ _ | Stat _ | Glob _ | WriteExisting _ _ | ReadFile _ | Sleep _ | GetDeviceNameFromMount _ | Resize _ _ => True
  | _ => False
  end.

Section library.
Abbreviation lib p := (only (E := host) library_request p).

Lemma lib_exec c a t : lib (ExecWithTimeout c a t).
Proof. unfold only. apply safe_exec; [done|]. done. Qed.
Lemma lib_catch {A B} (m : go host A) (f : res A -> go host B) :
  lib m -> (forall r, lib (f r)) -> lib (catch m f).
Proof. intros Hm Hf. unfold only. host_step. eapply safe_mono; [exact Hm|]. intros r [] _. apply Hf. Qed.

Lemma lib_cmd_must a : lib (cmd_must a).
Proof. unfold only. apply safe_cmd_must; [done|]. intros r _. by destruct (snd (cmd_output r)). Qed.
Lemma lib_cmd_or a f : lib (cmd_or a f).
Proof. unfold only. by apply safe_cmd_or. Qed.

Ltac lib_step :=
  match goal with
  | |- forall _, _ => intros
  | |- lib (ExecWithTimeout _ _ _) => apply lib_exec
  | |- lib (iscsiCmd _) => apply lib_exec
  | |- lib (cmd_must _) => apply lib_cmd_must
  | |- lib (cmd_or _ _) => apply lib_cmd_or
  | |- lib (_ ≫= _) => apply only_bind
  | |- lib (catch _ _) => apply lib_catch
  | |- lib (call _) => by split
  | |- lib (lift _) => exact I
  | |- lib (ok _) => exact I
  | |- lib (fail _ _) => exact I
  | |- lib (Ret _) => exact I
  | |- lib (failing ?r) => by destruct r
  | |- lib (failing_unit ?r) => by destruct r
  | H : context [only library_request _] |- _ => apply H
  | |- context [match ?x with _ => _ end] => destruct x
  end.
Ltac lib_steps := repeat (cbv zeta; lib_step).

Lemma lib_wait p r i t : lib (waitForPathToExist p r i t).
Proof.
  unfold waitForPathToExist. destruct (p == ""); [exact I|].
  induction (Z.to_nat r) as [|n IH]; cbn [wait_loop]; unfold pathExists; lib_steps.
Qed.
Lemma lib_connectTarget c iqn t i tr : lib (connectTarget c iqn t i tr).
Proof.
  unfold connectTarget, rescan_sessions, sessionExists, getCurrentSessions, GetSessions,
    discoverTarget, Discoverydb, CreateDBEntry, createCHAPEntries, Login.
  lib_steps; apply lib_wait.
Qed.
Lemma lib_connect_targets c i tr l : lib (connect_targets c i tr l).
Proof. induction l; cbn [connect_targets]; lib_steps. apply lib_connectTarget. Qed.
Lemma lib_lsblk p b : lib (lsblk p b).
Proof. unfold lsblk. lib_steps. Qed.
Lemma lib_remove l : lib (RemoveSCSIDevices l).
Proof.
  unfold RemoveSCSIDevices. generalize (@None error). induction l as [|d l IH]; intros errs;
    cbn [remove_devices]; unfold flush, Exists, detach, Shutdown, Delete, WriteDeviceFile,
      writeInSCSIDeviceFile; lib_steps.
Qed.
Lemma lib_check_devices d l : forall s, lib (check_devices d s l).
Proof. induction l as [|x l IH]; intros s; cbn [check_devices]; unfold WWID; lib_steps. Qed.
Lemma lib_multipath_guard c : lib (multipath_guard c).
Proof. unfold multipath_guard, IsMultipathConsistent. lib_steps. apply lib_check_devices. Qed.
Lemma lib_DisconnectVolume c : lib (DisconnectVolume c).
Proof.
  unfold DisconnectVolume, FlushMultipathDevice. lib_steps;
    (apply lib_remove || apply lib_multipath_guard).
Qed.
Lemma lib_logout_all iqn l : lib (logout_all iqn l).
Proof. induction l as [|t l IH]; cbn [logout_all]; unfold Logout; lib_steps. Qed.
Lemma lib_Disconnect c : lib (Connector_Disconnect c).
Proof. unfold Connector_Disconnect, Disconnect, DeleteDBEntry. lib_steps. apply lib_logout_all. Qed.
Lemma lib_GetConnectorFromFile p : lib (GetConnectorFromFile p).
Proof. unfold GetConnectorFromFile, read_connector, GetSCSIDevices. lib_steps; apply lib_lsblk. Qed.
Lemma lib_ExpandVolume p : lib (ExpandVolume p).
Proof. unfold ExpandVolume, ResizeMultipathDevice. lib_steps. Qed.

(** The same of methods. *)
Lemma lib_Connect c : lib (Connect c).
Proof.
  unfold only, Connect. apply safe_method_bind. cbn [safe update]. apply safe_method_bind. cbn [safe self].
  apply safe_method_bind, safe_doing. eapply safe_mono; [apply lib_cmd_must|].
  intros [out|e|] [] _; [|done..].
  apply safe_method_bind, safe_doing. eapply safe_mono; [apply lib_connect_targets|].
  intros [paths|e|] [] _; [|done..].
  apply safe_method_bind. unfold find_devices. apply safe_method_bind.
  eapply (safe_mono _ _ _ (fun _ _ => True)).
  { destruct paths; [done|]. apply safe_method_bind. unfold handling. apply safe_prog_bind.
    eapply safe_mono; [|by intros [l|e|] [] _; cbn].
    unfold GetISCSIDevices. apply only_bind; [apply lib_lsblk|done]. }
  intros [[[]|e|] c2] [] _; [|done..]. apply safe_method_bind. cbn [safe self].
  destruct (Devices c2).
  - apply safe_method_bind, safe_doing. eapply safe_mono; [apply lib_exec|]. by intros [?|?|] [] _.
  - cbn [safe returning]. unfold choose_target. apply safe_method_bind. cbn [safe self].
    destruct (getMountTargetDevice c2); [| |done]; apply safe_method_bind; cbn [safe set_target update].
    + apply safe_method_bind. cbn [safe self]. apply safe_method_bind, safe_doing.
      eapply safe_mono; [apply lib_multipath_guard|]. by intros [[]|?|] [] _.
    + apply safe_method_bind, safe_doing. eapply safe_mono; [apply lib_remove|].
      by intros [[]|?|] [] _.
Qed.
End library.

(** A monitor that allows some requests and does not move on them. *)
Lemma safe_ignored {M A} (m : monitor host M) (P : host_op -> Prop) s (p : prog host A) Q :
  (forall o, P o -> allowed m s o /\ forall r, step m s o r = s) ->
  only (E := host) P p -> safe anything tt p (fun a _ => Q a s) -> safe m s p Q.
Proof.
  intros Hm. unfold only. induction p as [a|o k IH]; cbn; [done|]. intros [Ho Hk] [_ HQ].
  destruct (Hm o Ho) as [Ha Hs]. split; [done|]. intros r _. rewrite Hs. apply IH; [by apply Hk|by apply HQ].
Qed.

(** ** Requests of the RPCs *)

Definition only_rpc {A} (P : host_op -> Prop) (m : rpc A) : Prop :=
  forall ns, only (E := host) P (m ns).

Section rpcs.
Context (P : host_op -> Prop).

Lemma only_rpc_bind {A B} (m : rpc A) (f : A -> rpc B) :
  only_rpc P m -> (forall a, only_rpc P (f a)) -> only_rpc P (m ≫= f).
Proof.
  intros Hm Hf ns. apply safe_method_bind. eapply safe_mono; [apply Hm|].
  intros [[a|e|] ns'] [] _; [apply Hf|done..].
Qed.
Lemma only_rpc_pure {A B} (r : res A) (f : A -> rpc B) :
  (forall a, r = Ok a -> only_rpc P (f a)) -> only_rpc P (returning r ≫= f).
Proof. intros Hf ns. apply safe_method_bind. destruct r; [by apply Hf|done..]. Qed.
Lemma only_rpc_doing {A} (m : go host A) : only (E := host) P m -> only_rpc P (doing m).
Proof. intros Hm ns. apply safe_doing. eapply safe_mono; [exact Hm|]. done. Qed.
Lemma only_rpc_handling {A} (m : go host A) : only (E := host) P m -> only_rpc P (handling m).
Proof.
  intros Hm ns. apply safe_prog_bind. eapply safe_mono; [exact Hm|]. by intros [a|e|] [] _.
Qed.
Lemma only_rpc_internally {A} f (m : go host A) :
  only (E := host) P m -> only_rpc P (internally f m).
Proof.
  intros Hm. apply only_rpc_doing. unfold only. host_step. eapply safe_mono; [exact Hm|].
  by intros [a|e|] [] _.
Qed.
Lemma only_rpc_mounter (o : host_op) : P o -> only_rpc P (mounter o).
Proof.
  intros Ho ns. unfold mounter. destruct (ns_mounter ns); [|done].
  apply safe_doing. by split.
Qed.
Lemma only_rpc_mounter_must (o : host_op) e f : P o -> only_rpc P (mounter_must o e f).
Proof.
  intros Ho. apply only_rpc_bind; [by apply only_rpc_mounter|]. intros r ns. by destruct (e r).
Qed.
Lemma only_rpc_call (o : host_op) : P o -> only_rpc P (doing (call (E := host) o)).
Proof. intros Ho. apply only_rpc_doing. by split. Qed.
End rpcs.

(** The waits only look at the clock and at files. *)
Definition file_request (o : host_op) : Prop :=
  match o with
  | Now | Sleep _ | Stat _ | OpenExclusive _ | WriteOpened _ _ | SyncFile _ | CloseFile _
  | RemoveFile _ | MkdirAll _ => True
  | _ => False
  end.
Section waits.
Abbreviation filed p := (only (E := host) file_request p).

Lemma only_polling m t d l : filed m -> filed (polling m t d l).
Proof.
  intros Hm. unfold polling. apply only_bind; [by split|]. intros now.
  generalize (now + t) as deadline. intros deadline.
  induction (poll_fuel t d) as [|n IH]; cbn [poll]; [done|].
  unfold only. host_step. eapply safe_mono; [exact Hm|]. intros [[]|e|] [] _; [done| |done].
  host_step. host_step; [done|]. intros x _. destruct (deadline <? x)%Z; [done|].
  host_step. host_step; [done|]. intros y _. exact IH.
Qed.
Lemma only_waitForPath p t : filed (waitForPath p t).
Proof.
  apply only_polling. unfold stat. apply only_bind; [|done]. apply only_bind; [by split|].
  by intros [].
Qed.
Lemma only_probe p : filed (probeWritablePath p).
Proof.
  unfold probeWritablePath. apply only_bind; [by split|]. intros now. cbv zeta.
  apply only_bind; [by split|]. intros r. apply only_bind; [by destruct r|]. intros _.
  do 4 (apply only_bind; [by split|]; intros ?).
  repeat match goal with |- context [match ?x with _ => _ end] => destruct x end; done.
Qed.
Lemma only_ready p o t : filed (waitForStagedFilesystemReady p o t).
Proof.
  unfold waitForStagedFilesystemReady. destruct (mountOptionsReadOnly o); [exact I|].
  apply only_polling, only_probe.
Qed.
Lemma only_mkdir p : filed (mkdir p).
Proof. unfold mkdir. apply only_bind; [by split|]. by intros []. Qed.
End waits.

(** ** Sensitive options never are plain arguments of a mount *)

Section secrets.
Abbreviation calm p := (only (E := host) secretless p).

Lemma calm_lib {A} (m : prog host A) : only (E := host) library_request m -> calm m.
Proof. apply only_weaken. by intros []. Qed.
Lemma calm_catch {A B} (m : go host A) (f : res A -> go host B) :
  calm m -> (forall r, calm (f r)) -> calm (catch m f).
Proof. intros Hm Hf. unfold only. host_step. eapply safe_mono; [exact Hm|]. intros r [] _. apply Hf. Qed.

Ltac calm_step :=
  match goal with
  | |- forall _, _ => intros
  | |- calm (GetConnectorFromFile _) => apply calm_lib, lib_GetConnectorFromFile
  | |- calm (DisconnectVolume _) => apply calm_lib, lib_DisconnectVolume
  | |- calm (Connector_Disconnect _) => apply calm_lib, lib_Disconnect
  | |- calm (Persist _ _) => unfold Persist
  | |- calm (ExpandVolume _) => apply calm_lib, lib_ExpandVolume
  | |- calm (_ ≫= _) => apply only_bind
  | |- calm (catch _ _) => apply calm_catch
  | |- calm (call _) => by split
  | |- calm (lift _) => exact I
  | |- calm (ok _) => exact I
  | |- calm (fail _ _) => exact I
  | |- calm (Ret _) => exact I
  | |- calm (failing ?r) => by destruct r
  | |- calm (failing_unit ?r) => by destruct r
  | H : context [only secretless _] |- _ => apply H
  | |- context [match ?x with _ => _ end] => destruct x
  end.
Ltac calm_steps := repeat (cbv zeta; calm_step).

Lemma calm_mkdir p : calm (mkdir p).
Proof. unfold mkdir. calm_steps. Qed.
Lemma calm_waitForPath p t : calm (waitForPath p t).
Proof. apply (only_weaken (E := host) file_request); [by intros []|apply only_waitForPath]. Qed.
Lemma calm_ready p o t : calm (waitForStagedFilesystemReady p o t).
Proof. apply (only_weaken (E := host) file_request); [by intros []|apply only_ready]. Qed.
Lemma calm_ensureFile p : calm (ensureFile p).
Proof. unfold ensureFile, mkdir, stat. calm_steps. Qed.
Lemma calm_connector s b : calm (getConnectorFromStaging s b).
Proof.
  unfold getConnectorFromStaging. generalize (PlainErr "nil"). intros e. revert e.
  induction (connector_paths s b); cbn [first_connector]; calm_steps.
Qed.
Lemma calm_cleanup_connector s b : calm (getCleanupConnectorFromStaging s b).
Proof.
  unfold getCleanupConnectorFromStaging. generalize (PlainErr "nil"). intros e. revert e.
  induction (connector_paths s b); cbn [first_cleanup_connector];
    unfold readPersistedConnector, read_connector; calm_steps.
Qed.
Lemma calm_remove l : calm (remove_files l).
Proof. induction l; cbn [remove_files]; calm_steps. Qed.

Ltac rpc_step :=
  match goal with
  | |- forall _, _ => intros
  | |- only_rpc _ (_ ≫= _) => apply only_rpc_bind
  | |- only_rpc _ (doing (call ?o)) => exact (only_rpc_call secretless o I)
  | |- only_rpc _ (doing _) => apply only_rpc_doing
  | |- only_rpc _ (handling _) => apply only_rpc_handling
  | |- only_rpc _ (internally _ _) => apply only_rpc_internally
  | |- only_rpc _ (mounter (IsLikelyNotMountPoint ?p)) =>
      exact (only_rpc_mounter secretless (IsLikelyNotMountPoint p) I)
  | |- only_rpc _ (mounter_must (Unmount _) _ _) => by apply only_rpc_mounter_must
  | |- only_rpc _ (returning _) => by intros ?
  | |- only_rpc _ (reject _ _) => by intros ?
  | |- only_rpc _ (update _) => by intros ?
  | |- only_rpc _ init => by intros ?
  | |- only_rpc _ self => by intros ?
  | |- calm (mkdir _) => apply calm_mkdir
  | |- calm (waitForPath _ _) => apply calm_waitForPath
  | |- calm (waitForStagedFilesystemReady _ _ _) => apply calm_ready
  | |- calm (ensureFile _) => apply calm_ensureFile
  | |- calm (getConnectorFromStaging _ _) => apply calm_connector
  | |- calm (getCleanupConnectorFromStaging _ _) => apply calm_cleanup_connector
  | |- calm (remove_files _) => apply calm_remove
  | |- calm _ => calm_step
  | |- context [match ?x with _ => _ end] => destruct x eqn:?
  end.
Ltac rpc_steps := repeat (cbv zeta; rpc_step).

Lemma secretless_mount s t f o sens fmt :
  Forall plain o -> only_rpc secretless (mountPrepared s t f o sens fmt).
Proof. intros Ho. destruct sens; by apply only_rpc_mounter_must. Qed.
Lemma secretless_format s t f o sens fmt :
  Forall plain o -> only_rpc secretless (formatAndMountPrepared s t f o sens fmt).
Proof. intros Ho. destruct sens; by apply only_rpc_mounter_must. Qed.
Lemma secretless_check p f : only_rpc secretless (check_mount p f).
Proof. unfold check_mount. rpc_steps. Qed.
Lemma secretless_cleanup p f : only_rpc secretless (cleanup_mount p f).
Proof.
  intros ns. unfold cleanup_mount. apply safe_method_bind, safe_doing. host_step; [done|].
  intros r _. by destruct r as [[e|]|]; [destruct (not_exist e)|..].
Qed.

(** The options of a share are split before it is mounted. *)
Lemma share_options_plain proto req ctx o s :
  share_options proto req ctx = Ok (o, s) -> Forall plain o.
Proof.
  unfold share_options. cbv zeta. intros H. apply res_bind_Ok in H as ([o' s'] & _ & H).
  destruct (splitSensitiveMountOptions o') as [n x] eqn:E. injection H as <- <-.
  by apply splitSensitive_spec in E as [? _].
Qed.
Lemma secretless_share req proto : only_rpc secretless (stageFileShareVolume req proto).
Proof.
  unfold stageFileShareVolume. apply only_rpc_bind; [by intros ?|]. intros _.
  destruct (is_block _); [by intros ?|]. cbv zeta. apply only_rpc_bind; [by intros ?|].
  intros [source fsType]. set (ctx := match _ with Some _ => _ | None => _ end).
  apply only_rpc_pure. intros [o s] Eo%share_options_plain. rpc_steps.
  - apply secretless_check.
  - by apply secretless_mount.
Qed.
Lemma secretless_bind_mount s t ro f : only_rpc secretless (bind_mount s t ro f).
Proof.
  unfold bind_mount. destruct (splitSensitiveMountOptions _) as [n x] eqn:E.
  apply secretless_mount. by apply splitSensitive_spec in E as [? _].
Qed.
Lemma secretless_connect c : only_rpc secretless (connect c).
Proof.
  apply only_rpc_doing. unfold only. apply safe_prog_bind. eapply safe_mono; [apply calm_lib, lib_Connect|].
  intros [[d|e|] c'] [] _; [|done..]. by destruct (d == "").
Qed.

(** C28: whatever the request, no RPC of the node puts an option that gives a password or
    credentials, or a file of them, among the plain options of a mount.  An option is one
    text: a flag such as [ro,password=x] counts as an option of the key [ro,password], and
    stays among the plain ones. *)
Theorem node_secretless (stage : NodeStageVolumeRequest) (publish : NodePublishVolumeRequest)
  (volumeId path : string) :
  only_rpc secretless (NodeStageVolume stage) /\ only_rpc secretless (NodePublishVolume publish)
  /\ only_rpc secretless (NodeUnstageVolume volumeId path)
  /\ only_rpc secretless (NodeUnpublishVolume volumeId path)
  /\ only_rpc secretless (NodeGetVolumeStats volumeId path)
  /\ only_rpc secretless (NodeExpandVolume volumeId path).
Proof.
  split_and!.
  - unfold NodeStageVolume, parseStage, persist_or_rollback, rollback, failed_of, stage_filesystem. rpc_steps;
      (apply secretless_share || apply secretless_connect || apply secretless_check ||
       (apply secretless_format; by eapply splitSensitive_spec)).
  - unfold NodePublishVolume, publish_share, parsePublish, publish_block, recover_staging. rpc_steps;
      (apply secretless_bind_mount || (apply secretless_format; by eapply splitSensitive_spec) || idtac).
    apply secretless_mount. destruct (pb_Readonly publish); repeat constructor; by apply not_sensitive_plain.
  - unfold NodeUnstageVolume, cleanup_connector, disconnect, removeStagingConnectorFiles. rpc_steps;
      (apply secretless_check || apply secretless_cleanup).
  - unfold NodeUnpublishVolume. rpc_steps. apply secretless_cleanup.
  - unfold NodeGetVolumeStats, isBlockDevice, stat, block_stats, executor. rpc_steps.
    intros ns. destruct (ns_exec ns); [|done]. by apply safe_doing.
  - unfold NodeExpandVolume. rpc_steps.
Qed.
End secrets.

(** A flag with a comma in it is one option. *)
Example combined_option_stays_plain :
  splitSensitiveMountOptions ["ro,password=x"; "Password = y"] = (["ro,password=x"], ["Password = y"]).
Proof. vm_compute. reflexivity. Qed.
