(* ===== verification/NodeOps.v ===== *)
(** * The node service: clock, addresses, statistics and the order of its steps. *)
From S2P Require Import Prelude GoStrings GoStrconv GoPath Prog Host Iscsiadm Devices Connector.
From S2P Require Import IscsiFacts DeviceFacts VolumeID VolumeIDFacts VolumeTypes LegacyID Params.
From S2P Require Import Chap Driver Controller ControllerFacts.
From S2P Require Import ControllerOps NodeParams Node NodeService NodeFacts.

(** ** Loops that watch the clock *)

(** A clock that never runs backwards and that sleeping moves on; the state is a time
    that has been reached. *)
Definition clock : monitor host Z :=
  Monitor host Z (fun _ _ => True)
    (fun s o => match o with Now => fun r => (s <= r)%Z | _ => fun _ => True end)
    (fun s o => match o with
                | Now => fun r => r
                | Sleep d => fun _ => (s + Z.max 0 d)%Z
                | _ => fun _ => s
                end).

(** An attempt that does not look at the fuel. *)
Definition attempts (m : go host unit) : Prop :=
  forall s, safe clock s m (fun r s' => (s <= s')%Z /\ r <> Err stuck).

Lemma poll_ends m fuel : forall s deadline delay late,
  attempts m -> (0 < delay)%Z -> late <> stuck ->
  (deadline < s + delay * (Z.of_nat fuel - 1))%Z -> (0 < fuel)%nat ->
  safe clock s (poll fuel m deadline delay late) (fun r _ => r <> Err stuck).
Proof.
  induction fuel as [|fuel IH]; intros s deadline delay late Hm Hd Hl Hs Hf; [lia|]. cbn [poll].
  host_step. eapply safe_mono; [apply Hm|]. intros [[]|e|] s1 [Hs1 Hr]; [done| |done].
  host_step. host_step; [done|]. intros now Hnow. cbn [step clock assumed] in *.
  destruct (deadline <? now)%Z eqn:E; go_bool; [cbn; congruence|].
  host_step. host_step; [done|]. intros x _. cbn [step clock].
  destruct fuel as [|fuel]; [lia|]. apply IH; try done; lia.
Qed.

Lemma polling_ends m s timeout delay late :
  attempts m -> (0 < delay)%Z -> late <> stuck ->
  safe clock s (polling m timeout delay late) (fun r _ => r <> Err stuck).
Proof.
  intros Hm Hd Hl. unfold polling. host_step. host_step; [done|]. intros now _.
  cbn [step clock]. apply poll_ends; try done; [|unfold poll_fuel; lia].
  unfold poll_fuel. pose proof (Z.mod_pos_bound timeout delay Hd) as Hb.
  pose proof (Z.div_mod timeout delay ltac:(lia)) as He.
  rewrite !Nat2Z.inj_succ. nia.
Qed.

Lemma probe_attempts path : attempts (probeWritablePath path).
Proof.
  intros s. unfold probeWritablePath. host_step. host_step; [done|]. intros now Hnow.
  cbn [step clock assumed] in *. host_step. host_step; [done|]. intros r _.
  host_step. destruct r as [e|]; cbn; [by split; [lia|]|].
  split; [done|]. intros w _. split; [done|]. intros y _. split; [done|]. intros c _. split; [done|].
  intros d _. destruct w, y, c, d; cbn; (split; [lia|done]).
Qed.

(** C30: the node's waits end while its clock runs: with the fuel of the model, which is
    a bound on the number of attempts, neither waiting for a staged file system nor
    waiting for a device runs out of it. *)
Theorem waits_end (s : Z) (path : string) (opts : list string) (timeout : Z) :
  safe clock s (waitForStagedFilesystemReady path opts timeout) (fun r _ => r <> Err stuck)
  /\ safe clock s (waitForPath path timeout) (fun r _ => r <> Err stuck).
Proof.
  split.
  - unfold waitForStagedFilesystemReady. destruct (mountOptionsReadOnly opts); [done|].
    by apply polling_ends; [apply probe_attempts|..].
  - apply polling_ends; [|done..]. intros s'. unfold stat. host_step. host_step. host_step; [done|].
    intros r _. cbn [step clock]. by destruct r as [e|b]; cbn; (split; [lia|]).
Qed.

(** ** From the controller to the node *)

Lemma getStr_Some ctx k v : ctx !! k = Some v -> TrimSpace v <> "" -> getStr ctx k = (TrimSpace v, true).
Proof.
  intros H Hv. unfold getStr, param. rewrite H. by apply String.eqb_neq in Hv as ->.
Qed.
Lemma first_value_here key keys ctx rest v :
  ctx !! key = Some v -> TrimSpace v <> "" ->
  firstContextValueForKeys (key :: keys) (ctx :: rest) = TrimSpace v.
Proof.
  intros H Hv. cbn [firstContextValueForKeys first_key]. by rewrite (getStr_Some ctx key v).
Qed.

Section published.
Context (l : volID) (v : VolumeID).
Context (Hproto : vProtocol v = ProtocolISCSI).
Context (Hportal : validateTargetPortal (lTargetPortal l) = Ok tt).
Context (Htrim : TrimSpace (lTargetPortal l) = lTargetPortal l).
Context (Hiqn : TrimSpace (lTargetIQN l) = lTargetIQN l) (Hi : lTargetIQN l <> "").
Context (Hlun : 0 <= lLUN l < 2 ^ 31).

(** C22: what the controller publishes is what the node connects to: from the context
    that [ControllerPublishVolume] returns for an iSCSI volume, whatever the volume's
    own context and id say, the node reads the portal, the target and the LUN of the
    volume, and asks the connector for that LUN, without wrap-around. *)
Theorem published_is_staged (volumeId : string) (volumeContext : Params) :
  iscsiConnectionFromContexts volumeId [publish_context v l; volumeContext]
    = Ok (lTargetPortal l, lTargetIQN l, lLUN l)
  /\ int32_of (lLUN l) = lLUN l.
Proof.
  split; [|by apply int32_of_id; unfold in_int32; lia].
  assert (lTargetPortal l <> "") as Hp.
  { intros E. by rewrite E in Hportal. }
  unfold iscsiConnectionFromContexts, publish_context, file_protocol. rewrite Hproto. cbn [orb].
  set (ctx := list_to_map _). cbn [app].
  rewrite (first_value_here "targetPortal" _ ctx _ (lTargetPortal l)) by (done || by rewrite Htrim).
  rewrite (first_value_here "iqn" _ ctx _ (lTargetIQN l)) by (done || by rewrite Hiqn).
  rewrite (first_value_here "lun" _ ctx _ (Itoa (lLUN l)))
    by (done || (rewrite TrimSpace_Itoa; apply Itoa_nonempty)).
  rewrite Htrim, Hiqn, TrimSpace_Itoa.
  rewrite (proj2 (String.eqb_neq _ _) Hp), Hportal. cbn [mbind res_bind].
  rewrite (proj2 (String.eqb_neq _ _) Hi), (proj2 (String.eqb_neq _ _) (Itoa_nonempty _)).
  rewrite Atoi_Itoa by (unfold in_int64; lia).
  by rewrite (proj2 (Z.ltb_ge _ _)) by lia.
Qed.
End published.

Lemma published_is_staged_witness :
  iscsiConnectionFromContexts "" [publish_context (of_legacy legacy_example) legacy_example; ∅]
    = Ok ("10.0.0.5:3260", "iqn.1991-05.com.microsoft:pvc-1", 0)
  /\ int32_of 0 = 0.
Proof.
  exact (published_is_staged legacy_example (of_legacy legacy_example)
           eq_refl ltac:(vm_compute; reflexivity) ltac:(vm_compute; reflexivity)
           ltac:(vm_compute; reflexivity) ltac:(discriminate) ltac:(split; by vm_compute) "" ∅).
Defined.

(** ** Statistics *)

(** With the counts of a real file system the statistics neither wrap around nor
    contradict each other: used and available space fit in the total, and used and
    free inodes make it up. *)
Theorem fsUsage_consistent (st : statfs_t) :
  0 <= Bsize st -> 0 <= Bavail st <= Bfree st -> Bfree st <= Blocks st ->
  Blocks st < 2 ^ 63 -> Bsize st < 2 ^ 63 -> Blocks st * Bsize st < 2 ^ 63 ->
  0 <= Ffree st <= Files st -> Files st < 2 ^ 63 ->
  let '(bytes, inodes) := fsUsage st in
  Total bytes = Blocks st * Bsize st /\ Used bytes = (Blocks st - Bfree st) * Bsize st
  /\ 0 <= Available bytes /\ Used bytes + Available bytes <= Total bytes
  /\ Used inodes + Available inodes = Total inodes /\ Total inodes = Files st.
Proof.
  intros. unfold fsUsage. cbn.
  rewrite !(int64_of_id (Bsize st)), !(int64_of_id (Blocks st)), !(int64_of_id (Bfree st)),
    !(int64_of_id (Bavail st)), !(int64_of_id (Files st)), !(int64_of_id (Ffree st))
    by (unfold in_int64; lia).
  assert (0 <= Bavail st * Bsize st <= Bfree st * Bsize st) by nia.
  assert (Bfree st * Bsize st <= Blocks st * Bsize st) by nia.
  rewrite (int64_of_id (Files st - Ffree st)), (int64_of_id (Blocks st * Bsize st)),
    (int64_of_id (Bavail st * Bsize st)), (int64_of_id (Bfree st * Bsize st)) by (unfold in_int64; lia).
  rewrite int64_of_id by (unfold in_int64; lia). lia.
Qed.
Lemma fsUsage_consistent_witness :
  let st := {| Bsize := 4096; Blocks := 2621440; Bfree := 2000000; Bavail := 1900000;
               Files := 655360; Ffree := 655300 |} in
  let '(bytes, inodes) := fsUsage st in
  Total bytes = Blocks st * Bsize st /\ Used bytes = (Blocks st - Bfree st) * Bsize st
  /\ 0 <= Available bytes /\ Used bytes + Available bytes <= Total bytes
  /\ Used inodes + Available inodes = Total inodes /\ Total inodes = Files st.
Proof. apply fsUsage_consistent; cbn; lia. Defined.
