(* ===== verification/NodeOrder.v ===== *)
(** * The node service: in which order a volume is staged and taken back. *)
From S2P Require Import Prelude GoStrings GoStrconv GoPath Prog Host ConnectorFile Iscsiadm Devices Connector.
From S2P Require Import IscsiFacts DeviceFacts VolumeID VolumeTypes LegacyID Params.
From S2P Require Import Chap Driver Controller NodeParams Node NodeService NodeFacts.

Lemma safe_internally {M A} (m : monitor host M) s (ns : nodeServer) f (p : go host A) Q :
  safe m s p (fun r s' => match r with
                          | Ok a => Q (Ok a, ns) s'
                          | Err _ => Q (Err (StatusErr Internal f), ns) s'
                          | Panicked => Q (Panicked, ns) s'
                          end) ->
  safe m s (internally f p ns) Q.
Proof.
  intros H. apply safe_doing. host_step. eapply safe_mono; [exact H|]. by intros [a|e|] s'.
Qed.
Lemma safe_mounter {M} (m : monitor host M) s ns (o : host_op) Q :
  ns_mounter ns = true -> allowed m s o ->
  (forall r, assumed m s o r -> Q (Ok r, ns) (step m s o r)) -> safe m s (mounter o ns) Q.
Proof.
  intros Hn Ha HQ. unfold mounter. rewrite Hn. apply safe_doing. by host_step.
Qed.
Lemma safe_check_mount {M} (m : monitor host M) s ns path f Q :
  ns_mounter ns = true -> allowed m s (IsLikelyNotMountPoint path) ->
  (forall r, assumed m s (IsLikelyNotMountPoint path) r ->
     match snd r with
     | Some e => if not_exist e then Q (Ok r, ns) else Q (Err (StatusErr Internal f), ns)
     | None => Q (Ok r, ns)
     end (step m s (IsLikelyNotMountPoint path) r)) ->
  safe m s (check_mount path f ns) Q.
Proof.
  intros Hn Ha HQ. unfold check_mount. apply safe_method_bind.
  refine (safe_mounter m s ns (IsLikelyNotMountPoint path) _ Hn Ha _).
  intros [b [e|]] Hr; specialize (HQ _ Hr); cbn [snd] in HQ; [destruct (not_exist e)|]; exact HQ.
Qed.

(** ** Unstaging *)

(** The record is deleted, or the tool says that there is none. *)
Definition record_deleted (r : exec_result) : bool := (succeeded r || says_no_record r)%bool.

Section unstaging.
Context (staging : string).

(** Whether the staging path is known not to be mounted, and whether the target's record
    is known to be deleted. *)
Record unstage_state := { released : bool; record_gone : bool }.

Definition not_mounted (r : bool * option oserr) : bool :=
  match r with
  | (notMnt, None) => notMnt
  | (_, Some e) => not_exist e
  end.
Definition unstage_step (s : unstage_state) (o : host_op) : host_resp o -> unstage_state :=
  match o with
  | IsLikelyNotMountPoint p => fun r =>
      {| released := (released s || ((p == staging) && not_mounted r))%bool; record_gone := record_gone s |}
  | Unmount p => fun r =>
      {| released := (released s || ((p == staging) && written r))%bool; record_gone := record_gone s |}
  | Command _ name args => fun r =>
      if decide (name = "iscsiadm" /\ last args = Some "delete")
      then {| released := released s; record_gone := (record_gone s || record_deleted r)%bool |}
      else s
  | _ => fun _ => s
  end.
(** Nothing but lsblk runs, and no device is written, while the path may be mounted; the
    files of the connector go last; nothing is mounted. *)
Definition unstage_allowed (s : unstage_state) (o : host_op) : Prop :=
  match o with
  | Command _ name _ => name = "lsblk" \/ released s = true
  | WriteExisting _ _ => released s = true
  | RemoveFile path => released s = true /\ record_gone s = true /\ path ∈ connector_paths staging true
  | Unmount path | CleanupMountPoint _ path => path = staging
  | Mount _ _ _ _ | MountSensitive _ _ _ _ _ | FormatAndMount _ _ _ _
  | FormatAndMountSensitive _ _ _ _ _ => False
  | _ => True
  end.
Definition unstage_monitor : monitor host unstage_state :=
  Monitor host unstage_state unstage_allowed (fun _ _ _ => True) unstage_step.

(** Reading connectors moves nothing. *)
Definition reading (o : host_op) : Prop :=
  match o with
  | ReadFile _ => True
  | Command _ name _ => name = "lsblk"
  | _ => False
  end.

Lemma step_released s o r : released s = true -> released (unstage_step s o r) = true.
Proof.
  intros Hs. destruct o; try exact Hs; cbn; [destruct (decide _); exact Hs|..];
    by rewrite Hs.
Qed.
Lemma step_record s o r : record_gone s = true -> record_gone (unstage_step s o r) = true.
Proof. intros Hs. destruct o; try exact Hs; cbn. destruct (decide _); cbn; [by rewrite Hs|exact Hs]. Qed.

(** Once the path is released the library may do what it does. *)
Lemma released_lib {A} (p : prog host A) s :
  released s = true -> only (E := host) library_request p ->
  safe unstage_monitor s p (fun _ s' => released s' = true /\ (record_gone s = true -> record_gone s' = true)).
Proof.
  unfold only. revert s. induction p as [a|o k IH]; intros s Hs; cbn [safe]; [done|].
  intros [Ho Hk]. split; [destruct o; cbn in *; auto; done|]. intros r _.
  eapply safe_mono; [apply IH; [by apply step_released|by apply Hk]|].
  intros a s' [Hr Hg]. split; [done|]. intros Hgone. apply Hg. by apply step_record.
Qed.

Lemma Disconnect_record c s :
  released s = true ->
  safe unstage_monitor s (Connector_Disconnect c)
    (fun r s' => released s' = true /\ (r = Ok tt -> record_gone s' = true)).
Proof.
  intros Hs. unfold Connector_Disconnect, Disconnect. host_step.
  eapply safe_mono.
  { apply released_lib; [done|]. assert (H := lib_logout_all (cTargetIqn c) (TargetPortals c)). exact H. }
  intros [failed|e|] s1 [Hs1 _]; [|by split..]. host_step. host_step. unfold DeleteDBEntry.
  host_step. host_step; [by right|]. intros r _. cbn [step unstage_monitor iscsiadm unstage_step].
  rewrite decide_True by done. unfold record_deleted, succeeded. destruct (cmd_output r) as [out [e|]] eqn:E.
  - destruct (isISCSINodeDBEntryAlreadyAbsent out e) eqn:Ea; destruct failed; cbn; split; try done.
    by rewrite (no_record_said r out e E Ea), orb_true_r.
  - destruct failed; cbn; split; try done; by rewrite orb_true_r.
Qed.

(** Looking for the connector. *)
Lemma lsblk_reading p b : only (E := host) reading (lsblk p b).
Proof.
  unfold lsblk. apply only_bind; [by split|]. intros r.
  destruct (outcome r) as [|n t|e]; [done| |done]. by destruct (_ || _)%bool.
Qed.
Lemma read_connector_reading p : only (E := host) reading (read_connector p).
Proof. unfold read_connector. apply only_bind; [by split|]. intros [e|raw]; [done|]. by destruct (decode_connector raw). Qed.
Lemma GetConnectorFromFile_reading p : only (E := host) reading (GetConnectorFromFile p).
Proof.
  unfold GetConnectorFromFile, GetSCSIDevices. apply only_bind; [apply read_connector_reading|].
  intros c. cbv zeta. destruct (MountTargetDevice c); [|done].
  apply only_bind; [apply lsblk_reading|]. intros []; [done|].
  apply only_bind; [apply lsblk_reading|done].
Qed.
Lemma cleanup_reading s b : only (E := host) reading (getCleanupConnectorFromStaging s b).
Proof.
  unfold getCleanupConnectorFromStaging. generalize (PlainErr "nil"). induction (connector_paths s b) as [|p l IH];
    intros e; cbn [first_cleanup_connector]; [done|].
  unfold only. host_step. eapply safe_mono; [apply GetConnectorFromFile_reading|].
  intros [c|e'|] [] _; [done| |done]. destruct (IsNotExist _); [apply IH|].
  destruct (isMissingMountTargetDevice e'); [|done]. cbn [negb]. host_step.
  eapply safe_mono.
  { unfold readPersistedConnector. apply (only_bind (E := host) reading); [apply read_connector_reading|].
    intros c. by destruct (MountTargetDevice c). }
  intros [c|e2|] [] _; [done| |done]. destruct (IsNotExist _); [apply IH|done].
Qed.

Lemma safe_reading (p : go host Connector) s Q :
  only (E := host) reading p -> (forall r, Q r s) -> safe (unstage_monitor) s p Q.
Proof.
  intros Hp HQ. apply (safe_ignored _ reading); [|done|by apply safe_anything].
  intros o Ho. destruct o; try done. cbn in Ho. subst name. split; [by left|].
  intros r. cbn. by rewrite decide_False by (intros [? _]; done).
Qed.

Lemma safe_cleanup_connector b ns s Q :
  (forall r, Q (r, ns) s) ->
  safe unstage_monitor s (cleanup_connector staging b ns) Q.
Proof.
  intros HQ. unfold cleanup_connector. apply safe_doing. host_step.
  apply safe_reading; [apply cleanup_reading|]. intros [c|e|]; [apply HQ| |apply HQ].
  destruct (IsNotExist _); apply HQ.
Qed.

Lemma remove_files_allowed l s Q :
  released s = true -> record_gone s = true -> (forall p, p ∈ l -> p ∈ connector_paths staging true) ->
  (forall r, Q r s) -> safe unstage_monitor s (remove_files l) Q.
Proof.
  intros Hs Hg Hl HQ. induction l as [|p l IH]; cbn [remove_files]; [apply HQ|].
  host_step. host_step; [split_and!; auto; apply Hl; by constructor|]. intros r _.
  assert (safe unstage_monitor s (remove_files l) Q) as Ht
    by (apply IH; intros x Hx; apply Hl; by constructor).
  cbn [step unstage_monitor unstage_step]. destruct r as [e|]; [|exact Ht].
  destruct (not_exist e); [exact Ht|apply HQ].
Qed.

Lemma disconnect_allowed ns c s Q :
  released s = true -> (forall r s', released s' = true -> Q (r, ns) s') ->
  safe unstage_monitor s (disconnect staging c ns) Q.
Proof.
  intros Hs HQ. unfold disconnect. apply safe_method_bind, safe_internally.
  eapply safe_mono; [by apply released_lib, lib_DisconnectVolume|].
  intros [[]|e|] s1 [Hs1 _]; [|by apply HQ..].
  apply safe_method_bind, safe_internally. eapply safe_mono; [by apply Disconnect_record|].
  intros [[]|e|] s2 [Hs2 Hg]; [|by apply HQ..].
  apply safe_internally, remove_files_allowed; auto. intros [[]|e|]; by apply HQ.
Qed.

(** The end of an unstaging, from where the path is released. *)
Definition unstaged (out : res unit * nodeServer) (s : unstage_state) : Prop :=
  fst out = Ok tt -> released s = true /\ ns_mounter (snd out) = true.
Definition finish (conn : option Connector) : rpc unit :=
  conn ← (match conn with
          | Some c => returning (Ok (Some c))
          | None => cleanup_connector staging true
          end);
  _ ← (match conn with Some c => disconnect staging c | None => returning (Ok tt) end);
  cleanup_mount staging "unstage cleanup failed: %v".

Lemma cleanup_mount_allowed ns s :
  ns_mounter ns = true -> released s = true ->
  safe unstage_monitor s (cleanup_mount staging "unstage cleanup failed: %v" ns) unstaged.
Proof.
  intros Hn Hs. unfold cleanup_mount. apply safe_method_bind, safe_doing. host_step; [done|].
  intros r _. by destruct r as [[e|]|]; [destruct (not_exist e)|..].
Qed.
Lemma finish_allowed conn ns s :
  ns_mounter ns = true -> released s = true -> safe unstage_monitor s (finish conn ns) unstaged.
Proof.
  intros Hn Hs. unfold finish. apply safe_method_bind.
  assert (forall c, safe unstage_monitor s
    ((_ ← (match c with Some c => disconnect staging c | None => returning (Ok tt) end);
      cleanup_mount staging "unstage cleanup failed: %v" : rpc unit) ns) unstaged) as Hend.
  { intros c. apply safe_method_bind. destruct c; [|by apply cleanup_mount_allowed].
    apply disconnect_allowed; [done|]. intros [[]|e|] s2 Hs2; [by apply cleanup_mount_allowed|done..]. }
  destruct conn as [c|]; [exact (Hend (Some c))|].
  apply safe_cleanup_connector. intros [c|e|]; [exact (Hend c)|done..].
Qed.

(** C13: while the staging path may be mounted, [NodeUnstageVolume] runs nothing but
    lsblk and writes to no device: the volume is disconnected only after the path was
    seen not to be mounted, or was unmounted.  The connector's own files, and no others,
    are removed only after that and after the record of the target is gone, so that an
    attempt that fails can be repeated.  Success means that the path is released. *)
Theorem NodeUnstageVolume_ordered (volumeId : string) (ns : nodeServer) :
  safe unstage_monitor {| released := false; record_gone := false |}
    (NodeUnstageVolume volumeId staging ns) unstaged.
Proof.
  unfold NodeUnstageVolume. destruct (volumeId == ""); [done|]. destruct (staging == ""); [done|].
  apply safe_method_bind. cbn [safe init update].
  set (ns1 := {| ns_exec := true |}). set (s0 := {| released := false |}).
  apply safe_method_bind, safe_cleanup_connector. intros [conn|e|]; [|done..].
  fold (finish conn). apply safe_method_bind.
  apply safe_check_mount; [done|done|]. intros [notMnt merr] _. cbn [snd step unstage_monitor].
  set (s1 := unstage_step s0 _ _).
  assert (s1 = {| released := not_mounted (notMnt, merr); record_gone := false |}) as Es
    by (subst s1 s0; cbn; by rewrite String.eqb_refl).
  destruct merr as [e|].
  - destruct (not_exist e) eqn:Ee; [|done]. apply safe_method_bind. cbn [safe returning].
    apply finish_allowed; [done|]. rewrite Es. exact Ee.
  - apply safe_method_bind. destruct notMnt.
    + cbn [safe returning]. apply finish_allowed; [done|]. by rewrite Es.
    + unfold mounter_must. apply safe_method_bind.
      refine (safe_mounter unstage_monitor s1 ns1 (Unmount staging) _ eq_refl eq_refl _).
      intros r _. cbn [step unstage_monitor unstage_step id]. destruct r as [e|]; [done|].
      cbn [safe returning]. apply finish_allowed; [done|]. cbn. by rewrite String.eqb_refl, orb_true_r.
Qed.
End unstaging.

(** ** Staging an iSCSI volume *)

Section staging.
Context (req : NodeStageVolumeRequest).

(** The text that was written to the connector's file, whether its writing failed, what was
    asked for since, with the answers, whether the staging path was seen not to be mounted,
    and whether it has been mounted. *)
Record stage_state := {
  persisted : option string; persist_failed : bool; since : list exchange;
  empty_path : bool; mounted : bool
}.
Definition unstaged_yet : stage_state :=
  {| persisted := None; persist_failed := false; since := []; empty_path := false; mounted := false |}.
Definition asked (s : stage_state) (o : host_op) (r : host_resp o) : stage_state :=
  {| persisted := persisted s; persist_failed := persist_failed s;
     since := if persist_failed s then since s ++ [existT o r] else since s;
     empty_path := empty_path s; mounted := mounted s |}.
Definition wrote (s : stage_state) (text : option string) (r : option oserr) : stage_state :=
  {| persisted := if written r then text else persisted s;
     persist_failed := (persist_failed s || negb (written r))%bool;
     since := if written r then since s else []; empty_path := empty_path s; mounted := mounted s |}.
Definition stage_step (s : stage_state) (o : host_op) : host_resp o -> stage_state :=
  match o with
  | WriteCreated _ text => fun r => wrote s (Some text) r
  | CreateFile _ => fun r => wrote s (persisted s) r
  | IsLikelyNotMountPoint _ => fun r =>
      {| persisted := persisted s; persist_failed := persist_failed s; since := since s;
         empty_path := fst r; mounted := mounted s |}
  | FormatAndMount _ _ _ _ | FormatAndMountSensitive _ _ _ _ _ => fun r =>
      {| persisted := persisted s; persist_failed := persist_failed s; since := since s;
         empty_path := empty_path s; mounted := written r |}
  | o => asked s o
  end.
(** The devices of the connector are removed or a request for that has failed; then all of
    its sessions are logged out of, and the record of its target is deleted. *)
Definition taken_away (c : Connector) (tr : list exchange) : Prop :=
  exists d device_part session_part, MountTargetDevice c = Some d
  /\ tr = device_part ++ session_part /\ removal_tried c d device_part
  /\ map (fun x : exchange => projT1 x) session_part
     = map (logout_request (cTargetIqn c)) (portals_of (TargetPortals c))
       ++ [delete_request (cTargetIqn c)].
(** The device that is formatted is that of the connector on file, the path the staging
    path, and nothing is mounted there. *)
Definition may_format (s : stage_state) (source target : string) : Prop :=
  target = st_StagingTargetPath req /\ empty_path s = true /\
  exists c d, persisted s = Some (encode_connector c) /\ MountTargetDevice c = Some d /\ source = GetPath d.
Definition stage_monitor : monitor host stage_state :=
  Monitor host stage_state
    (fun s o => match o with
                | FormatAndMount source target _ _ | FormatAndMountSensitive source target _ _ _ =>
                    may_format s source target
                | Mount _ _ _ _ | MountSensitive _ _ _ _ _ | Unmount _ => False
                | WriteCreated path _ => path = stageConnectorFile (st_StagingTargetPath req)
                | _ => True
                end) (fun _ _ _ => True) stage_step.

(** What the library does leaves all but the requests as it is. *)
Definition kept (s s' : stage_state) : Prop :=
  persisted s' = persisted s /\ persist_failed s' = persist_failed s
  /\ empty_path s' = empty_path s /\ mounted s' = mounted s
  /\ (persist_failed s = false -> since s' = since s).

Lemma asked_step s o r : library_request o -> step stage_monitor s o r = asked s o r.
Proof. by destruct o. Qed.
Lemma lib_traced {A} (p : prog host A) s tr (Q : A -> list exchange -> Prop) :
  only (E := host) library_request p -> safe tracer tr p Q ->
  safe stage_monitor s p (fun a s' => kept s s' /\ exists new, Q a (tr ++ new)
                                        /\ (persist_failed s = true -> since s' = since s ++ new)).
Proof.
  unfold only. revert s tr. induction p as [a|o k IH]; intros s tr; cbn [safe].
  { intros _ HQ. split; [done|]. exists []. by rewrite !app_nil_r. }
  intros [Ho Hk] [_ HQ]. split; [by destruct o|]. intros r _. rewrite (asked_step s o r Ho).
  eapply safe_mono; [apply (IH r (asked s o r) (tr ++ [existT o r])); [by apply Hk|by apply HQ]|].
  intros a s' [(Hp & Hf & He & Hm & Hs) (new & Ha & Hnew)]. cbn in Hp, Hf, He, Hm, Hs, Hnew. split.
  - unfold kept. split_and!; try done. intros E. rewrite Hs by done. by rewrite E.
  - exists (existT o r :: new). rewrite <- app_assoc in Ha. split; [exact Ha|]. intros E.
    rewrite Hnew by done. rewrite E. by rewrite <- app_assoc.
Qed.
Lemma lib_kept {A} (p : prog host A) s (Q : A -> unit -> Prop) :
  only (E := host) library_request p -> safe anything tt p Q ->
  safe stage_monitor s p (fun a s' => kept s s' /\ Q a tt).
Proof.
  intros Hp HQ. eapply safe_mono; [apply (lib_traced p s [] (fun a _ => Q a tt)); [done|]|].
  - eapply safe_mono; [apply (safe_refine anything tracer (fun _ _ => True) tt); [done|done|exact HQ]|].
    by intros a tr ([] & _ & ?).
  - intros a s' [Hk (new & Ha & _)]. by split.
Qed.
Lemma file_kept {A} (p : prog host A) s Q :
  persist_failed s = false -> only (E := host) file_request p -> (forall a, Q a s) -> safe stage_monitor s p Q.
Proof.
  intros Hs Hp HQ. apply (safe_ignored _ file_request); [|done|by apply safe_anything].
  intros o Ho. split; [by destruct o|]. intros r.
  assert (asked s o r = s) as E by (destruct s; cbn in Hs |- *; unfold asked; cbn; by rewrite Hs).
  destruct o; done.
Qed.

Lemma Disconnect_requests c :
  safe tracer [] (Connector_Disconnect c)
    (fun r tr => r <> Panicked -> map (fun x : exchange => projT1 x) tr
       = map (logout_request (cTargetIqn c)) (portals_of (TargetPortals c))
         ++ [delete_request (cTargetIqn c)]).
Proof.
  eapply safe_mono.
  { apply (safe_refine asking tracer (fun s tr => fst s = map (fun x : exchange => projT1 x) tr) ([], true));
      [|done|apply Disconnect_asks].
    intros [l well] tr o E _. split; [done|]. intros r _. split; [done|]. cbn in E |- *. by rewrite map_app, E. }
  intros r tr ([l well] & E & H & _) _. cbn in E. by rewrite <- E.
Qed.

Lemma connect_kept c ns s Q :
  (forall device c' s', kept s s' -> connected c (Ok device) c' -> device <> "" ->
     Q (Ok (device, c'), ns) s') ->
  (forall e s', kept s s' -> Q (Err e, ns) s') -> (forall s', kept s s' -> Q (Panicked, ns) s') ->
  safe stage_monitor s (connect c ns) Q.
Proof.
  intros HQ He Hp. unfold connect. apply safe_doing, safe_prog_bind.
  eapply safe_mono; [eapply lib_kept; [apply lib_Connect|apply Connect_result]|].
  intros [[d|e|] c'] s' [Hk Hc]; [|by apply He|by apply Hp].
  destruct (d == "") eqn:E; go_bool; [by apply He|by apply HQ].
Qed.

(** What has happened when [persist_or_rollback] returns. *)
Definition persist_outcome (c : Connector) (r : res unit) (s' : stage_state) : Prop :=
  match r with
  | Ok _ => persisted s' = Some (encode_connector c) /\ persist_failed s' = false
  | Err _ => persist_failed s' = true -> taken_away c (since s')
  | Panicked => True
  end.
Lemma failed_of_traced p s (Q : res unit -> list exchange -> Prop) :
  only (E := host) library_request p -> safe tracer [] p Q ->
  persist_failed s = true ->
  safe stage_monitor s (failed_of p)
    (fun r s' => persist_failed s' = true /\ (r = Panicked \/ exists b r' new, r = Ok b /\ r' <> Panicked
        /\ Q r' new /\ since s' = since s ++ new)).
Proof.
  intros Hp HQ Hs. unfold failed_of. host_step. eapply safe_mono; [apply (lib_traced p s [] Q Hp HQ)|].
  intros r s' [(_ & Hf & _) (new & Hr & Hnew)]. rewrite Hs in Hf. specialize (Hnew Hs). cbn [app] in Hr.
  destruct r as [[]|e|]; cbn [safe ok lift]; (split; [done|]); [right; by exists false, (Ok tt), new
    |right; by exists true, (Err e), new|by left].
Qed.
Lemma rollback_outcome c d ns s :
  MountTargetDevice c = Some d -> persist_failed s = true -> since s = [] ->
  safe stage_monitor s (rollback c ns)
    (fun '(r, ns') s' => ns' = ns /\ r <> Ok tt /\ (r <> Panicked -> taken_away c (since s'))).
Proof.
  intros Hd Hf Hs. unfold rollback. apply safe_method_bind, safe_doing.
  eapply safe_mono; [apply (failed_of_traced _ s _ (lib_DisconnectVolume c) (DisconnectVolume_tries c d Hd) Hf)|].
  intros r s1 [Hf1 [->|(b & r' & new & -> & Hp & Hdev & Hnew)]]; [by split_and!|].
  rewrite Hs in Hnew. cbn [app] in Hnew. apply safe_method_bind, safe_doing.
  eapply safe_mono; [apply (failed_of_traced _ s1 _ (lib_Disconnect c) (Disconnect_requests c) Hf1)|].
  intros r2 s2 [Hf2 [->|(b2 & r2' & new2 & -> & Hp2 & Hses & Hnew2)]]; [by split_and!|].
  assert (taken_away c (since s2)) as Ht.
  { exists d, new, new2. split_and!; [done| |by apply Hdev|by apply Hses]. by rewrite Hnew2, Hnew. }
  destruct (b || b2)%bool; cbn; by split_and!.
Qed.

Lemma persist_or_rollback_outcome c d ns s :
  MountTargetDevice c = Some d -> persist_failed s = false ->
  safe stage_monitor s (persist_or_rollback c (stageConnectorFile (st_StagingTargetPath req)) ns)
    (fun '(r, ns') s' => ns' = ns /\ persist_outcome c r s').
Proof.
  intros Hd Hs. unfold persist_or_rollback. apply safe_method_bind, safe_internally.
  apply file_kept; [done|apply only_mkdir|]. intros [[]|e|]; [| |done].
  2:{ split; [done|]. cbn. by rewrite Hs. }
  apply safe_method_bind, safe_doing. unfold failed_of. host_step. unfold Persist.
  assert (forall s1, persist_failed s1 = true -> since s1 = [] -> safe stage_monitor s1 (rollback c ns)
    (fun '(r, ns') s' => ns' = ns /\ persist_outcome c r s')) as Hroll.
  { intros s1 H1 H2. eapply safe_mono; [by apply (rollback_outcome c d)|].
    intros [[[]|e|] ns'] s' (-> & Hr & Hb); cbn; split; try done. intros _. by apply Hb. }
  host_step. host_step; [done|]. intros r _. cbn [step stage_monitor stage_step].
  destruct r as [e|]; [apply Hroll; [apply orb_true_r|done]|].
  host_step. host_step; [done|]. intros r _. cbn [step stage_monitor stage_step].
  destruct r as [e|]; [apply Hroll; [apply orb_true_r|done]|]. cbn. by rewrite Hs.
Qed.

(** What is true of the state once the volume is staged. *)
Definition on_file (c : Connector) (s : stage_state) : Prop :=
  persisted s = Some (encode_connector c) /\ persist_failed s = false.

Lemma stage_filesystem_staged st c d ns s :
  ns_mounter ns = true -> on_file c s -> MountTargetDevice c = Some d ->
  safe stage_monitor s (stage_filesystem req st (GetPath d) ns)
    (fun '(r, _) s' => on_file c s' /\ (r = Ok tt -> mounted s' = true \/ empty_path s' = false)).
Proof.
  intros Hn [Hp Hf] Hd. unfold stage_filesystem. apply safe_method_bind.
  apply safe_check_mount; [done|done|]. intros [notMnt merr] _. cbn [snd step stage_monitor stage_step fst].
  set (s1 := {| persisted := _ |}).
  assert (on_file c s1) as Hs1 by done. assert (empty_path s1 = notMnt) as Hempty by done.
  clearbody s1.
  assert (safe stage_monitor s1
    ((_ ← internally "mkdir staging: %v" (mkdir (st_StagingTargetPath req));
      let '(normalMountOpts, sensitiveMountOpts) := splitSensitiveMountOptions (mountOpts st) in
      _ ← (if notMnt : bool then
             formatAndMountPrepared (GetPath d) (st_StagingTargetPath req) (fsType st) normalMountOpts
               sensitiveMountOpts "format+mount staging failed: %v"
           else returning (Ok tt));
      internally "staging filesystem not ready: %v"
        (waitForStagedFilesystemReady (st_StagingTargetPath req) normalMountOpts
           stagedFilesystemReadyWait) : rpc unit) ns)
    (fun '(r, _) s' => on_file c s' /\ (r = Ok tt -> mounted s' = true \/ empty_path s' = false))) as H.
  { apply safe_method_bind, safe_internally, file_kept; [by apply Hs1|apply only_mkdir|].
    intros [[]|e|]; [|by split..].
    destruct (splitSensitiveMountOptions (mountOpts st)) as [no so]. apply safe_method_bind.
    assert (forall s2, on_file c s2 -> (mounted s2 = true \/ empty_path s2 = false) ->
      safe stage_monitor s2
        (internally "staging filesystem not ready: %v"
          (waitForStagedFilesystemReady (st_StagingTargetPath req) no stagedFilesystemReadyWait) ns)
        (fun '(r, _) s' => on_file c s' /\ (r = Ok tt -> mounted s' = true \/ empty_path s' = false))) as Hw.
    { intros s2 H2 Hm. apply safe_internally, file_kept; [by apply H2|apply only_ready|]. by intros [[]|e|]. }
    destruct notMnt; [|by apply Hw; [|right]].
    destruct Hs1 as [Hp1 Hf1].
    assert (may_format s1 (GetPath d) (st_StagingTargetPath req)) as Hmay
      by (split_and!; [done|done|by exists c, d]).
    unfold formatAndMountPrepared, mounter_must. destruct so; apply safe_method_bind.
    - refine (safe_mounter stage_monitor s1 ns (FormatAndMount _ _ _ _) _ Hn Hmay _).
      intros [e|] _; [by split|]. apply Hw; [done|by left].
    - refine (safe_mounter stage_monitor s1 ns (FormatAndMountSensitive _ _ _ _ _) _ Hn Hmay _).
      intros [e|] _; [by split|]. apply Hw; [done|by left]. }
  destruct merr as [e|]; [destruct (not_exist e); [exact H|by split]|exact H].
Qed.

(** C14: staging an iSCSI volume formats and mounts nothing but the device of a connector
    that is on file beside the staging path, and only at that path while nothing is mounted
    there.  On success the connector on file is that of the requested target, portal and
    LUN, and a file-system volume is mounted, unless something was mounted there already.
    When the file of the connector cannot be
    created or written, the device of that connector is removed again, as far as the host
    does not refuse (a multipath device as far as it is consistent), and whatever comes of
    that its portal is logged out of and the record of the target is deleted.  (When the
    directory of the file cannot be made, nothing is undone.) *)
Theorem NodeStageVolume_ordered (ns : nodeServer) :
  file_share (publishProtocol (st_PublishContext req) (st_VolumeContext req) (st_VolumeId req)) = false ->
  safe stage_monitor unstaged_yet (NodeStageVolume req ns)
    (fun '(r, _) s =>
       (r = Ok tt -> exists c portal iqn lun,
          iscsiConnectionFromContexts (st_VolumeId req) [st_PublishContext req; st_VolumeContext req]
            = Ok (portal, iqn, lun)
          /\ persisted s = Some (encode_connector c) /\ cTargetIqn c = iqn /\ TargetPortals c = [portal]
          /\ Lun c = int32_of lun
          /\ (is_block (st_VolumeCapability req) = false -> mounted s = true \/ empty_path s = false))
       /\ (r <> Panicked -> persist_failed s = true -> exists c portal iqn lun,
            iscsiConnectionFromContexts (st_VolumeId req) [st_PublishContext req; st_VolumeContext req] = Ok (portal, iqn, lun)
            /\ cTargetIqn c = iqn /\ TargetPortals c = [portal] /\ Lun c = int32_of lun
            /\ taken_away c (since s))).
Proof.
  intros Hproto. unfold NodeStageVolume.
  destruct (st_VolumeId req == ""); [done|]. destruct (st_StagingTargetPath req == ""); [done|].
  destruct (st_VolumeCapability req) as [vc|] eqn:Ec; [|done]. rewrite Hproto, <- Ec.
  apply safe_method_bind. unfold parseStage. apply safe_method_bind. cbn [safe init update].
  set (ns1 := {| ns_exec := true |}). apply safe_method_bind. cbn [safe returning].
  destruct (iscsiConnectionFromContexts _ _) as [[[portal iqn] lun]|e|] eqn:Eaddr; [|done..].
  destruct (getStr _ "iface") as [v ok]. apply safe_method_bind. cbn [safe returning].
  destruct (parseChapSecrets _) as [ch|e|]; [|done..]. set (st := {| portal := portal |}).
  apply safe_method_bind, connect_kept; [|by intros e s' (_ & Hf & _); split; [|rewrite Hf]|done].
  intros device c s1 (Hp & Hf & He & Hm & Hsince) [Hsame Hdev] Hne.
  destruct (Hdev device eq_refl) as [(d & Hd & -> & _)|(-> & _)]; [|done].
  assert (cTargetIqn c = iqn /\ TargetPortals c = [portal] /\ Lun c = int32_of lun) as (Hi & Ht & Hl)
    by (rewrite Hsame; done).
  apply safe_method_bind. eapply safe_mono; [by apply (persist_or_rollback_outcome c d)|].
  intros [[[]|e|] ns'] s2 [-> Hout]; cbn in Hout; [| |done].
  2:{ split; [done|]. intros _ Hbad. exists c, portal, iqn, lun. split_and!; try done. by apply Hout. }
  destruct (is_block (st_VolumeCapability req)) eqn:Eb.
  - apply safe_internally, file_kept; [by apply Hout|apply only_mkdir|]. destruct Hout as [Hp2 Hf2].
    intros [[]|e|]; (split; [|by rewrite Hf2]); try done.
    intros _. exists c, portal, iqn, lun. by split_and!.
  - eapply safe_mono; [by apply (stage_filesystem_staged st c d)|].
    intros [r ns2] s3 [[Hp3 Hf3] Hmount]. split; [|by rewrite Hf3].
    intros Hr. exists c, portal, iqn, lun. split_and!; try done. intros _. by apply Hmount.
Qed.
End staging.

Definition iscsi_context_example : Params :=
  list_to_map [("targetPortal", "10.0.0.5:3260"); ("iqn", "iqn.1991-05.com.microsoft:pvc-1"); ("lun", "0")].
Definition stage_example : NodeStageVolumeRequest :=
  {| st_VolumeId := "pvc-1"; st_PublishContext := iscsi_context_example;
     st_StagingTargetPath := "/var/lib/kubelet/staging/pvc-1";
     st_VolumeCapability := Some (MountAccess "xfs" []); st_Secrets := ∅; st_VolumeContext := ∅ |}.
Definition fresh_server : nodeServer := NewNodeServer (NewDriver "" "unix:///csi.sock").

Lemma NodeStageVolume_ordered_witness :
  safe (stage_monitor stage_example) unstaged_yet (NodeStageVolume stage_example fresh_server)
    (fun '(r, _) s =>
       (r = Ok tt -> exists c portal iqn lun,
          iscsiConnectionFromContexts "pvc-1" [iscsi_context_example; ∅] = Ok (portal, iqn, lun)
          /\ persisted s = Some (encode_connector c) /\ cTargetIqn c = iqn /\ TargetPortals c = [portal]
          /\ Lun c = int32_of lun
          /\ (false = false -> mounted s = true \/ empty_path s = false))
       /\ (r <> Panicked -> persist_failed s = true -> exists c portal iqn lun,
            iscsiConnectionFromContexts "pvc-1" [iscsi_context_example; ∅] = Ok (portal, iqn, lun)
            /\ cTargetIqn c = iqn /\ TargetPortals c = [portal] /\ Lun c = int32_of lun
            /\ taken_away c (since s))).
Proof.
  exact (NodeStageVolume_ordered stage_example fresh_server ltac:(vm_compute; reflexivity)).
Defined.

(** ** What goes wrong *)

Definition silent : exec_result :=
  {| stdout := ""; stderr := ""; combined := ""; outcome := Exited0; deadline_exceeded := false |}.
Definition device_host : handler host unit := fun o s =>
  (match o return host_resp o with
   | Stat _ => inr true
   | o => fst (idle_host silent o s)
   end, s).

(** Three RPCs do not call [init].  When one of them is the first of a plugin that was
    restarted, the node server's fields are still nil. *)
Example first_stats_panics :
  fst (fst (fst (run device_host (NodeGetVolumeStats "pvc-1" "/dev/xvda" fresh_server) tt))) = Panicked.
Proof. vm_compute. reflexivity. Qed.
Example first_unpublish_has_no_mounter :
  snd (run device_host (NodeUnpublishVolume "pvc-1" "/target" fresh_server) tt)
  = [CleanupMountPoint false "/target"].
Proof. vm_compute. reflexivity. Qed.

Definition share_publish_example : NodePublishVolumeRequest :=
  {| pb_VolumeId := "pvc-2"; pb_PublishContext := {[ "protocol" := "nfs" ]};
     pb_StagingTargetPath := "/staging"; pb_TargetPath := "/target";
     pb_VolumeCapability := Some (MountAccess "" []); pb_Readonly := false; pb_VolumeContext := ∅ |}.
Example first_share_publish_panics :
  fst (fst (fst (run device_host (NodePublishVolume share_publish_example fresh_server) tt))) = Panicked.
Proof. vm_compute. reflexivity. Qed.

(** A repeated publish mounts a second time. *)
Example repeated_publish_mounts_again :
  let ns := {| ns_Driver := ns_Driver fresh_server; ns_exec := true; ns_mounter := true;
               ns_resizer := true |} in
  snd (run device_host
         (prog_bind (NodePublishVolume share_publish_example ns)
            (fun '(_, ns) => NodePublishVolume share_publish_example ns)) tt)
  = [MkdirAll "/target"; Mount "/staging" "/target" "" ["bind"];
     MkdirAll "/target"; Mount "/staging" "/target" "" ["bind"]].
Proof. vm_compute. reflexivity. Qed.

(** When the directory of the connector's file cannot be made, the RPC fails without
    undoing what [Connect] has done: the session stays, and no file tells of it. *)
Example mkdir_failure_undoes_nothing :
  let host : handler host unit := fun o s =>
    (match o return host_resp o with
     | MkdirAll _ => Some (OsError OtherKind "no space left on device")
     | o => fst (device_host o s)
     end, s) in
  let '(r, _, log) := run host (persist_or_rollback example_connector "/staging.json" fresh_server) tt in
  (fst r, log) = (Err (StatusErr Internal "mkdir iSCSI connector directory: %v"), [MkdirAll "/"]).
Proof. vm_compute. reflexivity. Qed.

(** A LUN of more than 31 bits is accepted, and another disk of the target connected. *)
Example wide_lun_truncated :
  let ctx := <["lun" := "4294967296"]> iscsi_context_example in
  iscsiConnectionFromContexts "pvc-1" [ctx]
    = Ok ("10.0.0.5:3260", "iqn.1991-05.com.microsoft:pvc-1", 4294967296)
  /\ int32_of 4294967296 = 0.
Proof. vm_compute. split; reflexivity. Qed.
