(* ===== verification/NodeLife.v ===== *)
(** * The life of an iSCSI volume on a node: what staging has left is taken back

    [NodeStageVolume] leaves a connector on file beside the staging path
    ([NodeOrder.NodeStageVolume_ordered]).  Here a host that keeps files is unstaged: the
    connector is read back from its file, the sessions of its target are ended, its record
    is deleted, its files are removed; and unstaging again does nothing. *)
From S2P Require Import Prelude GoStrings GoStrconv GoPath Prog Host ConnectorFile Iscsiadm Devices Connector.
From S2P Require Import IscsiFacts DeviceFacts VolumeID VolumeTypes Params ParamsFacts Driver Controller NodeParams Node NodeService.
From S2P Require Import NodeFacts NodeOrder.

(** The files of connectors, and the sessions and records of the host. *)
Record node_host := { nh_files : gmap string string; nh_iscsi : iscsi_state }.
Definition drop_file (p : string) (s : node_host) : node_host :=
  {| nh_files := delete p (nh_files s); nh_iscsi := nh_iscsi s |}.

Definition node_step (s : node_host) (o : host_op) : host_resp o -> node_host :=
  match o with
  | RemoveFile p => fun r =>
      match r with
      | None => drop_file p s
      | Some e => if not_exist e then drop_file p s else s
      end
  | Command t name args => fun r =>
      {| nh_files := nh_files s; nh_iscsi := iscsi_step (nh_iscsi s) (Command t name args) r |}
  | _ => fun _ => s
  end.
(** iscsiadm does nothing here but log out and delete the record of the target. *)
Definition removes_target (iqn : string) (name : string) (args : list string) : Prop :=
  name = "iscsiadm" -> args = delete_args iqn \/ exists portal, args = logout_args iqn portal.

Section life.
Context (staging iqn : string).
Definition connector_there (s : node_host) : Prop :=
  exists p, p ∈ connector_paths staging true /\ is_Some (nh_files s !! p).

(** No command runs and no device is written while there is no file of a connector; and
    there is no way for a session to come back. *)
Definition node_allowed (s : node_host) (o : host_op) : Prop :=
  match o with
  | Command _ name args => connector_there s /\ removes_target iqn name args
  | WriteExisting _ _ => connector_there s
  | RemoveFile p => p ∈ connector_paths staging true
  | Stat _ | Glob _ | ReadFile _ | Sleep _ | IsLikelyNotMountPoint _ | Unmount _ | CleanupMountPoint _ _
  | GetDeviceNameFromMount _ | Resize _ _ => True
  | _ => False
  end.
(** Files are what they are; the tools are installed, and do not say that what they fail to
    remove is absent when it is there; a mounter that is there does not panic. *)
Definition node_assumed (s : node_host) (o : host_op) : host_resp o -> Prop :=
  match o with
  | ReadFile p => fun r =>
      match nh_files s !! p with
      | Some t => r = inr t
      | None => exists text, r = inl (OsError NotExist text)
      end
  | Command t name args => fun r => (forall e, outcome r = NotRun e -> kind e <> NotExist)
      /\ tool_honest (nh_iscsi s) (Command t name args) r
  | CleanupMountPoint mounter _ => fun r => r = CleanupPanicked -> mounter = false
  | _ => fun _ => True
  end.
Definition node_monitor : monitor host node_host := Monitor host node_host node_allowed node_assumed node_step.

(** What goes on while a volume is disconnected: files stay, sessions and records go. *)
Definition going (s s' : node_host) : Prop := nh_files s' = nh_files s /\ torn_from iqn (nh_iscsi s) (nh_iscsi s').
#[export] Instance going_preorder : PreOrder going.
Proof. split; [by intros x|]. intros x y z [E1 ?] [E2 ?]. split; [congruence|by etrans]. Qed.
Lemma going_there s s' : going s s' -> connector_there s -> connector_there s'.
Proof. intros (E & _) H. unfold connector_there. by rewrite E. Qed.

(** What does not run iscsiadm, as far as the host is concerned. *)
Definition disk_request (o : host_op) : Prop :=
  match o with
  | Command _ name _ => name <> "iscsiadm"
  | Stat _ | WriteExisting _ _ => True
  | _ => False
  end.
Lemma disk_step s o r : disk_request o -> node_step s o r = s.
Proof.
  destruct s as [f i]. destruct o as [to name args| | | | | | | | | | | | | | | | | | | | | | | | |]; try done.
  intros Hn. cbn in Hn |- *. repeat (destruct args as [|? args]; try done); by rewrite decide_False by tauto.
Qed.
Lemma disk_going {A} (p : prog host A) s :
  only (E := host) disk_request p -> connector_there s -> safe node_monitor s p (fun _ s' => going s s').
Proof.
  intros Hp Hs. apply (safe_mono _ _ _ (fun _ s' => s' = s)); [|by intros _ s' ->]. unfold only in Hp. revert Hp.
  induction p as [a|o k IH]; cbn [safe]; [done|]. intros [Ho Hk].
  split; [destruct o; try done; split; [done|by intros ?]|]. intros r _. cbn [step node_monitor].
  rewrite disk_step by done. by apply IH, Hk.
Qed.
Lemma DisconnectVolume_disk c : only (E := host) disk_request (DisconnectVolume c).
Proof.
  destruct (MountTargetDevice c) as [d|] eqn:Hd.
  2:{ unfold DisconnectVolume, IsMultipathEnabled, mount_target. by rewrite Hd. }
  unfold only. eapply safe_mono.
  - apply (safe_refine (removing (to_remove c d) (map_of d)) (every (E := host) disk_request)
             (fun _ _ => True) nothing_removed tt); [|done|by apply DisconnectVolume_removes].
    intros s [] o _ Ho. split; [|done]. destruct o; try done. cbn in Ho |- *.
    destruct Ho as [-> | [[-> _] | [-> _]]]; done.
  - done.
Qed.

(** The sessions of a connector are over, and its record is gone. *)
Definition taken_back (c : Connector) (s : node_host) : Prop :=
  torn_down (cTargetIqn c) (TargetPortals c) (nh_iscsi s).
Lemma Disconnect_taken_back c s : cTargetIqn c = iqn -> connector_there s ->
  safe node_monitor s (Connector_Disconnect c)
    (fun r s' => going s s' /\ (r = Ok tt -> taken_back c s')).
Proof.
  intros Hiqn Hs. unfold Connector_Disconnect, taken_back. rewrite Hiqn. set (f := nh_files s).
  eapply safe_mono.
  { apply (Disconnect_tears node_monitor nh_iscsi (fun s' => nh_files s' = f) iqn); [| | |done].
    - intros s' o Hf Ho. assert (connector_there s') as Ht by (unfold connector_there; rewrite Hf; exact Hs).
      destruct Ho as [[portal ->] | ->]; (split; [done|]); intros _; [right; exists portal; reflexivity|left; reflexivity].
    - intros s' o r Hf Ha. destruct o; try done. by destruct Ha.
    - intros s' o r Hf Ho. by destruct Ho as [[portal ->] | ->]. }
  intros r s' (Hf & Hg & Hr). by split.
Qed.

(** ** Files *)

Lemma remove_files_gone l : forall s, (forall p, p ∈ l -> p ∈ connector_paths staging true) ->
  safe node_monitor s (remove_files l)
    (fun r s' => nh_iscsi s' = nh_iscsi s
       /\ (forall p, nh_files s !! p = None -> nh_files s' !! p = None)
       /\ (r = Ok tt -> forall p, p ∈ l -> nh_files s' !! p = None)).
Proof.
  induction l as [|p l IH]; intros s Hl; cbn [remove_files].
  { split_and!; try done. intros _ p Hp. by apply not_elem_of_nil in Hp. }
  assert (safe node_monitor (drop_file p s) (remove_files l)
    (fun r s' => nh_iscsi s' = nh_iscsi s
       /\ (forall q, nh_files s !! q = None -> nh_files s' !! q = None)
       /\ (r = Ok tt -> forall q, q ∈ p :: l -> nh_files s' !! q = None))) as Hrest.
  { eapply safe_mono; [apply IH; intros q Hq; apply Hl; by constructor|].
    intros r s' (He & Hkeep & Hr). cbn in He, Hkeep. split_and!; try done.
    - intros q Hq. apply Hkeep. by rewrite lookup_delete_None, Hq; right.
    - intros Hok q [->|Hq]%elem_of_cons; [|by apply Hr]. apply Hkeep, lookup_delete_eq. }
  host_step. host_step; [apply Hl; by constructor|]. intros r _. cbn [step node_monitor node_step].
  destruct r as [e|]; [|exact Hrest]. destruct (not_exist e); [exact Hrest|]. by split_and!.
Qed.

(** ** The connector on file *)

Section connector.
Context (c : Connector) (Hc : connector_ok c) (d : Device) (Hd : MountTargetDevice c = Some d).
Context (Hiqn : cTargetIqn c = iqn).
Definition on_record (s : node_host) : Prop :=
  nh_files s !! stageConnectorFile staging = Some (encode_connector c).
Lemma record_there s : on_record s -> connector_there s.
Proof. intros H. exists (stageConnectorFile staging). split; [by constructor|by rewrite H]. Qed.
Lemma going_record s s' : going s s' -> on_record s -> on_record s'.
Proof. intros (E & _) H. unfold on_record. by rewrite E. Qed.
(** The devices of a connector are looked up again, its target is that on file. *)
Definition same_target (c' : Connector) : Prop := cTargetIqn c' = cTargetIqn c /\ TargetPortals c' = TargetPortals c.

Lemma safe_read_connector s Q :
  on_record s -> Q (Ok c) s -> safe node_monitor s (read_connector (stageConnectorFile staging)) Q.
Proof.
  intros Hs HQ. unfold read_connector. host_step. host_step; [done|]. intros r Hr.
  cbn [assumed node_monitor node_assumed] in Hr. rewrite Hs in Hr. subst r.
  cbn [step node_monitor node_step]. by rewrite decode_encode_connector.
Qed.
Lemma lsblk_found s l b : connector_there s ->
  safe node_monitor s (lsblk l b) (fun r s' => s' = s /\ IsNotExist r = false).
Proof.
  intros Hs. unfold lsblk. host_step. host_step; [by split|]. intros r [Hr _].
  cbn [step node_monitor]. rewrite disk_step by done.
  assert (forall out, IsNotExist (parse_lsblk out) = false) as Hp.
  { intros out. unfold parse_lsblk. destruct (mapM _ _) as [rows|e|] eqn:E; cbn; [| |done].
    - destruct (attach_children _ _ _ _) as [x|e|] eqn:E2; [done| |done]. cbn.
      enough (exists t, e = PlainErr t) as [t ->] by done. clear -E2. revert E2.
      generalize (map row_device rows), 0%nat, (devicesMap rows).
      induction (map row_pkname rows) as [|pk l IH]; intros ds i m; cbn; [done|].
      destruct (pk == ""); [apply IH|]. destruct (m !! pk); [|intros [= <-]; by eexists].
      destruct (ds !! n), (ds !! i); try done. apply IH.
    - enough (exists t, e = PlainErr t) as [t ->] by done. clear -E. revert e E.
      induction (SplitByte _ _) as [|x l IH]; intros e; cbn; [done|].
      destruct (parse_row x) as [row|e'|] eqn:Er; cbn; [|intros [= <-]|done].
      + destruct (mapM parse_row l) as [rows|e'|] eqn:E; cbn; [done|intros [= <-]; by apply IH|done].
      + unfold parse_row in Er. repeat case_match; simplify_eq; by eexists. }
  destruct (outcome r) as [|n t|e]; cbn [safe lift].
  - split; [done|apply Hp].
  - destruct (_ || _)%bool; cbn [safe lift]; (split; [done|]); [done|apply Hp].
  - split; [done|]. specialize (Hr e eq_refl). cbn. by destruct (kind e).
Qed.

Lemma GetConnectorFromFile_same s : on_record s ->
  safe node_monitor s (GetConnectorFromFile (stageConnectorFile staging))
    (fun r s' => s' = s /\ IsNotExist r = false /\ forall c', r = Ok c' -> same_target c').
Proof.
  intros Hs. pose proof (record_there s Hs) as Ht. unfold GetConnectorFromFile, GetSCSIDevices. host_step.
  apply safe_read_connector; [done|]. cbv zeta. rewrite Hd. host_step.
  eapply safe_mono; [by apply lsblk_found|]. intros [[|d' ds]|e|] s1 [-> Hr]; [by split_and!|..].
  - host_step. eapply safe_mono; [by apply lsblk_found|]. intros [ds'|e|] s2 [-> Hr2]; [|by split_and!..].
    split_and!; [done..|]. by intros c' [= <-].
  - by split_and!.
  - by split_and!.
Qed.
Lemma safe_cleanup_same b ns s Q :
  on_record s -> (forall c', same_target c' -> Q (Ok (Some c'), ns) s) ->
  (forall e, Q (Err e, ns) s) -> Q (Panicked, ns) s ->
  safe node_monitor s (cleanup_connector staging b ns) Q.
Proof.
  intros Hs HQ He Hp. unfold cleanup_connector, getCleanupConnectorFromStaging, connector_paths.
  apply safe_doing. host_step. cbn [first_cleanup_connector]. host_step.
  eapply safe_mono; [by apply GetConnectorFromFile_same|]. intros [c'|e|] s1 (-> & Hne & Hsame).
  - cbn [safe lift]. by apply HQ, Hsame.
  - rewrite Hne. destruct (isMissingMountTargetDevice e); cbn [negb].
    + host_step. unfold readPersistedConnector. host_step. apply safe_read_connector; [done|].
      rewrite Hd. cbn [safe ok]. by apply HQ.
    + cbn [safe lift fail]. rewrite Hne. apply He.
  - apply Hp.
Qed.

(** ** Unstaging *)

Definition cleared (s : node_host) : Prop := forall p, p ∈ connector_paths staging true -> nh_files s !! p = None.
Lemma disconnect_takes_back c' ns s Q :
  on_record s -> same_target c' ->
  (forall r s', (r = Ok tt -> taken_back c s' /\ cleared s') -> Q (r, ns) s') ->
  safe node_monitor s (disconnect staging c' ns) Q.
Proof.
  intros Hs [Hi Hp] HQ. unfold disconnect. apply safe_method_bind, safe_internally.
  eapply safe_mono; [apply disk_going; [apply DisconnectVolume_disk|by apply record_there]|].
  intros [[]|e|] s1 H1; [|by apply HQ..]. pose proof (going_record _ _ H1 Hs) as Hs1.
  apply safe_method_bind, safe_internally.
  eapply safe_mono; [apply Disconnect_taken_back; [congruence|by apply record_there]|].
  intros [[]|e|] s2 [H2 Ht]; [|by apply HQ..]. specialize (Ht eq_refl).
  apply safe_internally. unfold removeStagingConnectorFiles.
  eapply safe_mono; [apply remove_files_gone; auto|]. intros [[]|e|] s3 (E & _ & Hr); [|by apply HQ..].
  apply HQ. intros _. split; [|exact (Hr eq_refl)]. unfold taken_back in Ht |- *. by rewrite E, <- Hi, <- Hp.
Qed.

Definition unstaged_from_record (out : res unit * nodeServer) (s : node_host) : Prop :=
  fst out = Ok tt -> taken_back c s /\ cleared s.
Lemma cleanup_mount_keeps ns s P :
  P s -> safe node_monitor s (cleanup_mount staging "unstage cleanup failed: %v" ns) (fun _ s' => P s').
Proof.
  intros HP. unfold cleanup_mount. apply safe_method_bind, safe_doing. host_step; [done|].
  intros r _. cbn [step node_monitor node_step].
  destruct r as [[e|]|]; [destruct (not_exist e)|..]; exact HP.
Qed.
Lemma finish_takes_back c' ns s :
  on_record s -> same_target c' -> safe node_monitor s (finish staging (Some c') ns) unstaged_from_record.
Proof.
  intros Hs Hsame. unfold finish. apply safe_method_bind. cbn [safe returning]. apply safe_method_bind.
  apply disconnect_takes_back; [done..|]. intros [[]|e|] s' Hs'; [|done..].
  eapply safe_mono; [apply (cleanup_mount_keeps _ _ (fun s => taken_back c s /\ cleared s) (Hs' eq_refl))|]. by intros [r ns'] s'' ? ?.
Qed.

Lemma unstage_from_record volumeId ns s :
  on_record s -> safe node_monitor s (NodeUnstageVolume volumeId staging ns) unstaged_from_record.
Proof.
  intros Hs. unfold NodeUnstageVolume. destruct (volumeId == ""); [done|]. destruct (staging == ""); [done|].
  apply safe_method_bind. cbn [safe init update]. set (ns1 := {| ns_exec := true |}).
  apply safe_method_bind, safe_cleanup_same; [done| |done|done]. intros c' Hsame.
  fold (finish staging (Some c')). apply safe_method_bind.
  apply safe_check_mount; [done|done|]. intros [notMnt merr] _. cbn [snd step node_monitor node_step].
  destruct merr as [e|].
  - destruct (not_exist e); [|done]. apply safe_method_bind. cbn [safe returning]. by apply finish_takes_back.
  - apply safe_method_bind. destruct notMnt; [cbn [safe returning]; by apply finish_takes_back|].
    unfold mounter_must. apply safe_method_bind.
    refine (safe_mounter node_monitor s ns1 (Unmount staging) _ eq_refl I _).
    intros r _. cbn [step node_monitor node_step id]. destruct r as [e|]; [done|].
    cbn [safe returning]. by apply finish_takes_back.
Qed.
End connector.

(** Unstaging again. *)
Lemma cleanup_none b ns s Q :
  cleared s -> Q (Ok None, ns) s -> safe node_monitor s (cleanup_connector staging b ns) Q.
Proof.
  intros Hs HQ. unfold cleanup_connector, getCleanupConnectorFromStaging. apply safe_doing. host_step.
  assert (forall l e, (forall p, p ∈ l -> p ∈ connector_paths staging true) ->
    l <> [] \/ IsNotExist (@Err Connector e) = true ->
    safe node_monitor s (first_cleanup_connector e l)
      (fun r s' => s' = s /\ exists e', r = Err e' /\ IsNotExist (@Err Connector e') = true)) as H.
  { induction l as [|p l IH]; intros e Hl He; cbn [first_cleanup_connector].
    { cbn. split; [done|]. exists e. split; [done|]. by destruct He. }
    host_step. unfold GetConnectorFromFile. host_step. unfold read_connector. host_step.
    host_step; [done|]. intros r Hr. cbn [assumed node_monitor node_assumed] in Hr.
    rewrite (Hs p) in Hr by (apply Hl; by constructor). destruct Hr as [t ->].
    cbn [step node_monitor node_step safe lift os_error kind text]. cbn [IsNotExist].
    apply IH; [intros q Hq; apply Hl; by constructor|by right]. }
  eapply safe_mono; [apply H|].
  - destruct b; [done|]. unfold connector_paths. set_solver.
  - left. by destruct b.
  - intros r s' (-> & e & -> & He). rewrite He. exact HQ.
Qed.

(** How an RPC that does nothing can still end. *)
Definition mount_errors : list string :=
  ["check staging mount: %v"; "unstage unmount failed: %v"; "unstage cleanup failed: %v"].
Definition untouched (s : node_host) (out : res unit * nodeServer) (s' : node_host) : Prop :=
  s' = s /\ (fst out = Ok tt \/ exists f, fst out = Err (StatusErr Internal f) /\ f ∈ mount_errors).
Lemma finish_untouched ns s : ns_mounter ns = true -> cleared s ->
  safe node_monitor s (finish staging None ns) (untouched s).
Proof.
  intros Hn Hs. unfold finish. apply safe_method_bind, cleanup_none; [done|].
  apply safe_method_bind. cbn [safe returning]. unfold cleanup_mount. apply safe_method_bind, safe_doing.
  host_step; [done|]. intros r Hr. cbn [assumed node_monitor node_assumed] in Hr. rewrite Hn in Hr.
  cbn [step node_monitor node_step].
  destruct r as [[e|]|]; [destruct (not_exist e)| |by specialize (Hr eq_refl)]; (split; [done|]); [by left| |by left].
  right. eexists. split; [done|]. unfold mount_errors. set_solver.
Qed.
Lemma unstage_untouched volumeId ns s :
  volumeId <> "" -> staging <> "" -> cleared s ->
  safe node_monitor s (NodeUnstageVolume volumeId staging ns) (untouched s).
Proof.
  intros Hv Hst Hs. unfold NodeUnstageVolume.
  rewrite (proj2 (String.eqb_neq _ _) Hv), (proj2 (String.eqb_neq _ _) Hst).
  apply safe_method_bind. cbn [safe init update]. set (ns1 := {| ns_exec := true |}).
  apply safe_method_bind, cleanup_none; [done|]. fold (finish staging None). apply safe_method_bind.
  assert (forall f, f ∈ mount_errors -> untouched s (Err (StatusErr Internal f), ns1) s) as Hf
    by (intros f Hf; split; [done|right; by exists f]).
  apply safe_check_mount; [done|done|]. intros [notMnt merr] _. cbn [snd step node_monitor node_step].
  destruct merr as [e|].
  - destruct (not_exist e); [|apply Hf; unfold mount_errors; set_solver].
    apply safe_method_bind. cbn [safe returning]. by apply finish_untouched.
  - apply safe_method_bind. destruct notMnt; [cbn [safe returning]; by apply finish_untouched|].
    unfold mounter_must. apply safe_method_bind.
    refine (safe_mounter node_monitor s ns1 (Unmount staging) _ eq_refl I _).
    intros r _. cbn [step node_monitor node_step id].
    destruct r as [e|]; [apply Hf; unfold mount_errors; set_solver|].
    cbn [safe returning]. by apply finish_untouched.
Qed.
End life.

(** A volume that is unstaged, and once more if that has succeeded. *)
Definition unstage_twice (volumeId staging : string) (ns : nodeServer) : prog host (res unit * option (res unit)) :=
  prog_bind (NodeUnstageVolume volumeId staging ns) (fun '(r, ns) =>
    match r with
    | Ok _ => prog_bind (NodeUnstageVolume volumeId staging ns) (fun '(r2, _) => Ret (r, Some r2))
    | _ => Ret (r, None)
    end).

(** C12: when a volume whose connector is on file is unstaged with success, the host has no
    session of the connector's target at its portals any more and no record of it (as long
    as a host that fails to remove one of them does not say that it has none), and the files
    of connectors are gone.  Unstaging it again runs no command and writes to no device
    then, and fails only where a mount does.  Nothing is said of an attempt that fails: when
    the device of the connector has vanished, unstaging keeps failing. *)
Theorem staged_volume_taken_back (staging volumeId : string) (c : Connector) (d : Device)
  (ns : nodeServer) (s : node_host) :
  connector_ok c -> MountTargetDevice c = Some d -> on_record staging c s ->
  safe (node_monitor staging (cTargetIqn c)) s (unstage_twice volumeId staging ns)
    (fun '(r1, r2) s' => r1 = Ok tt ->
       taken_back c s' /\ cleared staging s'
       /\ exists r, r2 = Some r
            /\ (r = Ok tt \/ exists f, r = Err (StatusErr Internal f) /\ f ∈ mount_errors)).
Proof.
  intros Hc Hd Hs. unfold unstage_twice.
  assert (forall r s', r <> Ok tt -> safe (node_monitor staging (cTargetIqn c)) s' (Ret (r, None) : prog host _)
    (fun '(r1, r2) s' => r1 = Ok tt -> taken_back c s' /\ cleared staging s'
       /\ exists r : res unit, r2 = Some r
            /\ (r = Ok tt \/ exists f, r = Err (StatusErr Internal f) /\ f ∈ mount_errors))) as Hno
    by (intros r s' Hr Hok; done).
  destruct (String.eqb_spec volumeId "") as [->|Hv]; [by apply safe_prog_bind, Hno|].
  destruct (String.eqb_spec staging "") as [Hst|Hst].
  { apply safe_prog_bind. unfold NodeUnstageVolume. rewrite (proj2 (String.eqb_neq _ _) Hv).
    rewrite (proj2 (String.eqb_eq _ _) Hst). by apply Hno. }
  apply safe_prog_bind. eapply safe_mono; [by apply (unstage_from_record staging (cTargetIqn c) c Hc d Hd eq_refl)|].
  intros [[[]|e|] ns'] s1 Hs1; [|by apply Hno..]. destruct (Hs1 eq_refl) as [Ht Hcl].
  apply safe_prog_bind. eapply safe_mono; [by apply (unstage_untouched staging (cTargetIqn c))|].
  intros [r ns2] s2 [-> Hr] _. split_and!; [done..|]. by exists r.
Qed.

Definition example_staging : string := "/var/lib/kubelet/staging/pvc-1".
Definition example_files : gmap string string :=
  {[stageConnectorFile example_staging := encode_connector example_connector]}.
Definition staged_host : node_host :=
  {| nh_files := example_files;
     nh_iscsi := {| sessions := {[(cTargetIqn example_connector, "10.0.0.5:3260")]};
                    records := {[cTargetIqn example_connector]} |} |}.
Definition node_of : nodeServer := NewNodeServer (NewDriver "" "unix:///csi.sock").

(** A host that keeps files; [lsblk] is how it answers that command. *)
Definition keeping_host (lsblk : exec_result) : handler host (gmap string string) := fun o fs =>
  match o return host_resp o * gmap string string with
  | ReadFile p => (match fs !! p with Some t => inr t | None => inl (OsError NotExist "no such file") end, fs)
  | RemoveFile p => (None, delete p fs)
  | Command _ name _ => (if name == "lsblk" then lsblk else silent, fs)
  | Stat _ => (inr true, fs)
  | o => (fst (idle_host silent o tt), fs)
  end.
Definition lsblk_row_of (d : Device) : exec_result :=
  {| stdout := Join [dName d; "sda"; ""; Hctl d; dType d; Transport d; "1G"] " "; stderr := ""; combined := "";
     outcome := Exited0; deadline_exceeded := false |}.

Lemma staged_volume_taken_back_witness :
  safe (node_monitor example_staging (cTargetIqn example_connector)) staged_host (unstage_twice "pvc-1" example_staging node_of)
    (fun '(r1, r2) s' => r1 = Ok tt ->
       taken_back example_connector s' /\ cleared example_staging s'
       /\ exists r, r2 = Some r
            /\ (r = Ok tt \/ exists f, r = Err (StatusErr Internal f) /\ f ∈ mount_errors))
  /\ let '(r, fs, _) := run (keeping_host (lsblk_row_of example_disk))
                          (unstage_twice "pvc-1" example_staging node_of) example_files in
     r = (Ok tt, Some (Ok tt)) /\ fs = ∅.
Proof.
  split; [|by vm_compute].
  apply (staged_volume_taken_back _ _ example_connector example_disk); [exact example_connector_ok|done|].
  by vm_compute.
Defined.

(** [lsblk] gives no devices only when each of its rows, of which there is one, has a
    parent among the rows: never for the devices of a system, which form a forest. *)
Lemma devicesMap_known rows k n :
  devicesMap rows !! k = Some n -> exists r, r ∈ rows /\ row_kname r = k.
Proof.
  unfold devicesMap. set (f := fun (m : gmap string nat) (ir : nat * lsblk_row) => _).
  assert (forall l m, fold_left f l m !! k = Some n ->
    m !! k = Some n \/ exists ir, ir ∈ l /\ row_kname (snd ir) = k) as H.
  { induction l as [|ir l IH]; intros m Hm; cbn in Hm; [by left|].
    destruct (IH _ Hm) as [H|(ir' & Hin & E)]; [|right; exists ir'; split; [by constructor|done]].
    unfold f in H. destruct (decide (row_kname (snd ir) = k)) as [E|E].
    - right. exists ir. split; [constructor|done].
    - left. by rewrite lookup_insert_ne in H. }
  intros Hm. destruct (H _ _ Hm) as [He|([i r] & Hin & E)]; [by rewrite lookup_empty in He|].
  exists r. split; [|done]. apply list_elem_of_In in Hin. apply in_combine_r in Hin. by apply list_elem_of_In.
Qed.
Lemma attach_children_known index l : forall i ds ds',
  attach_children index i l ds = Ok ds' -> length ds' = length ds
  /\ forall pk, pk ∈ l -> pk <> "" -> is_Some (index !! pk).
Proof.
  induction l as [|pk l IH]; intros i ds ds' H; cbn in H.
  { injection H as <-. split; [done|]. intros pk Hpk. by apply not_elem_of_nil in Hpk. }
  destruct (String.eqb_spec pk "") as [->|Hne].
  { destruct (IH _ _ _ H) as [Hl Hk]. split; [done|]. intros pk [->|Hpk]%elem_of_cons ?; [done|auto]. }
  destruct (index !! pk) as [p|] eqn:Hp; [|done]. destruct (ds !! p); [|done]. destruct (ds !! i); [|done].
  destruct (IH _ _ _ H) as [Hl Hk]. rewrite length_insert in Hl. split; [done|].
  intros pk' [->|Hpk]%elem_of_cons ?; [by eexists|auto].
Qed.
Lemma no_devices_no_forest out :
  parse_lsblk out = Ok [] ->
  exists rows, rows <> [] /\ mapM parse_row (SplitByte (Trim out (String newline "")) newline) = Ok rows
    /\ forall r, r ∈ rows -> exists r', r' ∈ rows /\ row_kname r' = row_pkname r.
Proof.
  intros H. destruct (parse_lsblk_roots _ _ H) as (rows & Hrows & Hroots). exists rows.
  apply Forall2_nil_inv_r in Hroots. unfold parse_lsblk in H. rewrite Hrows in H. cbn in H.
  apply res_bind_Ok in H as (ds & Hds & _). apply attach_children_known in Hds as [_ Hk].
  split; [|split; [done|]].
  - intros ->. destruct (SplitByte _ _) as [|l ls] eqn:E; [by apply SplitByte_nonempty in E|]. cbn in Hrows.
    destruct (parse_row l); cbn in Hrows; try done. by destruct (mapM parse_row ls).
  - intros r Hr. destruct (Hk (row_pkname r)) as [n Hn]; [apply list_elem_of_fmap; by exists r| |by apply devicesMap_known in Hn].
    intros E. assert (forall j l, r ∈ l -> root_rows j l <> []) as Hne; [|by apply (Hne 0%nat rows)].
    clear -E. intros j l. revert j. induction l as [|x l IH]; intros j Hin; [by apply not_elem_of_nil in Hin|].
    unfold root_rows. cbn [length seq zip zip_with]. rewrite filter_cons. case_decide; [done|].
    apply elem_of_cons in Hin as [->|Hin]; [done|]. exact (IH (S j) Hin).
Qed.

(** The device of the connector is gone: it was removed by an attempt that failed later on,
    or the node was restarted.  [lsblk] exits with status 32 then.  The code has a way to
    go on from the file alone, but for an error of its own that no run of [lsblk] leads to:
    the volume cannot be unstaged any more. *)
Definition lsblk_none_found : exec_result :=
  {| stdout := ""; stderr := "lsblk: /dev/sda: not a block device"; combined := "";
     outcome := ExitedWith 32 "exit status 32"; deadline_exceeded := false |}.
Lemma vanished_device_blocks_unstage :
  let '(r, fs, log) := run (keeping_host lsblk_none_found)
                         (NodeUnstageVolume "pvc-1" example_staging node_of) example_files in
  (fst r, bool_decide (fs = example_files), length log)
  = (Err (StatusErr Internal "load iSCSI connector: %v"), true, 2%nat).
Proof. vm_compute. reflexivity. Qed.
