(* ===== verification/KubeApi.v ===== *)
(** * The Kubernetes API ([pkg/iscsi/internal_kubernetes.go], client side)

    The objects the built-in agent reads and writes, with the fields the code
    looks at, and the requests it makes: to the API server ([client]), to the
    cached listers of the informers, and to the controller service of the same
    process.  [k8s.io/client-go] and [k8s.io/api] are third-party: the answers to
    the requests are those of a service. *)
From S2P Require Import Prelude Params Prog Driver Backend Controller NodeParams.

(** ** Objects *)

Record SecretReference := { sr_Name : string; sr_Namespace : string }.

Record TypedObjectReference := {
  ref_APIGroup : option string;
  ref_Kind : string;
  ref_Name : string;
  ref_Namespace : option string
}.

(** [Requests] is the value of the storage request, if there is one. *)
Record PersistentVolumeClaim := {
  pvc_Namespace : string;
  pvc_Name : string;
  pvc_UID : string;
  pvc_Deleting : bool;
  pvc_Annotations : Params;
  pvc_VolumeName : string;
  pvc_StorageClassName : option string;
  pvc_VolumeMode : option string;
  pvc_AccessModes : list string;
  pvc_Requests : option Z;
  pvc_DataSource : option TypedObjectReference;
  pvc_DataSourceRef : option TypedObjectReference
}.

Record StorageClass := {
  sc_Name : string;
  sc_Provisioner : string;
  sc_Parameters : Params;
  sc_ReclaimPolicy : option string;
  sc_MountOptions : list string;
  sc_VolumeBindingMode : option string
}.

Record ObjectReference := {
  or_APIVersion : string; or_Kind : string; or_Namespace : string; or_Name : string; or_UID : string }.

Record CSIPersistentVolumeSource := {
  csi_Driver : string;
  csi_VolumeHandle : string;
  csi_FSType : string;
  csi_VolumeAttributes : Params;
  ControllerPublishSecretRef : option SecretReference;
  NodeStageSecretRef : option SecretReference;
  NodePublishSecretRef : option SecretReference;
  ControllerExpandSecretRef : option SecretReference
}.

Record PersistentVolume := {
  pv_Name : string;
  pv_ResourceVersion : string;
  pv_Finalizers : list string;
  pv_Deleting : bool;
  pv_Capacity : Z;
  pv_AccessModes : list string;
  pv_ReclaimPolicy : string;
  pv_StorageClassName : string;
  pv_MountOptions : list string;
  pv_VolumeMode : option string;
  pv_ClaimRef : option ObjectReference;
  pv_CSI : option CSIPersistentVolumeSource;
  pv_Phase : string
}.

Record VolumeAttachment := {
  va_Name : string;
  va_ResourceVersion : string;
  va_Finalizers : list string;
  va_Deleting : bool;
  va_Attacher : string;
  va_NodeName : string;
  va_PersistentVolumeName : option string;
  va_Attached : bool;
  va_AttachmentMetadata : Params
}.

Record CSINodeDriver := { cnd_Name : string; cnd_NodeID : string }.
Record CSINode := { cn_Name : string; cn_Drivers : list CSINodeDriver }.

Definition VolumeReleased : string := "Released".
Definition ReclaimDelete : string := "Delete".
Definition VolumeBindingWaitForFirstConsumer : string := "WaitForFirstConsumer".
Definition PersistentVolumeBlock : string := "Block".
Definition PersistentVolumeFilesystem : string := "Filesystem".

(** ** Requests *)

Inductive kube_op :=
| GetStorageClass (name : string)
| GetPersistentVolume (name : string)
| CreatePersistentVolume (pv : PersistentVolume)
| UpdatePersistentVolume (pv : PersistentVolume)
| DeletePersistentVolume (name : string)
| GetPersistentVolumeClaim (namespace name : string)
| GetSecret (namespace name : string)
| UpdateVolumeAttachment (va : VolumeAttachment)
| GetVolumeAttachment (name : string)
| UpdateVolumeAttachmentStatus (va : VolumeAttachment)
(** The listers of the informers. *)
| ListedPersistentVolume (name : string)
| ListedPersistentVolumeClaim (namespace name : string)
| ListedVolumeAttachment (name : string)
| ListedVolumeAttachments
| ListedCSINode (name : string).

(** An error of the API, as [apierrors] classifies it. *)
Inductive api_error := ApiNotFound | ApiAlreadyExists | ApiOther.
Inductive api (A : Type) := Got (a : A) | ApiErr (e : api_error).
Arguments Got {_} _.
Arguments ApiErr {_} _.

Definition kube_result (o : kube_op) : Type :=
  match o with
  | GetStorageClass _ => StorageClass
  | GetPersistentVolume _ | ListedPersistentVolume _ => PersistentVolume
  | GetPersistentVolumeClaim _ _ | ListedPersistentVolumeClaim _ _ => PersistentVolumeClaim
  | GetSecret _ _ => Params
  | GetVolumeAttachment _ | ListedVolumeAttachment _ => VolumeAttachment
  | ListedVolumeAttachments => list VolumeAttachment
  | ListedCSINode _ => CSINode
  | _ => unit
  end.

(** A volume capability: the mode of access, and block or mount. *)
Record VolumeCapability := { vc_AccessMode : AccessMode; vc_AccessType : AccessType }.

(** The calls of the controller service in the same process: each is made on
    [NewControllerServer(d)]. *)
Inductive rpc_op :=
| CallCreateVolume (name : string) (requiredBytes : Z) (caps : list VolumeCapability)
    (params secrets : Params) (source : option VolumeContentSource)
| CallDeleteVolume (volumeId : string)
| CallControllerPublishVolume (volumeId nodeId : string) (cap : VolumeCapability)
    (secrets volumeContext : Params)
| CallControllerUnpublishVolume (volumeId nodeId : string).

Definition rpc_result (o : rpc_op) : Type :=
  match o with
  | CallCreateVolume _ _ _ _ _ _ => Volume
  | CallControllerPublishVolume _ _ _ _ _ => Params
  | _ => unit
  end.

Inductive agent_op := Kube (o : kube_op) | Rpc (o : rpc_op).
Definition agent_resp (o : agent_op) : Type :=
  match o with Kube o => api (kube_result o) | Rpc o => res (rpc_result o) end.
Definition agent_service : service := Service agent_op agent_resp.
Abbreviation agent := (go agent_service).

Definition kube (o : kube_op) : agent (api (kube_result o)) := call (E := agent_service) (Kube o).
(** A request whose error, of any kind, is returned with [format]. *)
Definition kube_must (o : kube_op) (format : string) : agent (kube_result o) :=
  r ← kube o;
  match r with Got a => ok a | ApiErr _ => lift (Err (PlainErr format)) end.
(** A call of the controller service; its panic goes on. *)
Definition rpc_call (o : rpc_op) : agent (res (rpc_result o)) :=
  r ← call (E := agent_service) (Rpc o);
  match r with Panicked => Ret Panicked | r => ok r end.
Definition rpc_must (o : rpc_op) (format : string) : agent (rpc_result o) :=
  r ← rpc_call o;
  match r with
  | Ok a => ok a
  | _ => lift (Err (PlainErr format))
  end.

(** ** The controller service behind the calls *)

Definition run_rpc (d : driver) (o : rpc_op) : controller (rpc_result o) :=
  match o with
  | CallCreateVolume name requiredBytes caps params secrets source =>
      CreateVolume (NewControllerServer d)
        {| cr_Name := name; cr_VolumeCapabilities := map vc_AccessMode caps; cr_Parameters := params;
           cr_Secrets := secrets;
           cr_CapacityRange := Some {| RequiredBytes := requiredBytes; LimitBytes := 0 |};
           cr_ContentSource := source |}
  | CallDeleteVolume volumeId => DeleteVolume (NewControllerServer d) volumeId
  | CallControllerPublishVolume volumeId nodeId cap secrets _ =>
      ControllerPublishVolume (NewControllerServer d)
        {| cp_VolumeId := volumeId; cp_NodeId := nodeId; cp_AccessMode := vc_AccessMode cap;
           cp_Secrets := secrets |}
  | CallControllerUnpublishVolume volumeId nodeId =>
      ControllerUnpublishVolume (NewControllerServer d) volumeId nodeId
  end.

(** The process as a whole: the API and the storage back end. *)
Inductive plant_op := OnKube (o : kube_op) | OnBackend (o : backend_op).
Definition plant_resp (o : plant_op) : Type :=
  match o with OnKube o => api (kube_result o) | OnBackend o => returned (backend_result o) end.
Definition plant : service := Service plant_op plant_resp.

Definition on_backend {A} (p : prog backend A) : prog plant A :=
  interp (E := backend) (F := plant) (fun o => Do (E := plant) (OnBackend o) Ret) p.
Definition linked (d : driver) (o : agent_op) : prog plant (agent_resp o) :=
  match o with
  | Kube o => Do (E := plant) (OnKube o) Ret
  | Rpc o => on_backend (run_rpc d o)
  end.
Definition link (d : driver) {A} (p : prog agent_service A) : prog plant A :=
  interp (E := agent_service) (linked d) p.
