(* ===== verification/Kube.v ===== *)
(** * The built-in provisioner and attacher ([pkg/iscsi/internal_kubernetes.go])

    The reconcilers, as programs over the Kubernetes API and the controller
    service; log messages are left out, and a context is taken as live. *)
From S2P Require Import Prelude GoStrings Params Prog VolumeID Driver Controller NodeParams KubeApi.

Definition pvProtectionFinalizer : string := "windows-storage.csi.windows.microsoft.com/pv-protection".
Definition vaProtectionFinalizer : string :=
  "windows-storage.csi.windows.microsoft.com/volumeattachment-protection".
Definition selectedNodeAnnotation : string := "volume.kubernetes.io/selected-node".
Definition csiParamPrefix : string := "csi.storage.k8s.io/".

(** ** Lists of finalizers *)

Definition hasString (values : list string) (needle : string) : bool :=
  existsb (fun value => value == needle) values.

Definition removeString (values : list string) (needle : string) : list string :=
  filter (fun value => value <> needle) values.

(** The values that are not blank, each where it occurs first. *)
Fixpoint unique_from (seen : list string) (values : list string) : list string :=
  match values with
  | [] => []
  | value :: rest =>
      if TrimSpace value == "" then unique_from seen rest
      else if hasString seen value then unique_from seen rest
      else value :: unique_from (value :: seen) rest
  end.
Definition uniqueStrings (values : list string) : list string := unique_from [] values.

(** A copy of the object with other finalizers. *)
Definition pv_with_finalizers (pv : PersistentVolume) (finalizers : list string) : PersistentVolume :=
  {| pv_Name := pv_Name pv; pv_ResourceVersion := pv_ResourceVersion pv;
     pv_Finalizers := finalizers; pv_Deleting := pv_Deleting pv; pv_Capacity := pv_Capacity pv;
     pv_AccessModes := pv_AccessModes pv; pv_ReclaimPolicy := pv_ReclaimPolicy pv;
     pv_StorageClassName := pv_StorageClassName pv; pv_MountOptions := pv_MountOptions pv;
     pv_VolumeMode := pv_VolumeMode pv; pv_ClaimRef := pv_ClaimRef pv; pv_CSI := pv_CSI pv;
     pv_Phase := pv_Phase pv |}.
Definition va_with_finalizers (va : VolumeAttachment) (finalizers : list string) : VolumeAttachment :=
  {| va_Name := va_Name va; va_ResourceVersion := va_ResourceVersion va;
     va_Finalizers := finalizers; va_Deleting := va_Deleting va; va_Attacher := va_Attacher va;
     va_NodeName := va_NodeName va; va_PersistentVolumeName := va_PersistentVolumeName va;
     va_Attached := va_Attached va; va_AttachmentMetadata := va_AttachmentMetadata va |}.
(** A copy of the attachment with its status set. *)
Definition va_with_status (va : VolumeAttachment) (metadata : Params) : VolumeAttachment :=
  {| va_Name := va_Name va; va_ResourceVersion := va_ResourceVersion va;
     va_Finalizers := va_Finalizers va; va_Deleting := va_Deleting va; va_Attacher := va_Attacher va;
     va_NodeName := va_NodeName va; va_PersistentVolumeName := va_PersistentVolumeName va;
     va_Attached := true; va_AttachmentMetadata := metadata |}.

Definition updatePVFinalizers (pv : PersistentVolume) (finalizers : list string) : agent unit :=
  kube_must (UpdatePersistentVolume (pv_with_finalizers pv (uniqueStrings finalizers)))
    "update PersistentVolume finalizers %q: %w".
Definition updateVAFinalizers (va : VolumeAttachment) (finalizers : list string) : agent unit :=
  kube_must (UpdateVolumeAttachment (va_with_finalizers va (uniqueStrings finalizers)))
    "update VolumeAttachment finalizers %q: %w".

(** ** Secrets *)

Fixpoint firstParam (params : Params) (keys : list string) : string :=
  match keys with
  | [] => ""
  | key :: rest =>
      let value := TrimSpace (param params key) in
      if value != "" then value else firstParam params rest
  end.

Definition expandSecretTemplate (value pvcNamespace pvcName pvName : string) : string :=
  Replacer [("${pvc.namespace}", pvcNamespace); ("${pvc.name}", pvcName); ("${pv.name}", pvName)]
    value.

Definition secretRefForOperation (params : Params)
  (operation pvcNamespace pvcName pvName : string) : option SecretReference :=
  let name := firstParam params
                [csiParamPrefix +:+ operation +:+ "-secret-name"; csiParamPrefix +:+ "secret-name"] in
  let namespace := firstParam params
                     [csiParamPrefix +:+ operation +:+ "-secret-namespace";
                      csiParamPrefix +:+ "secret-namespace"] in
  if name == "" then None
  else
    let namespace := if namespace == "" then pvcNamespace else namespace in
    Some {| sr_Name := expandSecretTemplate name pvcNamespace pvcName pvName;
            sr_Namespace := expandSecretTemplate namespace pvcNamespace pvcName pvName |}.

(** A nil map reads like an empty one. *)
Definition secretDataFromRef (ref : option SecretReference) : agent Params :=
  match ref with
  | None => ok ∅
  | Some r =>
      if TrimSpace (sr_Name r) == "" then ok ∅
      else kube_must (GetSecret (sr_Namespace r) (sr_Name r)) "get Secret %s/%s: %w"
  end.

Definition secretDataForOperation (params : Params)
  (operation pvcNamespace pvcName pvName : string) : agent Params :=
  secretDataFromRef (secretRefForOperation params operation pvcNamespace pvcName pvName).

(** ** What a claim and its class ask for *)

Definition persistentVolumeNameForClaim (pvc : PersistentVolumeClaim) : string := "pvc-" +:+ pvc_UID pvc.

Definition storageClassNameForPVC (pvc : PersistentVolumeClaim) : string :=
  match pvc_StorageClassName pvc with Some scName => TrimSpace scName | None => "" end.

Definition requestedStorageBytes (pvc : PersistentVolumeClaim) : Z :=
  match pvc_Requests pvc with Some q => q | None => 0 end.

Definition createVolumeParameters (params : Params) : Params :=
  filter (fun kv => HasPrefix kv.1 csiParamPrefix = false) params.

Definition fsTypeForStorageClass (sc : StorageClass) : string :=
  firstParam (sc_Parameters sc) [csiParamPrefix +:+ "fstype"; "fsType"; "fstype"].

Definition reclaimPolicyForStorageClass (sc : StorageClass) : string :=
  match sc_ReclaimPolicy sc with Some policy => policy | None => ReclaimDelete end.

Definition access_mode (accessModes : list string) : AccessMode :=
  match accessModes with
  | m :: _ =>
      if m == "ReadOnlyMany" then MULTI_NODE_READER_ONLY
      else if m == "ReadWriteMany" then MULTI_NODE_MULTI_WRITER
      else if m == "ReadWriteOncePod" then SINGLE_NODE_SINGLE_WRITER
      else SINGLE_NODE_WRITER
  | [] => SINGLE_NODE_WRITER
  end.

Definition volumeCapability (mode : option string) (accessModes : list string)
  (fsType : string) (mountOptions : list string) : VolumeCapability :=
  {| vc_AccessMode := access_mode accessModes;
     vc_AccessType := if bool_decide (mode = Some PersistentVolumeBlock) then BlockAccess
                      else MountAccess fsType mountOptions |}.

Definition volumeCapabilitiesForPVC (pvc : PersistentVolumeClaim) (sc : StorageClass)
  : list VolumeCapability :=
  [volumeCapability (pvc_VolumeMode pvc) (pvc_AccessModes pvc) (fsTypeForStorageClass sc)
     (sc_MountOptions sc)].

Definition volumeCapabilityForPV (pv : PersistentVolume) : VolumeCapability :=
  let fsType := match pv_CSI pv with Some src => csi_FSType src | None => "" end in
  volumeCapability (pv_VolumeMode pv) (pv_AccessModes pv) fsType (pv_MountOptions pv).

(** The data source, without the namespace the older field does not have. *)
Definition pvcDataSourceRef (pvc : PersistentVolumeClaim) : option TypedObjectReference :=
  match pvc_DataSourceRef pvc with
  | Some ref => Some ref
  | None =>
      match pvc_DataSource pvc with
      | Some ds => Some {| ref_APIGroup := ref_APIGroup ds; ref_Kind := ref_Kind ds;
                           ref_Name := ref_Name ds; ref_Namespace := None |}
      | None => None
      end
  end.

Definition trimmed_or_empty (s : option string) : string :=
  match s with Some s => TrimSpace s | None => "" end.

(** The volume a claim is cloned from: that of a bound claim of this driver. *)
Definition clone_source (driverName namespace : string) (ref : TypedObjectReference)
  : agent (option VolumeContentSource) :=
  sourcePVC ← kube_must (GetPersistentVolumeClaim namespace (ref_Name ref))
                "get source PVC %s/%s: %w";
  if TrimSpace (pvc_VolumeName sourcePVC) == "" then lift (Err (PlainErr "source PVC %s/%s is not bound"))
  else
    sourcePV ← kube_must (GetPersistentVolume (pvc_VolumeName sourcePVC))
                 "get source PersistentVolume %q: %w";
    let foreign := lift (Err (PlainErr "source PersistentVolume %q is not a CSI volume for driver %q")) in
    match pv_CSI sourcePV with
    | None => foreign
    | Some src =>
        if ((csi_Driver src != driverName) || (TrimSpace (csi_VolumeHandle src) == ""))%bool
        then foreign
        else ok (Some (SourceClone (csi_VolumeHandle src)))
    end.

Definition volumeContentSourceForPVC (driverName : string) (pvc : PersistentVolumeClaim)
  : agent (option VolumeContentSource) :=
  match pvcDataSourceRef pvc with
  | None => ok None
  | Some ref =>
      if TrimSpace (ref_Name ref) == "" then ok None
      else
        let group := trimmed_or_empty (ref_APIGroup ref) in
        let kind := TrimSpace (ref_Kind ref) in
        let namespace := let ns := trimmed_or_empty (ref_Namespace ref) in
                         if ns != "" then ns else pvc_Namespace pvc in
        if namespace != pvc_Namespace pvc then
          lift (Err (PlainErr "PVC %s/%s dataSourceRef %s/%s is cross-namespace"))
        else if ((group == "") && (kind == "PersistentVolumeClaim"))%bool then
          clone_source driverName namespace ref
        else if ((group == "snapshot.storage.k8s.io") && (kind == "VolumeSnapshot"))%bool then
          lift (Err (PlainErr "VolumeSnapshot dataSource %s/%s is not supported"))
        else lift (Err (PlainErr "PVC %s/%s has unsupported dataSource kind=%q apiGroup=%q"))
  end.

Definition persistentVolumeForClaim (driverName : string) (pvc : PersistentVolumeClaim)
  (sc : StorageClass) (pvName : string) (volume : Volume) : PersistentVolume :=
  let reclaimPolicy := reclaimPolicyForStorageClass sc in
  let secretRef operation :=
    secretRefForOperation (sc_Parameters sc) operation (pvc_Namespace pvc) (pvc_Name pvc) pvName in
  {| pv_Name := pvName;
     pv_ResourceVersion := "";
     pv_Finalizers := if reclaimPolicy == ReclaimDelete then [pvProtectionFinalizer] else [];
     pv_Deleting := false;
     pv_Capacity := vCapacityBytes volume;
     pv_AccessModes := pvc_AccessModes pvc;
     pv_ReclaimPolicy := reclaimPolicy;
     pv_StorageClassName := sc_Name sc;
     pv_MountOptions := sc_MountOptions sc;
     pv_VolumeMode := Some (match pvc_VolumeMode pvc with
                            | Some m => m | None => PersistentVolumeFilesystem end);
     pv_ClaimRef := Some {| or_APIVersion := "v1"; or_Kind := "PersistentVolumeClaim";
                            or_Namespace := pvc_Namespace pvc; or_Name := pvc_Name pvc;
                            or_UID := pvc_UID pvc |};
     pv_CSI := Some {| csi_Driver := driverName; csi_VolumeHandle := VolumeId volume;
                       csi_FSType := fsTypeForStorageClass sc;
                       csi_VolumeAttributes := VolumeContext volume;
                       ControllerPublishSecretRef := secretRef "controller-publish";
                       NodeStageSecretRef := secretRef "node-stage";
                       NodePublishSecretRef := secretRef "node-publish";
                       ControllerExpandSecretRef := secretRef "controller-expand" |};
     pv_Phase := "" |}.

(** ** Provisioning *)

(** The volume is created and published as a PersistentVolume; when that cannot be
    written the volume is deleted again. *)
Definition provision (d : driver) (pvc : PersistentVolumeClaim) (sc : StorageClass) (pvName : string)
  : agent unit :=
  secrets ← secretDataForOperation (sc_Parameters sc) "provisioner" (pvc_Namespace pvc)
              (pvc_Name pvc) pvName;
  contentSource ← volumeContentSourceForPVC (name d) pvc;
  volume ← rpc_must
             (CallCreateVolume pvName (requestedStorageBytes pvc) (volumeCapabilitiesForPVC pvc sc)
                (createVolumeParameters (sc_Parameters sc)) secrets contentSource)
             "CreateVolume: %w";
  created ← kube (CreatePersistentVolume (persistentVolumeForClaim (name d) pvc sc pvName volume));
  match created with
  | Got _ => ok tt
  | ApiErr ApiAlreadyExists => ok tt
  | ApiErr _ =>
      let volumeID := VolumeId volume in
      if volumeID != "" then
        _ ← rpc_must (CallDeleteVolume volumeID)
              "create PersistentVolume %q: %w (rollback DeleteVolume %q failed: %v)";
        lift (Err (PlainErr "create PersistentVolume %q: %w"))
      else lift (Err (PlainErr "create PersistentVolume %q: %w"))
  end.

Definition waits_for_node (pvc : PersistentVolumeClaim) (sc : StorageClass) : bool :=
  (bool_decide (sc_VolumeBindingMode sc = Some VolumeBindingWaitForFirstConsumer)
   && (TrimSpace (param (pvc_Annotations pvc) selectedNodeAnnotation) == ""))%bool.

Definition reconcilePersistentVolumeClaim (d : driver) (pvc : PersistentVolumeClaim) : agent unit :=
  if (pvc_Deleting pvc || (pvc_VolumeName pvc != ""))%bool then ok tt
  else
    let scName := storageClassNameForPVC pvc in
    if scName == "" then ok tt
    else
      sc ← kube_must (GetStorageClass scName) "get StorageClass %q: %w";
      if sc_Provisioner sc != name d then ok tt
      else if waits_for_node pvc sc then ok tt
      else
        let pvName := persistentVolumeNameForClaim pvc in
        existing ← kube (GetPersistentVolume pvName);
        match existing with
        | Got _ => ok tt
        | ApiErr ApiNotFound => provision d pvc sc pvName
        | ApiErr _ => lift (Err (PlainErr "get PersistentVolume %q: %w"))
        end.

(** ** Deletion *)

(** Whether an attachment of this driver names the volume. *)
Definition attached_to (driverName pvName : string) (va : VolumeAttachment) : bool :=
  match va_PersistentVolumeName va with
  | Some n => ((va_Attacher va == driverName) && (TrimSpace n == pvName))%bool
  | None => false
  end.

(** [hasLister] is false when the lister is nil. *)
Definition volumeAttachmentExistsForPV (d : driver) (hasLister : bool) (pvName : string)
  : agent bool :=
  if negb hasLister then lift (Err (PlainErr "VolumeAttachment lister is required"))
  else
    vas ← kube_must ListedVolumeAttachments "list cached VolumeAttachments for PersistentVolume %q: %w";
    ok (existsb (attached_to (name d) pvName) vas).

(** The finalizer goes after the volume, and then a released object itself. *)
Definition delete_backend_volume (pv : PersistentVolume) (volumeID : string) : agent unit :=
  _ ← rpc_must (CallDeleteVolume volumeID) "DeleteVolume: %w";
  _ ← (if hasString (pv_Finalizers pv) pvProtectionFinalizer
       then updatePVFinalizers pv (removeString (pv_Finalizers pv) pvProtectionFinalizer)
       else ok tt);
  if pv_Deleting pv then ok tt
  else
    deleted ← kube (DeletePersistentVolume (pv_Name pv));
    match deleted with
    | Got _ | ApiErr ApiNotFound => ok tt
    | ApiErr _ => lift (Err (PlainErr "delete PersistentVolume %q: %w"))
    end.

Definition reconcilePersistentVolumeDeletion (d : driver) (hasLister : bool) (pv : PersistentVolume)
  : agent unit :=
  match pv_CSI pv with
  | None => ok tt
  | Some src =>
      if csi_Driver src != name d then ok tt
      else if negb (pv_Deleting pv || (pv_Phase pv == VolumeReleased)) then ok tt
      else if pv_ReclaimPolicy pv != ReclaimDelete then
        if (pv_Deleting pv && hasString (pv_Finalizers pv) pvProtectionFinalizer)%bool
        then updatePVFinalizers pv (removeString (pv_Finalizers pv) pvProtectionFinalizer)
        else ok tt
      else
        let volumeID := csi_VolumeHandle src in
        if volumeID == "" then lift (Err (PlainErr "PV %q is missing CSI volume handle"))
        else
          hasAttachment ← volumeAttachmentExistsForPV d hasLister (pv_Name pv);
          if hasAttachment : bool then ok tt else delete_backend_volume pv volumeID
  end.

(** ** Attachment *)

Fixpoint node_id_from (driverName : string) (drivers : list CSINodeDriver) : res string :=
  match drivers with
  | [] => Err (PlainErr "CSINode %q does not contain driver %q")
  | drv :: rest =>
      if cnd_Name drv != driverName then node_id_from driverName rest
      else
        let nodeID := TrimSpace (cnd_NodeID drv) in
        if nodeID == "" then Err (PlainErr "CSINode %q driver %q has empty nodeID") else Ok nodeID
  end.

Definition csiNodeIDForVolumeAttachment (d : driver) (hasLister : bool) (va : VolumeAttachment)
  : agent string :=
  let nodeName := TrimSpace (va_NodeName va) in
  if nodeName == "" then lift (Err (PlainErr "VolumeAttachment %q is missing nodeName"))
  else if negb hasLister then
    lift (Err (PlainErr "CSINode lister is required to resolve node %q"))
  else
    csiNode ← kube_must (ListedCSINode nodeName) "get cached CSINode %q: %w";
    lift (node_id_from (name d) (cn_Drivers csiNode)).

Definition detach_volume (d : driver) (hasNodes : bool) (va : VolumeAttachment)
  (src : CSIPersistentVolumeSource) : agent unit :=
  if negb (hasString (va_Finalizers va) vaProtectionFinalizer) then ok tt
  else
    nodeID ← csiNodeIDForVolumeAttachment d hasNodes va;
    _ ← rpc_must (CallControllerUnpublishVolume (csi_VolumeHandle src) nodeID)
          "ControllerUnpublishVolume: %w";
    updateVAFinalizers va (removeString (va_Finalizers va) vaProtectionFinalizer).

(** The attachment with the finalizer: as given, or as it is after the update. *)
Definition with_protection (va : VolumeAttachment) : agent VolumeAttachment :=
  if hasString (va_Finalizers va) vaProtectionFinalizer then ok va
  else
    _ ← updateVAFinalizers va (va_Finalizers va ++ [vaProtectionFinalizer]);
    kube_must (GetVolumeAttachment (va_Name va)) "%w".

Definition attach_volume (d : driver) (hasNodes : bool) (va : VolumeAttachment) (pv : PersistentVolume)
  (src : CSIPersistentVolumeSource) : agent unit :=
  if va_Attached va then ok tt
  else
    va ← with_protection va;
    secrets ← secretDataFromRef (ControllerPublishSecretRef src);
    nodeID ← csiNodeIDForVolumeAttachment d hasNodes va;
    metadata ← rpc_must
                 (CallControllerPublishVolume (csi_VolumeHandle src) nodeID
                    (volumeCapabilityForPV pv) secrets (csi_VolumeAttributes src))
                 "ControllerPublishVolume: %w";
    kube_must (UpdateVolumeAttachmentStatus (va_with_status va metadata))
      "update VolumeAttachment status %q: %w".

Definition reconcileVolumeAttachment (d : driver) (hasNodes : bool) (va : VolumeAttachment)
  : agent unit :=
  let pvName := trimmed_or_empty (va_PersistentVolumeName va) in
  if pvName == "" then ok tt
  else
    listed ← kube (ListedPersistentVolume pvName);
    match listed with
    | ApiErr ApiNotFound =>
        if (va_Deleting va && hasString (va_Finalizers va) vaProtectionFinalizer)%bool
        then updateVAFinalizers va (removeString (va_Finalizers va) vaProtectionFinalizer)
        else ok tt
    | ApiErr _ => lift (Err (PlainErr "get cached PersistentVolume %q: %w"))
    | Got pv =>
        match pv_CSI pv with
        | None => ok tt
        | Some src =>
            if csi_Driver src != name d then ok tt
            else if va_Deleting va then detach_volume d hasNodes va src
            else attach_volume d hasNodes va pv src
        end
    end.

Definition reconcileInternalAttacher (d : driver) (hasNodes : bool) (key : string) : agent unit :=
  let vaName := TrimSpace key in
  if vaName == "" then ok tt
  else
    listed ← kube (ListedVolumeAttachment vaName);
    match listed with
    | ApiErr ApiNotFound => ok tt
    | ApiErr _ => lift (Err (PlainErr "get cached VolumeAttachment %q: %w"))
    | Got va => if va_Attacher va != name d then ok tt else reconcileVolumeAttachment d hasNodes va
    end.
