(* ===== verification/KubeEvents.v ===== *)
(** * Events, work queues and start of the built-in agent
    ([pkg/iscsi/internal_kubernetes.go])

    What an event of an informer puts into the work queues, the worker that takes
    keys from a queue and reconciles them, and what is started in each mode.
    Informers, queues and servers belong to third-party packages and are services
    here; [cache.MetaNamespaceKeyFunc] and [cache.SplitMetaNamespaceKey] are
    parameters. *)
From S2P Require Import Prelude GoStrings GoPath Params Prog Driver KubeApi Kube.

(** ** Events *)

(** What an informer hands over: an object, or the last known state of a deleted
    one. *)
Inductive event_object :=
| PVObject (pv : PersistentVolume)
| PVCObject (pvc : PersistentVolumeClaim)
| VAObject (va : VolumeAttachment)
| CSINodeObject (csiNode : CSINode)
| DeletedFinalStateUnknown (obj : event_object)
| OtherObject.

Definition final_state (obj : event_object) : event_object :=
  match obj with DeletedFinalStateUnknown obj => obj | obj => obj end.

Definition persistentVolumeFromEventObject (obj : event_object) : option PersistentVolume :=
  match final_state obj with PVObject pv => Some pv | _ => None end.
Definition persistentVolumeClaimFromEventObject (obj : event_object)
  : option PersistentVolumeClaim :=
  match final_state obj with PVCObject pvc => Some pvc | _ => None end.
Definition volumeAttachmentFromEventObject (obj : event_object) : option VolumeAttachment :=
  match final_state obj with VAObject va => Some va | _ => None end.
Definition csiNodeFromEventObject (obj : event_object) : option CSINode :=
  match final_state obj with CSINodeObject csiNode => Some csiNode | _ => None end.

Definition internalProvisionerPVKeyPrefix : string := "pv/".
Definition internalProvisionerPVCKeyPrefix : string := "pvc/".

(** A key added to one of the two queues. *)
Inductive queue_add := ToProvisioner (key : string) | ToAttacher (key : string).

Definition enqueueProvisionerPV (obj : event_object) : list queue_add :=
  match persistentVolumeFromEventObject obj with
  | Some pv => if pv_Name pv == "" then []
               else [ToProvisioner (internalProvisionerPVKeyPrefix +:+ pv_Name pv)]
  | None => []
  end.

Definition enqueueProvisionerPVForVolumeAttachment (d : driver) (obj : event_object)
  : list queue_add :=
  match volumeAttachmentFromEventObject obj with
  | Some va =>
      if va_Attacher va != name d then []
      else match va_PersistentVolumeName va with
           | None => []
           | Some n =>
               let pvName := TrimSpace n in
               if pvName == "" then []
               else [ToProvisioner (internalProvisionerPVKeyPrefix +:+ pvName)]
           end
  | None => []
  end.

Definition enqueueAttacherVolumeAttachment (d : driver) (obj : event_object) : list queue_add :=
  match volumeAttachmentFromEventObject obj with
  | Some va => if ((va_Attacher va != name d) || (va_Name va == ""))%bool then []
               else [ToAttacher (va_Name va)]
  | None => []
  end.

(** [listed] is what the lister of the attachments answers. *)
Definition enqueueAttacherVolumeAttachmentsForCSINode (d : driver)
  (listed : api (list VolumeAttachment)) (obj : event_object) : list queue_add :=
  match csiNodeFromEventObject obj with
  | Some csiNode =>
      if cn_Name csiNode == "" then []
      else match listed with
           | ApiErr _ => []
           | Got vas =>
               map (fun va => ToAttacher (va_Name va))
                 (filter (fun va => va_Attacher va = name d /\ va_NodeName va = cn_Name csiNode) vas)
           end
  | None => []
  end.

Inductive informer := PersistentVolumes | PersistentVolumeClaims | VolumeAttachments | CSINodes.
Inductive event_kind := Added | Updated | Deleted.

Section keys.
(** [cache.MetaNamespaceKeyFunc] of a claim, by namespace and name, and
    [cache.SplitMetaNamespaceKey]. *)
Context (MetaNamespaceKeyFunc : string -> string -> res string).
Context (SplitMetaNamespaceKey : string -> res (string * string)).

Definition enqueueProvisionerPVC (obj : event_object) : list queue_add :=
  match persistentVolumeClaimFromEventObject obj with
  | Some pvc =>
      match MetaNamespaceKeyFunc (pvc_Namespace pvc) (pvc_Name pvc) with
      | Ok key => [ToProvisioner (internalProvisionerPVCKeyPrefix +:+ key)]
      | _ => []
      end
  | None => []
  end.

(** The handlers that [startInternalControllerReconcilers] registers. *)
Definition on_event (d : driver) (controllerPublish : bool) (listed : api (list VolumeAttachment))
  (i : informer) (kind : event_kind) (obj : event_object) : list queue_add :=
  match i with
  | PersistentVolumes => enqueueProvisionerPV obj
  | PersistentVolumeClaims => enqueueProvisionerPVC obj
  | VolumeAttachments =>
      enqueueProvisionerPVForVolumeAttachment d obj
      ++ (if controllerPublish then enqueueAttacherVolumeAttachment d obj else [])
  | CSINodes =>
      match kind with
      | Deleted => []
      | _ => if controllerPublish then enqueueAttacherVolumeAttachmentsForCSINode d listed obj
             else []
      end
  end.

Definition reconcileInternalProvisioner (d : driver) (hasLister : bool) (key : string)
  : agent unit :=
  if HasPrefix key internalProvisionerPVKeyPrefix then
    let pvName := TrimSpace (TrimPrefix key internalProvisionerPVKeyPrefix) in
    if pvName == "" then ok tt
    else
      listed ← kube (ListedPersistentVolume pvName);
      match listed with
      | ApiErr ApiNotFound => ok tt
      | ApiErr _ => lift (Err (PlainErr "get cached PersistentVolume %q: %w"))
      | Got pv => reconcilePersistentVolumeDeletion d hasLister pv
      end
  else if HasPrefix key internalProvisionerPVCKeyPrefix then
    match SplitMetaNamespaceKey (TrimPrefix key internalProvisionerPVCKeyPrefix) with
    | Panicked => Ret Panicked
    | Err _ => lift (Err (PlainErr "split PersistentVolumeClaim key %q: %w"))
    | Ok (namespace, name) =>
        listed ← kube (ListedPersistentVolumeClaim namespace name);
        match listed with
        | ApiErr ApiNotFound => ok tt
        | ApiErr _ => lift (Err (PlainErr "get cached PersistentVolumeClaim %q: %w"))
        | Got pvc => reconcilePersistentVolumeClaim d pvc
        end
    end
  else lift (Err (PlainErr "unknown provisioner queue key %q")).

End keys.

(** ** Workers *)

(** A rate-limited work queue: [QueueGet] waits for a key, and answers [None] when
    the queue is shut down; [ContextLive] is whether [ctx.Err()] is nil. *)
Inductive worker_op :=
| QueueGet
| QueueAddRateLimited (key : string)
| QueueForget (key : string)
| QueueDone (key : string)
| ContextLive
| Reconciling (o : agent_op).
Definition worker_resp (o : worker_op) : Type :=
  match o with
  | QueueGet => option string
  | ContextLive => bool
  | Reconciling o => agent_resp o
  | _ => unit
  end.
Definition worker_service : service := Service worker_op worker_resp.
Definition queue (o : worker_op) : go worker_service (worker_resp o) :=
  call (E := worker_service) o.

Definition reconciling {A} (p : agent A) : go worker_service A :=
  interp (E := agent_service) (F := worker_service)
    (fun o => Do (E := worker_service) (Reconciling o) Ret) p.

(** A key that was taken is reconciled, put back if that failed, and done. *)
Definition process (reconcile : string -> agent unit) (key : string) : go worker_service unit :=
  catch (reconciling (reconcile key)) (fun r =>
    match r with
    | Panicked => Ret Panicked
    | _ =>
        retry ← (if is_Ok r then ok false else queue ContextLive);
        _ ← (if retry : bool then queue (QueueAddRateLimited key) else queue (QueueForget key));
        queue (QueueDone key)
    end).

(** The loop of [runInternalProvisioner] and [runInternalAttacher]; the result is
    whether it ended, which it does when the queue is shut down. *)
Fixpoint run_worker (fuel : nat) (reconcile : string -> agent unit) : go worker_service bool :=
  match fuel with
  | O => ok false
  | S fuel =>
      next ← queue QueueGet;
      match next with
      | None => ok true
      | Some key => _ ← process reconcile key; run_worker fuel reconcile
      end
  end.

Definition runInternalProvisioner (SplitMetaNamespaceKey : string -> res (string * string))
  (fuel : nat) (d : driver) (hasLister : bool) : go worker_service bool :=
  run_worker fuel (reconcileInternalProvisioner SplitMetaNamespaceKey d hasLister).
Definition runInternalAttacher (fuel : nat) (d : driver) (hasNodes : bool) : go worker_service bool :=
  run_worker fuel (reconcileInternalAttacher d hasNodes).

(** ** Start *)

(** The resync period is in nanoseconds. *)
Record InternalKubernetesConfig := {
  ik_Enabled : bool;
  ControllerPublish : bool;
  LivenessPort : Z;
  KubeletRegistrationPath : string;
  ResyncPeriod : Z
}.

Definition defaultControllerLivenessPort : Z := 29752.
Definition defaultNodeLivenessPort : Z := 29753.
Definition defaultKubernetesResyncPeriod : Z := 5 * second.

Definition internal_withDefaults (cfg : InternalKubernetesConfig) (mode : DriverMode)
  : InternalKubernetesConfig :=
  {| ik_Enabled := ik_Enabled cfg;
     ControllerPublish := ControllerPublish cfg;
     LivenessPort :=
       if (LivenessPort cfg =? 0)%Z then
         if mode == DriverModeController then defaultControllerLivenessPort
         else defaultNodeLivenessPort
       else LivenessPort cfg;
     KubeletRegistrationPath := KubeletRegistrationPath cfg;
     ResyncPeriod := if (ResyncPeriod cfg <=? 0)%Z then defaultKubernetesResyncPeriod
                     else ResyncPeriod cfg |}.

(** What is started, as calls; a boolean answer says whether the step succeeded. *)
Inductive agent_start :=
| StartHealthServer (port : Z)
| NewKubernetesClient
| AddEventHandler (i : informer)
| StartInformers (resync : Z)
| WaitForCacheSync
| ShutDownQueues
| ShutDownQueuesWhenDone
| GoProvisioner
| GoAttacher
| RemoveSocket (path : string)
| MakeDirectory (path : string)
| Listen (path : string)
| ServeRegistration (driverName endpoint : string)
| AgentFatalf (format : string).
Definition start_resp (o : agent_start) : Type :=
  match o with
  | NewKubernetesClient | AddEventHandler _ | WaitForCacheSync | MakeDirectory _ | Listen _ => bool
  | RemoveSocket _ => res unit
  | _ => unit
  end.
Definition start_service : service := Service agent_start start_resp.
Definition starting (o : agent_start) : go start_service (start_resp o) :=
  call (E := start_service) o.
Definition agent_fatalf {A} (format : string) : go start_service A :=
  _ ← starting (AgentFatalf format); Ret Panicked.

Fixpoint add_handlers (informers : list informer) : go start_service unit :=
  match informers with
  | [] => ok tt
  | i :: rest =>
      added ← starting (AddEventHandler i);
      if added : bool then add_handlers rest
      else agent_fatalf "register built-in informer handler: %v"
  end.

Definition startInternalControllerReconcilers (cfg : InternalKubernetesConfig)
  : go start_service unit :=
  _ ← add_handlers [PersistentVolumes; PersistentVolumeClaims; VolumeAttachments; CSINodes];
  _ ← starting (StartInformers (ResyncPeriod cfg));
  synced ← starting WaitForCacheSync;
  if negb synced then starting ShutDownQueues
  else
    _ ← starting ShutDownQueuesWhenDone;
    _ ← starting GoProvisioner;
    if ControllerPublish cfg then starting GoAttacher else ok tt.

(** What the registrar tells the kubelet. *)
Record PluginInfo := {
  pli_Type : string; pli_Name : string; pli_Endpoint : string; SupportedVersions : list string }.
Definition GetInfo (driverName endpoint : string) : PluginInfo :=
  {| pli_Type := "CSIPlugin"; pli_Name := driverName; pli_Endpoint := endpoint;
     SupportedVersions := ["1.0.0"] |}.

Definition registration_socket (d : driver) : string :=
  PathJoin ["/registration"; name d +:+ "-reg.sock"].

Definition startInternalNodeRegistrar (d : driver) (kubeletRegistrationPath0 : string)
  : go start_service unit :=
  let kubeletRegistrationPath := TrimSpace kubeletRegistrationPath0 in
  if kubeletRegistrationPath == "" then lift (Err (PlainErr "kubelet registration path is required"))
  else
    let socketPath := registration_socket d in
    removed ← starting (RemoveSocket socketPath);
    match removed with
    | Err (OsErr NotExist _) | Ok _ =>
        made ← starting (MakeDirectory (PathDir socketPath));
        if negb made then lift (Err (PlainErr "create registration socket directory: %w"))
        else
          listening ← starting (Listen socketPath);
          if negb listening then lift (Err (PlainErr "listen on registration socket %q: %w"))
          else starting (ServeRegistration (name d) kubeletRegistrationPath)
    | _ => lift (Err (PlainErr "remove stale registration socket %q: %w"))
    end.

Definition startInternalKubernetes (d : driver) (internalKubernetes : InternalKubernetesConfig)
  : go start_service unit :=
  let cfg := internal_withDefaults internalKubernetes (mode d) in
  if negb (ik_Enabled cfg) then ok tt
  else
    _ ← (if (0 <? LivenessPort cfg)%Z then starting (StartHealthServer (LivenessPort cfg)) else ok tt);
    if mode d == DriverModeController then
      client ← starting NewKubernetesClient;
      if client : bool then startInternalControllerReconcilers cfg
      else agent_fatalf "create Kubernetes client for built-in CSI controllers: %v"
    else if mode d == DriverModeNode then
      catch (startInternalNodeRegistrar d (KubeletRegistrationPath cfg)) (fun r =>
        match r with
        | Err _ => agent_fatalf "start built-in CSI node registrar: %v"
        | r => Ret r
        end)
    else ok tt.
