(* ===== verification/KubeFacts.v ===== *)
(** * The built-in provisioner and attacher: what they may do, and when *)
From S2P Require Import Prelude GoStrings Params Prog VolumeID Driver Controller NodeParams.
From S2P Require Import KubeApi Kube.

(** ** Finalizers *)

(** The new list is the old one without [p], or with it; blank names and
    repetitions go. *)
Definition drops (p : string) (old new : list string) : Prop :=
  NoDup new /\ forall f, f ∈ new <-> f ∈ old /\ f <> p /\ TrimSpace f <> "".
Definition adds (p : string) (old new : list string) : Prop :=
  NoDup new /\ forall f, f ∈ new <-> (f ∈ old \/ f = p) /\ TrimSpace f <> "".

Lemma hasString_elem l x : hasString l x = true <-> x ∈ l.
Proof.
  unfold hasString. rewrite existsb_exists. setoid_rewrite String.eqb_eq.
  setoid_rewrite <- list_elem_of_In. naive_solver.
Qed.
Lemma hasString_false l x : hasString l x = false <-> x ∉ l.
Proof. rewrite <- hasString_elem. by destruct (hasString l x). Qed.
Lemma removeString_elem l p x : x ∈ removeString l p <-> x ∈ l /\ x <> p.
Proof. unfold removeString. rewrite list_elem_of_filter. naive_solver. Qed.

Lemma unique_from_elem l : forall seen x,
  x ∈ unique_from seen l <-> x ∈ l /\ TrimSpace x <> "" /\ x ∉ seen.
Proof.
  induction l as [|v l IH]; intros seen x; simpl; [set_solver|].
  destruct (String.eqb_spec (TrimSpace v) "") as [Ev|Ev]; [set_solver|].
  destruct (hasString seen v) eqn:Eh.
  - apply hasString_elem in Eh. set_solver.
  - apply hasString_false in Eh. rewrite !elem_of_cons, IH.
    destruct (decide (x = v)) as [->|]; set_solver.
Qed.
Lemma unique_from_NoDup l : forall seen, NoDup (unique_from seen l).
Proof.
  induction l as [|v l IH]; intros seen; simpl; [constructor|].
  destruct (_ == _); [done|]. destruct (hasString seen v); [done|].
  constructor; [|done]. rewrite unique_from_elem. set_solver.
Qed.

Lemma removeString_drops p l : drops p l (uniqueStrings (removeString l p)).
Proof.
  split; [apply unique_from_NoDup|]. intros f. unfold uniqueStrings.
  rewrite unique_from_elem, removeString_elem. set_solver.
Qed.
Lemma append_adds p l : adds p l (uniqueStrings (l ++ [p])).
Proof.
  split; [apply unique_from_NoDup|]. intros f. unfold uniqueStrings.
  rewrite unique_from_elem, elem_of_app. set_solver.
Qed.

(** ** The rules for the calls of the agent *)

Section rules.
Context {M : Type} (m : monitor agent_service M) (s : M).

Lemma safe_kube o (Q : res (api (kube_result o)) -> M -> Prop) :
  allowed m s (Kube o) ->
  (forall r, assumed m s (Kube o) r -> Q (Ok r) (step m s (Kube o) r)) -> safe m s (kube o) Q.
Proof. done. Qed.
Lemma safe_kube_must o format (Q : res (kube_result o) -> M -> Prop) :
  allowed m s (Kube o) ->
  (forall r, assumed m s (Kube o) r ->
     Q (match r with Got a => Ok a | ApiErr _ => Err (PlainErr format) end) (step m s (Kube o) r)) ->
  safe m s (kube_must o format) Q.
Proof.
  intros Ha H. apply safe_bind, safe_kube; [done|]. intros r Hr. specialize (H r Hr).
  by destruct r.
Qed.
Lemma safe_rpc_must o format (Q : res (rpc_result o) -> M -> Prop) :
  allowed m s (Rpc o) ->
  (forall r, assumed m s (Rpc o) r ->
     Q (match r with Ok a => Ok a | Err _ => Err (PlainErr format) | Panicked => Panicked end)
       (step m s (Rpc o) r)) ->
  safe m s (rpc_must o format) Q.
Proof.
  intros Ha H. apply safe_bind, safe_bind. split; [done|]. intros r Hr. specialize (H r Hr).
  by destruct r.
Qed.
End rules.

(** A step of a proof that a program of the agent is safe. *)
Ltac agent_step :=
  match goal with
  | |- safe _ _ (_ ≫= _) _ => apply safe_bind
  | |- safe _ _ (catch _ _) _ => apply safe_prog_bind
  | |- safe ?m ?s (kube ?o) ?Q => refine (safe_kube m s o Q _ _)
  | |- safe ?m ?s (kube_must ?o ?f) ?Q => refine (safe_kube_must m s o f Q _ _)
  | |- safe ?m ?s (rpc_must ?o ?f) ?Q => refine (safe_rpc_must m s o f Q _ _)
  | |- safe _ _ (lift _) _ => cbn [safe lift]
  | |- safe _ _ (ok _) _ => cbn [safe ok]
  | |- safe _ _ (Ret _) _ => cbn [safe]
  end.

(** ** Deletion of a volume *)

Section deletion.
Context (d : driver) (pv : PersistentVolume).

(** The object is of this driver, its volume is to go with it, and it is released
    or being deleted. *)
Definition deletable (src : CSIPersistentVolumeSource) : Prop :=
  pv_CSI pv = Some src /\ csi_Driver src = name d /\ csi_VolumeHandle src <> ""
  /\ pv_ReclaimPolicy pv = ReclaimDelete /\ (pv_Deleting pv = true \/ pv_Phase pv = VolumeReleased).

(** What the last list of attachments said, and whether the volume was deleted. *)
Record deletion_state := { in_use : option bool; volume_gone : bool }.

Definition deletion_allowed (s : deletion_state) (o : agent_op) : Prop :=
  match o with
  | Kube ListedVolumeAttachments => True
  | Rpc (CallDeleteVolume id) =>
      in_use s = Some false /\ exists src, deletable src /\ id = csi_VolumeHandle src
  | Kube (UpdatePersistentVolume pv') =>
      (exists fs, pv' = pv_with_finalizers pv fs /\ drops pvProtectionFinalizer (pv_Finalizers pv) fs)
      /\ (volume_gone s = true \/ (pv_Deleting pv = true /\ pv_ReclaimPolicy pv <> ReclaimDelete))
  | Kube (DeletePersistentVolume n) =>
      n = pv_Name pv /\ volume_gone s = true /\ pv_Deleting pv = false
  | _ => False
  end.
Definition deletion_step (s : deletion_state) (o : agent_op) : agent_resp o -> deletion_state :=
  match o with
  | Kube ListedVolumeAttachments => fun r =>
      match r with
      | Got vas => {| in_use := Some (existsb (attached_to (name d) (pv_Name pv)) vas);
                      volume_gone := volume_gone s |}
      | ApiErr _ => s
      end
  | Rpc (CallDeleteVolume id) => fun r =>
      {| in_use := in_use s; volume_gone := (volume_gone s || is_Ok r)%bool |}
  | _ => fun _ => s
  end.
Definition deletion_monitor : monitor agent_service deletion_state :=
  Monitor agent_service deletion_state deletion_allowed (fun _ _ _ => True) deletion_step.

Definition nothing_deleted : deletion_state := {| in_use := None; volume_gone := false |}.

Lemma updatePV_safe s (Q : res unit -> deletion_state -> Prop) :
  volume_gone s = true \/ (pv_Deleting pv = true /\ pv_ReclaimPolicy pv <> ReclaimDelete) ->
  (forall r, r <> Panicked -> Q r s) ->
  safe deletion_monitor s (updatePVFinalizers pv (removeString (pv_Finalizers pv) pvProtectionFinalizer)) Q.
Proof.
  intros Hs HQ. unfold updatePVFinalizers. agent_step.
  - split; [|done]. eexists. split; [done|]. apply removeString_drops.
  - intros [[]|e] _; by apply HQ.
Qed.

Lemma delete_backend_volume_safe src s :
  deletable src -> in_use s = Some false ->
  safe deletion_monitor s (delete_backend_volume pv (csi_VolumeHandle src))
    (fun r s' => r = Ok tt -> volume_gone s' = true).
Proof.
  intros Hd Hs. unfold delete_backend_volume. agent_step. agent_step; [by split; [|exists src]|].
  intros [[]|e|] _; [|done..]. cbn [step deletion_monitor deletion_step is_Ok].
  rewrite orb_true_r. set (s1 := {| in_use := _; volume_gone := true |}).
  assert (safe deletion_monitor s1
            (if pv_Deleting pv then ok tt
             else kube (DeletePersistentVolume (pv_Name pv)) ≫= (fun deleted =>
                    match deleted with
                    | Got _ | ApiErr ApiNotFound => ok tt
                    | ApiErr _ => lift (Err (PlainErr "delete PersistentVolume %q: %w"))
                    end))
            (fun r s' => r = Ok tt -> volume_gone s' = true)) as Hdel.
  { destruct (pv_Deleting pv) eqn:Ed; [by cbn|]. agent_step. agent_step; [by split_and!|].
    intros r _. destruct r as [[]|[| |]]; by cbn. }
  agent_step. destruct (hasString _ _).
  - apply updatePV_safe; [by left|]. intros [[]|e|] Hr; [exact Hdel|done|done].
  - cbn [safe ok]. exact Hdel.
Qed.

Lemma reconcile_deletion (hasLister : bool) :
  safe deletion_monitor nothing_deleted (reconcilePersistentVolumeDeletion d hasLister pv)
    (fun r s => r = Ok tt ->
       volume_gone s = true \/ in_use s = Some true \/ forall src, ~ deletable src).
Proof.
  unfold reconcilePersistentVolumeDeletion.
  destruct (pv_CSI pv) as [src|] eqn:Ecsi;
    [|cbn; intros _; right; right; intros src (H & _); by rewrite H in Ecsi].
  assert (forall P : Prop, (deletable src -> P) -> ~ P -> forall src', ~ deletable src') as Hno.
  { intros P H Hn src' Hd. assert (src' = src) as ->; [|auto].
    destruct Hd as (H1 & _). rewrite Ecsi in H1. by injection H1. }
  destruct (String.eqb_spec (csi_Driver src) (name d)) as [Ed|Ed]; cbn [negb];
    [|cbn; intros _; right; right; apply (Hno (csi_Driver src = name d)); [by intros (_ & ? & _)|done]].
  destruct (pv_Deleting pv || (pv_Phase pv == VolumeReleased))%bool eqn:Ep; cbn [negb];
    [|cbn; intros _; right; right; apply orb_false_iff in Ep as [E1 E2]; apply String.eqb_neq in E2;
      apply (Hno (pv_Deleting pv = true \/ pv_Phase pv = VolumeReleased)); [by intros (_ & _ & _ & _ & ?)|];
      rewrite E1; by intros [|]].
  apply orb_true_iff in Ep. rewrite String.eqb_eq in Ep.
  destruct (String.eqb_spec (pv_ReclaimPolicy pv) ReclaimDelete) as [Er|Er]; cbn [negb].
  - destruct (String.eqb_spec (csi_VolumeHandle src) "") as [Eh|Eh]; [by cbn|].
    unfold volumeAttachmentExistsForPV. agent_step. destruct hasLister; cbn [negb]; [|by cbn].
    agent_step. agent_step; [done|]. intros [vas|e] _; [|by cbn]. agent_step.
    cbn [step deletion_monitor deletion_step]. destruct (existsb _ vas) eqn:Ev; [cbn; tauto|].
    eapply safe_mono; [apply delete_backend_volume_safe; [by split_and!|done]|]. cbn. tauto.
  - assert (forall src', ~ deletable src') as Hn
      by (apply (Hno (pv_ReclaimPolicy pv = ReclaimDelete)); [by intros (_ & _ & _ & ? & _)|done]).
    destruct (pv_Deleting pv && _)%bool eqn:E; [|by cbn; auto].
    apply andb_true_iff in E as [E _]. apply updatePV_safe; [by right|auto].
Qed.

(** C8: a back-end volume is deleted only for a released or deleted object of this
    driver whose policy says so, and only after a list of attachments without one of
    it; the object and its finalizer go only after the volume (or, for another
    policy, the finalizer of a deleted object goes), and no other finalizer is
    touched.  Success means that the volume is deleted, or that there was nothing to
    delete, or that it is still attached. *)
Theorem reconcilePersistentVolumeDeletion_safe (hasLister : bool) :
  safe deletion_monitor nothing_deleted (reconcilePersistentVolumeDeletion d hasLister pv)
    (fun r s => r = Ok tt ->
       volume_gone s = true \/ in_use s = Some true \/ forall src, ~ deletable src).
Proof. exact (reconcile_deletion hasLister). Qed.
End deletion.

(** ** Provisioning of a claim *)

Section provisioning.
Context (d : driver) (pvc : PersistentVolumeClaim).

(** The claim asks this driver for a volume now. *)
Definition provisionable (sc : StorageClass) : Prop :=
  pvc_Deleting pvc = false /\ pvc_VolumeName pvc = ""
  /\ storageClassNameForPVC pvc <> "" /\ sc_Provisioner sc = name d /\ waits_for_node pvc sc = false.

(** What became of the object of the volume. *)
Inductive writing := NotWritten | Written | WriteFailed.
(** The class, whether an object of the claim's name is missing, the volume that
    was made, what became of its object, and whether its deletion was asked for. *)
Record claim_state := {
  c_class : option StorageClass;
  c_absent : bool;
  c_volume : option Volume;
  c_writing : writing;
  c_rolled_back : bool
}.
Definition fresh_claim : claim_state :=
  {| c_class := None; c_absent := false; c_volume := None; c_writing := NotWritten;
     c_rolled_back := false |}.

(** The object of the volume: it has the volume's handle and attributes, belongs to
    the claim, and keeps the volume from being forgotten if the volume is to be
    deleted with it. *)
Definition object_of (sc : StorageClass) (v : Volume) (pv : PersistentVolume) : Prop :=
  pv_Name pv = persistentVolumeNameForClaim pvc /\ pv_Capacity pv = vCapacityBytes v
  /\ (pvProtectionFinalizer ∈ pv_Finalizers pv <-> pv_ReclaimPolicy pv = ReclaimDelete)
  /\ (exists src, pv_CSI pv = Some src /\ csi_Driver src = name d
                  /\ csi_VolumeHandle src = VolumeId v /\ csi_VolumeAttributes src = VolumeContext v)
  /\ exists cr, pv_ClaimRef pv = Some cr /\ or_Namespace cr = pvc_Namespace pvc
                /\ or_Name cr = pvc_Name pvc /\ or_UID cr = pvc_UID pvc.

Definition claim_allowed (s : claim_state) (o : agent_op) : Prop :=
  match o with
  | Kube (GetStorageClass n) => n = storageClassNameForPVC pvc
  | Kube (GetPersistentVolume _) | Kube (GetPersistentVolumeClaim _ _) | Kube (GetSecret _ _) => True
  | Rpc (CallCreateVolume volumeName bytes _ params _ _) =>
      volumeName = persistentVolumeNameForClaim pvc /\ bytes = requestedStorageBytes pvc
      /\ c_absent s = true /\ c_volume s = None
      /\ (exists sc, c_class s = Some sc /\ provisionable sc)
      /\ forall k, HasPrefix k csiParamPrefix = true -> params !! k = None
  | Kube (CreatePersistentVolume pv) =>
      c_writing s = NotWritten
      /\ exists sc v, c_class s = Some sc /\ c_volume s = Some v /\ object_of sc v pv
  | Rpc (CallDeleteVolume id) =>
      c_writing s = WriteFailed /\ exists v, c_volume s = Some v /\ VolumeId v = id
  | _ => False
  end.
Definition claim_step (s : claim_state) (o : agent_op) : agent_resp o -> claim_state :=
  match o with
  | Kube (GetStorageClass _) => fun r =>
      match r with
      | Got sc => {| c_class := Some sc; c_absent := c_absent s; c_volume := c_volume s;
                     c_writing := c_writing s; c_rolled_back := c_rolled_back s |}
      | ApiErr _ => s
      end
  | Kube (GetPersistentVolume n) => fun r =>
      {| c_class := c_class s;
         c_absent := match r with
                     | ApiErr ApiNotFound => (c_absent s || (n == persistentVolumeNameForClaim pvc))%bool
                     | _ => c_absent s
                     end;
         c_volume := c_volume s; c_writing := c_writing s; c_rolled_back := c_rolled_back s |}
  | Rpc (CallCreateVolume _ _ _ _ _ _) => fun r =>
      match r with
      | Ok v => {| c_class := c_class s; c_absent := c_absent s; c_volume := Some v;
                   c_writing := c_writing s; c_rolled_back := c_rolled_back s |}
      | _ => s
      end
  | Kube (CreatePersistentVolume _) => fun r =>
      {| c_class := c_class s; c_absent := c_absent s; c_volume := c_volume s;
         c_writing := match r with
                      | Got _ | ApiErr ApiAlreadyExists => Written
                      | ApiErr _ => WriteFailed
                      end;
         c_rolled_back := c_rolled_back s |}
  | Rpc (CallDeleteVolume _) => fun r =>
      {| c_class := c_class s; c_absent := c_absent s; c_volume := c_volume s;
         c_writing := c_writing s; c_rolled_back := true |}
  | _ => fun _ => s
  end.
Definition claim_monitor : monitor agent_service claim_state :=
  Monitor agent_service claim_state claim_allowed (fun _ _ _ => True) claim_step.

(** What the end of a reconciliation leaves behind: no volume without an object,
    unless its deletion was asked for. *)
Definition accounted (r : res unit) (s : claim_state) : Prop :=
  match c_volume s with
  | None => True
  | Some v => c_writing s = Written \/ (r <> Ok tt /\ (VolumeId v = "" \/ c_rolled_back s = true))
  end.

Lemma persistentVolumeForClaim_object sc v :
  object_of sc v (persistentVolumeForClaim (name d) pvc sc (persistentVolumeNameForClaim pvc) v).
Proof.
  split_and!; try done.
  - simpl. destruct (String.eqb_spec (reclaimPolicyForStorageClass sc) ReclaimDelete); set_solver.
  - by eexists.
  - by eexists.
Qed.

Lemma createVolumeParameters_lookup params k :
  HasPrefix k csiParamPrefix = true -> createVolumeParameters params !! k = None.
Proof.
  intros Hk. unfold createVolumeParameters. apply map_lookup_filter_None. right.
  intros v _. cbn. by rewrite Hk.
Qed.

(** Reading secrets and the data source changes nothing but, perhaps, what is known
    to be missing. *)
Definition same_claim (s s' : claim_state) : Prop :=
  c_class s' = c_class s /\ (c_absent s = true -> c_absent s' = true) /\ c_volume s' = c_volume s
  /\ c_writing s' = c_writing s /\ c_rolled_back s' = c_rolled_back s.

Lemma same_claim_refl s : same_claim s s.
Proof. by split_and!. Qed.

Lemma secretDataFromRef_safe ref s :
  safe claim_monitor s (secretDataFromRef ref) (fun _ s' => s' = s).
Proof.
  unfold secretDataFromRef. destruct ref as [r|]; [|done]. destruct (_ == _); [done|].
  by agent_step.
Qed.

Lemma clone_source_safe namespace ref s :
  safe claim_monitor s (clone_source (name d) namespace ref) (fun _ s' => same_claim s s').
Proof.
  unfold clone_source. agent_step. agent_step; [done|]. intros [src|e] _; [|exact (same_claim_refl s)].
  destruct (TrimSpace (pvc_VolumeName _) == ""); [exact (same_claim_refl s)|].
  agent_step. agent_step; [done|].
  assert (forall r, same_claim s (step claim_monitor s (Kube (GetPersistentVolume (pvc_VolumeName src))) r)) as Hs.
  { intros r. split_and!; try done. cbn. intros ->. by destruct r as [|[]]. }
  intros r _. specialize (Hs r). destruct r as [pv|e]; [|exact Hs]. destruct (pv_CSI pv); [|exact Hs].
  destruct (_ || _)%bool; exact Hs.
Qed.

Lemma volumeContentSource_safe s :
  safe claim_monitor s (volumeContentSourceForPVC (name d) pvc) (fun _ s' => same_claim s s').
Proof.
  unfold volumeContentSourceForPVC. destruct (pvcDataSourceRef pvc) as [ref|]; [|exact (same_claim_refl s)].
  destruct (TrimSpace (ref_Name ref) == ""); [exact (same_claim_refl s)|]. cbv zeta.
  generalize (if trimmed_or_empty (ref_Namespace ref) != "" then trimmed_or_empty (ref_Namespace ref)
              else pvc_Namespace pvc). intros namespace.
  destruct (namespace != _); [exact (same_claim_refl s)|].
  destruct (_ && _)%bool; [apply clone_source_safe|destruct (_ && _)%bool; exact (same_claim_refl s)].
Qed.

Lemma provision_safe sc s :
  provisionable sc -> c_class s = Some sc -> c_absent s = true -> c_volume s = None ->
  c_writing s = NotWritten ->
  safe claim_monitor s (provision d pvc sc (persistentVolumeNameForClaim pvc)) accounted.
Proof.
  intros Hp Hc Ha Hv Hw. unfold provision, secretDataForOperation.
  agent_step. eapply safe_mono; [apply secretDataFromRef_safe|].
  assert (forall r, accounted r s) as Hacc by (unfold accounted; by rewrite Hv).
  intros [secrets|e|] s' ->; [|done..]. agent_step. eapply safe_mono; [apply volumeContentSource_safe|].
  intros r s1 (Hc1 & Ha1 & Hv1 & Hw1 & Hr1). rewrite Hc in Hc1. rewrite Hv in Hv1. rewrite Hw in Hw1.
  specialize (Ha1 Ha). assert (forall r, accounted r s1) as Hacc1 by (unfold accounted; by rewrite Hv1).
  destruct r as [source|e|]; [|done..]. agent_step. agent_step.
  { split_and!; try done; [by exists sc|]. apply createVolumeParameters_lookup. }
  intros [v|e|] _; [|done..]. agent_step. agent_step.
  { split; [done|]. exists sc, v. split_and!; [done|done|apply persistentVolumeForClaim_object]. }
  intros r _. destruct r as [[]|[| |]]; try (by left); cbn [step claim_monitor claim_step];
    (destruct (String.eqb_spec (VolumeId v) "") as [Ev|Ev]; cbn [negb];
      [right; by split; [|left]|]; agent_step; agent_step; [split; [done|]; by exists v|];
     intros [[]|e|] _; right; (split; [done|by right])).
Qed.

Lemma reconcile_claim :
  safe claim_monitor fresh_claim (reconcilePersistentVolumeClaim d pvc) accounted.
Proof.
  unfold reconcilePersistentVolumeClaim.
  destruct (pvc_Deleting pvc || _)%bool eqn:E; [done|]. apply orb_false_iff in E as [Ed Ev].
  apply negb_false_iff, String.eqb_eq in Ev. cbv zeta.
  destruct (String.eqb_spec (storageClassNameForPVC pvc) "") as [En|En]; [done|].
  agent_step. agent_step; [done|]. intros [sc|e] _; [|done].
  destruct (String.eqb_spec (sc_Provisioner sc) (name d)) as [Ep|Ep]; cbn [negb]; [|done].
  destruct (waits_for_node pvc sc) eqn:Ew; [done|]. agent_step. agent_step; [done|].
  intros r _. destruct r as [pv|[| |]]; try done. apply provision_safe; try done.
  cbn. apply String.eqb_refl.
Qed.

(** C7: a volume is made only for a claim that asks this driver for one, once its
    object is known to be missing and without the parameters meant for Kubernetes;
    its object has its handle and is bound to the claim; and no volume (with a
    handle) is left without an object: if the object cannot be written, the deletion
    of the volume, and only of that one, is asked for, and the claim fails. *)
Theorem reconcilePersistentVolumeClaim_safe :
  safe claim_monitor fresh_claim (reconcilePersistentVolumeClaim d pvc) accounted.
Proof. exact (reconcile_claim). Qed.
End provisioning.

(** ** Attachment *)

Section attachment.
Context (d : driver) (va : VolumeAttachment).

(** The volume as it is listed, the identifier of the node as it is listed, the
    attachment in hand (protected or not), and what the controller answered. *)
Record attachment_state := {
  a_volume : option (option PersistentVolume);
  a_node : option string;
  a_updated : bool;
  a_current : VolumeAttachment;
  a_published : option Params;
  a_unpublished : bool
}.
Definition fresh_attachment : attachment_state :=
  {| a_volume := None; a_node := None; a_updated := false; a_current := va;
     a_published := None; a_unpublished := false |}.

(** The listed volume is of this driver and has this handle. *)
Definition listed_handle (s : attachment_state) (id : string) : Prop :=
  exists pv src, a_volume s = Some (Some pv) /\ pv_CSI pv = Some src
    /\ csi_Driver src = name d /\ csi_VolumeHandle src = id.
(** The attachment has the finalizer, from the start or since it was updated. *)
Definition protected (s : attachment_state) : Prop :=
  vaProtectionFinalizer ∈ va_Finalizers va \/ a_updated s = true.

Definition attachment_allowed (s : attachment_state) (o : agent_op) : Prop :=
  match o with
  | Kube (ListedPersistentVolume n) => n = trimmed_or_empty (va_PersistentVolumeName va)
  | Kube (ListedCSINode n) => n = TrimSpace (va_NodeName (a_current s))
  | Kube (GetVolumeAttachment n) => n = va_Name va
  | Kube (GetSecret _ _) => True
  | Kube (UpdateVolumeAttachment va') =>
      exists fs, va' = va_with_finalizers va fs
        /\ if va_Deleting va
           then drops vaProtectionFinalizer (va_Finalizers va) fs
                /\ (a_unpublished s = true \/ a_volume s = Some None)
           else adds vaProtectionFinalizer (va_Finalizers va) fs
  | Rpc (CallControllerPublishVolume id nodeId _ _ _) =>
      va_Deleting va = false /\ va_Attached va = false /\ protected s
      /\ listed_handle s id /\ a_node s = Some nodeId
  | Rpc (CallControllerUnpublishVolume id nodeId) =>
      va_Deleting va = true /\ listed_handle s id /\ a_node s = Some nodeId
  | Kube (UpdateVolumeAttachmentStatus va') =>
      exists metadata, a_published s = Some metadata /\ va' = va_with_status (a_current s) metadata
  | _ => False
  end.
Definition attachment_step (s : attachment_state) (o : agent_op)
  : agent_resp o -> attachment_state :=
  match o with
  | Kube (ListedPersistentVolume _) => fun r =>
      {| a_volume := match r with
                     | Got pv => Some (Some pv) | ApiErr ApiNotFound => Some None | _ => a_volume s
                     end;
         a_node := a_node s; a_updated := a_updated s; a_current := a_current s;
         a_published := a_published s; a_unpublished := a_unpublished s |}
  | Kube (ListedCSINode _) => fun r =>
      {| a_volume := a_volume s;
         a_node := match r with
                   | Got n => match node_id_from (name d) (cn_Drivers n) with
                              | Ok id => Some id | _ => None end
                   | _ => None
                   end;
         a_updated := a_updated s; a_current := a_current s;
         a_published := a_published s; a_unpublished := a_unpublished s |}
  | Kube (UpdateVolumeAttachment _) => fun r =>
      {| a_volume := a_volume s; a_node := a_node s;
         a_updated := (a_updated s || match r with Got _ => true | _ => false end)%bool;
         a_current := a_current s; a_published := a_published s; a_unpublished := a_unpublished s |}
  | Kube (GetVolumeAttachment _) => fun r =>
      {| a_volume := a_volume s; a_node := a_node s; a_updated := a_updated s;
         a_current := match r with Got latest => latest | _ => a_current s end;
         a_published := a_published s; a_unpublished := a_unpublished s |}
  | Rpc (CallControllerPublishVolume _ _ _ _ _) => fun r =>
      {| a_volume := a_volume s; a_node := a_node s; a_updated := a_updated s;
         a_current := a_current s;
         a_published := match r with Ok metadata => Some metadata | _ => a_published s end;
         a_unpublished := a_unpublished s |}
  | Rpc (CallControllerUnpublishVolume _ _) => fun r =>
      {| a_volume := a_volume s; a_node := a_node s; a_updated := a_updated s;
         a_current := a_current s; a_published := a_published s;
         a_unpublished := (a_unpublished s || is_Ok r)%bool |}
  | _ => fun _ => s
  end.
Definition attachment_monitor : monitor agent_service attachment_state :=
  Monitor agent_service attachment_state attachment_allowed (fun _ _ _ => True) attachment_step.

(** What success means: a deleted attachment of a volume that is there was
    unpublished and has lost its finalizer, one that is not deleted is published. *)
Definition settled (r : res unit) (s : attachment_state) : Prop :=
  r = Ok tt -> forall id, listed_handle s id ->
    if va_Deleting va
    then vaProtectionFinalizer ∈ va_Finalizers va -> a_unpublished s = true /\ a_updated s = true
    else va_Attached va = false -> is_Some (a_published s).

Lemma csiNodeID_safe s hasNodes va' :
  va' = a_current s ->
  safe attachment_monitor s (csiNodeIDForVolumeAttachment d hasNodes va')
    (fun r s' => a_volume s' = a_volume s /\ a_updated s' = a_updated s
                 /\ a_current s' = a_current s /\ a_published s' = a_published s
                 /\ a_unpublished s' = a_unpublished s
                 /\ forall id, r = Ok id -> a_node s' = Some id).
Proof.
  intros ->. unfold csiNodeIDForVolumeAttachment. cbv zeta. destruct (_ == _); [by split_and!|].
  destruct (negb hasNodes); [by split_and!|]. agent_step. agent_step; [done|].
  intros [n|e] _; split_and!; try done. cbn. by intros id ->.
Qed.

Lemma detach_safe s hasNodes src pv :
  va_Deleting va = true -> a_current s = va -> a_volume s = Some (Some pv) ->
  pv_CSI pv = Some src -> csi_Driver src = name d ->
  safe attachment_monitor s (detach_volume d hasNodes va src) settled.
Proof.
  intros Hd Hc Hv Hsrc Hn. unfold detach_volume, settled. rewrite Hd.
  destruct (hasString (va_Finalizers va) vaProtectionFinalizer) eqn:Ef; cbn [negb].
  2:{ apply hasString_false in Ef. cbn. by intros. }
  agent_step. eapply safe_mono; [by apply csiNodeID_safe|].
  intros [id|e|] s1 (Hv1 & Hu1 & Hc1 & Hp1 & Hup1 & Hid); [|done..]. rewrite Hv in Hv1.
  agent_step. agent_step.
  { split_and!; [done| |by apply Hid]. by exists pv, src. }
  intros [[]|e|] _; [|done..]. unfold updateVAFinalizers. agent_step.
  - eexists. split; [done|]. rewrite Hd. split; [apply removeString_drops|]. left. cbn. apply orb_true_r.
  - intros [[]|e] _; [|done]. intros _ id' _ _. cbn. by rewrite !orb_true_r.
Qed.

Lemma attach_safe s hasNodes pv src :
  va_Deleting va = false -> a_current s = va -> a_volume s = Some (Some pv) ->
  pv_CSI pv = Some src -> csi_Driver src = name d ->
  safe attachment_monitor s (attach_volume d hasNodes va pv src) settled.
Proof.
  intros Hd Hc Hv Hsrc Hn. unfold attach_volume, settled. rewrite Hd.
  destruct (va_Attached va) eqn:Ea; [cbn; by intros|]. agent_step.
  eapply (safe_mono _ _ _ (fun r s' => a_volume s' = Some (Some pv)
            /\ (forall va', r = Ok va' -> a_current s' = va' /\ protected s'))).
  { unfold with_protection, protected. destruct (hasString _ _) eqn:Ef.
    - apply hasString_elem in Ef. cbn. split; [done|]. intros va' [= <-]. by split; [|left].
    - agent_step. unfold updateVAFinalizers. agent_step.
      { eexists. split; [done|]. rewrite Hd. apply append_adds. }
      intros [[]|e] _; [|done]. agent_step; [done|]. intros [latest|e] _; [|done].
      split; [done|]. intros va' [= <-]. split; [done|]. right. cbn. apply orb_true_r. }
  intros [va'|e|] s1 (Hv1 & Hp1); [|done..]. destruct (Hp1 va' eq_refl) as [Hc1 Hprot].
  agent_step. eapply (safe_mono _ _ _ (fun r s' => s' = s1)).
  { unfold secretDataFromRef. destruct (ControllerPublishSecretRef src); [|done].
    destruct (_ == _); [done|]. by agent_step. }
  intros [secrets|e|] s2 ->; [|done..]. agent_step. eapply safe_mono; [by apply csiNodeID_safe|].
  intros [id|e|] s3 (Hv3 & Hu3 & Hc3 & _ & _ & Hid); [|done..]. rewrite Hv1 in Hv3.
  agent_step. agent_step.
  { split_and!; [done|done| | |by apply Hid].
    - destruct Hprot as [?|Hu]; [by left|right]. by rewrite Hu3.
    - by exists pv, src. }
  intros [metadata|e|] _; [|done..]. agent_step.
  { exists metadata. split; [done|]. cbn. by rewrite Hc3, Hc1. }
  intros [[]|e] _; [|done]. intros _ id' _ _. by eexists.
Qed.

Lemma reconcile_attachment (hasNodes : bool) :
  safe attachment_monitor fresh_attachment (reconcileVolumeAttachment d hasNodes va) settled.
Proof.
  unfold reconcileVolumeAttachment. cbv zeta.
  destruct (String.eqb_spec (trimmed_or_empty (va_PersistentVolumeName va)) "") as [|En].
  { cbn. intros _ id (pv & src & H & _). done. }
  agent_step. agent_step; [done|]. intros r _.
  assert (forall s id, a_volume s = None \/ a_volume s = Some None -> ~ listed_handle s id) as Hnone.
  { intros s id Hs (pv & src & H & _). destruct Hs as [Hs|Hs]; by rewrite H in Hs. }
  destruct r as [pv|[| |]]; [| |cbn; done..].
  - destruct (pv_CSI pv) as [src|] eqn:Es.
    2:{ cbn. intros _ id (pv' & src & [= <-] & H & _). by rewrite Es in H. }
    destruct (String.eqb_spec (csi_Driver src) (name d)) as [Ed|Ed]; cbn [negb].
    2:{ cbn. intros _ id (pv' & src' & [= <-] & H & Hd' & _). rewrite Es in H. by injection H as <-. }
    destruct (va_Deleting va) eqn:Edel; [by eapply detach_safe|by eapply attach_safe].
  - destruct (_ && _)%bool eqn:E.
    + apply andb_true_iff in E as [Ed _]. unfold updateVAFinalizers. agent_step.
      { eexists. split; [done|]. rewrite Ed. split; [apply removeString_drops|by right]. }
      intros r _ _ id Hl. exfalso. by eapply Hnone; [|exact Hl]; right.
    + cbn. intros _ id Hl. exfalso. by eapply Hnone; [|exact Hl]; right.
Qed.

(** C18: a volume is published to the node of the attachment, as its CSINode names
    it, only while the attachment carries the finalizer and is neither deleted nor
    attached, and is reported attached only with what the controller answered; it is
    unpublished only for a deleted attachment, whose finalizer goes after that
    succeeded or when the volume's object is gone; other finalizers stay.  Success
    means that this was done. *)
Theorem reconcileVolumeAttachment_safe (hasNodes : bool) :
  safe attachment_monitor fresh_attachment (reconcileVolumeAttachment d hasNodes va) settled.
Proof. exact (reconcile_attachment hasNodes). Qed.
End attachment.
