(* ===== verification/KubeOps.v ===== *)
(** * The built-in agent in the process: the reconcilers linked with the controller
    service, the events that wake them, and the workers *)
From S2P Require Import Prelude GoStrings GoStringsFacts GoUrlParse VolumeID VolumeIDFacts LegacyID Params Prog.
From S2P Require Import Driver Backend Controller ControllerFacts NodeParams.
From S2P Require Import KubeApi Kube KubeEvents KubeFacts.

(** ** What justifies the removal of storage

    The reconcilers and the controller service together, over the Kubernetes API and
    the storage back end. *)
Section plant.
Context (d : driver).

(** The volume object as it was listed, and by which name; whether an attachment of it is
    listed; the attachment and the node's id as they were listed; the handle in an object
    that could not be written; and the targets looked up by their IQNs. *)
Record plant_state := {
  l_pv : option (string * PersistentVolume);
  l_in_use : option bool;
  l_va : option VolumeAttachment;
  l_node : option string;
  l_unwritten : option string;
  l_looked_up : list (string * string)
}.
Definition fresh_plant : plant_state :=
  {| l_pv := None; l_in_use := None; l_va := None; l_node := None; l_unwritten := None; l_looked_up := [] |}.

(** The volume of this handle may be deleted: it is that of a listed object which is to be
    deleted with its volume and is not attached, or its object could not be written. *)
Definition may_delete (s : plant_state) (id : string) : Prop :=
  (exists n pv src, l_pv s = Some (n, pv) /\ deletable d pv src /\ l_in_use s = Some false
                    /\ id = csi_VolumeHandle src)
  \/ l_unwritten s = Some id.
(** The initiator of a listed node may be locked out of the target of a listed volume: a
    deleted attachment names both. *)
Definition may_detach (s : plant_state) (id node : string) : Prop :=
  exists va pv src, l_va s = Some va /\ va_Deleting va = true
    /\ l_pv s = Some (trimmed_or_empty (va_PersistentVolumeName va), pv) /\ pv_CSI pv = Some src
    /\ csi_Driver src = name d /\ id = csi_VolumeHandle src /\ l_node s = Some node.
Definition justified (s : plant_state) (o : backend_op) : Prop :=
  exists id v l, decodeAnyVolumeID id = Ok (v, l)
    /\ (may_delete s id /\ own_removal v l (l_looked_up s) o
        \/ exists node, may_detach s id node /\ file_protocol (vProtocol v) = false
                        /\ o = DenyInitiator (either (lTargetName l) (lTargetIQN l)) node).

Definition plant_allowed (s : plant_state) (o : plant_op) : Prop :=
  match o with OnBackend o => destructive o -> justified s o | OnKube _ => True end.
Definition plant_step (s : plant_state) (o : plant_op) : plant_resp o -> plant_state :=
  match o with
  | OnKube (ListedPersistentVolume n) => fun r =>
      match r with
      | Got pv => {| l_pv := Some (n, pv); l_in_use := None; l_va := l_va s; l_node := l_node s;
                     l_unwritten := l_unwritten s; l_looked_up := l_looked_up s |}
      | ApiErr _ => s
      end
  | OnKube ListedVolumeAttachments => fun r =>
      match r, l_pv s with
      | Got vas, Some (_, pv) =>
          {| l_pv := l_pv s; l_in_use := Some (existsb (attached_to (name d) (pv_Name pv)) vas);
             l_va := l_va s; l_node := l_node s; l_unwritten := l_unwritten s; l_looked_up := l_looked_up s |}
      | _, _ => s
      end
  | OnKube (ListedVolumeAttachment _) => fun r =>
      match r with
      | Got va => {| l_pv := l_pv s; l_in_use := l_in_use s; l_va := Some va; l_node := l_node s;
                     l_unwritten := l_unwritten s; l_looked_up := l_looked_up s |}
      | ApiErr _ => s
      end
  | OnKube (ListedCSINode _) => fun r =>
      {| l_pv := l_pv s; l_in_use := l_in_use s; l_va := l_va s;
         l_node := match r with
                   | Got n => match node_id_from (name d) (cn_Drivers n) with Ok id => Some id | _ => None end
                   | _ => None
                   end;
         l_unwritten := l_unwritten s; l_looked_up := l_looked_up s |}
  | OnKube (CreatePersistentVolume pv) => fun r =>
      match r with
      | ApiErr ApiNotFound | ApiErr ApiOther =>
          {| l_pv := l_pv s; l_in_use := l_in_use s; l_va := l_va s; l_node := l_node s;
             l_unwritten := csi_VolumeHandle <$> pv_CSI pv; l_looked_up := l_looked_up s |}
      | _ => s
      end
  | OnBackend (LookupTargetNameByIQN i) => fun r =>
      if failed r then s
      else {| l_pv := l_pv s; l_in_use := l_in_use s; l_va := l_va s; l_node := l_node s;
              l_unwritten := l_unwritten s; l_looked_up := (i, value r) :: l_looked_up s |}
  | _ => fun _ => s
  end.
Definition plant_monitor : monitor plant plant_state :=
  Monitor plant plant_state plant_allowed (fun _ _ _ => True) plant_step.

(** Two states that differ in what was looked up at most. *)
Definition as_listed (s s' : plant_state) : Prop :=
  l_pv s' = l_pv s /\ l_in_use s' = l_in_use s /\ l_va s' = l_va s /\ l_node s' = l_node s
  /\ l_unwritten s' = l_unwritten s.
#[export] Instance as_listed_preorder : PreOrder as_listed.
Proof. split; [done|]. intros s1 s2 s3 (?&?&?&?&?) (?&?&?&?&?). split_and!; congruence. Qed.
Lemma may_delete_listed s s' id : as_listed s s' -> may_delete s id -> may_delete s' id.
Proof. intros (E1 & E2 & _ & _ & E5) H. unfold may_delete. by rewrite E1, E2, E5. Qed.
Lemma may_detach_listed s s' id n : as_listed s s' -> may_detach s id n -> may_detach s' id n.
Proof. intros (E1 & _ & E3 & E4 & _) H. unfold may_detach. by rewrite E1, E3, E4. Qed.
Lemma backend_listed s (o : backend_op) r : as_listed s (plant_step s (OnBackend o) r).
Proof.
  assert (as_listed s s) as Hs by done. destruct o; try exact Hs. destruct r as [x []]; exact Hs.
Qed.
Lemma own_removal_more v l looked looked' o : looked ⊆ looked' -> own_removal v l looked o -> own_removal v l looked' o.
Proof.
  intros H. destruct o; try done. cbn. intros [Hf [Hn Ht]]. split; [done|]. split; [done|].
  destruct (_ == ""); [|done]. destruct Ht as (r & Hr & ->). exists r. split; [by apply H|done].
Qed.

(** Requests to the back end leave the rest of the state as it is. *)
Lemma on_backend_safe {A} (P : backend_op -> Prop) (p : prog backend A) s :
  only (E := backend) P p -> (forall s' o, as_listed s s' -> P o -> plant_allowed s' (OnBackend o)) ->
  safe plant_monitor s (on_backend p) (fun _ s' => as_listed s s').
Proof.
  intros Hp HP. eapply safe_mono.
  - refine (safe_interp (every (E := backend) P) plant_monitor _ (fun _ s' => as_listed s s') tt s p _ _ _ Hp); [|done].
    intros [] s' o Hs Ho. split; [by apply HP|]. intros r _. split; [done|]. etrans; [exact Hs|apply backend_listed].
  - by intros a s' (_ & H & _).
Qed.

(** Calls of the service, by what they may do. *)
Lemma create_linked s o :
  (exists n b c p x y, o = CallCreateVolume n b c p x y) ->
  safe plant_monitor s (on_backend (run_rpc d o)) (fun _ s' => as_listed s s').
Proof.
  intros (n & b & c & p & x & y & ->). eapply on_backend_safe; [apply CreateVolume_keeps|].
  intros s' o _ Ho Hd. by destruct Ho.
Qed.
Lemma delete_linked s id :
  may_delete s id ->
  safe plant_monitor s (on_backend (run_rpc d (CallDeleteVolume id))) (fun _ s' => as_listed s s').
Proof.
  intros Hs. cbn [run_rpc]. unfold DeleteVolume. destruct (id == ""); [done|].
  destruct (decodeAnyVolumeID id) as [[v l]|e|] eqn:Ed; [|done..].
  pose proof (deletion_safe (NewControllerServer d) v l) as Hp. eapply safe_mono.
  - refine (safe_interp (removal_monitor v l) plant_monitor _
              (fun ms s' => as_listed s s' /\ looked_up ms ⊆ l_looked_up s') nothing_removed s _ _ _ _ Hp); [|split; [done|apply list_subseteq_nil]].
    intros ms s' o [Hl Hsub] Ha. split.
    + intros Hdes. exists id, v, l. split; [done|]. left. split; [by eapply may_delete_listed|].
      destruct Ha as [-> |[Ho _]]; [done|]. by eapply own_removal_more.
    + intros r _. split; [done|]. split; [etrans; [exact Hl|apply backend_listed]|].
      destruct Ha as [-> |[Ho _]]; [destruct r as [x []]; cbn; set_solver|].
      destruct o; try done; by destruct r as [x []].
  - by intros r s' (ms & [H _] & _).
Qed.

(** What a detachment does. *)
Definition denies (id node : string) (o : op backend) : Prop :=
  destructive o -> exists v l, decodeAnyVolumeID id = Ok (v, l) /\ file_protocol (vProtocol v) = false
                               /\ o = DenyInitiator (either (lTargetName l) (lTargetIQN l)) node.
Ltac only_must :=
  lazymatch goal with |- only ?P (backend_must ?cs ?o ?f) => refine (only_must P cs o f _) end.
Ltac only_branch :=
  lazymatch goal with |- only _ (if ?b then _ else _) => destruct b; [exact I|] end.

Lemma chap_keeps cs t secrets : only keeps (configureTargetChapFromSecrets cs t secrets).
Proof.
  unfold configureTargetChapFromSecrets. apply only_bind; [apply only_lift|]. intros opts.
  destruct (negb _); [exact I|]. only_must. by intros [].
Qed.
Lemma publish_keeps cs req : only keeps (ControllerPublishVolume cs req).
Proof.
  unfold ControllerPublishVolume. apply only_bind; [apply only_lift|]. intros _.
  apply only_bind; [apply only_lift|]. intros [decoded id]. only_branch. only_branch. cbv zeta.
  only_branch. only_branch. apply only_bind; [apply chap_keeps|]. intros _.
  apply only_bind; [|by intros]. only_must. by intros [].
Qed.
Lemma unpublish_denies cs id n : only (denies id n) (ControllerUnpublishVolume cs id n).
Proof.
  unfold ControllerUnpublishVolume. apply only_bind; [apply only_lift|]. intros _.
  destruct (decodeAnyVolumeID id) as [[v l]|e|] eqn:Ed; [|exact I..].
  destruct (file_protocol (vProtocol v)) eqn:Ef; [exact I|]. cbv zeta.
  destruct (targetNameFromVolID l != ""); [|exact I]. only_must. intros _. exists v, l.
  split_and!; [done..|]. by rewrite <- either_spec.
Qed.

(** The steps of a reconciler, linked: requests to the API are made as they are, and
    a call of the service is followed by the requests it makes. *)
Lemma linked_safe {M} (m : monitor agent_service M) (R : M -> plant_state -> Prop) ms s
  (p : agent unit) Q :
  (forall ms s s', as_listed s s' -> R ms s -> R ms s') ->
  (forall ms s o r, R ms s -> allowed m ms (Kube o) ->
     assumed m ms (Kube o) r /\ R (step m ms (Kube o) r) (plant_step s (OnKube o) r)) ->
  (forall ms s o r, R ms s -> allowed m ms (Rpc o) ->
     assumed m ms (Rpc o) r /\ R (step m ms (Rpc o) r) s) ->
  (forall ms s o, R ms s -> allowed m ms (Rpc o) ->
     safe plant_monitor s (on_backend (run_rpc d o)) (fun _ s' => as_listed s s')) ->
  R ms s -> safe m ms p Q -> safe plant_monitor s (link d p) (fun _ _ => True).
Proof.
  intros Hsame Hk Hr Hl HR Hp. eapply safe_mono; [|by intros].
  refine (safe_interp m plant_monitor _ R _ _ _ _ _ HR Hp).
  intros ms' s' [o|o] HR' Ha; cbn [linked].
  - split; [done|]. intros r _. exact (Hk ms' s' o r HR' Ha).
  - eapply safe_mono; [exact (Hl ms' s' o HR' Ha)|]. intros r s'' Hs. apply Hr; [exact (Hsame _ _ _ Hs HR')|done].
Qed.

Lemma deletion_linked hasLister n pv s :
  l_pv s = Some (n, pv) -> l_in_use s = None ->
  safe plant_monitor s (link d (reconcilePersistentVolumeDeletion d hasLister pv)) (fun _ _ => True).
Proof.
  intros Hpv Hu.
  refine (linked_safe (deletion_monitor d pv)
            (fun ms s => l_pv s = Some (n, pv) /\ l_in_use s = in_use ms) _ _ _ _ _ _ _ _ _
            (reconcile_deletion d pv hasLister)).
  - intros ms s1 s2 (E1 & E2 & _) [H1 H2]. split; congruence.
  - intros ms s' o r [H1 H2] Ha. split; [done|]. destruct o; try done.
    cbn. rewrite H1. by destruct r.
  - intros ms s' o r [H1 H2] Ha. split; [done|]. by destruct o.
  - intros ms s' o [H1 H2] Ha. destruct o; try done. apply delete_linked. left.
    destruct Ha as [Hf (src & Hd & ->)]. exists n, pv, src. by rewrite H2.
  - by rewrite Hu.
Qed.

(** The object that could not be written is of the volume that was made. *)
Definition unwritten_volume (ms : claim_state) (s : plant_state) : Prop :=
  c_writing ms = WriteFailed -> exists v, c_volume ms = Some v /\ l_unwritten s = Some (VolumeId v).
Lemma claim_linked pvc s :
  l_unwritten s = None ->
  safe plant_monitor s (link d (reconcilePersistentVolumeClaim d pvc)) (fun _ _ => True).
Proof.
  intros Hw.
  refine (linked_safe (claim_monitor d pvc) unwritten_volume _ _ _ _ _ _ _ _ _ (reconcile_claim d pvc)).
  - intros ms s1 s2 (_ & _ & _ & _ & E) H Hf. rewrite E. by apply H.
  - intros ms s' o r H Ha. split; [done|]. destruct o; try done; try (by destruct r as [a|[| |]]).
    destruct Ha as (Hn & sc & v & _ & Hv & _ & _ & _ & (src & Hsrc & _ & Hh & _) & _).
    destruct r as [[]|[| |]]; cbn; try done; intros _; exists v; by rewrite Hsrc, <- Hh.
  - intros ms s' o r H Ha. split; [done|]. destruct o; try done.
    destruct Ha as (_ & _ & _ & Hn & _). destruct r; cbn; try done. intros Hf. cbn in Hf.
    destruct (H Hf) as (v & Hv & _). by rewrite Hn in Hv.
  - intros ms s' o H Ha. destruct o; try done.
    + apply create_linked. by repeat eexists.
    + apply delete_linked. right. destruct Ha as (Hf & v & Hv & <-). destruct (H Hf) as (v' & Hv' & ->).
      congruence.
  - by intros [=].
Qed.

(** What is listed of an attachment in hand. *)
Definition listed_of (va : VolumeAttachment) (ms : attachment_state) (s : plant_state) : Prop :=
  l_va s = Some va
  /\ (forall pv, a_volume ms = Some (Some pv) -> l_pv s = Some (trimmed_or_empty (va_PersistentVolumeName va), pv))
  /\ (forall n, a_node ms = Some n -> l_node s = Some n).
Lemma attachment_linked hasNodes va s :
  l_va s = Some va ->
  safe plant_monitor s (link d (reconcileVolumeAttachment d hasNodes va)) (fun _ _ => True).
Proof.
  intros Hva.
  refine (linked_safe (attachment_monitor d va) (listed_of va) _ _ _ _ _ _ _ _ _
            (reconcile_attachment d va hasNodes)).
  - intros ms s1 s2 (E1 & _ & E3 & E4 & _) H. unfold listed_of. by rewrite E1, E3, E4.
  - intros ms s' o r (H1 & H2 & H3) Ha. split; [done|].
    destruct o; try done; cbn in Ha |- *; destruct r as [a|[| |]]; try (by split_and!); subst;
      split_and!; try done; by intros pv [= <-].
  - intros ms s' o r (H1 & H2 & H3) Ha. split; [done|]. by destruct o.
  - intros ms s' o (H1 & H2 & H3) Ha. destruct o; try done.
    + eapply on_backend_safe; [apply publish_keeps|]. intros s2 o _ Ho Hd. by destruct Ho.
    + destruct Ha as (Hdel & (pv & src & Hv & Hsrc & Hdrv & <-) & Hn).
      eapply on_backend_safe; [apply unpublish_denies|]. intros s2 o Hs Ho Hd.
      destruct (Ho Hd) as (v & l & Hdec & Hf & ->). eexists _, v, l. split; [exact Hdec|]. right. eexists.
      split; [|by split]. eapply may_detach_listed; [exact Hs|]. exists va, pv, src.
      split_and!; [done|done|by apply H2|done..|by apply H3].
  - split_and!; [done|by intros pv [=]|by intros n [=]].
Qed.

Definition plant_reconciler (split : string -> res (string * string)) (hasLister hasNodes : bool)
  (key : queue_add) : agent unit :=
  match key with
  | ToProvisioner key => reconcileInternalProvisioner split d hasLister key
  | ToAttacher key => reconcileInternalAttacher d hasNodes key
  end.

(** C6: whatever key of whichever queue is reconciled, and whatever Kubernetes and
    the storage server answer, the process removes or detaches no storage but that of a
    volume it has a reason for, by the volume's handle.  The volume's own disk, target or
    share goes because a listed object of this driver has that handle, is released or
    deleted, is to be deleted with its volume and has no listed attachment, or because the
    API did not confirm that the object of a new volume with that handle was written (it
    may have been).  The initiator of a listed node loses its access to the volume's target
    because a deleted attachment names the volume's listed object. *)
Theorem storage_removal_justified (split : string -> res (string * string))
  (hasLister hasNodes : bool) (key : queue_add) :
  safe plant_monitor fresh_plant (link d (plant_reconciler split hasLister hasNodes key))
    (fun _ _ => True).
Proof.
  destruct key as [key|key]; cbn [plant_reconciler].
  - unfold reconcileInternalProvisioner. destruct (HasPrefix key internalProvisionerPVKeyPrefix).
    + cbv zeta. destruct (_ == _); [done|]. split; [done|]. intros r _.
      destruct r as [pv|[| |]]; [by eapply deletion_linked|done..].
    + destruct (HasPrefix _ _); [|done]. destruct (split _) as [[ns n]|e|]; [|done..].
      split; [done|]. intros r _. destruct r as [pvc|[| |]]; [by apply claim_linked|done..].
  - unfold reconcileInternalAttacher. cbv zeta. destruct (_ == _); [done|]. split; [done|].
    intros r _. destruct r as [va|[| |]]; [|done..]. cbn.
    destruct (va_Attacher va != name d); [done|]. by apply attachment_linked.
Qed.
End plant.

(** ** Events that wake a deferred deletion *)

(** C25: a deletion that was put off because of an attachment is taken up again:
    every event of that attachment, its removal in particular, puts a key into the
    queue of the provisioner that leads back to the volume's object (whose name, as
    every Kubernetes name, has visible ASCII characters only). *)
Theorem attachment_event_wakes_deletion (d : driver) (pv : PersistentVolume) (va : VolumeAttachment)
  (metaKey : string -> string -> res string) (split : string -> res (string * string))
  (publish hasLister : bool) (listed : api (list VolumeAttachment)) (kind : event_kind)
  (obj : event_object) :
  pv_Name pv <> "" -> str_all visible (pv_Name pv) = true ->
  attached_to (name d) (pv_Name pv) va = true -> final_state obj = VAObject va ->
  exists key, ToProvisioner key ∈ on_event metaKey d publish listed VolumeAttachments kind obj
    /\ exists k, reconcileInternalProvisioner split d hasLister key
                 = Do (E := agent_service) (Kube (ListedPersistentVolume (pv_Name pv))) k
       /\ k (Got pv) = reconcilePersistentVolumeDeletion d hasLister pv.
Proof.
  intros Hne Hvis Ha Hobj. unfold attached_to in Ha.
  destruct (va_PersistentVolumeName va) as [n|] eqn:En; [|done].
  apply andb_true_iff in Ha as [Hd Hn]. apply String.eqb_eq in Hn.
  exists (internalProvisionerPVKeyPrefix +:+ pv_Name pv). split.
  - cbn [on_event]. apply elem_of_app. left.
    unfold enqueueProvisionerPVForVolumeAttachment, volumeAttachmentFromEventObject.
    rewrite Hobj, En, Hd, Hn. cbn [negb]. apply String.eqb_neq in Hne. rewrite Hne. set_solver.
  - unfold reconcileInternalProvisioner. rewrite HasPrefix_app.
    assert (TrimPrefix (internalProvisionerPVKeyPrefix +:+ pv_Name pv) internalProvisionerPVKeyPrefix
            = pv_Name pv) as ->.
    { unfold TrimPrefix. rewrite HasPrefix_app. apply str_drop_app. }
    rewrite TrimSpace_id by done. cbv zeta. pose proof (proj2 (String.eqb_neq _ _) Hne) as ->.
    eexists. split; reflexivity.
Qed.

Definition example_driver : driver := NewDriver "iqn.1993-08.org.debian:01:node" "unix:///csi.sock".
Definition example_src : CSIPersistentVolumeSource :=
  {| csi_Driver := driverName; csi_VolumeHandle := "nfs://srv/share"; csi_FSType := "";
     csi_VolumeAttributes := ∅; ControllerPublishSecretRef := None; NodeStageSecretRef := None;
     NodePublishSecretRef := None; ControllerExpandSecretRef := None |}.
Definition example_pv : PersistentVolume :=
  {| pv_Name := "pvc-1"; pv_ResourceVersion := "7"; pv_Finalizers := [pvProtectionFinalizer];
     pv_Deleting := false; pv_Capacity := 1; pv_AccessModes := []; pv_ReclaimPolicy := ReclaimDelete;
     pv_StorageClassName := "sc"; pv_MountOptions := []; pv_VolumeMode := None; pv_ClaimRef := None;
     pv_CSI := Some example_src; pv_Phase := VolumeReleased |}.
Definition example_va : VolumeAttachment :=
  {| va_Name := "va"; va_ResourceVersion := "9"; va_Finalizers := [vaProtectionFinalizer];
     va_Deleting := true; va_Attacher := driverName; va_NodeName := "node-1";
     va_PersistentVolumeName := Some "pvc-1"; va_Attached := true; va_AttachmentMetadata := ∅ |}.

Lemma attachment_event_wakes_deletion_witness :
  attached_to driverName "pvc-1" example_va = true
  /\ exists key, ToProvisioner key ∈ on_event (fun _ _ => Ok "") example_driver true (Got [])
                   VolumeAttachments Deleted (DeletedFinalStateUnknown (VAObject example_va))
     /\ exists k, reconcileInternalProvisioner (fun _ => Panicked) example_driver true key
                  = Do (E := agent_service) (Kube (ListedPersistentVolume "pvc-1")) k
        /\ k (Got example_pv) = reconcilePersistentVolumeDeletion example_driver true example_pv.
Proof.
  split; [vm_compute; reflexivity|].
  exact (attachment_event_wakes_deletion example_driver example_pv example_va (fun _ _ => Ok "")
           (fun _ => Panicked) true true (Got []) Deleted
           (DeletedFinalStateUnknown (VAObject example_va))
           ltac:(discriminate) ltac:(vm_compute; reflexivity) ltac:(vm_compute; reflexivity) eq_refl).
Defined.

(** ** Workers *)

(** The key in hand, and whether it was put back or forgotten. *)
Definition worker_allowed (s : option (string * bool)) (o : worker_op) : Prop :=
  match o, s with
  | QueueGet, None => True
  | (Reconciling _ | ContextLive), Some (_, false) => True
  | (QueueAddRateLimited k | QueueForget k), Some (key, false) => k = key
  | QueueDone k, Some (key, true) => k = key
  | _, _ => False
  end.
Definition worker_monitor : monitor worker_service (option (string * bool)) :=
  Monitor worker_service (option (string * bool)) worker_allowed (fun _ _ _ => True)
    (fun s o => match o return worker_resp o -> _ with
                | QueueGet => fun r => match r with Some key => Some (key, false) | None => None end
                | QueueAddRateLimited k | QueueForget k => fun _ => Some (k, true)
                | QueueDone _ => fun _ => None
                | _ => fun _ => s
                end).

Lemma reconciling_safe {A} (p : agent A) key :
  safe worker_monitor (Some (key, false)) (reconciling p) (fun _ s => s = Some (key, false)).
Proof.
  induction p as [a|o k IH]; cbn; [done|]. split; [done|]. intros r _. apply IH.
Qed.

Lemma process_safe reconcile key :
  safe worker_monitor (Some (key, false)) (process reconcile key)
    (fun r s => r <> Panicked -> r = Ok tt /\ s = None).
Proof.
  unfold process, catch. apply safe_prog_bind. eapply safe_mono; [apply reconciling_safe|].
  intros [[]|e|] s ->; [| |done]; cbn.
  - by repeat (split; [done|]; intros [] _).
  - split; [done|]. intros [|] _; cbn; by repeat (split; [done|]; intros [] _).
Qed.

(** A worker handles one key at a time; unless a reconciliation panics, each is put
    back or forgotten, once, and then done, before the next is taken. *)
Lemma run_worker_safe reconcile fuel :
  safe worker_monitor None (run_worker fuel reconcile)
    (fun r s => r <> Panicked -> s = None /\ exists b, r = Ok b).
Proof.
  induction fuel as [|fuel IH]; [cbn; by eauto|]. cbn [run_worker]. apply safe_bind. cbn.
  split; [done|]. intros [key|] _; [|cbn; by eauto]. apply safe_bind.
  eapply safe_mono; [apply process_safe|]. intros [[]|e|] s Hs; [|by destruct Hs|done].
  by destruct (Hs ltac:(done)) as [_ ->].
Qed.

(** ** Where the reconcilers do less than they mean to *)

(** An API server that does what it is asked, but whose answer to a creation is
    lost; a controller service that makes and deletes volumes. *)
Record small_world := { w_objects : list PersistentVolume; w_deleted : list string }.
Definition example_volume : Volume :=
  {| VolumeId := "nfs://srv/share"; vCapacityBytes := 1; VolumeContext := ∅; ContentSource := None |}.
Definition example_class : StorageClass :=
  {| sc_Name := "sc"; sc_Provisioner := driverName; sc_Parameters := ∅; sc_ReclaimPolicy := None;
     sc_MountOptions := []; sc_VolumeBindingMode := None |}.
Definition example_claim : PersistentVolumeClaim :=
  {| pvc_Namespace := "ns"; pvc_Name := "data"; pvc_UID := "1"; pvc_Deleting := false;
     pvc_Annotations := ∅; pvc_VolumeName := ""; pvc_StorageClassName := Some "sc";
     pvc_VolumeMode := None; pvc_AccessModes := []; pvc_Requests := None; pvc_DataSource := None;
     pvc_DataSourceRef := None |}.
Definition small_kube (answer : api unit) (o : kube_op) (w : small_world)
  : api (kube_result o) * small_world :=
  match o with
  | GetStorageClass _ => (Got example_class, w)
  | CreatePersistentVolume pv => (answer, {| w_objects := pv :: w_objects w; w_deleted := w_deleted w |})
  | ListedPersistentVolume _ => (Got example_pv, w)
  | _ => (ApiErr ApiNotFound, w)
  end.
Definition small_handler (answer : api unit) : handler agent_service small_world :=
  fun o w =>
    match o return agent_resp o * small_world with
    | Kube o => small_kube answer o w
    | Rpc (CallCreateVolume _ _ _ _ _ _) => (Ok example_volume, w)
    | Rpc (CallControllerPublishVolume _ _ _ _ _) => (Ok ∅, w)
    | Rpc (CallDeleteVolume id) =>
        (Ok tt, {| w_objects := w_objects w; w_deleted := id :: w_deleted w |})
    | Rpc (CallControllerUnpublishVolume _ _) => (Ok tt, w)
    end.
Definition empty_world : small_world := {| w_objects := []; w_deleted := [] |}.

(** Without a failure the object is written and nothing is deleted. *)
Example claim_provisioned :
  let '(r, w, _) := run (small_handler (Got tt)) (reconcilePersistentVolumeClaim example_driver example_claim)
                      empty_world in
  r = Ok tt /\ map pv_Name (w_objects w) = ["pvc-1"] /\ w_deleted w = [].
Proof. vm_compute. auto. Qed.

(** The object exists and its volume has been deleted: an error of the API, which may
    be a lost answer, is taken to mean that nothing was written. *)
Example lost_answer_deletes_volume :
  let '(r, w, _) := run (small_handler (ApiErr ApiOther))
                      (reconcilePersistentVolumeClaim example_driver example_claim) empty_world in
  is_Ok r = false /\ map (fun pv => csi_VolumeHandle <$> pv_CSI pv) (w_objects w) = [Some "nfs://srv/share"]
  /\ w_deleted w = ["nfs://srv/share"].
Proof. vm_compute. auto. Qed.

(** The attachment of a node whose CSINode is gone is not unpublished, ever. *)
Example gone_node_keeps_access :
  let '(r, _, log) := run (small_handler (Got tt))
                        (reconcileVolumeAttachment example_driver true example_va) empty_world in
  is_Ok r = false /\ log = [Kube (ListedPersistentVolume "pvc-1"); Kube (ListedCSINode "node-1")].
Proof. vm_compute. auto. Qed.

(** The content source that the provisioner makes for a cloned claim is one that the
    controller service refuses. *)
Lemma clone_refused (d : driver) name bytes caps params secrets id :
  only (E := backend) (fun _ => False)
    (run_rpc d (CallCreateVolume name bytes caps params secrets (Some (SourceClone id))))
  /\ safe (E := backend) (every (fun _ => True)) tt
       (run_rpc d (CallCreateVolume name bytes caps params secrets (Some (SourceClone id))))
       (fun r _ => is_Ok r = false).
Proof.
  cbn [run_rpc]. unfold CreateVolume. cbn [cr_Name cr_VolumeCapabilities cr_Parameters cr_ContentSource].
  destruct (_ == _); [done|]. destruct (map vc_AccessMode caps) as [|m l]; [done|]. cbv zeta.
  destruct (protocolFromParams _ params) as [p|e|]; [|done..]. unfold mbind, go_bind. cbn [lift prog_bind].
  by destruct (negb _).
Qed.

(** ** Start *)

(** The handlers that are registered, whether the caches are filled, whether the
    process has ended. *)
Record starting_state := { handlers : list informer; synced : bool; stopped : bool }.
Definition starting_allowed (d : driver) (cfg : InternalKubernetesConfig) (s : starting_state)
  (o : agent_start) : Prop :=
  stopped s = false
  /\ match o with
     | StartInformers resync =>
         0 < resync /\ handlers s = [CSINodes; VolumeAttachments; PersistentVolumeClaims; PersistentVolumes]
     | GoProvisioner => mode d = DriverModeController /\ synced s = true
     | GoAttacher => mode d = DriverModeController /\ synced s = true /\ ControllerPublish cfg = true
     | ServeRegistration n e =>
         mode d = DriverModeNode /\ n = name d /\ e = TrimSpace (KubeletRegistrationPath cfg) /\ e <> ""
     | StartHealthServer port => 0 < port
     | _ => True
     end.
Definition starting_step (s : starting_state) (o : agent_start) : start_resp o -> starting_state :=
  match o with
  | AddEventHandler i => fun added : bool =>
      {| handlers := if added then i :: handlers s else handlers s; synced := synced s; stopped := stopped s |}
  | WaitForCacheSync => fun r : bool => {| handlers := handlers s; synced := r; stopped := stopped s |}
  | AgentFatalf _ => fun _ => {| handlers := handlers s; synced := synced s; stopped := true |}
  | _ => fun _ => s
  end.
Definition starting_monitor d cfg : monitor start_service starting_state :=
  Monitor start_service starting_state (starting_allowed d cfg) (fun _ _ _ => True) starting_step.
Definition not_started : starting_state := {| handlers := []; synced := false; stopped := false |}.

Ltac start_steps :=
  repeat (cbn; intros;
          match goal with
          | |- _ /\ _ => split
          | r : bool |- _ => destruct r
          | |- starting_allowed _ _ _ _ => split
          | |- context [match ?r with Ok _ => _ | _ => _ end] => is_var r; destruct r as [|[| |[] ]|]
          | |- _ => done
          end).

Lemma startReconcilers_safe (d : driver) (cfg cfg' : InternalKubernetesConfig) :
  mode d = DriverModeController -> 0 < ResyncPeriod cfg' ->
  ControllerPublish cfg' = ControllerPublish cfg ->
  safe (starting_monitor d cfg) not_started (startInternalControllerReconcilers cfg') (fun _ _ => True).
Proof.
  destruct cfg' as [e p port path resync]. intros Hm Hr Hp. cbn in Hr, Hp.
  unfold startInternalControllerReconcilers. destruct p; start_steps.
Qed.

(** The workers run only in controller mode, on caches that are filled by informers
    whose handlers are all there; the registrar serves only in node mode, with the
    path that was configured; nothing follows a fatal error. *)
Lemma startInternalKubernetes_safe (d : driver) (cfg : InternalKubernetesConfig) :
  safe (starting_monitor d cfg) not_started (startInternalKubernetes d cfg) (fun _ _ => True).
Proof.
  unfold startInternalKubernetes. cbv zeta. destruct (negb _); [done|].
  assert (0 < ResyncPeriod (internal_withDefaults cfg (mode d))) as Hresync.
  { cbn. destruct (Z.leb_spec (ResyncPeriod cfg) 0); [done|lia]. }
  set (port := LivenessPort (internal_withDefaults cfg (mode d))).
  apply safe_bind. apply (safe_mono _ _ _ (fun r s => r = Ok tt /\ s = not_started)).
  { destruct (Z.ltb_spec 0 port); [|done].
    cbn. split; [done|]. by intros [] _. }
  intros ? ? [-> ->].
  destruct (String.eqb_spec (mode d) DriverModeController) as [Em|_].
  { apply safe_bind. split; [done|]. intros r _. assert (exists b, r = b) as [[|] ->] by (by exists r).
    - exact (startReconcilers_safe d cfg _ Em Hresync eq_refl).
    - start_steps. }
  destruct (String.eqb_spec (mode d) DriverModeNode) as [Em|_]; [|done].
  unfold startInternalNodeRegistrar. cbn [KubeletRegistrationPath internal_withDefaults].
  destruct (String.eqb_spec (TrimSpace (KubeletRegistrationPath cfg)) "") as [|He]; [start_steps|].
  start_steps.
Qed.
