(* ===== verification/GoQuote.v ===== *)
(** * Go's [strconv.Quote], the [%q] of a log message

    [IsPrint] says which runes above U+00FF are printable: the Unicode tables of
    [strconv] are not written out. *)
From S2P Require Import Prelude GoStrings GoJson.

Definition hex2 (n : N) : string :=
  String (hex_digit (N.modulo (n / 16) 16)) (String (hex_digit (N.modulo n 16)) "").
Definition hex4_text (n : N) : string := hex2 (n / 256) +:+ hex2 (N.modulo n 256).

Definition quoted_rune (IsPrint : N -> bool) (r : N) : string :=
  let printable :=
    if N.leb r 255 then
      ((N.leb 32 r && N.ltb r 127) || (N.leb 161 r && negb (N.eqb r 173)))%bool
    else IsPrint r in
  if (N.eqb r 34 || N.eqb r 92)%bool then esc2 (byte_of r)
  else if printable then EncodeRune r
  else if N.eqb r 7 then esc2 "a"
  else if N.eqb r 8 then esc2 "b"
  else if N.eqb r 12 then esc2 "f"
  else if N.eqb r 10 then esc2 "n"
  else if N.eqb r 13 then esc2 "r"
  else if N.eqb r 9 then esc2 "t"
  else if N.eqb r 11 then esc2 "v"
  else if (N.ltb r 32 || N.eqb r 127)%bool then esc2 "x" +:+ hex2 r
  else if N.ltb r 65536 then esc2 "u" +:+ hex4_text r
  else esc2 "U" +:+ hex4_text (r / 65536) +:+ hex4_text (N.modulo r 65536).

(** An invalid byte is written in hexadecimal. *)
Fixpoint quote_body_from (IsPrint : N -> bool) (fuel : nat) (s : string) : string :=
  match fuel, s with
  | S fuel, String c s' =>
      match DecodeRune s with
      | Some (r, rest) =>
          if (N.eqb r RuneError && Nat.eqb (String.length rest) (String.length s'))%bool
          then esc2 "x" +:+ hex2 (code c) +:+ quote_body_from IsPrint fuel rest
          else quoted_rune IsPrint r +:+ quote_body_from IsPrint fuel rest
      | None => ""
      end
  | _, _ => ""
  end.
Definition Quote (IsPrint : N -> bool) (s : string) : string :=
  String quote_mark (quote_body_from IsPrint (String.length s) s +:+ String quote_mark "").

Example Quote_examples :
  map (Quote (fun _ => false))
    ["a b"; String quote_mark "\"; String (byte_of 10) (String (byte_of 1) (String (byte_of 255) ""));
     EncodeRune 233; EncodeRune 8217]
  = map (fun s => String quote_mark (s +:+ String quote_mark ""))
      ["a b"; "\" +:+ String quote_mark "\\"; "\n\x01\xff"; EncodeRune 233; "\u2019"].
Proof. vm_compute. reflexivity. Qed.
