(* ===== verification/Logging.v ===== *)
(** * The logging back end ([pkg/iscsi/logging_backend.go])

    A back end that writes a line before and after each call of the one it wraps,
    and what may stand in a line. *)
From S2P Require Import Prelude GoStrings GoStrconv GoQuote VolumeID VolumeTypes Params Prog Backend.
From S2P Require Import NodeParams.

(** ** Fields of a line *)

(** The values that are logged, of type [any]. *)
Inductive any := AnyString (s : string) | AnyStrings (l : list string) | AnyInt (z : Z) | AnyBool (b : bool).

(** [fmt.Sprint]. *)
Definition Sprint (a : any) : string :=
  match a with
  | AnyString s => s
  | AnyStrings l => "[" +:+ Join l " " +:+ "]"
  | AnyInt z => Itoa z
  | AnyBool b => if b then "true" else "false"
  end.

Definition isSensitiveLogKey (key : string) : bool :=
  existsb (Contains (ToLower key)) ["password"; "secret"; "token"].

Section format.
Context (IsPrint : N -> bool).

Definition safeLogValue (key : string) (value : any) : string :=
  if isSensitiveLogKey key then "<redacted>"
  else match value with
       | AnyString s => Quote IsPrint s
       | AnyStrings l => "[" +:+ Join (map (Quote IsPrint) l) " " +:+ "]"
       | v => Sprint v
       end.

(** Keys and values alternate; a key without a value is logged as missing. *)
Fixpoint safeLogKV (fields : list any) : string :=
  match fields with
  | [] => ""
  | [key] => " " +:+ Sprint key +:+ "=<missing>"
  | key :: value :: rest =>
      " " +:+ Sprint key +:+ "=" +:+ safeLogValue (Sprint key) value +:+ safeLogKV rest
  end.

Inductive severity := Info | Warning.

Definition debugActionStart (action : string) (fields : list any) : severity * string :=
  (Info, "controller debug action start: " +:+ action +:+ safeLogKV fields).

(** [err] is the text of the error, if there is one. *)
Definition debugActionDone (action : string) (err : option string) (fields : list any)
  : severity * string :=
  match err with
  | Some text =>
      (Warning, "controller debug action failed: " +:+ action +:+ safeLogKV fields +:+ " error=" +:+ text)
  | None => (Info, "controller debug action completed: " +:+ action +:+ safeLogKV fields)
  end.

(** ** The methods *)

Definition kv_s (k v : string) : list any := [AnyString k; AnyString v].
Definition kv_l (k : string) (v : list string) : list any := [AnyString k; AnyStrings v].
Definition kv_z (k : string) (v : Z) : list any := [AnyString k; AnyInt v].
Definition kv_b (k : string) (v : bool) : list any := [AnyString k; AnyBool v].

Definition action_of (o : backend_op) : string :=
  match o with
  | EnsureTarget _ _ => "EnsureTarget"
  | ConfigureTargetChap _ _ => "ConfigureTargetChap"
  | CreateVirtualDisk _ _ _ => "CreateVirtualDisk"
  | MapDiskToTarget _ _ => "MapDiskToTarget"
  | UnmapDiskFromTarget _ _ => "UnmapDiskFromTarget"
  | DeleteVirtualDisk _ => "DeleteVirtualDisk"
  | LookupTargetNameByIQN _ => "LookupTargetNameByIQN"
  | DeleteTarget _ => "DeleteTarget"
  | GetVolumeByName _ _ => "GetVolumeByName"
  | AllowInitiator _ _ => "AllowInitiator"
  | DenyInitiator _ _ => "DenyInitiator"
  | GetDirectoryFreeCapacity _ => "GetDirectoryFreeCapacity"
  | CreateSnapshot _ _ => "CreateSnapshot"
  | DeleteSnapshot _ => "DeleteSnapshot"
  | ListSnapshots _ => "ListSnapshots"
  | ExportSnapshotAsVirtualDisk _ => "ExportSnapshotAsVirtualDisk"
  | ResizeVirtualDisk _ _ => "ResizeVirtualDisk"
  | GetVolumeInfo _ => "GetVolumeInfo"
  | GetTargetInitiators _ => "GetTargetInitiators"
  | CreateNfsShare _ _ _ _ _ => "CreateNfsShare"
  | GetNfsShare _ _ => "GetNfsShare"
  | DeleteNfsShare _ _ => "DeleteNfsShare"
  | CreateSmbShare _ _ _ _ _ _ _ => "CreateSmbShare"
  | GetSmbShare _ _ => "GetSmbShare"
  | DeleteSmbShare _ _ => "DeleteSmbShare"
  | ResizeFileShare _ _ => "ResizeFileShare"
  | RestoreSnapshotAsFileShare _ _ => "RestoreSnapshotAsFileShare"
  | MountFileShareVirtualDisk _ _ => "MountFileShareVirtualDisk"
  | UnmountFileShareVirtualDisk _ _ => "UnmountFileShareVirtualDisk"
  end.

(** What a method logs before the call. *)
Definition start_fields (o : backend_op) : list any :=
  match o with
  | EnsureTarget n iqn => kv_s "targetName" n ++ kv_s "targetIQN" iqn
  | ConfigureTargetChap n opts =>
      kv_s "targetName" n ++ kv_b "chapEnabled" (Enabled opts) ++ kv_s "chapUser" (ChapUser opts)
      ++ kv_s "reverseChapUser" (ReverseChapUser opts)
  | CreateVirtualDisk n dir size => kv_s "name" n ++ kv_s "parentDir" dir ++ kv_z "sizeBytes" size
  | MapDiskToTarget n p | UnmapDiskFromTarget n p => kv_s "targetName" n ++ kv_s "vhdxPath" p
  | DeleteVirtualDisk p | ListSnapshots p | GetVolumeInfo p => kv_s "vhdxPath" p
  | LookupTargetNameByIQN iqn => kv_s "targetIQN" iqn
  | DeleteTarget n | GetTargetInitiators n => kv_s "targetName" n
  | GetVolumeByName n dir | GetNfsShare n dir | GetSmbShare n dir => kv_s "name" n ++ kv_s "parentDir" dir
  | AllowInitiator n i | DenyInitiator n i => kv_s "targetName" n ++ kv_s "initiatorIQN" i
  | GetDirectoryFreeCapacity dir => kv_s "parentDir" dir
  | CreateSnapshot p desc => kv_s "vhdxPath" p ++ kv_s "description" desc
  | DeleteSnapshot id | ExportSnapshotAsVirtualDisk id => kv_s "snapshotID" id
  | ResizeVirtualDisk p size => kv_s "vhdxPath" p ++ kv_z "newSizeBytes" size
  | CreateNfsShare n dir size clients _ =>
      kv_s "name" n ++ kv_s "parentDir" dir ++ kv_z "sizeBytes" size ++ kv_l "clients" clients
  | DeleteNfsShare n p | DeleteSmbShare n p => kv_s "name" n ++ kv_s "path" p
  | CreateSmbShare n dir size full change read _ =>
      kv_s "name" n ++ kv_s "parentDir" dir ++ kv_z "sizeBytes" size ++ kv_l "fullAccess" full
      ++ kv_l "changeAccess" change ++ kv_l "readAccess" read
  | ResizeFileShare p size => kv_s "path" p ++ kv_z "newSizeBytes" size
  | RestoreSnapshotAsFileShare id p => kv_s "snapshotID" id ++ kv_s "destinationPath" p
  | MountFileShareVirtualDisk p mnt | UnmountFileShareVirtualDisk p mnt =>
      kv_s "vhdxPath" p ++ kv_s "mountPath" mnt
  end.

(** What it logs after the call, with the values the call returned. *)
Definition done_fields (o : backend_op) : backend_result o -> list any :=
  match o with
  | EnsureTarget n _ => fun iqn => kv_s "targetName" n ++ kv_s "actualTargetIQN" iqn
  | ConfigureTargetChap n _ => fun _ => kv_s "targetName" n
  | CreateVirtualDisk n _ _ => fun '(p, size) =>
      kv_s "name" n ++ kv_s "vhdxPath" p ++ kv_z "actualSizeBytes" size
  | MapDiskToTarget n p => fun lun => kv_s "targetName" n ++ kv_s "vhdxPath" p ++ kv_z "lun" lun
  | UnmapDiskFromTarget n p => fun _ => kv_s "targetName" n ++ kv_s "vhdxPath" p
  | DeleteVirtualDisk p => fun _ => kv_s "vhdxPath" p
  | LookupTargetNameByIQN iqn => fun n => kv_s "targetIQN" iqn ++ kv_s "targetName" n
  | DeleteTarget n => fun _ => kv_s "targetName" n
  | GetVolumeByName n _ => fun v =>
      kv_s "name" n ++ kv_b "exists" (fv_exists v) ++ kv_s "vhdxPath" (fv_vhdxPath v)
      ++ kv_z "sizeBytes" (fv_sizeBytes v) ++ kv_s "targetName" (fv_targetName v)
      ++ kv_s "targetIQN" (fv_targetIQN v) ++ kv_z "lun" (fv_lun v)
  | AllowInitiator n i | DenyInitiator n i => fun _ => kv_s "targetName" n ++ kv_s "initiatorIQN" i
  | GetDirectoryFreeCapacity dir => fun free => kv_s "parentDir" dir ++ kv_z "freeBytes" free
  | CreateSnapshot p _ => fun s =>
      kv_s "vhdxPath" p ++ kv_s "snapshotID" (SnapshotID s) ++ kv_z "sizeBytes" (sSizeBytes s)
  | DeleteSnapshot id => fun _ => kv_s "snapshotID" id
  | ListSnapshots p => fun l => kv_s "vhdxPath" p ++ kv_z "count" (Z.of_nat (length l))
  | ExportSnapshotAsVirtualDisk id => fun p => kv_s "snapshotID" id ++ kv_s "vhdxPath" p
  | ResizeVirtualDisk p _ => fun size => kv_s "vhdxPath" p ++ kv_z "actualSizeBytes" size
  | GetVolumeInfo p => fun i =>
      kv_s "vhdxPath" p ++ kv_z "sizeBytes" (iSizeBytes i) ++ kv_s "targetName" (iTargetName i)
      ++ kv_s "targetIQN" (iTargetIQN i)
  | GetTargetInitiators n => fun l => kv_s "targetName" n ++ kv_l "initiators" l
  | CreateNfsShare n _ _ _ _ => fun i =>
      kv_s "name" n ++ kv_s "server" (iNfsServer i) ++ kv_s "exportPath" (iNfsExportPath i)
      ++ kv_s "sharePath" (iSharePath i) ++ kv_z "capacityBytes" (iCapacityBytes i)
  | GetNfsShare n _ => fun '(found, i) =>
      kv_s "name" n ++ kv_b "exists" found ++ kv_s "server" (iNfsServer i)
      ++ kv_s "exportPath" (iNfsExportPath i) ++ kv_s "sharePath" (iSharePath i)
  | DeleteNfsShare n p | DeleteSmbShare n p => fun _ => kv_s "name" n ++ kv_s "path" p
  | CreateSmbShare n _ _ _ _ _ _ => fun i =>
      kv_s "name" n ++ kv_s "server" (iSmbServer i) ++ kv_s "share" (iSmbShareName i)
      ++ kv_s "sharePath" (iSharePath i) ++ kv_z "capacityBytes" (iCapacityBytes i)
  | GetSmbShare n _ => fun '(found, i) =>
      kv_s "name" n ++ kv_b "exists" found ++ kv_s "server" (iSmbServer i)
      ++ kv_s "share" (iSmbShareName i) ++ kv_s "sharePath" (iSharePath i)
  | ResizeFileShare p _ => fun size => kv_s "path" p ++ kv_z "actualSizeBytes" size
  | RestoreSnapshotAsFileShare id p => fun _ => kv_s "snapshotID" id ++ kv_s "destinationPath" p
  | MountFileShareVirtualDisk p mnt | UnmountFileShareVirtualDisk p mnt => fun _ =>
      kv_s "vhdxPath" p ++ kv_s "mountPath" mnt
  end.

(** A line of the log, or a call of the wrapped back end, which answers with the
    values of the method and the text of its error. *)
Inductive logged_op := Line (line : severity * string) | Inner (o : backend_op).
Definition logged_resp (o : logged_op) : Type :=
  match o with Line _ => unit | Inner o => returned (backend_result o) * string end.
Definition logged : service := Service logged_op logged_resp.

Definition error_of {A} (r : returned A * string) : option string :=
  if failed r.1 then Some r.2 else None.

(** The methods of [loggingBackend]. *)
Definition loggingBackend (o : backend_op) : prog logged (returned (backend_result o)) :=
  Do (E := logged) (Line (debugActionStart (action_of o) (start_fields o))) (fun _ =>
  Do (E := logged) (Inner o) (fun r =>
  Do (E := logged) (Line (debugActionDone (action_of o) (error_of r) (done_fields o (value r.1))))
    (fun _ => Ret r.1))).

(** A program whose back end is wrapped. *)
Definition wrapBackendForDebug {A} (p : prog backend A) : prog logged A :=
  interp (E := backend) loggingBackend p.

(** ** Transparency *)

(** The wrapped back end under the log, with the texts of its errors. *)
Definition under_log {S} (h : handler backend S) (text : backend_op -> S -> string)
  : handler logged S :=
  fun o s => match o return logged_resp o * S with
             | Line _ => (tt, s)
             | Inner o => let '(r, s') := h o s in ((r, text o s), s')
             end.

Definition inner_requests (log : list logged_op) : list backend_op :=
  omap (fun o => match o with Inner o => Some o | Line _ => None end) log.
Definition log_lines (log : list logged_op) : list (severity * string) :=
  omap (fun o => match o with Line l => Some l | Inner _ => None end) log.

(** The lines of a run, from its requests and their answers. *)
Fixpoint lines_of {S A} (h : handler backend S) (text : backend_op -> S -> string)
  (p : prog backend A) (s : S) : list (severity * string) :=
  match p with
  | Ret _ => []
  | Do o k =>
      let '(r, s') := h o s in
      debugActionStart (action_of o) (start_fields o)
      :: debugActionDone (action_of o) (error_of (r, text o s)) (done_fields o (value r))
      :: lines_of h text (k r) s'
  end.

Lemma run_line {S A} (h : handler backend S) text (l : severity * string)
  (k : unit -> prog logged A) s :
  run (under_log h text) (Do (E := logged) (Line l) k) s =
  let '(a, s', log) := run (under_log h text) (k tt) s in (a, s', Line l :: log).
Proof. done. Qed.
Lemma run_inner {S A} (h : handler backend S) text (o : backend_op)
  (k : logged_resp (Inner o) -> prog logged A) s r s1 :
  h o s = (r, s1) ->
  run (under_log h text) (Do (E := logged) (Inner o) k) s =
  let '(a, s', log) := run (under_log h text) (k (r, text o s)) s1 in (a, s', Inner o :: log).
Proof. intros E. cbn [run under_log]. by rewrite E. Qed.
Lemma run_logging {S A} (h : handler backend S) text (o : backend_op)
  (k : returned (backend_result o) -> prog logged A) s r s1 :
  h o s = (r, s1) ->
  run (under_log h text) (prog_bind (loggingBackend o) k) s =
  let '(a, s', log) := run (under_log h text) (k r) s1 in
  (a, s', Line (debugActionStart (action_of o) (start_fields o)) :: Inner o
          :: Line (debugActionDone (action_of o) (error_of (r, text o s)) (done_fields o (value r))) :: log).
Proof.
  intros E. unfold loggingBackend. cbn [prog_bind].
  rewrite run_line, (run_inner h text o _ s r s1 E), run_line. cbn [fst].
  by destruct (run _ (k r) s1) as [[a s'] log].
Qed.
Lemma wrap_run {S A} (h : handler backend S) (text : backend_op -> S -> string)
  (p : prog backend A) (s : S) :
  let '(a, s', log) := run h p s in
  exists log', run (under_log h text) (wrapBackendForDebug p) s = (a, s', log')
    /\ inner_requests log' = log /\ log_lines log' = lines_of h text p s.
Proof.
  revert s. induction p as [a|o k IH]; intros s; [by exists []|].
  cbn [run lines_of]. destruct (h o s) as [r s1] eqn:E. specialize (IH r s1).
  destruct (run h (k r) s1) as [[a s2] log]. destruct IH as (log' & Hrun & Hin & Hl).
  unfold wrapBackendForDebug in *. cbn [interp]. rewrite (run_logging h text o _ s r s1 E), Hrun.
  eexists. split; [done|]. cbn [inner_requests log_lines omap list_omap].
  unfold inner_requests in Hin. unfold log_lines in Hl. by rewrite Hin, Hl.
Qed.

(** The lines of a call of [ConfigureTargetChap] show no secret. *)
Definition same_but_secrets (o1 o2 : TargetChapOptions) : Prop :=
  ChapUser o1 = ChapUser o2 /\ ReverseChapUser o1 = ReverseChapUser o2 /\ Enabled o1 = Enabled o2.
Definition indistinguishable (o1 o2 : backend_op) : Prop :=
  o1 = o2 \/ exists n c1 c2, o1 = ConfigureTargetChap n c1 /\ o2 = ConfigureTargetChap n c2
                             /\ same_but_secrets c1 c2.

#[export] Instance indistinguishable_equiv : Equivalence indistinguishable.
Proof.
  split.
  - by left.
  - intros a b [->|(n & c1 & c2 & -> & -> & H1 & H2 & H3)]; [by left|].
    right. exists n, c2, c1. by split_and!.
  - intros a b c [->|(n & c1 & c2 & -> & -> & H1 & H2 & H3)]; [done|].
    intros [<-|(n' & c3 & c4 & [= <- <-] & -> & H4 & H5 & H6)]; right; [by exists n, c1, c2|].
    exists n, c1, c4. split_and!; try done. unfold same_but_secrets. split_and!; congruence.
Qed.

Lemma indistinguishable_start o1 o2 :
  indistinguishable o1 o2 ->
  debugActionStart (action_of o1) (start_fields o1) = debugActionStart (action_of o2) (start_fields o2).
Proof.
  intros [->|(n & c1 & c2 & -> & -> & H1 & H2 & H3)]; [done|]. cbn. by rewrite H1, H2, H3.
Qed.

(** C27: wrapping the back end changes nothing but the log: every program gets the
    same result from the same requests, in the same order, with a line before and
    after each; and the lines of a call are the same whatever the CHAP secrets in it
    are, so that they reveal none of them (the text of an error is the back end's). *)
Theorem loggingBackend_transparent {S A} (h : handler backend S) (text : backend_op -> S -> string)
  (p : prog backend A) (s : S) :
  (let '(a, s', log) := run h p s in
   exists log', run (under_log h text) (wrapBackendForDebug p) s = (a, s', log')
     /\ inner_requests log' = log /\ log_lines log' = lines_of h text p s)
  /\ forall n c1 c2 (r : returned unit * string), same_but_secrets c1 c2 ->
       debugActionStart (action_of (ConfigureTargetChap n c1)) (start_fields (ConfigureTargetChap n c1))
       = debugActionStart (action_of (ConfigureTargetChap n c2)) (start_fields (ConfigureTargetChap n c2))
       /\ done_fields (ConfigureTargetChap n c1) (value r.1) = done_fields (ConfigureTargetChap n c2) (value r.1).
Proof.
  split; [apply wrap_run|]. intros n c1 c2 r H. split; [|done].
  apply indistinguishable_start. right. by exists n, c1, c2.
Qed.

End format.

(** ** Mount options *)

Definition sanitize_option (includeUsername : bool) (opt : string) : string :=
  let trimmed := TrimSpace opt in
  let lower := ToLower trimmed in
  let key := let '(key, _, _) := CutByte trimmed "=" in key in
  if existsb (HasPrefix lower) ["password="; "pass="; "credentials="; "credential="]
  then key +:+ "=<redacted>"
  else if existsb (HasPrefix lower) ["username="; "user="] then
    if includeUsername then trimmed else key +:+ "=<redacted>"
  else trimmed.
Definition sanitizeMountOptionsForLogWithUsername (opts : list string) (includeUsername : bool)
  : list string := map (sanitize_option includeUsername) opts.
Definition sanitizeMountOptionsForLog (opts : list string) : list string :=
  sanitizeMountOptionsForLogWithUsername opts false.
Definition sanitizeMountOptionsForDebugLog (opts : list string) : list string :=
  sanitizeMountOptionsForLogWithUsername opts true.

Example sanitize_examples :
  sanitizeMountOptionsForLog [" ro "; "Password=p=q"; "user=me"; "credentials=/etc/c"; "vers=3"]
    = ["ro"; "Password=<redacted>"; "user=<redacted>"; "credentials=<redacted>"; "vers=3"]
  /\ sanitizeMountOptionsForDebugLog ["username=me"; "pass=x"] = ["username=me"; "pass=<redacted>"].
Proof. vm_compute. auto. Qed.

(** An option that the node takes for a secret is logged as it is when there is a
    blank before the equals sign. *)
Example blank_reveals_password :
  isSensitiveMountOption "password =x" = true
  /\ sanitizeMountOptionsForLog ["password =x"] = ["password =x"].
Proof. vm_compute. auto. Qed.
