(* ===== verification/GoDuration.v ===== *)
(** * Go's [time.ParseDuration]

    Durations are in nanoseconds.  A fraction of a unit is computed in [float64]
    as in Go, with the binary64 operations of [SpecFloat]. *)
From Corelib Require Import SpecFloat.
From S2P Require Import Prelude GoStrings.

(** ** [float64] *)

Definition float_of_Z (z : Z) : spec_float := binary_normalize 53 1024 z 0 false.
Definition float_mul : spec_float -> spec_float -> spec_float := SFmul 53 1024.
Definition float_div : spec_float -> spec_float -> spec_float := SFdiv 53 1024.
(** [uint64(x)] of a number that is not negative. *)
Definition Z_of_float (x : spec_float) : Z :=
  match x with S754_finite _ m e => Z.shiftl (Zpos m) e | _ => 0 end.

(** ** Digits *)

Definition digit_value (c : ascii) : Z := Z.of_N (code c) - 48.

(** [leadingInt]: the leading digits, an overflow being an error. *)
Fixpoint leadingInt (x : Z) (s : string) : option (Z * string) :=
  match s with
  | String c s' =>
      if is_digit c then
        if (2 ^ 63 / 10 <? x)%Z then None
        else let x := (x * 10 + digit_value c)%Z in
             if (2 ^ 63 <? x)%Z then None else leadingInt x s'
      else Some (x, s)
  | EmptyString => Some (x, s)
  end.

(** [leadingFraction]: digits that overflow are dropped. *)
Fixpoint leadingFraction (x : Z) (scale : spec_float) (overflow : bool) (s : string)
  : Z * spec_float * string :=
  match s with
  | String c s' =>
      if is_digit c then
        if overflow then leadingFraction x scale true s'
        else if ((2 ^ 63 - 1) / 10 <? x)%Z then leadingFraction x scale true s'
        else let y := (x * 10 + digit_value c)%Z in
             if (2 ^ 63 <? y)%Z then leadingFraction x scale true s'
             else leadingFraction y (float_mul scale (float_of_Z 10)) false s'
      else (x, scale, s)
  | EmptyString => (x, scale, s)
  end.

(** The unit up to the next digit or point. *)
Fixpoint span_unit (s : string) : string * string :=
  match s with
  | String c s' =>
      if (is_digit c || (c =b "."))%bool then ("", s)
      else let '(u, rest) := span_unit s' in (String c u, rest)
  | EmptyString => ("", "")
  end.

Definition unit_value (u : string) : option Z :=
  if u == "ns" then Some 1
  else if ((u == "us") || (u == EncodeRune 181 +:+ "s") || (u == EncodeRune 956 +:+ "s"))%bool
  then Some 1000
  else if u == "ms" then Some 1000000
  else if u == "s" then Some 1000000000
  else if u == "m" then Some 60000000000
  else if u == "h" then Some 3600000000000
  else None.

(** One number with its unit, and what follows. *)
Definition duration_term (s : string) : option (Z * string) :=
  match s with
  | EmptyString => None
  | String c _ =>
      if negb (is_digit c || (c =b "."))%bool then None
      else
        match leadingInt 0 s with
        | None => None
        | Some (v, s1) =>
            let pre := negb (Nat.eqb (String.length s) (String.length s1)) in
            let '(f, scale, s2, post) :=
              match s1 with
              | String "."%char s1' =>
                  let '(f, scale, s2) := leadingFraction 0 (float_of_Z 1) false s1' in
                  (f, scale, s2, negb (Nat.eqb (String.length s1') (String.length s2)))
              | _ => (0%Z, float_of_Z 1, s1, false)
              end in
            if negb (pre || post)%bool then None
            else
              let '(u, rest) := span_unit s2 in
              match unit_value u with
              | None => None
              | Some unit =>
                  if (2 ^ 63 / unit <? v)%Z then None
                  else
                    let v := (v * unit)%Z in
                    let v := if (0 <? f)%Z
                             then (v + Z_of_float (float_mul (float_of_Z f) (float_div (float_of_Z unit) scale)))%Z
                             else v in
                    if (2 ^ 63 <? v)%Z then None else Some (v, rest)
              end
        end
  end.

Fixpoint duration_sum (fuel : nat) (d : Z) (s : string) : option Z :=
  match fuel, s with
  | _, EmptyString => Some d
  | O, _ => None
  | S fuel, _ =>
      match duration_term s with
      | None => None
      | Some (v, rest) =>
          let d := ((d + v) mod 2 ^ 64)%Z in
          if (2 ^ 63 <? d)%Z then None else duration_sum fuel d rest
      end
  end.

(** A term is two bytes long at least, so that the length of the text is enough
    fuel. *)
Definition ParseDuration (s : string) : option Z :=
  let '(neg, s) :=
    match s with
    | String "-"%char s' => (true, s')
    | String "+"%char s' => (false, s')
    | _ => (false, s)
    end in
  if s == "0" then Some 0%Z
  else if s == "" then None
  else
    match duration_sum (String.length s) 0 s with
    | None => None
    | Some d => if neg then Some (- d)%Z
                else if (2 ^ 63 - 1 <? d)%Z then None else Some d
    end.

Example ParseDuration_examples :
  map ParseDuration ["60s"; "1.5h"; "-1h30m"; "0"; ".5s"; "1"; ""; "1x"; "2562047h47m16.854775807s";
                     "2562047h47m16.854775808s"; "0.1s"; "1.s"; "3.14us"]
  = [Some 60000000000; Some 5400000000000; Some (-5400000000000); Some 0; Some 500000000; None; None;
     None; Some 9223372036854775807; None; Some 100000000; Some 1000000000; Some 3140].
Proof. vm_compute. reflexivity. Qed.

(** The sum wraps around, as Go's does: two terms of 2^63 ns each are zero. *)
Example ParseDuration_wraps :
  ParseDuration "9223372036854775808ns9223372036854775808ns" = Some 0.
Proof. vm_compute. reflexivity. Qed.

Lemma duration_sum_bounds fuel : forall d s r,
  0 <= d <= 2 ^ 63 -> duration_sum fuel d s = Some r -> 0 <= r <= 2 ^ 63.
Proof.
  induction fuel as [|fuel IH]; intros d s r Hd; destruct s as [|c s]; cbn [duration_sum];
    [intros [= <-]; lia|done|intros [= <-]; lia|].
  destruct (duration_term _) as [[v rest]|]; [|done].
  destruct (Z.ltb_spec (2 ^ 63) ((d + v) mod 2 ^ 64)); [done|]. apply IH.
  pose proof (Z.mod_pos_bound (d + v) (2 ^ 64)). lia.
Qed.
(** A duration that is read fits 64 bits. *)
Lemma ParseDuration_int64 s d : ParseDuration s = Some d -> in_int64 d.
Proof.
  unfold ParseDuration, in_int64.
  set (p := match s with String "-"%char s' => (true, s') | String "+"%char s' => (false, s')
            | _ => (false, s) end).
  destruct p as [neg t]. destruct (t == "0"); [intros [= <-]; lia|]. destruct (t == ""); [done|].
  destruct (duration_sum _ 0 t) as [r|] eqn:E; [|done]. apply duration_sum_bounds in E; [|lia].
  destruct neg; [intros [= <-]; lia|]. destruct (Z.ltb_spec (2 ^ 63 - 1) r); [done|].
  intros [= <-]. lia.
Qed.
