(* ===== verification/Main.v ===== *)
(** * The command ([cmd/csiplugin/main.go])

    The node id, the defaults of the flags, and what [handle] starts with them.
    The flags themselves are parsed by the [flag] package; their values are given. *)
From S2P Require Import Prelude GoStrings GoStrconv GoDuration Params Prog Driver KubeEvents.

(** ** Defaults from the environment *)

Definition envBoolDefault (env : Params) (name : string) (fallback : bool) : bool :=
  let value := TrimSpace (param env name) in
  if value == "" then fallback
  else match ParseBool value with Some parsed => parsed | None => fallback end.

Definition envIntDefault (env : Params) (name : string) (fallback : Z) : Z :=
  let value := TrimSpace (param env name) in
  if value == "" then fallback
  else match Atoi value with Some parsed => parsed | None => fallback end.

Definition envDurationDefault (env : Params) (name : string) (fallback : Z) : Z :=
  let value := TrimSpace (param env name) in
  if value == "" then fallback
  else match ParseDuration value with Some parsed => parsed | None => fallback end.

(** ** The node id *)

Definition trimNodeIDValue (value : string) : string :=
  Trim (TrimSpace value) (String (ascii_of_N 34) "'").

Fixpoint node_id_in (lines : list string) : string :=
  match lines with
  | [] => ""
  | line :: rest =>
      let line := TrimSpace line in
      if ((line == "") || HasPrefix line "#")%bool then node_id_in rest
      else
        let '(key, value, ok) := CutByte line "=" in
        if ok : bool then
          if existsb (fun k => ToLower (TrimSpace key) == k) ["initiatorname"; "nodeid"; "node_id"]
          then trimNodeIDValue value
          else node_id_in rest
        else trimNodeIDValue line
  end.
Definition newline : ascii := ascii_of_N 10.
Definition parseNodeIDContent (content : string) : string := node_id_in (SplitByte content newline).

(** An error that [errors.Is] takes for [errNodeIDNotFound]. *)
Definition errNodeIDNotFound : error := PlainErr "no node id found in %s".

(** [readFile] is [os.ReadFile]. *)
Definition readNodeIDFile (readFile : string -> res string) (path : string) : res string :=
  content ← readFile path;
  let nodeID := parseNodeIDContent content in
  if nodeID != "" then Ok nodeID else Err errNodeIDNotFound.

Definition may_fall_back (e : error) : bool :=
  match e with
  | OsErr NotExist _ => true
  | e => bool_decide (e = errNodeIDNotFound)
  end.

Definition resolveNodeID (readFile : string -> res string)
  (explicitNodeID nodeIDFile0 fallbackNodeID0 : string) : res string :=
  let value := TrimSpace explicitNodeID in
  if value != "" then Ok value
  else
    let fallbackNodeID := TrimSpace fallbackNodeID0 in
    let nodeIDFile := TrimSpace nodeIDFile0 in
    if nodeIDFile == "" then Ok fallbackNodeID
    else
      match readNodeIDFile readFile nodeIDFile with
      | Err e => if ((fallbackNodeID != "") && may_fall_back e)%bool then Ok fallbackNodeID else Err e
      | r => r
      end.

(** ** The flags *)

Record Flags := {
  f_endpoint : string;
  f_nodeID : string;
  f_nodeIDFile : string;
  f_driverName : string;
  f_mode : string;
  f_debug : bool;
  f_kubernetesIntegration : bool;
  f_controllerPublish : bool;
  f_livenessPort : Z;
  f_kubeletRegistrationPath : string;
  f_kubernetesResyncPeriod : Z;
  f_leaderElection : LeaderElectionConfig
}.

(** The values of the flags when none is given on the command line. *)
Definition default_flags (env : Params) : Flags :=
  {| f_endpoint := "unix:///csi/csi.sock";
     f_nodeID := param env "CSI_NODE_ID";
     f_nodeIDFile := param env "CSI_NODE_ID_FILE";
     f_driverName := param env "CSI_DRIVER_NAME";
     f_mode := param env "CSI_DRIVER_MODE";
     f_debug := envBoolDefault env "CSI_DEBUG" false;
     f_kubernetesIntegration := envBoolDefault env "CSI_KUBERNETES_INTEGRATION" false;
     f_controllerPublish := envBoolDefault env "CSI_CONTROLLER_PUBLISH" true;
     f_livenessPort := envIntDefault env "CSI_LIVENESS_PORT" 0;
     f_kubeletRegistrationPath := param env "CSI_KUBELET_REGISTRATION_PATH";
     f_kubernetesResyncPeriod := envDurationDefault env "CSI_KUBERNETES_RESYNC_PERIOD" (5 * second);
     f_leaderElection :=
       {| leEnabled := envBoolDefault env "CSI_LEADER_ELECTION" false;
          LeaseName := param env "CSI_LEADER_ELECTION_NAME";
          LeaseNamespace := param env "CSI_LEADER_ELECTION_NAMESPACE";
          Identity := param env "CSI_LEADER_ELECTION_IDENTITY";
          LeaseDuration := envDurationDefault env "CSI_LEADER_ELECTION_LEASE_DURATION" (15 * second);
          RenewDeadline := envDurationDefault env "CSI_LEADER_ELECTION_RENEW_DEADLINE" (10 * second);
          RetryPeriod := envDurationDefault env "CSI_LEADER_ELECTION_RETRY_PERIOD" (2 * second) |} |}.

(** What [RunWithOptions] is called with, or the message [klog.Fatalf] ends with. *)
Record RunOptions := {
  ro_Mode : DriverMode;
  ro_Debug : bool;
  ro_InternalKubernetes : InternalKubernetesConfig;
  ro_LeaderElection : LeaderElectionConfig
}.

Definition handle (env : Params) (readFile : string -> res string) (f : Flags)
  : res (driver * RunOptions) :=
  match ParseDriverMode (f_mode f) with
  | Ok driverMode =>
      match resolveNodeID readFile (f_nodeID f) (f_nodeIDFile f) (param env "KUBE_NODE_NAME") with
      | Ok resolvedNodeID =>
          if ((driverMode == DriverModeNode) && (resolvedNodeID == ""))%bool
          then Err (PlainErr "--nodeid, --nodeid-file, or KUBE_NODE_NAME is required in node mode")
          else
            let d := if f_driverName f != ""
                     then NewNamedDriver (f_driverName f) resolvedNodeID (f_endpoint f)
                     else NewDriver resolvedNodeID (f_endpoint f) in
            Ok (d, {| ro_Mode := driverMode; ro_Debug := f_debug f;
                      ro_InternalKubernetes :=
                        {| ik_Enabled := f_kubernetesIntegration f;
                           ControllerPublish := f_controllerPublish f;
                           LivenessPort := f_livenessPort f;
                           KubeletRegistrationPath := f_kubeletRegistrationPath f;
                           ResyncPeriod := f_kubernetesResyncPeriod f |};
                      ro_LeaderElection := f_leaderElection f |})
      | Err _ => Err (PlainErr "invalid node id: %v")
      | Panicked => Panicked
      end
  | Err _ => Err (PlainErr "invalid --mode: %v")
  | Panicked => Panicked
  end.

Example node_id_files :
  map parseNodeIDContent
    ["## comment" +:+ String newline "InitiatorName=iqn.1993-08.org.debian:01:abc" +:+ String newline "";
     " x=y" +:+ String newline " 'node-1' "; "node_id = n"; ""]
  = ["iqn.1993-08.org.debian:01:abc"; "node-1"; "n"; ""].
Proof. vm_compute. reflexivity. Qed.

(** ** Properties *)

(** The node id comes from the flag, else from the file, else from the fallback; a
    file that cannot be read, other than a missing one, is an error whatever the
    fallback. *)
Lemma resolveNodeID_sources readFile explicit file fallback :
  match resolveNodeID readFile explicit file fallback with
  | Ok id =>
      (id = TrimSpace explicit /\ id <> "")
      \/ (TrimSpace explicit = ""
          /\ ((TrimSpace file <> "" /\ exists content, readFile (TrimSpace file) = Ok content
               /\ id = parseNodeIDContent content /\ id <> "")
              \/ id = TrimSpace fallback))
  | Err e => TrimSpace explicit = "" /\ TrimSpace file <> "" /\ (may_fall_back e = true -> TrimSpace fallback = "")
  | Panicked => readFile (TrimSpace file) = Panicked
  end.
Proof.
  unfold resolveNodeID. destruct (String.eqb_spec (TrimSpace explicit) "") as [E|E]; cbn [negb]; [|by left].
  cbv zeta. destruct (String.eqb_spec (TrimSpace file) "") as [Ef|Ef]; [by right; split; [|right]|].
  unfold readNodeIDFile. destruct (readFile (TrimSpace file)) as [content|e|] eqn:Er; [| |done].
  - cbn. destruct (String.eqb_spec (parseNodeIDContent content) "") as [Ec|Ec]; cbn [negb].
    + destruct (String.eqb_spec (TrimSpace fallback) "") as [Eb|Eb]; cbn [negb andb]; [by split_and!|].
      by right; split; [|right].
    + right. split; [done|]. left. split; [done|]. by exists content.
  - cbn. destruct (String.eqb_spec (TrimSpace fallback) "") as [Eb|Eb]; cbn [negb andb]; [by split_and!|].
    destruct (may_fall_back e) eqn:Em; cbn; [by right; split; [|right]|]. split_and!; [done..|]. by rewrite Em.
Qed.

(** A node starts with a node id. *)
Lemma handle_node env readFile f d opts :
  handle env readFile f = Ok (d, opts) -> ro_Mode opts = DriverModeNode -> nodeID d <> "".
Proof.
  unfold handle. destruct (ParseDriverMode _) as [m|e|]; [|done..].
  destruct (resolveNodeID _ _ _ _) as [id|e|]; [|done..].
  destruct (String.eqb_spec m DriverModeNode) as [Em|Em];
    [destruct (String.eqb_spec id "") as [Ei|Ei]; [done|]|]; cbn [andb].
  - assert (forall n, nodeID (NewNamedDriver n id (f_endpoint f)) = id) as Hid.
    { intros n. unfold NewNamedDriver. by destruct (driverConfigForName n) as [[p b]|e|]. }
    destruct (f_driverName f != ""); intros [= <- <-] _; by rewrite ?Hid.
  - intros [= <- <-] H. done.
Qed.
