(* ===== verification/PowerShell.v ===== *)
(** * PowerShell scripts ([pkg/iscsi/backend_winrm.go], [backend_fileshare.go])

    A script is a format with its arguments; the back end quotes a string argument
    by doubling its single quotes.  PowerShell itself is third-party: of its
    language this file has the documented rules of quoting, by which a text is cut
    into strings and code. *)
From S2P Require Import Prelude GoStrings GoStringsFacts GoStrconv GoJson.

(** ** Scripts *)

(** A literal part of a format, [%s] with [escapePS], and [%d]. *)
Inductive piece := Lit (s : string) | Quoted (s : string) | Number (z : Z).

Definition escapePS (s : string) : string := ReplaceByte s "'" "''".

Definition render_piece (p : piece) : string :=
  match p with Lit s => s | Quoted s => escapePS s | Number z => Itoa z end.
Fixpoint render (ps : list piece) : string :=
  match ps with [] => "" | p :: rest => render_piece p +:+ render rest end.

Definition psBoolLiteral (value : bool) : string := if value then "$true" else "$false".

(** The values after the first, each [,'...'], and the end of the array. *)
Fixpoint more_values (values : list string) : list piece :=
  match values with
  | [] => [Lit "')"]
  | v :: rest => [Lit "','"; Quoted v] ++ more_values rest
  end.
(** ["@('" + ... + "','" + ... + "')"], blank values left out. *)
Definition psStringArray (values : list string) : list piece :=
  match filter (fun v => v <> "") (map TrimSpace values) with
  | [] => [Lit "@()"]
  | v :: rest => [Lit "@('"; Quoted v] ++ more_values rest
  end.

(** ** Quoting in PowerShell

    A string in single quotes ends at the next single quote that is not doubled; in
    double quotes, at the next double quote; a number sign starts a comment.  The
    typographic quotes U+2018 to U+201B count as single quotes and U+201C to U+201E
    as double quotes. *)
Definition double_quote : ascii := ascii_of_N 34.
Definition single_quote : ascii := "'"%char.
Definition newline : ascii := ascii_of_N 10.

(** The quote that the three bytes stand for. *)
Definition typographic (b0 b1 b2 : ascii) : option ascii :=
  if (N.eqb (code b0) 226 && N.eqb (code b1) 128)%bool then
    if byte_between 152 155 b2 then Some single_quote
    else if byte_between 156 158 b2 then Some double_quote
    else None
  else None.
Fixpoint fold_quotes (s : string) : string :=
  match s with
  | String b0 ((String b1 (String b2 rest)) as s') =>
      match typographic b0 b1 b2 with
      | Some q => String q (fold_quotes rest)
      | None => String b0 (fold_quotes s')
      end
  | String b0 s' => String b0 (fold_quotes s')
  | EmptyString => EmptyString
  end.

Inductive token := Code (c : ascii) | Str (s : string) | Dq (c : ascii) | Comment (c : ascii).
(** [AfterQuote s]: a single quote was read in the string [s], which ends it unless
    it is doubled. *)
Inductive lex_state := InCode | InStr (s : string) | AfterQuote (s : string) | InDq | InComment.

Definition lex_code (c : ascii) : list token * lex_state :=
  if c =b single_quote then ([], InStr "")
  else if c =b double_quote then ([], InDq)
  else if c =b "#" then ([], InComment)
  else ([Code c], InCode).
Definition snoc (s : string) (c : ascii) : string := s +:+ String c "".
Definition lex_step (st : lex_state) (c : ascii) : list token * lex_state :=
  match st with
  | InCode => lex_code c
  | InStr s => if c =b single_quote then ([], AfterQuote s) else ([], InStr (snoc s c))
  | AfterQuote s =>
      if c =b single_quote then ([], InStr (snoc s c))
      else let '(toks, st) := lex_code c in (Str s :: toks, st)
  | InDq => if c =b double_quote then ([], InCode) else ([Dq c], InDq)
  | InComment => if c =b newline then ([Code c], InCode) else ([Comment c], InComment)
  end.
Fixpoint scan (st : lex_state) (s : string) : list token * lex_state :=
  match s with
  | EmptyString => ([], st)
  | String c s' =>
      let '(t1, st1) := lex_step st c in
      let '(t2, st2) := scan st1 s' in (t1 ++ t2, st2)
  end.
(** At the end of the text; a string that is not closed is an error. *)
Definition lex_end (st : lex_state) : option (list token) :=
  match st with
  | InCode | InComment => Some []
  | AfterQuote s => Some [Str s]
  | InStr _ | InDq => None
  end.
Definition tokens (text : string) : option (list token) :=
  let '(toks, st) := scan InCode (fold_quotes text) in
  match lex_end st with Some last => Some (toks ++ last) | None => None end.

Example tokens_example :
  tokens ("$p = 'it''s'; " +:+ String double_quote "a'b" +:+ String double_quote "")
  = Some (map Code ["$"; "p"; " "; "="; " "]%char ++ [Str "it's"] ++ map Code [";"; " "]%char
          ++ map Dq ["a"; "'"; "b"]%char).
Proof. vm_compute. reflexivity. Qed.
(** A typographic quote ends a string, and doubling the ASCII ones does not help. *)
Definition U2019 : string := EncodeRune 8217.
Example typographic_quote_escapes :
  tokens ("'" +:+ escapePS (U2019 +:+ ";x #") +:+ "'")
  = Some ([Str ""] ++ map Code [";"; "x"; " "]%char ++ [Comment "'"]).
Proof. vm_compute. reflexivity. Qed.
