(* ===== verification/PowerShellFacts.v ===== *)
(** * Quoting in scripts: a script whose format passes two checks is read back by
    PowerShell with each argument as one string. *)
From S2P Require Import Prelude GoStrings GoStringsFacts GoStrconv GoJson PowerShell.

(** ** Texts without typographic quotes *)

Fixpoint no_typographic (s : string) : bool :=
  match s with
  | String b0 ((String b1 (String b2 _)) as s') =>
      match typographic b0 b1 b2 with Some _ => false | None => no_typographic s' end
  | String _ s' => no_typographic s'
  | EmptyString => true
  end.
Definition is_ascii (c : ascii) : bool := N.ltb (code c) 128.
Definition head_ascii (s : string) : bool :=
  match s with String c _ => is_ascii c | EmptyString => true end.
Fixpoint last_ascii (s : string) : bool :=
  match s with
  | EmptyString => false
  | String c EmptyString => is_ascii c
  | String _ s' => last_ascii s'
  end.

Lemma fold_quotes_plain s : no_typographic s = true -> fold_quotes s = s.
Proof.
  induction s as [|b0 [|b1 [|b2 s]] IH]; intros H; [done..|]. cbn [fold_quotes no_typographic] in *.
  destruct (typographic b0 b1 b2); [done|]. f_equal. by apply IH.
Qed.

Lemma typographic_ascii b0 b1 b2 :
  is_ascii b0 = true \/ is_ascii b1 = true \/ is_ascii b2 = true -> typographic b0 b1 b2 = None.
Proof.
  unfold is_ascii, typographic, byte_between. rewrite !N.ltb_lt. intros H.
  destruct (N.eqb_spec (code b0) 226); [|done]. destruct (N.eqb_spec (code b1) 128); [|done]. cbn [andb].
  destruct (N.leb_spec 152 (code b2)); destruct (N.leb_spec 156 (code b2)); cbn [andb]; (done || lia).
Qed.

(** No quote is put together across a seam with an ASCII byte on one side. *)
Lemma no_typographic_app a b :
  no_typographic a = true -> no_typographic b = true ->
  head_ascii b = true \/ last_ascii a = true -> no_typographic (a +:+ b) = true.
Proof.
  intros Ha Hb Hs. induction a as [|b0 a IH]; [done|].
  assert (no_typographic a = true) as Ha'.
  { destruct a as [|b1 [|b2 a]]; [done..|]. cbn [no_typographic] in Ha.
    by destruct (typographic b0 b1 b2). }
  destruct a as [|b1 [|b2 a]].
  - cbn [String.append]. destruct b as [|c1 [|c2 b]]; [done..|]. cbn [no_typographic].
    rewrite typographic_ascii; [done|]. destruct Hs as [Hs|Hs]; [by right; left|by left].
  - assert (no_typographic (String b1 "" +:+ b) = true) as IH'.
    { apply IH; [done|]. destruct Hs as [?|Hs]; [by left|by right]. }
    cbn [String.append] in *. destruct b as [|c1 b]; [done|]. cbn [no_typographic].
    rewrite typographic_ascii; [done|]. destruct Hs as [Hs|Hs]; [by right; right|by right; left].
  - assert (no_typographic (String b1 (String b2 a) +:+ b) = true) as IH'.
    { apply IH; [done|]. destruct Hs as [?|Hs]; [by left|by right]. }
    cbn [String.append no_typographic] in *. by destruct (typographic b0 b1 b2).
Qed.

Lemma escapePS_cons c s :
  escapePS (String c s) = (if c =b single_quote then "''" else String c "") +:+ escapePS s.
Proof. unfold escapePS, single_quote. cbn [ReplaceByte]. by destruct (c =b "'"). Qed.

Lemma no_typographic_cons c s :
  no_typographic (String c s) = true -> no_typographic s = true.
Proof.
  destruct s as [|b1 [|b2 s]]; [done..|]. cbn [no_typographic]. by destruct (typographic c b1 b2).
Qed.
(** Doubling a quote puts no typographic one together. *)
Lemma no_typographic_escapePS s : no_typographic s = true -> no_typographic (escapePS s) = true.
Proof.
  induction s as [|c s IH]; [done|]. intros H. rewrite escapePS_cons.
  pose proof (IH (no_typographic_cons _ _ H)) as Hs. destruct (c =b single_quote) eqn:E.
  - apply no_typographic_app; [done|done|by right].
  - cbn [String.append]. destruct s as [|b1 s]; [done|]. rewrite escapePS_cons in Hs |- *.
    destruct (b1 =b single_quote) eqn:E1.
    + cbn [String.append no_typographic] in *. by rewrite typographic_ascii by (by right; left).
    + cbn [String.append] in *. destruct s as [|b2 s]; [done|]. rewrite escapePS_cons in Hs |- *.
      destruct (b2 =b single_quote) eqn:E2; cbn [String.append no_typographic] in *.
      * by rewrite typographic_ascii by (by right; right).
      * by destruct (typographic c b1 b2).
Qed.

(** ** Seams of a script *)

Definition closed_text (s : string) : bool :=
  (no_typographic s && head_ascii s && last_ascii s)%bool.
(** Every literal starts and ends in ASCII, and a literal follows every argument. *)
Fixpoint seams (ps : list piece) : bool :=
  match ps with
  | [] => true
  | Lit s :: rest => (closed_text s && seams rest)%bool
  | Number _ :: rest => seams rest
  | Quoted _ :: ((Lit _ :: _) as rest) => seams rest
  | Quoted _ :: _ => false
  end.
Definition arguments (ps : list piece) : list string :=
  omap (fun p => match p with Quoted s => Some s | _ => None end) ps.

Lemma seams_app a b : seams a = true -> seams b = true -> seams (a ++ b) = true.
Proof.
  intros Ha Hb. induction a as [|[s|s|z] a IH]; [done|..]; cbn [seams app] in *.
  - apply andb_true_iff in Ha as [H1 H2]. by rewrite H1, IH.
  - destruct a as [|[t|t|z] a]; try done. by apply IH.
  - by apply IH.
Qed.

Lemma Itoa_closed z : no_typographic (Itoa z) = true /\ head_ascii (Itoa z) = true
  /\ (forall t, no_typographic t = true -> no_typographic (Itoa z +:+ t) = true).
Proof.
  assert (str_all is_ascii (Itoa z) = true) as H.
  { apply Itoa_all; [done|]. by apply bytes_impl. }
  revert H. generalize (Itoa z) as s. intros s H.
  assert (forall t, no_typographic t = true -> no_typographic (s +:+ t) = true) as Happ.
  { intros t Ht. induction s as [|c s IH]; [done|]. cbn [str_all] in H.
    apply andb_true_iff in H as [Hc Hs]. specialize (IH Hs). cbn [String.append].
    destruct (s +:+ t) as [|b1 [|b2 r]]; [done..|]. cbn [no_typographic] in *.
    by rewrite typographic_ascii by (by left). }
  split_and!; [|by destruct s; [|apply andb_true_iff in H as [? _]]|done].
  specialize (Happ "" eq_refl). by rewrite app_empty_r in Happ.
Qed.

Lemma seams_head ps :
  seams ps = true -> match ps with Quoted _ :: _ => True | _ => head_ascii (render ps) = true end.
Proof.
  destruct ps as [|[s|s|z] ps]; [done| |done|]; cbn [seams render render_piece].
  - unfold closed_text. intros H. go_bool. destruct s; [done|done].
  - intros _. destruct (Itoa_closed z) as (_ & H & _). pose proof (Itoa_nonempty z). by destruct (Itoa z).
Qed.

(** Without typographic quotes in its arguments a script has none. *)
Lemma render_plain ps :
  seams ps = true -> Forall (fun v => no_typographic v = true) (arguments ps) ->
  no_typographic (render ps) = true.
Proof.
  induction ps as [|p ps IH]; [done|]. intros Hs Hp. cbn [render].
  destruct p as [s|s|z]; cbn [render_piece].
  - cbn [seams] in Hs. apply andb_true_iff in Hs as [Hc Hs]. unfold closed_text in Hc. go_bool.
    apply no_typographic_app; [done|by apply IH|by right].
  - cbn in Hp. inversion Hp as [|? ? H1 H2]; subst. apply no_typographic_app.
    + by apply no_typographic_escapePS.
    + apply IH; [|done]. by destruct ps as [|[]].
    + left. cbn [seams] in Hs. destruct ps as [|[t|t|z] ps]; try done. by apply seams_head in Hs.
  - apply Itoa_closed. by apply IH.
Qed.

(** ** The tokens of a format

    What the format of a script reads as, with its arguments as such: [expect] fails
    if an argument does not make up a whole string. *)
Inductive mark := Plain (t : token) | Arg (v : string) | Num (z : Z).
Definition erase (m : mark) : list token :=
  match m with
  | Plain t => [t]
  | Arg v => [Str v]
  | Num z => map Code (list_ascii_of_string (Itoa z))
  end.
(** Between pieces; in the string of an argument, before and after its closing quote. *)
Inductive format_state := Lex (st : lex_state) | InArg (v : string) | AfterArg (v : string).
Definition lexer_state (e : format_state) : lex_state :=
  match e with Lex st => st | InArg v => InStr v | AfterArg v => AfterQuote v end.

Definition expect_after (v s : string) : option (list mark * format_state) :=
  match s with
  | EmptyString => Some ([], AfterArg v)
  | String c s' =>
      if c =b single_quote then None
      else let '(t1, st1) := lex_code c in
           let '(t2, st2) := scan st1 s' in Some (Arg v :: map Plain (t1 ++ t2), Lex st2)
  end.
Definition expect_piece (e : format_state) (p : piece) : option (list mark * format_state) :=
  match p, e with
  | Lit s, Lex st => let '(t, st') := scan st s in Some (map Plain t, Lex st')
  | Lit (String c s), InArg v => if c =b single_quote then expect_after v s else None
  | Lit s, AfterArg v => expect_after v s
  | Quoted v, Lex (InStr EmptyString) => Some ([], InArg v)
  | Number z, Lex InCode => Some ([Num z], Lex InCode)
  | _, _ => None
  end.
Fixpoint expect (e : format_state) (ps : list piece) : option (list mark * format_state) :=
  match ps with
  | [] => Some ([], e)
  | p :: rest =>
      match expect_piece e p with
      | None => None
      | Some (m1, e1) =>
          match expect e1 rest with
          | None => None
          | Some (m2, e2) => Some (m1 ++ m2, e2)
          end
      end
  end.

Lemma expect_app a : forall e b m e1,
  expect e a = Some (m, e1) ->
  expect e (a ++ b) = match expect e1 b with Some (m2, e2) => Some (m ++ m2, e2) | None => None end.
Proof.
  induction a as [|p a IH]; intros e b m e1; cbn [expect app].
  - intros [= <- <-]. by destruct (expect e b) as [[]|].
  - destruct (expect_piece e p) as [[m1 e']|]; [|done].
    destruct (expect e' a) as [[m2 e2]|] eqn:E; [|done]. intros [= <- <-].
    rewrite (IH _ b _ _ E). destruct (expect e2 b) as [[m3 e3]|]; [|done]. by rewrite app_assoc.
Qed.

Lemma scan_app s : forall st t,
  scan st (s +:+ t) = let '(t1, st1) := scan st s in let '(t2, st2) := scan st1 t in (t1 ++ t2, st2).
Proof.
  induction s as [|c s IH]; intros st t; cbn [scan String.append].
  - by destruct (scan st t).
  - destruct (lex_step st c) as [t0 st0]. rewrite IH. destruct (scan st0 s) as [t1 st1].
    destruct (scan st1 t) as [t2 st2]. by rewrite app_assoc.
Qed.

Lemma scan_escapePS v : forall s, scan (InStr s) (escapePS v) = ([], InStr (s +:+ v)).
Proof.
  induction v as [|c v IH]; intros s; [cbn; by rewrite app_empty_r|].
  rewrite escapePS_cons, scan_app.
  assert (scan (InStr s) (if c =b single_quote then "''" else String c "") = ([], InStr (snoc s c))) as ->.
  { destruct (c =b single_quote) eqn:E; cbn; [|by rewrite E]. by apply Ascii.eqb_eq in E as ->. }
  rewrite IH. unfold snoc. by rewrite app_assoc_s.
Qed.

Lemma scan_Itoa z : scan InCode (Itoa z) = (map Code (list_ascii_of_string (Itoa z)), InCode).
Proof.
  assert (str_all (fun c => negb ((c =b single_quote) || (c =b double_quote) || (c =b "#")))%bool (Itoa z) = true) as H.
  { apply Itoa_all; [done|]. by apply bytes_impl. }
  revert H. generalize (Itoa z) as s. intros s. induction s as [|c s IH]; [done|]. cbn [str_all].
  intros H. apply andb_true_iff in H as [Hc Hs]. cbn [scan lex_step list_ascii_of_string map].
  unfold lex_code. apply negb_true_iff, orb_false_iff in Hc as [Hc ->].
  apply orb_false_iff in Hc as [-> ->]. by rewrite (IH Hs).
Qed.

Lemma erase_Plain t : concat (map erase (map Plain t)) = t.
Proof. induction t as [|x t IH]; [done|]. cbn. by rewrite IH. Qed.

Lemma expect_after_scan v s m e :
  expect_after v s = Some (m, e) ->
  scan (AfterQuote v) s = (concat (map erase m), lexer_state e).
Proof.
  destruct s as [|c s]; cbn [expect_after scan]; [by intros [= <- <-]|].
  cbn [lex_step]. destruct (c =b single_quote); [done|].
  destruct (lex_code c) as [t1 st1]. destruct (scan st1 s) as [t2 st2]. intros [= <- <-].
  cbn. by rewrite erase_Plain.
Qed.

Lemma expect_piece_scan e p m e' :
  expect_piece e p = Some (m, e') ->
  scan (lexer_state e) (render_piece p) = (concat (map erase m), lexer_state e').
Proof.
  destruct p as [s|v|z]; cbn [render_piece].
  - destruct e as [st|v|v]; cbn [expect_piece lexer_state].
    + destruct (scan st s) as [t st'] eqn:E. intros H. destruct s; injection H as <- <-; by rewrite erase_Plain.
    + destruct s as [|c s]; [done|]. destruct (c =b single_quote) eqn:E; [|done].
      intros H. cbn [scan lex_step]. rewrite E. apply expect_after_scan in H. by rewrite H.
    + intros H. destruct s; by apply expect_after_scan in H.
  - destruct e as [[|[|]| | |]|w|w]; try done. intros [= <- <-]. apply scan_escapePS.
  - destruct e as [[| | | |]|w|w]; try done. intros [= <- <-]. cbn. rewrite app_nil_r. apply scan_Itoa.
Qed.

Lemma expect_scan ps : forall e m e',
  expect e ps = Some (m, e') ->
  scan (lexer_state e) (render ps) = (concat (map erase m), lexer_state e').
Proof.
  induction ps as [|p ps IH]; intros e m e'; cbn [expect render]; [by intros [= <- <-]|].
  destruct (expect_piece e p) as [[m1 e1]|] eqn:E1; [|done].
  destruct (expect e1 ps) as [[m2 e2]|] eqn:E2; [|done]. intros [= <- <-].
  rewrite scan_app, (expect_piece_scan _ _ _ _ E1), (IH _ _ _ E2). by rewrite map_app, concat_app.
Qed.

(** ** Scripts that quote *)

Definition mark_args (m : list mark) : list string :=
  omap (fun k => match k with Arg v => Some v | _ => None end) m.
Definition pending (e : format_state) : list string :=
  match e with Lex _ => [] | InArg v | AfterArg v => [v] end.

Lemma mark_args_app a b : mark_args (a ++ b) = mark_args a ++ mark_args b.
Proof. apply omap_app. Qed.
Lemma mark_args_Plain t : mark_args (map Plain t) = [].
Proof. by induction t. Qed.

Lemma expect_piece_args e p m e' :
  expect_piece e p = Some (m, e') -> pending e ++ arguments [p] = mark_args m ++ pending e'.
Proof.
  assert (forall v s m' e1, expect_after v s = Some (m', e1) -> [v] = mark_args m' ++ pending e1) as Hafter.
  { intros v s m' e1. destruct s as [|c s]; cbn; [by intros [= <- <-]|].
    destruct (c =b single_quote); [done|]. destruct (lex_code c) as [t1 st1].
    destruct (scan st1 s) as [t2 st2]. intros [= <- <-]. cbn. by rewrite mark_args_Plain. }
  destruct p as [s|v|z]; cbn [expect_piece].
  - destruct e as [st|v|v].
    + destruct (scan st s) as [t st'] eqn:E. intros H. destruct s; injection H as <- <-; by rewrite mark_args_Plain.
    + destruct s as [|c s]; [done|]. destruct (c =b single_quote); [|done]. apply Hafter.
    + intros H. destruct s; by apply Hafter in H.
  - destruct e as [[|[|]| | |]|w|w]; try done. by intros [= <- <-].
  - destruct e as [[| | | |]|w|w]; try done. by intros [= <- <-].
Qed.

Lemma expect_args ps : forall e m e',
  expect e ps = Some (m, e') -> pending e ++ arguments ps = mark_args m ++ pending e'.
Proof.
  induction ps as [|p ps IH]; intros e m e'; cbn [expect].
  { intros [= <- <-]. by rewrite app_nil_r. }
  destruct (expect_piece e p) as [[m1 e1]|] eqn:E1; [|done].
  destruct (expect e1 ps) as [[m2 e2]|] eqn:E2; [|done]. intros [= <- <-].
  apply expect_piece_args in E1. apply IH in E2. rewrite mark_args_app, <- app_assoc, <- E2, app_assoc, <- E1.
  rewrite <- app_assoc. by destruct p.
Qed.

(** What is left of a format when its arguments are forgotten. *)
Definition skeleton (m : list mark) : list (option token) :=
  map (fun k => match k with Plain t => Some t | _ => None end) m.
Definition same_piece (p q : piece) : Prop :=
  match p, q with
  | Lit s, Lit t => s = t
  | Quoted _, Quoted _ | Number _, Number _ => True
  | _, _ => False
  end.
Definition same_state (e f : format_state) : Prop :=
  match e, f with
  | Lex s, Lex t => s = t
  | InArg _, InArg _ | AfterArg _, AfterArg _ => True
  | _, _ => False
  end.
Definition same_outcome (r r' : option (list mark * format_state)) : Prop :=
  match r, r' with
  | Some (m, e), Some (m', e') => skeleton m = skeleton m' /\ same_state e e'
  | None, None => True
  | _, _ => False
  end.

Lemma expect_after_same v w s : same_outcome (expect_after v s) (expect_after w s).
Proof.
  destruct s as [|c s]; [done|]. cbn [expect_after]. destruct (c =b single_quote); [done|].
  destruct (lex_code c) as [t1 st1]. by destruct (scan st1 s) as [t2 st2].
Qed.
Lemma expect_piece_same e f p q :
  same_state e f -> same_piece p q -> same_outcome (expect_piece e p) (expect_piece f q).
Proof.
  destruct p as [s|v|z], q as [t|w|y]; try done; intros He Hp.
  - cbn in Hp. subst t. destruct e as [st|v|v], f as [st'|w|w]; try done; cbn [expect_piece].
    + cbn in He. subst st'. destruct (scan st s) as [t st'] eqn:E. by destruct s.
    + destruct s as [|c s]; [done|]. destruct (c =b single_quote); [apply expect_after_same|done].
    + destruct s; apply expect_after_same.
  - destruct e as [st|?|?], f as [st'|?|?]; try done. cbn in He. subst st'. by destruct st as [|[|]| | |].
  - destruct e as [st|?|?], f as [st'|?|?]; try done. cbn in He. subst st'. by destruct st.
Qed.
(** The format of a script does not depend on its arguments. *)
Lemma expect_same ps qs : forall e f,
  same_state e f -> Forall2 same_piece ps qs -> same_outcome (expect e ps) (expect f qs).
Proof.
  revert qs. induction ps as [|p ps IH]; intros qs e f He H; inversion H as [|? q ? qs' Hp Hr]; subst;
    [done|]. cbn [expect]. pose proof (expect_piece_same e f p q He Hp) as H1.
  destruct (expect_piece e p) as [[m1 e1]|], (expect_piece f q) as [[m1' f1]|]; try done.
  destruct H1 as [Hm1 He1]. pose proof (IH qs' e1 f1 He1 Hr) as H2.
  destruct (expect e1 ps) as [[m2 e2]|], (expect f1 qs') as [[m2' f2]|]; try done.
  destruct H2 as [Hm2 He2]. split; [|done]. unfold skeleton in *. by rewrite !map_app, Hm1, Hm2.
Qed.

(** A part of a script that starts and ends outside of strings. *)
Definition block (ps : list piece) : Prop :=
  seams ps = true /\ exists m, expect (Lex InCode) ps = Some (m, Lex InCode).

Lemma block_nil : block [].
Proof. split; [done|by exists []]. Qed.
Lemma block_app a b : block a -> block b -> block (a ++ b).
Proof.
  intros [Ha (m & Hm)] [Hb (m' & Hm')]. split; [by apply seams_app|].
  exists (m ++ m'). by rewrite (expect_app _ _ _ _ _ Hm), Hm'.
Qed.

(** What PowerShell reads: the arguments, each a string of its own, in the skeleton
    that the format has with any other arguments. *)
Definition reads_back (ps : list piece) : Prop :=
  exists m, tokens (render ps) = Some (concat (map erase m)) /\ mark_args m = arguments ps
    /\ forall qs, Forall2 same_piece ps qs ->
         Forall (fun v => no_typographic v = true) (arguments qs) ->
         exists m', tokens (render qs) = Some (concat (map erase m')) /\ mark_args m' = arguments qs
                    /\ skeleton m' = skeleton m.

Lemma block_tokens ps m :
  seams ps = true -> expect (Lex InCode) ps = Some (m, Lex InCode) ->
  Forall (fun v => no_typographic v = true) (arguments ps) ->
  tokens (render ps) = Some (concat (map erase m)) /\ mark_args m = arguments ps.
Proof.
  intros Hs Hm Ha. unfold tokens. rewrite fold_quotes_plain by by apply render_plain.
  pose proof (expect_scan _ _ _ _ Hm) as Hscan. cbn [lexer_state] in Hscan. rewrite Hscan. cbn [lex_end].
  rewrite app_nil_r. split; [done|]. apply expect_args in Hm. cbn in Hm. by rewrite app_nil_r in Hm.
Qed.
Lemma seams_same ps qs : Forall2 same_piece ps qs -> seams ps = true -> seams qs = true.
Proof.
  induction 1 as [|p q ps qs Hp Hr IH]; [done|].
  destruct p as [s|v|z], q as [t|w|y]; try done; cbn [seams].
  - cbn in Hp. subst t. intros H. apply andb_true_iff in H as [-> H]. by apply IH.
  - destruct Hr as [|p' q' ps qs Hp' Hr]; [done|]. by destruct p', q'.
Qed.
Lemma block_reads_back ps :
  block ps -> Forall (fun v => no_typographic v = true) (arguments ps) -> reads_back ps.
Proof.
  intros [Hs (m & Hm)] Ha. destruct (block_tokens ps m Hs Hm Ha) as [Ht Hargs].
  exists m. split; [done|]. split; [done|]. intros qs Hq Hqa.
  pose proof (expect_same ps qs (Lex InCode) (Lex InCode) eq_refl Hq) as H. rewrite Hm in H.
  destruct (expect (Lex InCode) qs) as [[m' e']|] eqn:Hm'; [|done]. destruct H as [Hsk He].
  destruct e'; try done. cbn in He. subst st.
  destruct (block_tokens qs m' (seams_same _ _ Hq Hs) Hm' Hqa) as [Ht' Ha'].
  exists m'. by split_and!.
Qed.

(** ** Blocks *)

Ltac block := split; [vm_compute; reflexivity|eexists; vm_compute; reflexivity].

Lemma more_values_seams vs : seams (more_values vs) = true.
Proof. induction vs as [|v vs IH]; [done|]. cbn. destruct vs; exact IH. Qed.
Lemma more_values_expect vs : forall v, exists m, expect (InArg v) (more_values vs) = Some (m, Lex InCode).
Proof.
  induction vs as [|w vs IH]; intros v; [eexists; vm_compute; reflexivity|].
  destruct (IH w) as (m & Hm). eexists. cbn [more_values].
  rewrite (expect_app [Lit "','"; Quoted w] (InArg v) _ [Arg v; Plain (Code ",")] (InArg w)) by done.
  by rewrite Hm.
Qed.
Lemma psStringArray_block values : block (psStringArray values).
Proof.
  unfold psStringArray. destruct (filter _ _) as [|v vs]; [block|]. split.
  - cbn. pose proof (more_values_seams vs). by destruct vs.
  - destruct (more_values_expect vs v) as (m & Hm). eexists.
    rewrite (expect_app [Lit "@('"; Quoted v] (Lex InCode) _ (map Plain [Code "@"; Code "("]) (InArg v)) by done.
    by rewrite Hm.
Qed.

(** The pieces of an array are the text that the code joins. *)
Lemma render_app a b : render (a ++ b) = render a +:+ render b.
Proof. induction a as [|p a IH]; [done|]. cbn [render app]. by rewrite IH, app_assoc_s. Qed.
Lemma render_more_values v vs :
  "'" +:+ escapePS v +:+ render (more_values vs)
  = Join (map (fun v => "'" +:+ escapePS v +:+ "'") (v :: vs)) "," +:+ ")".
Proof.
  revert v. induction vs as [|w vs IH]; intros v.
  - cbn [more_values render render_piece map Join String.concat]. by rewrite !app_assoc_s.
  - cbn [more_values]. rewrite render_app. cbn [render render_piece].
    change (Join (map ?f (v :: w :: vs)) ",") with (f v +:+ "," +:+ Join (map f (w :: vs)) ",").
    cbv beta. rewrite !app_assoc_s, <- IH. reflexivity.
Qed.
Lemma psStringArray_text values :
  render (psStringArray values) =
  match filter (fun v => v <> "") (map TrimSpace values) with
  | [] => "@()"
  | l => "@(" +:+ Join (map (fun v => "'" +:+ escapePS v +:+ "'") l) "," +:+ ")"
  end.
Proof.
  unfold psStringArray. destruct (filter _ _) as [|v vs]; [done|].
  rewrite render_app. change (render [Lit "@('"; Quoted v]) with ("@(" +:+ "'" +:+ escapePS v +:+ "").
  rewrite app_empty_r, !app_assoc_s, <- render_more_values. reflexivity.
Qed.
