(* ===== verification/WinRMScripts.v ===== *)
(** * The scripts of the WinRM back end ([pkg/iscsi/backend_winrm.go],
    [backend_fileshare.go])

    One script per method, as its format with its arguments. *)
From S2P Require Import Prelude GoStrings GoStrconv Params PowerShell.

(** A double quote, where a format has one. *)
Definition dq : string := String double_quote "".

(** The handle of a shadow copy that a snapshot id of the form [vss://] encodes;
    the time is in nanoseconds. *)
Record fileShareSnapshotHandle := {
  SnapshotType : string;
  ShadowID : string;
  ShadowDeviceObject : string;
  ShadowPath : string;
  SourceRelativePath : string;
  hOriginalPath : string;
  hDescription : string;
  hCreatedAt : Z;
  hSizeBytes : Z
}.

(** ** Shared functions *)

Definition fileShareShadowCopyPS : string :=
  "
function Get-CsiShadowCopy([string]$ShadowId) {
  @(Get-CimInstance -ClassName Win32_ShadowCopy -ErrorAction SilentlyContinue | Where-Object { $_.ID -eq $ShadowId } | Select-Object -First 1)[0]
}
function New-CsiShadowCopy([string]$VolumeRoot) {
  Invoke-CimMethod -ClassName Win32_ShadowCopy -MethodName Create -Arguments @{ Volume=$VolumeRoot; Context='ClientAccessible' }
}
function Remove-CsiShadowCopy([string]$ShadowId) {
  $shadow = Get-CsiShadowCopy $ShadowId
  if ($shadow) { $shadow | Remove-CimInstance -ErrorAction SilentlyContinue | Out-Null }
}
function Join-CsiShadowPath([string]$DeviceObject, [string]$RelativePath) {
  $root = $DeviceObject.TrimEnd('\')
  if ([string]::IsNullOrWhiteSpace($RelativePath)) { return ($root + '\') }
  return ($root + '\' + $RelativePath.TrimStart('\'))
}
".

Definition fileShareCopyPS : string :=
  "function Copy-CsiDirectoryMirror($s,$d){New-Item -ItemType Directory -Path $d -Force|Out-Null;robocopy $s $d /MIR /R:1 /W:1 /NFL /NDL /NJH /NJS /NP|Out-Null;$c=$LASTEXITCODE;$global:LASTEXITCODE=0;if($c -gt 7){throw " +:+ dq +:+ "robocopy failed with exit code $c" +:+ dq +:+ "}}".

Definition fileShareCopyItemPS : string :=
  "function Copy-CsiDirectoryTree($s,$d){New-Item -ItemType Directory -Path $d -Force|Out-Null;@(Get-ChildItem -LiteralPath $s -Force -ErrorAction Stop)|ForEach-Object{Copy-Item -LiteralPath $_.FullName -Destination $d -Recurse -Force -ErrorAction Stop}}".

Definition fileShareVHDXPS : string :=
  "
function Get-CsiAccessPath([string]$Path) {
  if ([string]::IsNullOrWhiteSpace($Path)) { return '' }
  $full = [System.IO.Path]::GetFullPath($Path)
  if (-not $full.EndsWith('\')) { $full += '\' }
  return $full
}
function Get-CsiPartitionByAccessPath([string]$Path) {
  $accessPath = Get-CsiAccessPath $Path
  if ([string]::IsNullOrWhiteSpace($accessPath)) { return $null }
  @(Get-Partition -ErrorAction SilentlyContinue | Where-Object { @($_.AccessPaths) -contains $accessPath } | Select-Object -First 1)[0]
}
function Test-CsiPartitionAccessPath([string]$Path) {
  $null -ne (Get-CsiPartitionByAccessPath $Path)
}
function Expand-CsiPartitionToDisk([object]$Partition) {
  if (-not $Partition) { return }
  $supported = Get-PartitionSupportedSize -DiskNumber $Partition.DiskNumber -PartitionNumber $Partition.PartitionNumber -ErrorAction SilentlyContinue
  if ($supported -and [int64]$supported.SizeMax -gt [int64]$Partition.Size) {
    Resize-Partition -DiskNumber $Partition.DiskNumber -PartitionNumber $Partition.PartitionNumber -Size $supported.SizeMax -ErrorAction Stop
  }
}
function Mount-CsiFileShareVirtualDisk([string]$VhdxPath, [string]$MountPath) {
  New-Item -ItemType Directory -Path $MountPath -Force | Out-Null
  $image = Get-DiskImage -ImagePath $VhdxPath -ErrorAction SilentlyContinue
  if (-not $image -or -not $image.Attached) {
    Mount-DiskImage -ImagePath $VhdxPath -PassThru -ErrorAction Stop | Out-Null
  }
  $disk = Get-DiskImage -ImagePath $VhdxPath -ErrorAction Stop | Get-Disk -ErrorAction Stop
  if ($disk.IsOffline) { Set-Disk -Number $disk.Number -IsOffline $false -ErrorAction Stop }
  if ($disk.IsReadOnly) { Set-Disk -Number $disk.Number -IsReadOnly $false -ErrorAction Stop }
  if ($disk.PartitionStyle -eq 'RAW') {
    Initialize-Disk -Number $disk.Number -PartitionStyle GPT -ErrorAction Stop
  }
  $partition = @(Get-Partition -DiskNumber $disk.Number -ErrorAction SilentlyContinue | Where-Object { $_.Type -ne 'Reserved' } | Sort-Object PartitionNumber | Select-Object -First 1)[0]
  if (-not $partition) {
    $partition = New-Partition -DiskNumber $disk.Number -UseMaximumSize -ErrorAction Stop
  }
  $volume = $partition | Get-Volume -ErrorAction SilentlyContinue
  if (-not $volume -or [string]::IsNullOrWhiteSpace($volume.FileSystem)) {
    Format-Volume -Partition $partition -FileSystem NTFS -NewFileSystemLabel 'CSIFileShare' -Confirm:$false -Force -ErrorAction Stop | Out-Null
  }
  $partition = Get-Partition -DiskNumber $disk.Number -PartitionNumber $partition.PartitionNumber -ErrorAction Stop
  Expand-CsiPartitionToDisk $partition
  $partition = Get-Partition -DiskNumber $disk.Number -PartitionNumber $partition.PartitionNumber -ErrorAction Stop
  $accessPath = Get-CsiAccessPath $MountPath
  if (@($partition.AccessPaths) -notcontains $accessPath) {
    Add-PartitionAccessPath -DiskNumber $disk.Number -PartitionNumber $partition.PartitionNumber -AccessPath $accessPath -ErrorAction Stop
  }
}
function Dismount-CsiFileShareVirtualDisk([string]$VhdxPath, [string]$MountPath) {
  $accessPath = Get-CsiAccessPath $MountPath
  $partition = Get-CsiPartitionByAccessPath $MountPath
  if ($partition) {
    Remove-PartitionAccessPath -DiskNumber $partition.DiskNumber -PartitionNumber $partition.PartitionNumber -AccessPath $accessPath -ErrorAction Stop
    $partition = Get-Partition -DiskNumber $partition.DiskNumber -PartitionNumber $partition.PartitionNumber -ErrorAction SilentlyContinue
    if ($partition -and @($partition.AccessPaths) -contains $accessPath) {
      throw " +:+ dq +:+ "failed to remove partition access path '$accessPath'" +:+ dq +:+ "
    }
  }
  $image = Get-DiskImage -ImagePath $VhdxPath -ErrorAction SilentlyContinue
  if ($image -and $image.Attached) {
    Dismount-DiskImage -ImagePath $VhdxPath -ErrorAction Stop
    $image = Get-DiskImage -ImagePath $VhdxPath -ErrorAction SilentlyContinue
    if ($image -and $image.Attached) {
      throw " +:+ dq +:+ "failed to dismount file-share virtual disk '$VhdxPath'" +:+ dq +:+ "
    }
  }
  if ($MountPath -and (Test-Path -LiteralPath $MountPath)) {
    Remove-Item -LiteralPath $MountPath -Force -ErrorAction Stop
    if (Test-Path -LiteralPath $MountPath) {
      throw " +:+ dq +:+ "failed to delete file-share mount path '$MountPath'" +:+ dq +:+ "
    }
  }
}
".

(** ** Options of the shares *)

(** The lines, separated by a newline and two blanks. *)
Fixpoint join_lines (lines : list (list piece)) : list piece :=
  match lines with
  | [] => []
  | [line] => line
  | line :: rest => line ++ [Lit (String newline "  ")] ++ join_lines rest
  end.

Definition nfsShareParamsScript (opt : NfsShareOptions) : list piece :=
  join_lines (
    (match Authentication opt with
     | [] => []
     | auth => [[Lit "$params.Authentication = "] ++ psStringArray auth]
     end)
    ++ (match AnonymousUID opt with
        | Some uid => [[Lit "$params.AnonymousUid = "; Number uid]] | None => [] end)
    ++ (match AnonymousGID opt with
        | Some gid => [[Lit "$params.AnonymousGid = "; Number gid]] | None => [] end)
    ++ (if LanguageEncoding opt != ""
        then [[Lit "$params.LanguageEncoding = '"; Quoted (LanguageEncoding opt); Lit "'"]] else [])
    ++ (match EnableAnonymousAccess opt with
        | Some b => [[Lit "$params.EnableAnonymousAccess = "; Lit (psBoolLiteral b)]] | None => [] end)
    ++ (match EnableUnmappedAccess opt with
        | Some b => [[Lit "$params.EnableUnmappedAccess = "; Lit (psBoolLiteral b)]] | None => [] end)).

Definition smbShareParamsScript (opt : SmbShareOptions) : list piece :=
  join_lines (
    (match NoAccess opt with
     | [] => []
     | accounts => [[Lit "$params.NoAccess = "] ++ psStringArray accounts]
     end)
    ++ (if smbDescription opt != ""
        then [[Lit "$params.Description = '"; Quoted (smbDescription opt); Lit "'"]] else [])
    ++ (match EncryptData opt with
        | Some b => [[Lit "$params.EncryptData = "; Lit (psBoolLiteral b)]] | None => [] end)
    ++ (match CompressData opt with
        | Some b =>
            [[Lit "if ((Get-Command New-SmbShare).Parameters.ContainsKey('CompressData')) { $params.CompressData = ";
              Lit (psBoolLiteral b); Lit " }"]]
        | None => []
        end)
    ++ (match ContinuouslyAvailable opt with
        | Some b => [[Lit "$params.ContinuouslyAvailable = "; Lit (psBoolLiteral b)]] | None => [] end)
    ++ (if CachingMode opt != ""
        then [[Lit "$params.CachingMode = '"; Quoted (CachingMode opt); Lit "'"]] else [])
    ++ (if FolderEnumerationMode opt != ""
        then [[Lit "$params.FolderEnumerationMode = '"; Quoted (FolderEnumerationMode opt); Lit "'"]]
        else [])
    ++ (if (ConcurrentUserLimit opt =? 0)%Z then []
        else [[Lit "$params.ConcurrentUserLimit = "; Number (ConcurrentUserLimit opt)]])).

(** ** Methods *)

Definition EnsureTarget_script (targetName targetIQN : string) : list piece :=
  [Lit "
$targetName = '";
     Quoted targetName;
     Lit "'
$targetIQN = '";
     Quoted targetIQN;
     Lit "'
$t = Get-IscsiServerTarget -ComputerName $IscsiTargetComputerName -TargetName $targetName -ErrorAction SilentlyContinue
if (-not $t) {
  $t = New-IscsiServerTarget -ComputerName $IscsiTargetComputerName -TargetName $targetName
}
if (-not [string]::IsNullOrWhiteSpace($targetIQN) -and [string]$t.TargetIqn -ne $targetIQN) {
  $t = Set-IscsiServerTarget -ComputerName $IscsiTargetComputerName -TargetName $targetName -TargetIqn $targetIQN -PassThru
  if (-not $t) {
    $t = Get-IscsiServerTarget -ComputerName $IscsiTargetComputerName -TargetName $targetName
  }
}
@{ targetName=[string]$t.TargetName; targetIQN=[string]$t.TargetIqn }"].

Definition ConfigureTargetChap_script (targetName : string) (opts : TargetChapOptions) : list piece :=
  [Lit "
$targetName = '";
     Quoted targetName;
     Lit "'
$params = @{ ComputerName=$IscsiTargetComputerName; TargetName=$targetName }
if (-not [string]::IsNullOrWhiteSpace('";
     Quoted (ChapUser opts);
     Lit "')) {
  $chapSecret = ConvertTo-SecureString -String '";
     Quoted (ChapSecret opts);
     Lit "' -AsPlainText -Force
  $params.EnableChap = $true
  $params.Chap = [pscredential]::new('";
     Quoted (ChapUser opts);
     Lit "', $chapSecret)
}
if (-not [string]::IsNullOrWhiteSpace('";
     Quoted (ReverseChapUser opts);
     Lit "')) {
  $reverseChapSecret = ConvertTo-SecureString -String '";
     Quoted (ReverseChapSecret opts);
     Lit "' -AsPlainText -Force
  $params.EnableReverseChap = $true
  $params.ReverseChap = [pscredential]::new('";
     Quoted (ReverseChapUser opts);
     Lit "', $reverseChapSecret)
}
Set-IscsiServerTarget @params | Out-Null
@{ ok = $true }
"].

Definition CreateVirtualDisk_script (name parentDir : string) (sizeBytes : Z) : list piece :=
  [Lit "
$parentDir = Resolve-CsiVHDXParentPath '";
     Quoted parentDir;
     Lit "'
$path = Join-Path -Path $parentDir -ChildPath ('";
     Quoted name;
     Lit "' + '.vhdx')
if (-not (Test-Path -LiteralPath $path)) {
  New-IscsiVirtualDisk -ComputerName $IscsiTargetComputerName -Path $path -SizeBytes ";
     Number sizeBytes;
     Lit " | Out-Null
}
$vd = Get-IscsiVirtualDisk -ComputerName $IscsiTargetComputerName -Path $path
@{ path = $path; sizeBytes = [int64]$vd.Size }
"].

Definition MapDiskToTarget_script (targetName vhdxPath : string) : list piece :=
  [Lit "
$vd = Get-IscsiVirtualDisk -ComputerName $IscsiTargetComputerName -Path '";
     Quoted vhdxPath;
     Lit "'
$mappedTargets = @(Get-MappedIscsiTargetNames -Path '";
     Quoted vhdxPath;
     Lit "')
if ($mappedTargets -notcontains '";
     Quoted targetName;
     Lit "') {
  Add-IscsiVirtualDiskTargetMapping -ComputerName $IscsiTargetComputerName -TargetName '";
     Quoted targetName;
     Lit "' -Path '";
     Quoted vhdxPath;
     Lit "' | Out-Null
}
# Single-disk target → LUN 0
@{ lun = 0 }
"].

Definition UnmapDiskFromTarget_script (targetName vhdxPath : string) : list piece :=
  [Lit "
$targetName = '";
     Quoted targetName;
     Lit "'
$path = '";
     Quoted vhdxPath;
     Lit ("'
$target = Get-IscsiServerTarget -ComputerName $IscsiTargetComputerName -TargetName $targetName -ErrorAction SilentlyContinue
if ($target -and @($target.LunMappings | Where-Object { $_.Path -eq $path }).Count -gt 0) {
  Remove-IscsiVirtualDiskTargetMapping -ComputerName $IscsiTargetComputerName -TargetName $targetName -Path $path -ErrorAction Stop
  $target = Get-IscsiServerTarget -ComputerName $IscsiTargetComputerName -TargetName $targetName -ErrorAction SilentlyContinue
  if ($target -and @($target.LunMappings | Where-Object { $_.Path -eq $path }).Count -gt 0) {
    throw " +:+ dq +:+ "failed to remove iSCSI target mapping '$targetName' -> '$path'" +:+ dq +:+ "
  }
}
@{ ok = $true }
")].

Definition DeleteVirtualDisk_script (vhdxPath : string) : list piece :=
  [Lit "
$path = '";
     Quoted vhdxPath;
     Lit ("'
if (Get-IscsiVirtualDisk -ComputerName $IscsiTargetComputerName -Path $path -ErrorAction SilentlyContinue) {
  Remove-IscsiVirtualDisk -ComputerName $IscsiTargetComputerName -Path $path -ErrorAction Stop
}
if (Test-Path -LiteralPath $path) {
  Remove-Item -LiteralPath $path -Force -ErrorAction Stop
}
if (Test-Path -LiteralPath $path) {
  throw " +:+ dq +:+ "failed to delete iSCSI virtual disk file '$path'" +:+ dq +:+ "
}
@{ ok = $true }
")].

Definition LookupTargetNameByIQN_script (targetIQN : string) : list piece :=
  [Lit "
$targetIQN = '";
     Quoted targetIQN;
     Lit "'
$target = @(Get-IscsiServerTarget -ComputerName $IscsiTargetComputerName -ErrorAction SilentlyContinue | Where-Object { [string]$_.TargetIqn -eq $targetIQN } | Select-Object -First 1)[0]
if ($target) {
  @{ targetName=[string]$target.TargetName }
} else {
  @{ targetName='' }
}
"].

Definition DeleteTarget_script (targetName : string) : list piece :=
  [Lit "
$targetName = '";
     Quoted targetName;
     Lit ("'
$target = Get-IscsiServerTarget -ComputerName $IscsiTargetComputerName -TargetName $targetName -ErrorAction SilentlyContinue
if ($target) {
  if (@($target.LunMappings).Count -gt 0) {
    throw " +:+ dq +:+ "cannot delete iSCSI target '$targetName' because it still has LUN mappings" +:+ dq +:+ "
  }
  Remove-IscsiServerTarget -ComputerName $IscsiTargetComputerName -TargetName $targetName -Confirm:$false -ErrorAction Stop | Out-Null
  if (Get-IscsiServerTarget -ComputerName $IscsiTargetComputerName -TargetName $targetName -ErrorAction SilentlyContinue) {
    throw " +:+ dq +:+ "failed to delete iSCSI target '$targetName'" +:+ dq +:+ "
  }
}
@{ ok = $true }
")].

Definition GetVolumeByName_script (name parentDir : string) : list piece :=
  [Lit "
$parentDir = Resolve-CsiVHDXParentPath '";
     Quoted parentDir;
     Lit "'
$path = Join-Path -Path $parentDir -ChildPath ('";
     Quoted name;
     Lit "' + '.vhdx')
if (-not (Test-Path -LiteralPath $path)) {
  @{ exists=$false }
} else {
  $vd = Get-IscsiVirtualDisk -ComputerName $IscsiTargetComputerName -Path $path
  $targets = @(Get-MappedIscsiTargets -Path $path)
  $lun = if ($targets.Count -gt 0) { 0 } else { -1 }
  $targetName = ''
  $targetIQN = ''
  if ($targets.Count -gt 0) {
    $targetName = [string]$targets[0].TargetName
    $targetIQN = [string]$targets[0].TargetIQN
  }
  @{ exists=$true; path=$path; sizeBytes=[int64]$vd.Size; targetName=$targetName; targetIQN=$targetIQN; lun = $lun }
}
"].

Definition AllowInitiator_script (targetName initiatorIQN : string) : list piece :=
  [Lit "
$t = Get-IscsiServerTarget -ComputerName $IscsiTargetComputerName -TargetName '";
     Quoted targetName;
     Lit "'
$iqns = @(Get-IscsiInitiatorIQNValues $t.InitiatorIds)
if ($iqns -notcontains '";
     Quoted initiatorIQN;
     Lit "') {
  $iqns = $iqns + '";
     Quoted initiatorIQN;
     Lit "'
  $initiatorIds = @($iqns | % { if ($_ -like 'IQN:*') { $_ } else { 'IQN:' + $_ } })
  Set-IscsiServerTarget -ComputerName $IscsiTargetComputerName -TargetName '";
     Quoted targetName;
     Lit "' -InitiatorIds $initiatorIds | Out-Null
}
@{ ok = $true }
"].

Definition DenyInitiator_script (targetName initiatorIQN : string) : list piece :=
  [Lit "
$t = Get-IscsiServerTarget -ComputerName $IscsiTargetComputerName -TargetName '";
     Quoted targetName;
     Lit "' -ErrorAction SilentlyContinue
if ($t) {
  $iqns = @(Get-IscsiInitiatorIQNValues $t.InitiatorIds) | Where-Object { $_ -ne '";
     Quoted initiatorIQN;
     Lit "' }
  $initiatorIds = @($iqns | % { if ($_ -like 'IQN:*') { $_ } else { 'IQN:' + $_ } })
  Set-IscsiServerTarget -ComputerName $IscsiTargetComputerName -TargetName '";
     Quoted targetName;
     Lit "' -InitiatorIds $initiatorIds | Out-Null
}
@{ ok = $true }
"].

Definition GetTargetInitiators_script (targetName : string) : list piece :=
  [Lit "
$t = Get-IscsiServerTarget -ComputerName $IscsiTargetComputerName -TargetName '";
     Quoted targetName;
     Lit "' -ErrorAction SilentlyContinue
if (-not $t) { @{ iqns=@() } } else { @{ iqns = @(Get-IscsiInitiatorIQNValues $t.InitiatorIds) } }
"].

Definition GetDirectoryFreeCapacity_script (parentDir : string) : list piece :=
  [Lit "
$parentDir = Resolve-CsiVHDXParentPath '";
     Quoted parentDir;
     Lit "'
$item = Get-Item -LiteralPath $parentDir
$drive = $item.PSDrive.Name
$psd = Get-PSDrive -Name $drive
@{ free=[int64]$psd.Free }
"].

Definition CreateSnapshot_script (vhdxPath description : string) : list piece :=
  [Lit "
$description = '";
     Quoted description;
     Lit "'
$null = Checkpoint-IscsiVirtualDisk -ComputerName $IscsiTargetComputerName -OriginalPath '";
     Quoted vhdxPath;
     Lit "' -Description $description
$g = $null
for ($i = 0; $i -lt 20; $i++) {
  $g = Get-IscsiVirtualDiskSnapshot -ComputerName $IscsiTargetComputerName -OriginalPath '";
     Quoted vhdxPath;
     Lit ("' -ErrorAction SilentlyContinue |
    Where-Object { $_.Description -eq $description } |
    Sort-Object CreationTime -Descending |
    Select-Object -First 1
  if ($g) { break }
  Start-Sleep -Milliseconds 250
}
if (-not $g) {
  throw " +:+ dq +:+ "Snapshot was not found after Checkpoint-IscsiVirtualDisk completed." +:+ dq +:+ "
}
$createdAt = (Get-Date).ToUniversalTime().ToString('o')
if ($null -ne $g.CreationTime) {
  $createdAt = $g.CreationTime.ToUniversalTime().ToString('o')
}
@{
  snapshotId   = [string]$g.SnapshotId
  originalPath = '");
     Quoted vhdxPath;
     Lit "'
  description  = $g.Description
  createdAt    = $createdAt
  sizeBytes    = 0
}
"].

Definition DeleteSnapshot_vss_script (handle : fileShareSnapshotHandle) : list piece :=
  [Lit "
";
     Lit fileShareShadowCopyPS;
     Lit "
Remove-CsiShadowCopy '";
     Quoted (ShadowID handle);
     Lit "'
@{ ok=$true }
"].

Definition DeleteSnapshot_script (snapshotID : string) : list piece :=
  [Lit "
";
     Lit fileShareShadowCopyPS;
     Lit "
$snapshotID = '";
     Quoted snapshotID;
     Lit "'
$snapshotGuid = [guid]::Empty
if ([guid]::TryParse($snapshotID, [ref]$snapshotGuid) -and (Get-IscsiVirtualDiskSnapshot -ComputerName $IscsiTargetComputerName -SnapshotId $snapshotID -ErrorAction SilentlyContinue)) {
  Remove-IscsiVirtualDiskSnapshot -ComputerName $IscsiTargetComputerName -SnapshotId $snapshotID -ErrorAction SilentlyContinue
} elseif (Test-Path -LiteralPath $snapshotID -PathType Leaf) {
  $meta = Get-Content -LiteralPath $snapshotID -Raw | ConvertFrom-Json
  if ($meta.snapshotType -eq 'vss' -and $meta.shadowId) {
    Remove-CsiShadowCopy ([string]$meta.shadowId)
  }
  Remove-Item -LiteralPath $snapshotID -Force -ErrorAction SilentlyContinue
} elseif (Test-Path -LiteralPath $snapshotID -PathType Container) {
  Remove-Item -LiteralPath $snapshotID -Recurse -Force -ErrorAction SilentlyContinue
}
@{ ok=$true }
"].

Definition ListSnapshots_script (vhdxPath : string) : list piece :=
  [Lit "
$sn = @(Get-IscsiVirtualDiskSnapshot -ComputerName $IscsiTargetComputerName -OriginalPath '";
     Quoted vhdxPath;
     Lit "' -ErrorAction SilentlyContinue |
  Select-Object @{n='snapshotId';e={$_.SnapshotId.ToString()}},
                @{n='originalPath';e={'";
     Quoted vhdxPath;
     Lit "'}},
                @{n='description';e={$_.Description}},
                @{n='createdAt';e={if ($null -ne $_.CreationTime) { $_.CreationTime.ToUniversalTime().ToString('o') } else { (Get-Date).ToUniversalTime().ToString('o') }}},
                @{n='sizeBytes';e={0}})
@{ snapshots=$sn }
"].

Definition ExportSnapshotAsVirtualDisk_script (snapshotID : string) : list piece :=
  [Lit "
$vd = Export-IscsiVirtualDiskSnapshot -ComputerName $IscsiTargetComputerName -SnapshotId '";
     Quoted snapshotID;
     Lit "'
@{ path = $vd.Path }
"].

Definition ResizeVirtualDisk_script (vhdxPath : string) (newSizeBytes : Z) : list piece :=
  [Lit "
Resize-IscsiVirtualDisk -ComputerName $IscsiTargetComputerName -Path '";
     Quoted vhdxPath;
     Lit "' -SizeBytes ";
     Number newSizeBytes;
     Lit " | Out-Null
$vd = Get-IscsiVirtualDisk -ComputerName $IscsiTargetComputerName -Path '";
     Quoted vhdxPath;
     Lit "'
@{ sizeBytes=[int64]$vd.Size }
"].

Definition GetVolumeInfo_script (vhdxPath : string) : list piece :=
  [Lit "
if (-not (Test-Path -LiteralPath '";
     Quoted vhdxPath;
     Lit "')) {
  @{ path=''; sizeBytes=0; targets=@(); lun=$null }
} else {
  $vd = Get-IscsiVirtualDisk -ComputerName $IscsiTargetComputerName -Path '";
     Quoted vhdxPath;
     Lit "'
  $targets = @(Get-MappedIscsiTargetNames -Path '";
     Quoted vhdxPath;
     Lit "')
  $lun = if ($targets.Count -gt 0) { 0 } else { $null }
  @{ path='";
     Quoted vhdxPath;
     Lit "'; sizeBytes=[int64]$vd.Size; targets=$targets; lun=$lun }
}
"].

Definition MountFileShareVirtualDisk_script (vhdxPath mountPath : string) : list piece :=
  [Lit "
";
     Lit fileShareVHDXPS;
     Lit "
Mount-CsiFileShareVirtualDisk '";
     Quoted vhdxPath;
     Lit "' '";
     Quoted mountPath;
     Lit "'
@{ ok=$true }
"].

Definition UnmountFileShareVirtualDisk_script (vhdxPath mountPath : string) : list piece :=
  [Lit "
";
     Lit fileShareVHDXPS;
     Lit "
Dismount-CsiFileShareVirtualDisk '";
     Quoted vhdxPath;
     Lit "' '";
     Quoted mountPath;
     Lit "'
@{ ok=$true }
"].

Definition CreateNfsShare_script (name parentDir permission clientType : string) (allowRootAccess : bool)
  (clients : list string) (sizeBytes : Z) (opt : NfsShareOptions) : list piece :=
  [Lit "
Import-Module NFS -ErrorAction Stop
$name = '";
     Quoted name;
     Lit "'
$path = Join-Path -Path '";
     Quoted parentDir;
     Lit "' -ChildPath $name
New-Item -ItemType Directory -Path $path -Force | Out-Null
$share = Get-NfsShare -Name $name -ErrorAction SilentlyContinue
if (-not $share) {
  $params = @{ Name=$name; Path=$path; Permission='";
     Quoted permission;
     Lit "'; AllowRootAccess=";
     Lit (psBoolLiteral allowRootAccess);
     Lit " }
  "]
  ++ nfsShareParamsScript opt
  ++ [Lit "
  New-NfsShare @params | Out-Null
}
$clients = "]
  ++ psStringArray clients
  ++ [Lit "
foreach ($client in $clients) {
  Grant-NfsSharePermission -Name $name -ClientName $client -ClientType '";
     Quoted clientType;
     Lit "' -Permission '";
     Quoted permission;
     Lit "' -AllowRootAccess ";
     Lit (psBoolLiteral allowRootAccess);
     Lit " -ErrorAction SilentlyContinue | Out-Null
}
@{ name=$name; protocol='nfs'; nfsServer=$env:COMPUTERNAME; nfsExportPath=('/' + $name); vhdxPath=$path; sizeBytes=[int64]0; capacityBytes=[int64]";
     Number sizeBytes;
     Lit " }
"].

Definition GetNfsShare_script (name parentDir : string) : list piece :=
  [Lit "
Import-Module NFS -ErrorAction Stop
$name = '";
     Quoted name;
     Lit "'
$path = Join-Path -Path '";
     Quoted parentDir;
     Lit "' -ChildPath $name
$share = Get-NfsShare -Name $name -ErrorAction SilentlyContinue
if (-not $share) {
  @{ exists=$false }
} else {
  $cap = [int64]0
  $metaPath = Join-Path -Path $share.Path -ChildPath '.csi-volume.json'
  if (Test-Path -LiteralPath $metaPath) { $cap = [int64]((Get-Content -LiteralPath $metaPath -Raw | ConvertFrom-Json).capacityBytes) }
  @{ exists=$true; name=$name; protocol='nfs'; nfsServer=$env:COMPUTERNAME; nfsExportPath=('/' + $name); vhdxPath=$share.Path; sizeBytes=[int64]0; capacityBytes=$cap }
}
"].

Definition DeleteNfsShare_script (name path : string) : list piece :=
  [Lit "
Import-Module NFS -ErrorAction Stop
";
     Lit fileShareVHDXPS;
     Lit "
$name = '";
     Quoted name;
     Lit "'
$path = '";
     Quoted path;
     Lit ("'
$share = Get-NfsShare -Name $name -ErrorAction SilentlyContinue
if ($share -and -not $path) {
  $path = $share.Path
}
if ($share) {
  Remove-NfsShare -Name $name -Confirm:$false -ErrorAction Stop
  if (Get-NfsShare -Name $name -ErrorAction SilentlyContinue) {
    throw " +:+ dq +:+ "failed to delete NFS share '$name'" +:+ dq +:+ "
  }
}
if ($path -and (Test-Path -LiteralPath $path)) {
  if (Get-Command Remove-FsrmQuota -ErrorAction SilentlyContinue) {
    if (Get-FsrmQuota -Path $path -ErrorAction SilentlyContinue) {
      Remove-FsrmQuota -Path $path -Confirm:$false -ErrorAction Stop | Out-Null
      if (Get-FsrmQuota -Path $path -ErrorAction SilentlyContinue) {
        throw " +:+ dq +:+ "failed to delete quota for NFS share path '$path'" +:+ dq +:+ "
      }
    }
  }
  if (-not (Test-CsiPartitionAccessPath $path)) {
    Remove-Item -LiteralPath $path -Recurse -Force -ErrorAction Stop
    if (Test-Path -LiteralPath $path) {
      throw " +:+ dq +:+ "failed to delete NFS share path '$path'" +:+ dq +:+ "
    }
  } else {
    throw " +:+ dq +:+ "cannot delete NFS share path '$path' because it is still mounted" +:+ dq +:+ "
  }
}
@{ ok=$true }
")].

Definition CreateSmbShare_script (name parentDir : string) (sizeBytes : Z)
  (fullAccess changeAccess readAccess : list string) (opt : SmbShareOptions) : list piece :=
  [Lit "
Import-Module SmbShare -ErrorAction Stop
$name = '";
     Quoted name;
     Lit "'
$path = Join-Path -Path '";
     Quoted parentDir;
     Lit "' -ChildPath $name
New-Item -ItemType Directory -Path $path -Force | Out-Null
$share = Get-SmbShare -Name $name -ErrorAction SilentlyContinue
if (-not $share) {
  $params = @{ Name=$name; Path=$path }
  $full = "]
  ++ psStringArray fullAccess
  ++ [Lit "
  $change = "]
  ++ psStringArray changeAccess
  ++ [Lit "
  $read = "]
  ++ psStringArray readAccess
  ++ [Lit "
  if ($full.Count -gt 0) { $params.FullAccess = $full }
  if ($change.Count -gt 0) { $params.ChangeAccess = $change }
  if ($read.Count -gt 0) { $params.ReadAccess = $read }
  "]
  ++ smbShareParamsScript opt
  ++ [Lit "
  New-SmbShare @params | Out-Null
}
@{ name=$name; protocol='smb'; smbServer=$env:COMPUTERNAME; smbShareName=$name; vhdxPath=$path; sizeBytes=[int64]0; capacityBytes=[int64]";
     Number sizeBytes;
     Lit " }
"].

Definition GetSmbShare_script (name : string) : list piece :=
  [Lit "
Import-Module SmbShare -ErrorAction Stop
$name = '";
     Quoted name;
     Lit "'
$share = Get-SmbShare -Name $name -ErrorAction SilentlyContinue
if (-not $share) {
  @{ exists=$false }
} else {
  $cap = [int64]0
  $metaPath = Join-Path -Path $share.Path -ChildPath '.csi-volume.json'
  if (Test-Path -LiteralPath $metaPath) { $cap = [int64]((Get-Content -LiteralPath $metaPath -Raw | ConvertFrom-Json).capacityBytes) }
  @{ exists=$true; name=$name; protocol='smb'; smbServer=$env:COMPUTERNAME; smbShareName=$name; vhdxPath=$share.Path; sizeBytes=[int64]0; capacityBytes=$cap }
}
"].

Definition DeleteSmbShare_script (name path : string) : list piece :=
  [Lit "
Import-Module SmbShare -ErrorAction Stop
";
     Lit fileShareVHDXPS;
     Lit "
$name = '";
     Quoted name;
     Lit "'
$path = '";
     Quoted path;
     Lit ("'
$share = Get-SmbShare -Name $name -ErrorAction SilentlyContinue
if ($share -and -not $path) {
  $path = $share.Path
}
if ($share) {
  Remove-SmbShare -Name $name -Force -ErrorAction Stop
  if (Get-SmbShare -Name $name -ErrorAction SilentlyContinue) {
    throw " +:+ dq +:+ "failed to delete SMB share '$name'" +:+ dq +:+ "
  }
}
if ($path -and (Test-Path -LiteralPath $path)) {
  if (Get-Command Remove-FsrmQuota -ErrorAction SilentlyContinue) {
    if (Get-FsrmQuota -Path $path -ErrorAction SilentlyContinue) {
      Remove-FsrmQuota -Path $path -Confirm:$false -ErrorAction Stop | Out-Null
      if (Get-FsrmQuota -Path $path -ErrorAction SilentlyContinue) {
        throw " +:+ dq +:+ "failed to delete quota for SMB share path '$path'" +:+ dq +:+ "
      }
    }
  }
  if (-not (Test-CsiPartitionAccessPath $path)) {
    Remove-Item -LiteralPath $path -Recurse -Force -ErrorAction Stop
    if (Test-Path -LiteralPath $path) {
      throw " +:+ dq +:+ "failed to delete SMB share path '$path'" +:+ dq +:+ "
    }
  } else {
    throw " +:+ dq +:+ "cannot delete SMB share path '$path' because it is still mounted" +:+ dq +:+ "
  }
}
@{ ok=$true }
")].

Definition ResizeFileShare_script (path : string) (newSizeBytes : Z) : list piece :=
  [Lit "
$path = '";
     Quoted path;
     Lit "'
$bytes = [int64]";
     Number newSizeBytes;
     Lit "
New-Item -ItemType Directory -Path $path -Force | Out-Null
$quotaEnforced = $false
if (Get-Command New-FsrmQuota -ErrorAction SilentlyContinue) {
  Import-Module FileServerResourceManager -ErrorAction SilentlyContinue
  try {
    $quota = Get-FsrmQuota -Path $path -ErrorAction SilentlyContinue
    if ($quota) { Set-FsrmQuota -Path $path -Size $bytes -ErrorAction Stop | Out-Null } else { New-FsrmQuota -Path $path -Size $bytes -ErrorAction Stop | Out-Null }
    $quotaEnforced = $true
  } catch { $quotaEnforced = $false }
}
@{ capacityBytes=$bytes; quotaEnforced=[bool]$quotaEnforced; updatedAt=(Get-Date).ToUniversalTime().ToString('o') } | ConvertTo-Json -Compress | Set-Content -LiteralPath (Join-Path -Path $path -ChildPath '.csi-volume.json') -Encoding UTF8
@{ capacityBytes=$bytes }
"].

Definition RestoreSnapshotAsFileShare_vss_script (handle : fileShareSnapshotHandle) (destinationPath : string) : list piece :=
  [Lit "
";
     Lit fileShareCopyItemPS;
     Lit "
";
     Lit fileShareShadowCopyPS;
     Lit "
$shadowID = '";
     Quoted (ShadowID handle);
     Lit "'
$sourceRelativePath = '";
     Quoted (SourceRelativePath handle);
     Lit "'
$storedShadowPath = '";
     Quoted (ShadowPath handle);
     Lit ("'
$shadow = Get-CsiShadowCopy $shadowID
if (-not $shadow) {
  throw " +:+ dq +:+ "file-share VSS snapshot was not found: $shadowID" +:+ dq +:+ "
}
if (-not [string]::IsNullOrWhiteSpace($sourceRelativePath)) {
  $sourcePath = Join-CsiShadowPath ([string]$shadow.DeviceObject) $sourceRelativePath
} else {
  $sourcePath = $storedShadowPath
}
if (-not (Test-Path -LiteralPath $sourcePath -PathType Container)) {
  throw " +:+ dq +:+ "file-share snapshot path not found: $sourcePath" +:+ dq +:+ "
}
Copy-CsiDirectoryTree $sourcePath '");
     Quoted destinationPath;
     Lit "'
@{ ok=$true }
"].

Definition RestoreSnapshotAsFileShare_script (snapshotID destinationPath : string) : list piece :=
  [Lit "
";
     Lit fileShareCopyPS;
     Lit "
";
     Lit fileShareCopyItemPS;
     Lit "
";
     Lit fileShareShadowCopyPS;
     Lit "
$snapshotID = '";
     Quoted snapshotID;
     Lit ("'
$sourcePath = $snapshotID
$isVssSnapshot = $false
if (Test-Path -LiteralPath $snapshotID -PathType Leaf) {
  $meta = Get-Content -LiteralPath $snapshotID -Raw | ConvertFrom-Json
  if ($meta.snapshotType -eq 'vss') {
    $isVssSnapshot = $true
    $shadow = Get-CsiShadowCopy ([string]$meta.shadowId)
    if (-not $shadow) {
      throw " +:+ dq +:+ "file-share VSS snapshot was not found: $($meta.shadowId)" +:+ dq +:+ "
    }
    $sourcePath = [string]$meta.shadowPath
    if ([string]::IsNullOrWhiteSpace($sourcePath) -and $meta.sourceRelativePath) {
      $sourcePath = Join-CsiShadowPath ([string]$shadow.DeviceObject) ([string]$meta.sourceRelativePath)
    }
  } elseif ($meta.snapshotId) {
    $sourcePath = [string]$meta.snapshotId
  }
}
if (-not (Test-Path -LiteralPath $sourcePath -PathType Container)) {
  throw " +:+ dq +:+ "file-share snapshot path not found: $sourcePath" +:+ dq +:+ "
}
if ($isVssSnapshot) {
  Copy-CsiDirectoryTree $sourcePath '");
     Quoted destinationPath;
     Lit "'
} else {
  Copy-CsiDirectoryMirror $sourcePath '";
     Quoted destinationPath;
     Lit "'
}
@{ ok=$true }
"].

(** What [runPS] makes of a script: errors end it, and its result is printed as JSON. *)
Definition wrapped_script (PSModuleImport : string) (script : list piece) : list piece :=
  [Lit "$ErrorActionPreference='Stop'; "; Lit PSModuleImport; Lit "; $IscsiTargetComputerName='localhost'; function Resolve-CsiVHDXParentPath([string]$ParentDir) { $path = $ParentDir; if ([string]::IsNullOrWhiteSpace($path)) { $path = [Environment]::GetEnvironmentVariable('CSI_VHDX_PARENT_PATH', 'Machine') }; if ([string]::IsNullOrWhiteSpace($path)) { $path = [Environment]::GetEnvironmentVariable('CSI_VHDX_PARENT_PATH', 'Process') }; if ([string]::IsNullOrWhiteSpace($path)) { $systemDrive = $env:SystemDrive; if ([string]::IsNullOrWhiteSpace($systemDrive)) { $systemDrive = 'C:' }; $path = $systemDrive.TrimEnd('\') + '\iSCSIVirtualDisks' }; New-Item -ItemType Directory -Force -Path $path | Out-Null; return (Get-Item -LiteralPath $path).FullName.TrimEnd([char[]]@('\','/')) }; function Get-MappedIscsiTargets([string]$Path) { @(Get-IscsiServerTarget -ComputerName $IscsiTargetComputerName -ErrorAction SilentlyContinue | ForEach-Object { $target = $_; @($target.LunMappings) | Where-Object { $_.Path -eq $Path } | ForEach-Object { [pscustomobject]@{ TargetName=[string]$target.TargetName; TargetIQN=[string]$target.TargetIqn } } }) }; function Get-MappedIscsiTargetNames([string]$Path) { @(Get-MappedIscsiTargets -Path $Path | ForEach-Object { $_.TargetName }) }; function Get-IscsiInitiatorIQNValues($InitiatorIds) { @($InitiatorIds | ForEach-Object { $raw = ''; if ($_ -is [string]) { $raw = $_ } elseif ($_.PSObject.Properties['IQN'] -and $_.IQN) { $raw = $_.IQN } elseif ($_.PSObject.Properties['Value'] -and $_.Method -eq 'Iqn') { $raw = $_.Value }; if (-not [string]::IsNullOrWhiteSpace($raw)) { if ($raw -like 'IQN:*') { $raw.Substring(4) } else { $raw } } }) }; try { $result = & { "]
  ++ script
  ++ [Lit " }; $result | ConvertTo-Json -Compress -Depth 6 } catch { Write-Error $_; exit 1 }"].
