(* ===== verification/WinRM.v ===== *)
(** * The WinRM back end ([pkg/iscsi/backend_winrm.go], [backend_fileshare.go],
    [newWinRMBackendFromEnv] of [driver.go])

    Each method of the storage back end as a program over a WinRM client: it sends
    a PowerShell script and reads the JSON the script prints.  The client library is
    third-party, a service here; the JSON form of a time is a parameter. *)
From S2P Require Import Prelude GoStrings GoStrconv GoNet GoBase64 GoJson GoJsonFacts GoDuration VolumeID VolumeTypes.
From S2P Require Import Params Prog Driver Backend PowerShell WinRMScripts.

(** ** Reading what a script prints *)

(** [json.Unmarshal] into a [map[string]any]. *)
Definition unmarshal_map (s : string) : option unit :=
  match parse_json s with Some (JObj _) | Some JNull => Some tt | _ => None end.

(** Structs with one and two fields. *)
Definition unmarshal1 {A} (key : string) (set : json -> A -> A * bool) (zero : A) (s : string) : option A :=
  unmarshal [(key, set)] zero s.
Definition on_fst {A B} (set : json -> A -> A * bool) (j : json) (cur : A * B) : (A * B) * bool :=
  let '(a, ok) := set j cur.1 in ((a, cur.2), ok).
Definition on_snd {A B} (set : json -> B -> B * bool) (j : json) (cur : A * B) : (A * B) * bool :=
  let '(b, ok) := set j cur.2 in ((cur.1, b), ok).
Definition unmarshal2 {A B} (key1 : string) (set1 : json -> A -> A * bool) (key2 : string)
  (set2 : json -> B -> B * bool) (zero : A * B) (s : string) : option (A * B) :=
  unmarshal [(key1, on_fst set1); (key2, on_snd set2)] zero s.

(** ** The back end and its client *)

Record Endpoint := { Host : string; Port : Z; HTTPS : bool; Insecure : bool; eTimeout : Z }.
Record WinRMBackend := {
  wEndpoint : option Endpoint;
  User : string;
  Pass : string;
  Auth : string;
  PSModuleImport : string;
  wTimeout : Z;
  wDebug : bool
}.

Definition normalizeWinRMAuth (auth : string) : string :=
  let a := ToLower (TrimSpace auth) in
  if ((a == "") || (a == "basic"))%bool then "basic"
  else if ((a == "ntlm") || (a == "negotiate"))%bool then "ntlm"
  else a.

Definition NewWinRMBackend (host : string) (port : Z) (https insecure : bool) (user pass : string)
  (timeout0 : Z) : WinRMBackend :=
  let timeout := if (timeout0 <=? 0)%Z then (60 * second)%Z else timeout0 in
  {| wEndpoint := Some {| Host := host; Port := port; HTTPS := https; Insecure := insecure;
                          eTimeout := timeout |};
     User := user; Pass := pass; Auth := "basic"; PSModuleImport := "Import-Module IscsiTarget";
     wTimeout := timeout; wDebug := false |}.

Definition endpointURL (b : option WinRMBackend) : string :=
  match b with
  | None => "<nil>"
  | Some b =>
      match wEndpoint b with
      | None => "<nil>"
      | Some ep =>
          let scheme := if HTTPS ep then "https" else "http" in
          let host := TrimSpace (Host ep) in
          let host := if host == "" then "<empty-host>" else host in
          scheme +:+ "://" +:+ JoinHostPort host (Itoa (Port ep)) +:+ "/wsman"
      end
  end.

(** Making a client for an endpoint (which may be nil), with its credentials and transport,
    and running a command with some input: a run
    may be given up, fail, or end. *)
Inductive run_outcome := RunCanceled | RunFailed | RunEnded (stdout : string) (exitCode : Z).
Inductive winrm_op :=
| NewClient (endpoint : option Endpoint) (user password : string) (ntlm : bool)
| RunCommand (command stdin : string).
Definition winrm_resp (o : winrm_op) : Type :=
  match o with NewClient _ _ _ _ => bool | RunCommand _ _ => run_outcome end.
Definition winrm : service := Service winrm_op winrm_resp.

Definition clientParameters (b : WinRMBackend) : res bool :=
  let auth := normalizeWinRMAuth (Auth b) in
  if auth == "basic" then Ok false
  else if auth == "ntlm" then Ok true
  else Err (PlainErr "unsupported WinRM auth mode %q; supported values are basic and ntlm").

Definition module_import (b : WinRMBackend) : string :=
  if PSModuleImport b == "" then "Import-Module IscsiTarget" else PSModuleImport b.

(** [read] is [json.Unmarshal] into the type of the result. *)
Definition runPS {A} (b : WinRMBackend) (script : list piece) (read : string -> option A) : go winrm A :=
  ntlm ← lift (clientParameters b);
  client ← call (E := winrm) (NewClient (wEndpoint b) (User b) (Pass b) ntlm);
  if negb client then lift (Err (PlainErr "winrm.NewClient: %w"))
  else
    outcome ← call (E := winrm)
                (RunCommand "Invoke-Expression ([Console]::In.ReadToEnd())"
                   (render (wrapped_script (module_import b) script)));
    match outcome with
    | RunCanceled => lift (Err (PlainErr "winrm run failed: context canceled: %w"))
    | RunFailed => lift (Err (PlainErr "winrm run failed: %w; stderr=%s"))
    | RunEnded stdout exitCode =>
        if negb (exitCode =? 0)%Z then lift (Err (PlainErr "winrm run failed: exit code %d; stderr=%s"))
        else if TrimSpace stdout != "" then
          match read stdout with
          | Some a => ok a
          | None => lift (Err (PlainErr "json unmarshal failed: %w; raw=%s"))
          end
        else lift (Err (PlainErr "winrm run failed: expected JSON output but stdout was empty; stderr=%s"))
    end.

Definition validation_script : list piece :=
  [Lit "@{ ok=$true; computerName=[string]$env:COMPUTERNAME; userName=[string][Security.Principal.WindowsIdentity]::GetCurrent().Name }"].

Definition ValidateConnection (b : option WinRMBackend) : go winrm unit :=
  match b with
  | None => lift (Err (PlainErr "WinRM backend is nil"))
  | Some b =>
      match wEndpoint b with
      | None => lift (Err (PlainErr "WinRM endpoint is nil"))
      | Some _ =>
          catch (runPS b validation_script
                   (unmarshal [("ok", on_fst set_bool); ("computerName", on_snd (on_fst set_string));
                               ("userName", on_snd (on_snd set_string))] (false, ("", "")))) (fun r =>
            match r with
            | Ok (true, _) => ok tt
            | Ok (false, _) => lift (Err (PlainErr "WinRM connection validation failed for %s: remote probe returned ok=false"))
            | Err _ => lift (Err (PlainErr "WinRM connection validation failed for %s: %w"))
            | Panicked => Ret Panicked
            end)
      end
  end.

(** ** iSCSI methods *)

Section methods.
(** [time.Time]'s [UnmarshalJSON], in nanoseconds, of the text of a JSON string (which
    has no escapes in a time). *)
Context (parse_time : string -> option Z).
Context (b : WinRMBackend).

Definition run_ok (script : list piece) : go winrm unit := runPS b script unmarshal_map.

Definition EnsureTarget (targetName0 targetIQN0 : string) : go winrm string :=
  let targetName := TrimSpace targetName0 in
  let targetIQN := TrimSpace targetIQN0 in
  if targetName == "" then lift (Err (PlainErr "target name is required"))
  else
    '(_, iqn) ← runPS b (EnsureTarget_script targetName targetIQN)
                  (unmarshal2 "targetName" set_string "targetIQN" set_string ("", ""));
    if TrimSpace iqn == "" then lift (Err (PlainErr "target %q has no TargetIqn")) else ok iqn.

Definition ConfigureTargetChap (targetName0 : string) (opts : TargetChapOptions) : go winrm unit :=
  let targetName := TrimSpace targetName0 in
  if targetName == "" then lift (Err (PlainErr "target name is required"))
  else if negb (Enabled opts) then ok tt
  else run_ok (ConfigureTargetChap_script targetName opts).

Definition CreateVirtualDisk (name parentDir : string) (sizeBytes : Z) : go winrm (string * Z) :=
  runPS b (CreateVirtualDisk_script name parentDir sizeBytes)
    (unmarshal2 "path" set_string "sizeBytes" (set_int 64) ("", 0%Z)).

Definition MapDiskToTarget (targetName vhdxPath : string) : go winrm Z :=
  runPS b (MapDiskToTarget_script targetName vhdxPath) (unmarshal1 "lun" (set_int 32) 0%Z).

Definition UnmapDiskFromTarget (targetName vhdxPath : string) : go winrm unit :=
  run_ok (UnmapDiskFromTarget_script targetName vhdxPath).

Definition DeleteVirtualDisk (vhdxPath : string) : go winrm unit :=
  run_ok (DeleteVirtualDisk_script vhdxPath).

Definition LookupTargetNameByIQN (targetIQN0 : string) : go winrm string :=
  let targetIQN := TrimSpace targetIQN0 in
  if targetIQN == "" then ok ""
  else
    targetName ← runPS b (LookupTargetNameByIQN_script targetIQN) (unmarshal1 "targetName" set_string "");
    ok (TrimSpace targetName).

Definition DeleteTarget (targetName0 : string) : go winrm unit :=
  let targetName := TrimSpace targetName0 in
  if targetName == "" then ok tt else run_ok (DeleteTarget_script targetName).

Definition no_volume : FoundVolume :=
  {| fv_exists := false; fv_vhdxPath := ""; fv_sizeBytes := 0; fv_targetName := ""; fv_targetIQN := "";
     fv_lun := -1 |}.
Definition zero_found : FoundVolume :=
  {| fv_exists := false; fv_vhdxPath := ""; fv_sizeBytes := 0; fv_targetName := ""; fv_targetIQN := "";
     fv_lun := 0 |}.
Definition found_fields : list (field (A := FoundVolume)) :=
  let found e p s n i l := {| fv_exists := e; fv_vhdxPath := p; fv_sizeBytes := s; fv_targetName := n;
                              fv_targetIQN := i; fv_lun := l |} in
  [("exists", fun j v => let '(x, ok) := set_bool j (fv_exists v) in
      (found x (fv_vhdxPath v) (fv_sizeBytes v) (fv_targetName v) (fv_targetIQN v) (fv_lun v), ok));
   ("path", fun j v => let '(x, ok) := set_string j (fv_vhdxPath v) in
      (found (fv_exists v) x (fv_sizeBytes v) (fv_targetName v) (fv_targetIQN v) (fv_lun v), ok));
   ("sizeBytes", fun j v => let '(x, ok) := set_int 64 j (fv_sizeBytes v) in
      (found (fv_exists v) (fv_vhdxPath v) x (fv_targetName v) (fv_targetIQN v) (fv_lun v), ok));
   ("targetName", fun j v => let '(x, ok) := set_string j (fv_targetName v) in
      (found (fv_exists v) (fv_vhdxPath v) (fv_sizeBytes v) x (fv_targetIQN v) (fv_lun v), ok));
   ("targetIQN", fun j v => let '(x, ok) := set_string j (fv_targetIQN v) in
      (found (fv_exists v) (fv_vhdxPath v) (fv_sizeBytes v) (fv_targetName v) x (fv_lun v), ok));
   ("lun", fun j v => let '(x, ok) := set_int 32 j (fv_lun v) in
      (found (fv_exists v) (fv_vhdxPath v) (fv_sizeBytes v) (fv_targetName v) (fv_targetIQN v) x, ok))].

Definition GetVolumeByName (name parentDir : string) : go winrm FoundVolume :=
  v ← runPS b (GetVolumeByName_script name parentDir) (unmarshal found_fields zero_found);
  ok (if fv_exists v then v else no_volume).

Definition AllowInitiator (targetName initiatorIQN : string) : go winrm unit :=
  run_ok (AllowInitiator_script targetName initiatorIQN).
Definition DenyInitiator (targetName initiatorIQN : string) : go winrm unit :=
  run_ok (DenyInitiator_script targetName initiatorIQN).

Definition GetTargetInitiators (targetName : string) : go winrm (list string) :=
  runPS b (GetTargetInitiators_script targetName) (unmarshal1 "iqns" (set_list set_string "") []).

Definition GetDirectoryFreeCapacity (parentDir : string) : go winrm Z :=
  runPS b (GetDirectoryFreeCapacity_script parentDir) (unmarshal1 "free" (set_int 64) 0%Z).

Definition ResizeVirtualDisk (vhdxPath : string) (newSizeBytes : Z) : go winrm Z :=
  runPS b (ResizeVirtualDisk_script vhdxPath newSizeBytes) (unmarshal1 "sizeBytes" (set_int 64) 0%Z).

Definition GetVolumeInfo (vhdxPath : string) : go winrm VolumeInfo :=
  '(path, sizeBytes, (targets, lun)) ←
    runPS b (GetVolumeInfo_script vhdxPath)
      (unmarshal [("path", on_fst (on_fst set_string)); ("sizeBytes", on_fst (on_snd (set_int 64)));
                  ("targets", on_snd (on_fst (set_list set_string "")));
                  ("lun", on_snd (on_snd (set_int_ptr 32)))]
         (("", 0%Z), ([], None)));
  ok {| iVolumeName := ""; iProtocol := ""; iTargetPortal := ""; iTargetName := ""; iTargetIQN := "";
        iLUN := LUNPtrInt32 lun; iVHDXPath := path; iSharePath := ""; iNfsServer := "";
        iNfsExportPath := ""; iSmbServer := ""; iSmbShareName := ""; iCapacityBytes := 0;
        iCreatedAt := zero_time; iSizeBytes := sizeBytes; iTargets := targets |}.
(** ** Snapshots *)

(** A field of the output that is checked but not used. *)
Definition unused {A B} (set : json -> B -> B * bool) (zero : B) (j : json) (cur : A) : A * bool :=
  (cur, (set j zero).2).

(** The fields of [winRMSnapshotOutput]. *)
Definition snapshot_fields : list (field (A := SnapshotInfo)) :=
  let snap i p d t n := {| SnapshotID := i; OriginalPath := p; SourceVolume := ""; Description := d;
                           sCreatedAt := t; sSizeBytes := n; ReadyToUse := false |} in
  [("snapshotId", fun j s => let '(x, ok) := set_string j (SnapshotID s) in
      (snap x (OriginalPath s) (Description s) (sCreatedAt s) (sSizeBytes s), ok));
   ("originalPath", fun j s => let '(x, ok) := set_string j (OriginalPath s) in
      (snap (SnapshotID s) x (Description s) (sCreatedAt s) (sSizeBytes s), ok));
   ("description", fun j s => let '(x, ok) := set_string j (Description s) in
      (snap (SnapshotID s) (OriginalPath s) x (sCreatedAt s) (sSizeBytes s), ok));
   ("createdAt", fun j s => let '(x, ok) := (set_time parse_time) j (sCreatedAt s) in
      (snap (SnapshotID s) (OriginalPath s) (Description s) x (sSizeBytes s), ok));
   ("sizeBytes", fun j s => let '(x, ok) := set_int 64 j (sSizeBytes s) in
      (snap (SnapshotID s) (OriginalPath s) (Description s) (sCreatedAt s) x, ok))].

Definition is_vhdx (path : string) : bool := HasSuffix (ToLower (TrimSpace path)) ".vhdx".

Definition CreateSnapshot (vhdxPath description : string) : go winrm SnapshotInfo :=
  if negb (is_vhdx vhdxPath)
  then lift (Err (PlainErr "directory-backed file-share snapshots are not supported; use a VHDX-backed NFS/SMB driver"))
  else
    runPS b (CreateSnapshot_script vhdxPath description)
      (unmarshal (snapshot_fields
                  ++ map (fun key => (key, unused set_string ""))
                       ["snapshotType"; "shadowId"; "shadowDeviceObject"; "shadowPath"; "sourceRelativePath"])
         zero_SnapshotInfo).

Definition handle_fields : list (field (A := fileShareSnapshotHandle)) :=
  let handle y i o p r g d t n :=
    {| SnapshotType := y; ShadowID := i; ShadowDeviceObject := o; ShadowPath := p;
       SourceRelativePath := r; hOriginalPath := g; hDescription := d; hCreatedAt := t; hSizeBytes := n |} in
  [("snapshotType", fun j h => let '(x, ok) := set_string j (SnapshotType h) in
      (handle x (ShadowID h) (ShadowDeviceObject h) (ShadowPath h) (SourceRelativePath h)
         (hOriginalPath h) (hDescription h) (hCreatedAt h) (hSizeBytes h), ok));
   ("shadowId", fun j h => let '(x, ok) := set_string j (ShadowID h) in
      (handle (SnapshotType h) x (ShadowDeviceObject h) (ShadowPath h) (SourceRelativePath h)
         (hOriginalPath h) (hDescription h) (hCreatedAt h) (hSizeBytes h), ok));
   ("shadowDeviceObject", fun j h => let '(x, ok) := set_string j (ShadowDeviceObject h) in
      (handle (SnapshotType h) (ShadowID h) x (ShadowPath h) (SourceRelativePath h)
         (hOriginalPath h) (hDescription h) (hCreatedAt h) (hSizeBytes h), ok));
   ("shadowPath", fun j h => let '(x, ok) := set_string j (ShadowPath h) in
      (handle (SnapshotType h) (ShadowID h) (ShadowDeviceObject h) x (SourceRelativePath h)
         (hOriginalPath h) (hDescription h) (hCreatedAt h) (hSizeBytes h), ok));
   ("sourceRelativePath", fun j h => let '(x, ok) := set_string j (SourceRelativePath h) in
      (handle (SnapshotType h) (ShadowID h) (ShadowDeviceObject h) (ShadowPath h) x
         (hOriginalPath h) (hDescription h) (hCreatedAt h) (hSizeBytes h), ok));
   ("originalPath", fun j h => let '(x, ok) := set_string j (hOriginalPath h) in
      (handle (SnapshotType h) (ShadowID h) (ShadowDeviceObject h) (ShadowPath h) (SourceRelativePath h)
         x (hDescription h) (hCreatedAt h) (hSizeBytes h), ok));
   ("description", fun j h => let '(x, ok) := set_string j (hDescription h) in
      (handle (SnapshotType h) (ShadowID h) (ShadowDeviceObject h) (ShadowPath h) (SourceRelativePath h)
         (hOriginalPath h) x (hCreatedAt h) (hSizeBytes h), ok));
   ("createdAt", fun j h => let '(x, ok) := (set_time parse_time) j (hCreatedAt h) in
      (handle (SnapshotType h) (ShadowID h) (ShadowDeviceObject h) (ShadowPath h) (SourceRelativePath h)
         (hOriginalPath h) (hDescription h) x (hSizeBytes h), ok));
   ("sizeBytes", fun j h => let '(x, ok) := set_int 64 j (hSizeBytes h) in
      (handle (SnapshotType h) (ShadowID h) (ShadowDeviceObject h) (ShadowPath h) (SourceRelativePath h)
         (hOriginalPath h) (hDescription h) (hCreatedAt h) x, ok))].
Definition zero_handle : fileShareSnapshotHandle :=
  {| SnapshotType := ""; ShadowID := ""; ShadowDeviceObject := ""; ShadowPath := "";
     SourceRelativePath := ""; hOriginalPath := ""; hDescription := ""; hCreatedAt := zero_time;
     hSizeBytes := 0 |}.

Definition fileShareSnapshotIDPrefix : string := "vss://".

(** [None]: the id has not the form of a handle. *)
Definition decodeFileShareSnapshotHandle (snapshotID : string) : option (res fileShareSnapshotHandle) :=
  if negb (HasPrefix snapshotID fileShareSnapshotIDPrefix) then None
  else
    let encoded := TrimPrefix snapshotID fileShareSnapshotIDPrefix in
    Some
      match DecodeString encoded with
      | None => Err (PlainErr "invalid file-share snapshot handle: %w")
      | Some data =>
          match unmarshal handle_fields zero_handle data with
          | None => Err (PlainErr "invalid file-share snapshot handle: %w")
          | Some h =>
              let type := if TrimSpace (SnapshotType h) == "" then "vss" else SnapshotType h in
              if negb (EqualFold type "vss")
              then Err (PlainErr "unsupported file-share snapshot type %q")
              else if TrimSpace (ShadowID h) == ""
              then Err (PlainErr "file-share snapshot handle is missing shadowId")
              else Ok {| SnapshotType := type; ShadowID := ShadowID h;
                         ShadowDeviceObject := ShadowDeviceObject h; ShadowPath := ShadowPath h;
                         SourceRelativePath := SourceRelativePath h; hOriginalPath := hOriginalPath h;
                         hDescription := hDescription h; hCreatedAt := hCreatedAt h;
                         hSizeBytes := hSizeBytes h |}
          end
      end.

Definition DeleteSnapshot (snapshotID : string) : go winrm unit :=
  match decodeFileShareSnapshotHandle snapshotID with
  | Some r => handle ← lift r; run_ok (DeleteSnapshot_vss_script handle)
  | None => run_ok (DeleteSnapshot_script snapshotID)
  end.

Definition ListSnapshots (vhdxPath : string) : go winrm (list SnapshotInfo) :=
  if is_vhdx vhdxPath
  then runPS b (ListSnapshots_script vhdxPath)
         (unmarshal1 "snapshots" (set_list (set_struct snapshot_fields) zero_SnapshotInfo) [])
  else ok [].

Definition ExportSnapshotAsVirtualDisk (snapshotID : string) : go winrm string :=
  runPS b (ExportSnapshotAsVirtualDisk_script snapshotID) (unmarshal1 "path" set_string "").

(** [json.Marshal] of a handle; [time_text] is [time.Time]'s [MarshalJSON] without its
    quotes, [None] its error. *)
Definition handle_members (time : string) (h : fileShareSnapshotHandle) : list (string * json) :=
  [("snapshotType", JStr (SnapshotType h)); ("shadowId", JStr (ShadowID h));
   ("shadowDeviceObject", JStr (ShadowDeviceObject h)); ("shadowPath", JStr (ShadowPath h));
   ("sourceRelativePath", JStr (SourceRelativePath h)); ("originalPath", JStr (hOriginalPath h));
   ("description", JStr (hDescription h)); ("createdAt", JStr time); ("sizeBytes", JInt (hSizeBytes h))].
Definition with_type (type : string) (h : fileShareSnapshotHandle) : fileShareSnapshotHandle :=
  {| SnapshotType := type; ShadowID := ShadowID h; ShadowDeviceObject := ShadowDeviceObject h;
     ShadowPath := ShadowPath h; SourceRelativePath := SourceRelativePath h;
     hOriginalPath := hOriginalPath h; hDescription := hDescription h; hCreatedAt := hCreatedAt h;
     hSizeBytes := hSizeBytes h |}.
Definition encodeFileShareSnapshotHandle (time_text : Z -> option string) (h0 : fileShareSnapshotHandle)
  : res string :=
  let h := if TrimSpace (SnapshotType h0) == "" then with_type "vss" h0 else h0 in
  match time_text (hCreatedAt h) with
  | None => Err (PlainErr "json: error calling MarshalJSON for type time.Time: %w")
  | Some time => Ok (fileShareSnapshotIDPrefix +:+ EncodeToString (json_text (JObj (handle_members time h))))
  end.

(** ** File shares *)

Record ShareOutput := {
  so_exists : bool;
  so_name : string;
  so_server : string;
  so_export : string;
  so_path : string;
  so_size : Z;
  so_capacity : Z
}.
Definition zero_share : ShareOutput :=
  {| so_exists := false; so_name := ""; so_server := ""; so_export := ""; so_path := ""; so_size := 0;
     so_capacity := 0 |}.
(** The fields that the outputs of all share methods have. *)
Definition share_fields (server export : string) : list (field (A := ShareOutput)) :=
  let share e n s x p z c := {| so_exists := e; so_name := n; so_server := s; so_export := x;
                                so_path := p; so_size := z; so_capacity := c |} in
  [("name", fun j o => let '(x, ok) := set_string j (so_name o) in
      (share (so_exists o) x (so_server o) (so_export o) (so_path o) (so_size o) (so_capacity o), ok));
   (server, fun j o => let '(x, ok) := set_string j (so_server o) in
      (share (so_exists o) (so_name o) x (so_export o) (so_path o) (so_size o) (so_capacity o), ok));
   (export, fun j o => let '(x, ok) := set_string j (so_export o) in
      (share (so_exists o) (so_name o) (so_server o) x (so_path o) (so_size o) (so_capacity o), ok));
   ("vhdxPath", fun j o => let '(x, ok) := set_string j (so_path o) in
      (share (so_exists o) (so_name o) (so_server o) (so_export o) x (so_size o) (so_capacity o), ok));
   ("sizeBytes", fun j o => let '(x, ok) := set_int 64 j (so_size o) in
      (share (so_exists o) (so_name o) (so_server o) (so_export o) (so_path o) x (so_capacity o), ok));
   ("capacityBytes", fun j o => let '(x, ok) := set_int 64 j (so_capacity o) in
      (share (so_exists o) (so_name o) (so_server o) (so_export o) (so_path o) (so_size o) x, ok))].
Definition exists_field : field (A := ShareOutput) :=
  ("exists", fun j o => let '(x, ok) := set_bool j (so_exists o) in
     ({| so_exists := x; so_name := so_name o; so_server := so_server o; so_export := so_export o;
         so_path := so_path o; so_size := so_size o; so_capacity := so_capacity o |}, ok)).

Definition nfs_info (o : ShareOutput) (capacity : Z) : VolumeInfo :=
  {| iVolumeName := so_name o; iProtocol := ProtocolNFS; iTargetPortal := ""; iTargetName := "";
     iTargetIQN := ""; iLUN := LUNNil; iVHDXPath := so_path o; iSharePath := so_path o;
     iNfsServer := so_server o; iNfsExportPath := so_export o; iSmbServer := ""; iSmbShareName := "";
     iCapacityBytes := capacity; iCreatedAt := zero_time; iSizeBytes := so_size o; iTargets := [] |}.
Definition smb_info (o : ShareOutput) (capacity : Z) : VolumeInfo :=
  {| iVolumeName := so_name o; iProtocol := ProtocolSMB; iTargetPortal := ""; iTargetName := "";
     iTargetIQN := ""; iLUN := LUNNil; iVHDXPath := so_path o; iSharePath := so_path o;
     iNfsServer := ""; iNfsExportPath := ""; iSmbServer := so_server o; iSmbShareName := so_export o;
     iCapacityBytes := capacity; iCreatedAt := zero_time; iSizeBytes := so_size o; iTargets := [] |}.

Definition MountFileShareVirtualDisk (vhdxPath mountPath : string) : go winrm unit :=
  run_ok (MountFileShareVirtualDisk_script vhdxPath mountPath).
Definition UnmountFileShareVirtualDisk (vhdxPath mountPath : string) : go winrm unit :=
  run_ok (UnmountFileShareVirtualDisk_script vhdxPath mountPath).

Definition ResizeFileShare (path : string) (newSizeBytes : Z) : go winrm Z :=
  runPS b (ResizeFileShare_script path newSizeBytes) (unmarshal1 "capacityBytes" (set_int 64) 0%Z).

(** The capacity of a new share: what its quota was set to, if a size was asked for. *)
Definition share_capacity (o : ShareOutput) (sizeBytes : Z) : go winrm Z :=
  if (0 <? sizeBytes)%Z then ResizeFileShare (so_path o) sizeBytes else ok (so_capacity o).

Definition CreateNfsShare (name parentDir : string) (sizeBytes : Z) (clients0 : list string)
  (opt : NfsShareOptions) : go winrm VolumeInfo :=
  let clients := match clients0 with [] => ["*"] | l => l end in
  let permission := TrimSpace (Permission opt) in
  let permission := if permission == "" then "readwrite" else permission in
  let clientType := TrimSpace (ClientType opt) in
  let clientType := if clientType == "" then "host" else clientType in
  let allowRootAccess := match AllowRootAccess opt with Some x => x | None => true end in
  out ← runPS b (CreateNfsShare_script name parentDir permission clientType allowRootAccess clients
                   sizeBytes opt)
          (unmarshal (("protocol", unused set_string "") :: share_fields "nfsServer" "nfsExportPath")
             zero_share);
  capacity ← share_capacity out sizeBytes;
  ok (nfs_info out capacity).

Definition GetNfsShare (name parentDir : string) : go winrm (bool * VolumeInfo) :=
  out ← runPS b (GetNfsShare_script name parentDir)
          (unmarshal (exists_field :: share_fields "nfsServer" "nfsExportPath") zero_share);
  ok (if so_exists out then (true, nfs_info out (so_capacity out)) else (false, zero_VolumeInfo)).

Definition DeleteNfsShare (name path : string) : go winrm unit := run_ok (DeleteNfsShare_script name path).

Definition CreateSmbShare (name parentDir : string) (sizeBytes : Z)
  (fullAccess0 changeAccess0 readAccess : list string) (opt : SmbShareOptions) : go winrm VolumeInfo :=
  let '(fullAccess, changeAccess) :=
    match fullAccess0, changeAccess0, readAccess with
    | [], [], [] => (["Administrators"], ["Everyone"])
    | _, _, _ => (fullAccess0, changeAccess0)
    end in
  out ← runPS b (CreateSmbShare_script name parentDir sizeBytes fullAccess changeAccess readAccess opt)
          (unmarshal (share_fields "smbServer" "smbShareName") zero_share);
  capacity ← share_capacity out sizeBytes;
  ok (smb_info out capacity).

Definition GetSmbShare (name parentDir : string) : go winrm (bool * VolumeInfo) :=
  out ← runPS b (GetSmbShare_script name)
          (unmarshal (exists_field :: share_fields "smbServer" "smbShareName") zero_share);
  ok (if so_exists out then (true, smb_info out (so_capacity out)) else (false, zero_VolumeInfo)).

Definition DeleteSmbShare (name path : string) : go winrm unit := run_ok (DeleteSmbShare_script name path).

Definition RestoreSnapshotAsFileShare (snapshotID destinationPath : string) : go winrm unit :=
  match decodeFileShareSnapshotHandle snapshotID with
  | Some r => handle ← lift r; run_ok (RestoreSnapshotAsFileShare_vss_script handle destinationPath)
  | None => run_ok (RestoreSnapshotAsFileShare_script snapshotID destinationPath)
  end.
End methods.

(** ** The methods as a service *)

(** What a failed method returns beside its error. *)
Definition zero_result (o : backend_op) : backend_result o :=
  match o return backend_result o with
  | Backend.EnsureTarget _ _ => ""
  | Backend.CreateVirtualDisk _ _ _ => ("", 0%Z)
  | Backend.MapDiskToTarget _ _ => 0%Z
  | Backend.LookupTargetNameByIQN _ => ""
  | Backend.GetVolumeByName _ _ => no_volume
  | Backend.GetDirectoryFreeCapacity _ => 0%Z
  | Backend.CreateSnapshot _ _ => zero_SnapshotInfo
  | Backend.ListSnapshots _ => []
  | Backend.ExportSnapshotAsVirtualDisk _ => ""
  | Backend.ResizeVirtualDisk _ _ => 0%Z
  | Backend.GetVolumeInfo _ => zero_VolumeInfo
  | Backend.GetTargetInitiators _ => []
  | Backend.CreateNfsShare _ _ _ _ _ => zero_VolumeInfo
  | Backend.GetNfsShare _ _ => (false, zero_VolumeInfo)
  | Backend.CreateSmbShare _ _ _ _ _ _ _ => zero_VolumeInfo
  | Backend.GetSmbShare _ _ => (false, zero_VolumeInfo)
  | Backend.ResizeFileShare _ _ => 0%Z
  | _ => tt
  end.

Section service.
Context (parse_time : string -> option Z) (b : WinRMBackend).

Definition winrm_method (o : backend_op) : go winrm (backend_result o) :=
  match o return go winrm (backend_result o) with
  | Backend.EnsureTarget targetName targetIQN => EnsureTarget b targetName targetIQN
  | Backend.ConfigureTargetChap targetName opts => ConfigureTargetChap b targetName opts
  | Backend.CreateVirtualDisk name parentDir sizeBytes => CreateVirtualDisk b name parentDir sizeBytes
  | Backend.MapDiskToTarget targetName vhdxPath => MapDiskToTarget b targetName vhdxPath
  | Backend.UnmapDiskFromTarget targetName vhdxPath => UnmapDiskFromTarget b targetName vhdxPath
  | Backend.DeleteVirtualDisk vhdxPath => DeleteVirtualDisk b vhdxPath
  | Backend.LookupTargetNameByIQN targetIQN => LookupTargetNameByIQN b targetIQN
  | Backend.DeleteTarget targetName => DeleteTarget b targetName
  | Backend.GetVolumeByName name parentDir => GetVolumeByName b name parentDir
  | Backend.AllowInitiator targetName initiatorIQN => AllowInitiator b targetName initiatorIQN
  | Backend.DenyInitiator targetName initiatorIQN => DenyInitiator b targetName initiatorIQN
  | Backend.GetDirectoryFreeCapacity parentDir => GetDirectoryFreeCapacity b parentDir
  | Backend.CreateSnapshot vhdxPath description => CreateSnapshot parse_time b vhdxPath description
  | Backend.DeleteSnapshot snapshotID => DeleteSnapshot parse_time b snapshotID
  | Backend.ListSnapshots vhdxPath => ListSnapshots parse_time b vhdxPath
  | Backend.ExportSnapshotAsVirtualDisk snapshotID => ExportSnapshotAsVirtualDisk b snapshotID
  | Backend.ResizeVirtualDisk vhdxPath newSizeBytes => ResizeVirtualDisk b vhdxPath newSizeBytes
  | Backend.GetVolumeInfo vhdxPath => GetVolumeInfo b vhdxPath
  | Backend.GetTargetInitiators targetName => GetTargetInitiators b targetName
  | Backend.CreateNfsShare name parentDir sizeBytes clients opts =>
      CreateNfsShare b name parentDir sizeBytes clients opts
  | Backend.GetNfsShare name parentDir => GetNfsShare b name parentDir
  | Backend.DeleteNfsShare name path => DeleteNfsShare b name path
  | Backend.CreateSmbShare name parentDir sizeBytes fullAccess changeAccess readAccess opts =>
      CreateSmbShare b name parentDir sizeBytes fullAccess changeAccess readAccess opts
  | Backend.GetSmbShare name parentDir => GetSmbShare b name parentDir
  | Backend.DeleteSmbShare name path => DeleteSmbShare b name path
  | Backend.ResizeFileShare path newSizeBytes => ResizeFileShare b path newSizeBytes
  | Backend.RestoreSnapshotAsFileShare snapshotID destinationPath =>
      RestoreSnapshotAsFileShare parse_time b snapshotID destinationPath
  | Backend.MountFileShareVirtualDisk vhdxPath mountPath => MountFileShareVirtualDisk b vhdxPath mountPath
  | Backend.UnmountFileShareVirtualDisk vhdxPath mountPath => UnmountFileShareVirtualDisk b vhdxPath mountPath
  end.

(** The methods do not panic. *)
Definition winrm_backend (o : backend_op) : prog winrm (resp backend o) :=
  prog_bind (winrm_method o) (fun r =>
    Ret (match r with Ok a => Returned a false | _ => Returned (zero_result o) true end)).
End service.

(** ** Configuration *)

Definition with_auth (auth : string) (b : WinRMBackend) : WinRMBackend :=
  {| wEndpoint := wEndpoint b; User := User b; Pass := Pass b; Auth := auth;
     PSModuleImport := PSModuleImport b; wTimeout := wTimeout b; wDebug := wDebug b |}.
Definition with_import (imp : string) (b : WinRMBackend) : WinRMBackend :=
  {| wEndpoint := wEndpoint b; User := User b; Pass := Pass b; Auth := Auth b;
     PSModuleImport := imp; wTimeout := wTimeout b; wDebug := wDebug b |}.

Definition winrm_port (env : Params) (useTLS : bool) : res Z :=
  let portStr := getenvDefault env "WINRM_PORT" "" in
  if portStr == "" then Ok (if useTLS then 5986 else 5985)%Z
  else match Atoi portStr with
       | None => Err (PlainErr "invalid WINRM_PORT: %q")
       | Some p =>
           if ((p <=? 0) || (maxTCPPort <? p))%Z%bool then Err (PlainErr "invalid WINRM_PORT: %q") else Ok p
       end.
Definition winrm_timeout (env : Params) : res Z :=
  let t := TrimSpace (param env "WINRM_TIMEOUT") in
  if t == "" then Ok (60 * second)%Z
  else match ParseDuration t with
       | None => Err (PlainErr "invalid WINRM_TIMEOUT: %q")
       | Some dur => if (dur <=? 0)%Z then Err (PlainErr "invalid WINRM_TIMEOUT: %q") else Ok dur
       end.

Definition newWinRMBackendFromEnv (env : Params) : res WinRMBackend :=
  let host := getenvDefault env "WINRM_HOST" "" in
  if host == "" then Err (PlainErr "WINRM_HOST is required")
  else
    useTLS ← parseBoolEnv env "WINRM_TLS" false;
    insecure ← parseBoolEnv env "WINRM_INSECURE" true;
    port ← winrm_port env useTLS;
    let user := getenvDefault env "WINRM_USER" "" in
    let pass := param env "WINRM_PASSWORD" in
    if ((user == "") || (pass == ""))%bool then Err (PlainErr "WINRM_USER and WINRM_PASSWORD are required")
    else
      timeout ← winrm_timeout env;
      let b := NewWinRMBackend host port useTLS insecure user pass timeout in
      let auth := normalizeWinRMAuth (getenvDefault env "WINRM_AUTH" "basic") in
      if negb ((auth == "basic") || (auth == "ntlm"))%bool
      then Err (PlainErr "unsupported WINRM_AUTH %q; supported values are basic and ntlm")
      else
        let b := with_auth auth b in
        let imp := TrimSpace (param env "WINRM_PS_IMPORT") in
        Ok (if imp != "" then with_import imp b else b).
