(* ===== verification/WinRMFacts.v ===== *)
(** * The WinRM back end: what it sends, and what it returns

    The scripts are quoted: PowerShell reads each argument as one string, whatever it
    is, and the rest as the same code.  The values returned have the types of the
    interface, whatever the host prints. *)
From S2P Require Import Prelude GoStrings GoStringsFacts GoStrconv GoBase64 GoJson GoJsonFacts GoDuration.
From S2P Require Import VolumeID VolumeTypes Params Prog Driver Backend PowerShell PowerShellFacts WinRMScripts WinRM.

(** ** Scripts are blocks *)

(** A line of options: a block once a new line follows. *)
Definition line (l : list piece) : Prop :=
  forall s, block [Lit (String newline s)] -> block (l ++ [Lit (String newline s)]).

Lemma block_line l : block l -> line l.
Proof. intros H s Hs. by apply block_app. Qed.

(** An assignment of a quoted value, whose last quote ends the line. *)
Lemma quoted_line a v :
  closed_text a = true -> (exists t, scan InCode a = (t, InStr "")) -> line [Lit a; Quoted v; Lit "'"].
Proof.
  intros Ha (t & Ht) s [Hs (m & Hm)]. destruct a as [|c a]; [done|]. split.
  - cbn [seams app] in *. by rewrite Ha, Hs.
  - cbn [expect expect_piece] in Hm. destruct (scan InCode (String newline s)) as [t1 st1] eqn:E1.
    injection Hm as _ ->. cbn [scan] in E1.
    change (lex_step InCode newline) with ([Code newline], InCode) in E1. cbv beta iota in E1.
    destruct (scan InCode s) as [t2 st2] eqn:E2. injection E1 as <- ->.
    eexists. cbn [app expect expect_piece]. rewrite Ht. cbn [expect_after].
    change ("'" =b single_quote)%char with true. cbv iota.
    change (newline =b single_quote) with false. cbv iota.
    change (lex_code newline) with ([Code newline], InCode). cbv beta iota. rewrite E2. reflexivity.
Qed.

Lemma join_lines_block lines s :
  Forall line lines -> block [Lit (String newline s)] -> block (join_lines lines ++ [Lit (String newline s)]).
Proof.
  induction 1 as [|l lines Hl Hr IH]; intros Hs; [done|]. cbn [join_lines].
  destruct lines as [|l' lines]; [by apply Hl|].
  rewrite <- !app_assoc, (app_assoc l). apply block_app; [|by apply IH]. apply Hl. block.
Qed.

(** [lines] proves that each line of options is one. *)
Ltac one_line :=
  first [ apply quoted_line; [vm_compute; reflexivity|eexists; vm_compute; reflexivity]
        | apply block_line, block_app; [block|apply psStringArray_block]
        | apply block_line; block ].
Ltac option_cases :=
  match goal with
  | |- Forall line (match ?x with _ => _ end) => destruct x
  | |- Forall line [[Lit _; Lit (psBoolLiteral ?b)]] => is_var b; destruct b
  | |- Forall line [[Lit _; Lit (psBoolLiteral ?b); _]] => is_var b; destruct b
  end.
Ltac lines :=
  repeat (apply Forall_app; split); repeat option_cases;
  first [apply Forall_nil_2 | apply Forall_singleton; one_line].

Lemma nfsShareParamsScript_block opt s :
  block [Lit (String newline s)] -> block (nfsShareParamsScript opt ++ [Lit (String newline s)]).
Proof. apply join_lines_block. lines. Qed.
Lemma smbShareParamsScript_block opt s :
  block [Lit (String newline s)] -> block (smbShareParamsScript opt ++ [Lit (String newline s)]).
Proof. apply join_lines_block. lines. Qed.

Lemma wrapped_block imp script : block [Lit imp] -> block script -> block (wrapped_script imp script).
Proof.
  intros Hi Hs. unfold wrapped_script. repeat apply block_app; [|done|block].
  match goal with |- block [?x; ?y; ?z] => change [x; y; z] with ([x] ++ [y] ++ [z]) end.
  repeat apply block_app; [block|done|block].
Qed.

(** ** The scripts of a request *)

Definition nfs_permission (opt : NfsShareOptions) : string :=
  if TrimSpace (Permission opt) == "" then "readwrite" else TrimSpace (Permission opt).
Definition nfs_client_type (opt : NfsShareOptions) : string :=
  if TrimSpace (ClientType opt) == "" then "host" else TrimSpace (ClientType opt).

Definition scripts_of (parse_time : string -> option Z) (o : backend_op) (script : list piece) : Prop :=
  match o with
  | Backend.EnsureTarget name iqn => script = EnsureTarget_script (TrimSpace name) (TrimSpace iqn)
  | Backend.ConfigureTargetChap name opts =>
      Enabled opts = true /\ script = ConfigureTargetChap_script (TrimSpace name) opts
  | Backend.CreateVirtualDisk name dir size => script = CreateVirtualDisk_script name dir size
  | Backend.MapDiskToTarget name path => script = MapDiskToTarget_script name path
  | Backend.UnmapDiskFromTarget name path => script = UnmapDiskFromTarget_script name path
  | Backend.DeleteVirtualDisk path => script = DeleteVirtualDisk_script path
  | Backend.LookupTargetNameByIQN iqn => script = LookupTargetNameByIQN_script (TrimSpace iqn)
  | Backend.DeleteTarget name => TrimSpace name <> "" /\ script = DeleteTarget_script (TrimSpace name)
  | Backend.GetVolumeByName name dir => script = GetVolumeByName_script name dir
  | Backend.AllowInitiator name iqn => script = AllowInitiator_script name iqn
  | Backend.DenyInitiator name iqn => script = DenyInitiator_script name iqn
  | Backend.GetDirectoryFreeCapacity dir => script = GetDirectoryFreeCapacity_script dir
  | Backend.CreateSnapshot path description =>
      is_vhdx path = true /\ script = CreateSnapshot_script path description
  | Backend.DeleteSnapshot id =>
      (exists h, decodeFileShareSnapshotHandle parse_time id = Some (Ok h) /\ script = DeleteSnapshot_vss_script h)
      \/ (decodeFileShareSnapshotHandle parse_time id = None /\ script = DeleteSnapshot_script id)
  | Backend.ListSnapshots path => is_vhdx path = true /\ script = ListSnapshots_script path
  | Backend.ExportSnapshotAsVirtualDisk id => script = ExportSnapshotAsVirtualDisk_script id
  | Backend.ResizeVirtualDisk path size => script = ResizeVirtualDisk_script path size
  | Backend.GetVolumeInfo path => script = GetVolumeInfo_script path
  | Backend.GetTargetInitiators name => script = GetTargetInitiators_script name
  | Backend.CreateNfsShare name dir size clients opt =>
      script = CreateNfsShare_script name dir (nfs_permission opt) (nfs_client_type opt)
                 (match AllowRootAccess opt with Some x => x | None => true end)
                 (match clients with [] => ["*"] | l => l end) size opt
      \/ (0 < size)%Z /\ exists path, script = ResizeFileShare_script path size
  | Backend.GetNfsShare name dir => script = GetNfsShare_script name dir
  | Backend.DeleteNfsShare name path => script = DeleteNfsShare_script name path
  | Backend.CreateSmbShare name dir size full change read opt =>
      (let '(full, change) := match full, change, read with
                              | [], [], [] => (["Administrators"], ["Everyone"])
                              | _, _, _ => (full, change)
                              end in
       script = CreateSmbShare_script name dir size full change read opt)
      \/ (0 < size)%Z /\ exists path, script = ResizeFileShare_script path size
  | Backend.GetSmbShare name dir => script = GetSmbShare_script name
  | Backend.DeleteSmbShare name path => script = DeleteSmbShare_script name path
  | Backend.ResizeFileShare path size => script = ResizeFileShare_script path size
  | Backend.RestoreSnapshotAsFileShare id destination =>
      (exists h, decodeFileShareSnapshotHandle parse_time id = Some (Ok h)
                 /\ script = RestoreSnapshotAsFileShare_vss_script h destination)
      \/ (decodeFileShareSnapshotHandle parse_time id = None
          /\ script = RestoreSnapshotAsFileShare_script id destination)
  | Backend.MountFileShareVirtualDisk path mount => script = MountFileShareVirtualDisk_script path mount
  | Backend.UnmountFileShareVirtualDisk path mount => script = UnmountFileShareVirtualDisk_script path mount
  end.

Lemma CreateNfsShare_block name dir permission clientType allow clients size opt :
  block (CreateNfsShare_script name dir permission clientType allow clients size opt).
Proof.
  unfold CreateNfsShare_script. rewrite (app_assoc (nfsShareParamsScript opt)).
  destruct allow; (apply block_app; [block|]);
    (apply block_app; [apply nfsShareParamsScript_block; block|]);
    (apply block_app; [apply psStringArray_block|block]).
Qed.
Lemma CreateSmbShare_block name dir size full change read opt :
  block (CreateSmbShare_script name dir size full change read opt).
Proof.
  unfold CreateSmbShare_script.
  do 3 (apply block_app; [block|]; apply block_app; [apply psStringArray_block|]).
  apply block_app; [block|].
  match goal with |- block (?o ++ ?x :: ?r) => change (x :: r) with ([x] ++ r); rewrite (app_assoc o) end.
  apply block_app; [apply smbShareParamsScript_block|]; block.
Qed.

Lemma scripts_block parse_time o script : scripts_of parse_time o script -> block script.
Proof.
  destruct o; cbn [scripts_of]; intros H;
    repeat match goal with
           | H : _ \/ _ |- _ => destruct H as [H|H]
           | H : _ /\ _ |- _ => destruct H as [_ H]
           | H : exists _, _ |- _ => destruct H as [? H]
           | H : script = _ |- _ => rewrite H; clear H
           | H : context [match ?l with [] => _ | _ => _ end] |- _ => destruct l
           end;
    repeat match goal with |- context [TrimSpace ?x] => generalize (TrimSpace x); intros ? end;
    lazymatch goal with
    | |- block (CreateNfsShare_script _ _ _ _ _ _ _ _) => apply CreateNfsShare_block
    | |- block (CreateSmbShare_script _ _ _ _ _ _ _) => apply CreateSmbShare_block
    | |- block _ => block
    end.
Qed.

(** ** What is sent *)

Lemma only_runPS {A} (P : winrm_op -> Prop) b script (read : string -> option A) :
  (forall ntlm, clientParameters b = Ok ntlm -> P (NewClient (wEndpoint b) (User b) (Pass b) ntlm)) ->
  P (RunCommand "Invoke-Expression ([Console]::In.ReadToEnd())"
       (render (wrapped_script (module_import b) script))) ->
  only (E := winrm) P (runPS b script read).
Proof.
  intros H1 H2. unfold runPS. destruct (clientParameters b) as [ntlm|e|]; [|done..].
  split; [by apply H1|]. intros client _. cbn. destruct client; [|done]. cbn. split; [done|].
  intros [| |stdout code] _; [done..|]. cbn. destruct (code =? 0)%Z; [|done]. cbn.
  destruct (TrimSpace stdout != ""); [|done]. by destruct (read stdout).
Qed.

(** A command with a script of the request, quoted so that each argument is read back. *)
Definition quoted_command (parse_time : string -> option Z) (b : WinRMBackend) (o : backend_op) (c : winrm_op)
  : Prop :=
  match c with
  | NewClient endpoint user password ntlm =>
      endpoint = wEndpoint b /\ user = User b /\ password = Pass b /\ clientParameters b = Ok ntlm
  | RunCommand command text =>
      command = "Invoke-Expression ([Console]::In.ReadToEnd())"
      /\ exists script, scripts_of parse_time o script
         /\ let whole := wrapped_script (module_import b) script in
            text = render whole
            /\ (Forall (fun v => no_typographic v = true) (arguments whole) -> reads_back whole)
  end.

Lemma only_script {A} parse_time b o script (read : string -> option A) :
  block [Lit (module_import b)] -> scripts_of parse_time o script ->
  only (E := winrm) (quoted_command parse_time b o) (runPS b script read).
Proof.
  intros Hi Hs. apply only_runPS; [done|]. split; [done|]. exists script. split; [done|]. split; [done|].
  intros Ha. apply block_reads_back; [|done]. apply wrapped_block; [done|]. by eapply scripts_block.
Qed.

Lemma only_lift_eq {E A B} (P : op E -> Prop) (r : res A) (f : A -> go E B) :
  (forall a, r = Ok a -> only P (f a)) -> only P (lift r ≫= f).
Proof. intros H. destruct r as [a|e|]; [by apply H|done..]. Qed.

Lemma only_implies {E A} (P Q : op E -> Prop) (p : prog E A) :
  (forall o, P o -> Q o) -> only P p -> only Q p.
Proof.
  unfold only. intros H. induction p as [a|o k IH]; simpl; [done|]. intros [Ho Hk].
  split; [by apply H|]. intros r Hr. by apply IH, Hk.
Qed.

(** [sends] walks through a method to the scripts it sends. *)
Ltac sends :=
  cbv zeta;
  lazymatch goal with
  | |- only _ (runPS _ _ _) => apply only_script; [assumption|cbn [scripts_of]]
  | |- only _ (run_ok _ _) => apply only_script; [assumption|cbn [scripts_of]]
  | |- only _ (ResizeFileShare _ _ _) => unfold ResizeFileShare
  | |- only _ (lift _) => exact I
  | |- only _ (ok _) => exact I
  | |- only _ (if ?c then _ else _) => destruct c eqn:?
  | |- only _ (mbind _ (lift _)) => apply only_lift_eq; intros ? ->
  | |- only _ (mbind _ _) => apply only_bind; [|intros ?]
  | |- only _ (match ?x with _ => _ end) => destruct x eqn:?
  end.
(** [of_request] closes the goal that a script is one of the request. *)
Ltac of_request :=
  lazymatch goal with
  | |- _ = _ => reflexivity
  | H : negb ?c = false |- ?c = true /\ _ => split; [exact (proj1 (negb_false_iff c) H)|reflexivity]
  | H : ?c = true |- ?c = true /\ _ => split; [exact H|reflexivity]
  | H : (?x == "") = false |- ?x <> "" /\ _ => split; [exact (proj1 (String.eqb_neq x "") H)|reflexivity]
  | |- (exists h, _ /\ ?s = _) \/ (_ /\ ?s = ?s) => right; split; [assumption|reflexivity]
  | |- (exists h, _ /\ _ ?a = _ h) \/ _ => left; exists a; split; [assumption|reflexivity]
  | |- (exists h, _ /\ _ ?a ?d = _ h ?d) \/ _ => left; exists a; split; [assumption|reflexivity]
  | |- _ \/ (_ /\ exists path, _ ?p ?n = _ path ?n) =>
      right; split; [by apply Z.ltb_lt|exists p; reflexivity]
  | |- (CreateNfsShare_script _ _ _ _ _ _ _ _ = _) \/ _ => left; reflexivity
  | H : _ = (?f, ?c) |- (let '(_, _) := _ in _) \/ _ => left; rewrite H; reflexivity
  end.

Lemma scripts_sent parse_time b o :
  block [Lit (module_import b)] -> only (E := winrm) (quoted_command parse_time b o) (winrm_method parse_time b o).
Proof.
  intros Hi. destruct o; cbn [winrm_method]; unfold EnsureTarget, ConfigureTargetChap, CreateVirtualDisk,
    MapDiskToTarget, UnmapDiskFromTarget, DeleteVirtualDisk, LookupTargetNameByIQN, DeleteTarget, GetVolumeByName,
    AllowInitiator, DenyInitiator, GetDirectoryFreeCapacity, CreateSnapshot, DeleteSnapshot, ListSnapshots,
    ExportSnapshotAsVirtualDisk, GetVolumeInfo, GetTargetInitiators, CreateNfsShare, GetNfsShare, DeleteNfsShare,
    CreateSmbShare, GetSmbShare, DeleteSmbShare, RestoreSnapshotAsFileShare, ResizeVirtualDisk,
    MountFileShareVirtualDisk, UnmountFileShareVirtualDisk, share_capacity;
    repeat sends; of_request.
Qed.

(** C15: a program over the back end, once it is linked with the WinRM methods, sends
    scripts of its own requests only; and unless an argument holds a typographic quote,
    PowerShell reads every argument of a script as one string, and the rest as the code
    that it is with any other arguments. *)
Theorem scripts_quote_arguments parse_time b {A} (P : backend_op -> Prop) (p : prog backend A) :
  block [Lit (module_import b)] -> only (E := backend) P p ->
  only (E := winrm) (fun c => exists o, P o /\ quoted_command parse_time b o c)
    (interp (E := backend) (F := winrm) (winrm_backend parse_time b) p).
Proof.
  intros Hi Hp. eapply safe_mono; [|done].
  refine (safe_interp (every (E := backend) P) (every (E := winrm) _) _ (fun _ _ => True) tt tt p _ _ I Hp).
  intros [] [] o _ Ho. unfold winrm_backend. apply safe_prog_bind.
  eapply safe_mono; [|by intros r [] _].
  eapply only_implies; [|by apply scripts_sent]. intros c Hc. by exists o.
Qed.

Definition example_backend : WinRMBackend :=
  NewWinRMBackend "storage1" 5986 true false "csi" "secret" (30 * second).
Definition example_request : backend_op := Backend.AllowInitiator "it's" "iqn.2024-01.a:b".
Lemma scripts_quote_arguments_witness :
  only (E := winrm) (fun c => exists o, o = example_request /\ quoted_command (fun _ => None) example_backend o c)
    (interp (E := backend) (F := winrm) (winrm_backend (fun _ => None) example_backend) (Do (E := backend) example_request Ret)).
Proof. apply (scripts_quote_arguments (fun _ => None) example_backend (fun o => o = example_request)); [block|done]. Defined.

(** ** What is returned *)

Section unmarshal.
Context {A : Type} (I : A -> Prop) (fs : list (field (A := A))).
Hypothesis Hfs : forall f, In f fs -> forall j a, I a -> I (f.2 j a).1.

Lemma find_field_in k f : find_field fs k = Some f -> exists name, In (name, f) fs.
Proof.
  unfold find_field.
  destruct (List.find (fun f => f.1 == k) fs) as [[n g]|] eqn:E.
  - intros [= <-]. exists n. by apply find_some in E as [E _].
  - destruct (List.find (fun f => EqualFold f.1 k) fs) as [[n g]|] eqn:E'; [|done].
    intros [= <-]. exists n. by apply find_some in E' as [E' _].
Qed.
Lemma store_inv st kv : I st.1 -> I (store fs st kv).1.
Proof.
  intros H. unfold store. destruct (find_field fs kv.1) as [f|] eqn:E; [|done].
  destruct (find_field_in _ _ E) as (n & Hin). specialize (Hfs _ Hin kv.2 st.1 H). cbn [snd] in Hfs.
  by destruct (f kv.2 st.1).
Qed.
Lemma fold_store_inv l : forall st, I st.1 -> I (fold_left (store fs) l st).1.
Proof. induction l as [|kv l IH]; intros st H; [done|]. by apply IH, store_inv. Qed.
(** An invariant of the fields is one of what is read. *)
Lemma unmarshal_inv zero s a : I zero -> unmarshal fs zero s = Some a -> I a.
Proof.
  intros Hz. unfold unmarshal. destruct (parse_json s) as [[| | | | |l]|]; try done; [by intros [= <-]|].
  pose proof (fold_store_inv l (zero, true) Hz) as H. destruct (fold_left _ _ _) as [a' okay].
  destruct okay; [|done]. by intros [= <-].
Qed.
Lemma set_struct_inv j a : I a -> I (set_struct fs j a).1.
Proof. intros H. destruct j; try done. exact (fold_store_inv l (a, true) H). Qed.
End unmarshal.

Lemma set_elements_inv {A} (I : A -> Prop) (set : json -> A -> A * bool) zero l : forall cur,
  I zero -> (forall j a, I a -> I (set j a).1) -> Forall I cur -> Forall I (set_elements set zero l cur).1.
Proof.
  induction l as [|j l IH]; intros cur Hz Hs Hc; [done|]. cbn [set_elements].
  assert (I (match cur with c :: _ => c | [] => zero end)) as H by (destruct Hc; done).
  apply (Hs j) in H. destruct (set j _) as [a okay].
  specialize (IH (tail cur) Hz Hs). destruct (set_elements set zero l (tail cur)) as [more okay'].
  constructor; [done|]. apply IH. by destruct Hc.
Qed.
Lemma set_int_range w j z : - 2 ^ (w - 1) <= z < 2 ^ (w - 1) ->
  - 2 ^ (w - 1) <= (set_int w j z).1 < 2 ^ (w - 1).
Proof. destruct j as [| |n| | |]; try done. cbn. destruct (ParseInt w n) eqn:E; [|done]. intros _. by eapply ParseInt_range. Qed.
Lemma set_int64 j z : in_int64 z -> in_int64 (set_int 64 j z).1.
Proof. apply (set_int_range 64). Qed.
Lemma set_int32 j z : in_int32 z -> in_int32 (set_int 32 j z).1.
Proof. apply (set_int_range 32). Qed.

(** A record whose numbers fit their fields. *)
Definition found_ok (v : FoundVolume) : Prop := in_int64 (fv_sizeBytes v) /\ in_int32 (fv_lun v).
Definition share_ok (o : ShareOutput) : Prop := in_int64 (so_size o) /\ in_int64 (so_capacity o).
Definition snapshot_ok (s : SnapshotInfo) : Prop :=
  in_int64 (sSizeBytes s) /\ SourceVolume s = "" /\ ReadyToUse s = false.
Definition lun_ok (l : option Z) : Prop := match l with Some z => in_int32 z | None => True end.

(** [fields_keep] proves that each of a list of fields keeps such an invariant. *)
Ltac fields_keep :=
  intros f Hf; repeat (destruct Hf as [<-|Hf]; [intros j a Ha; cbn [snd]|]); [..|destruct Hf];
  repeat match goal with
         | |- context [set_int 64 ?j ?z] =>
             pose proof (set_int64 j z); destruct (set_int 64 j z)
         | |- context [set_int 32 ?j ?z] =>
             pose proof (set_int32 j z); destruct (set_int 32 j z)
         | |- context [set_string ?j ?z] => destruct (set_string j z)
         | |- context [set_bool ?j ?z] => destruct (set_bool j z)
         | |- context [set_time ?p ?j ?z] => destruct (set_time p j z)
         end; unfold found_ok, share_ok, snapshot_ok in *; cbn in *; tauto.

Lemma found_fields_ok f : In f found_fields -> forall j a, found_ok a -> found_ok (f.2 j a).1.
Proof. revert f. fields_keep. Qed.
Lemma share_fields_ok s e f : In f (share_fields s e) -> forall j a, share_ok a -> share_ok (f.2 j a).1.
Proof. revert f. fields_keep. Qed.
Lemma exists_field_ok s e f :
  In f (exists_field :: share_fields s e) -> forall j a, share_ok a -> share_ok (f.2 j a).1.
Proof. revert f. unfold exists_field. fields_keep. Qed.
Lemma snapshot_fields_ok p f : In f (snapshot_fields p) -> forall j a, snapshot_ok a -> snapshot_ok (f.2 j a).1.
Proof. revert f. fields_keep. Qed.

(** Whatever the host answers, [p] ends in a result of [Q] or an error, without a panic. *)
Definition answers {A} (Q : A -> Prop) (p : go winrm A) : Prop :=
  safe (every (E := winrm) (fun _ => True)) tt p
    (fun r _ => match r with Ok a => Q a | Err _ => True | Panicked => False end).

Lemma answers_bind {A B} (Q : A -> Prop) (R : B -> Prop) (p : go winrm A) (f : A -> go winrm B) :
  answers Q p -> (forall a, Q a -> answers R (f a)) -> answers R (p ≫= f).
Proof.
  intros Hp Hf. apply safe_bind. eapply safe_mono; [exact Hp|].
  intros [a|e|] [] H; [by apply Hf|done..].
Qed.
Lemma answers_runPS {A} (Q : A -> Prop) b script (read : string -> option A) :
  (forall s a, read s = Some a -> Q a) -> answers Q (runPS b script read).
Proof.
  intros H. unfold runPS. generalize (render (wrapped_script (module_import b) script)) as text. intros text.
  unfold clientParameters. cbv zeta.
  destruct (normalizeWinRMAuth (Auth b) == "basic"); [|destruct (normalizeWinRMAuth (Auth b) == "ntlm"); [|exact I]];
    (split; [exact I|]; intros [|] _; [|exact I]; split; [exact I|]; intros [| |stdout code] _; [exact I..|]);
    cbn; (destruct (code =? 0)%Z; [|exact I]); cbn; (destruct (TrimSpace stdout != ""); [|exact I]);
    (destruct (read stdout) eqn:E; [exact (H _ _ E)|exact I]).
Qed.
Lemma answers_run_ok b script : answers (fun _ => True) (run_ok b script).
Proof. unfold run_ok. by apply answers_runPS. Qed.

Definition share_info (protocol : Protocol) (i : VolumeInfo) : Prop :=
  iProtocol i = protocol /\ iSharePath i = iVHDXPath i /\ normalizeLUN (iLUN i) = None
  /\ in_int64 (iSizeBytes i) /\ in_int64 (iCapacityBytes i).

(** The values of the interface: the numbers fit their types, a target has a name, what
    is not there has the values that say so. *)
Definition well_typed (o : backend_op) : backend_result o -> Prop :=
  match o return backend_result o -> Prop with
  | Backend.EnsureTarget _ _ => fun iqn => TrimSpace iqn <> ""
  | Backend.CreateVirtualDisk _ _ _ => fun r => in_int64 r.2
  | Backend.MapDiskToTarget _ _ => in_int32
  | Backend.GetVolumeByName _ _ => fun v => found_ok v /\ (fv_exists v = false -> v = no_volume)
  | Backend.GetDirectoryFreeCapacity _ => in_int64
  | Backend.CreateSnapshot _ _ => snapshot_ok
  | Backend.ListSnapshots _ => Forall snapshot_ok
  | Backend.ResizeVirtualDisk _ _ => in_int64
  | Backend.GetVolumeInfo _ => fun i =>
      in_int64 (iSizeBytes i) /\ match normalizeLUN (iLUN i) with Some z => in_int32 z | None => True end
  | Backend.CreateNfsShare _ _ _ _ _ => share_info ProtocolNFS
  | Backend.CreateSmbShare _ _ _ _ _ _ _ => share_info ProtocolSMB
  | Backend.GetNfsShare _ _ => fun r => if r.1 then share_info ProtocolNFS r.2 else r.2 = zero_VolumeInfo
  | Backend.GetSmbShare _ _ => fun r => if r.1 then share_info ProtocolSMB r.2 else r.2 = zero_VolumeInfo
  | Backend.ResizeFileShare _ _ => in_int64
  | _ => fun _ => True
  end.

Lemma in_int64_0 : in_int64 0. Proof. done. Qed.
Lemma in_int32_0 : in_int32 0. Proof. done. Qed.

Lemma read_int64 key s z : unmarshal1 key (set_int 64) 0%Z s = Some z -> in_int64 z.
Proof. apply unmarshal_inv; [|done]. intros f [<-|[]] j a. apply set_int64. Qed.
Lemma read_int32 key s z : unmarshal1 key (set_int 32) 0%Z s = Some z -> in_int32 z.
Proof. apply unmarshal_inv; [|done]. intros f [<-|[]] j a. apply set_int32. Qed.
Lemma read_pair key1 key2 s r :
  unmarshal2 key1 set_string key2 (set_int 64) ("", 0%Z) s = Some r -> in_int64 r.2.
Proof.
  apply (unmarshal_inv (fun r => in_int64 r.2)); [|done].
  intros f [<-|[<-|[]]] j [x z]; cbn [snd]; unfold on_fst, on_snd; [by destruct (set_string j _)|].
  intros H. pose proof (set_int64 j z H). cbn [snd]. by destruct (set_int 64 j z).
Qed.
Lemma read_share fs s o :
  (forall f, In f fs -> forall j a, share_ok a -> share_ok (f.2 j a).1) ->
  unmarshal fs zero_share s = Some o -> share_ok o.
Proof. intros H. by apply unmarshal_inv. Qed.

Lemma ResizeFileShare_answers b path n : answers in_int64 (ResizeFileShare b path n).
Proof. unfold ResizeFileShare. apply answers_runPS. apply read_int64. Qed.
Lemma share_capacity_answers b o n : share_ok o -> answers in_int64 (share_capacity b o n).
Proof.
  intros [_ H]. unfold share_capacity. destruct (0 <? n)%Z; [apply ResizeFileShare_answers|exact H].
Qed.
Lemma EnsureTarget_answers b name iqn : answers (fun r => TrimSpace r <> "") (EnsureTarget b name iqn).
Proof.
  unfold EnsureTarget. cbv zeta. destruct (TrimSpace name == ""); [done|].
  apply (answers_bind (fun _ => True)); [by apply answers_runPS|]. intros [n r] _.
  by destruct (String.eqb_spec (TrimSpace r) "").
Qed.
Lemma GetVolumeByName_answers b name dir :
  answers (fun v => found_ok v /\ (fv_exists v = false -> v = no_volume)) (GetVolumeByName b name dir).
Proof.
  apply (answers_bind found_ok).
  - apply answers_runPS. intros s a. by apply unmarshal_inv; [exact found_fields_ok|].
  - intros v Hv. unfold answers. cbn. destruct (fv_exists v) eqn:E; [by rewrite E|]. done.
Qed.
Lemma zero_snapshot_ok : snapshot_ok zero_SnapshotInfo. Proof. done. Qed.
Lemma CreateSnapshot_answers p b path description : answers snapshot_ok (CreateSnapshot p b path description).
Proof.
  unfold CreateSnapshot. destruct (negb _); [exact I|]. apply answers_runPS. intros s a.
  apply unmarshal_inv; [|apply zero_snapshot_ok]. intros f Hf.
  apply in_app_iff in Hf as [Hf|Hf]; [by eapply snapshot_fields_ok|].
  apply in_map_iff in Hf as (key & <- & _). done.
Qed.
Lemma ListSnapshots_answers p b path : answers (Forall snapshot_ok) (ListSnapshots p b path).
Proof.
  unfold ListSnapshots. destruct (is_vhdx path); [|by constructor]. apply answers_runPS. intros s a.
  apply unmarshal_inv; [|by constructor]. intros f [<-|[]] j l Hl. cbn [snd].
  destruct j; try done. cbn [set_list].
  apply (set_elements_inv snapshot_ok); [apply zero_snapshot_ok| |done].
  intros j a' Ha'. by apply (set_struct_inv snapshot_ok); [apply snapshot_fields_ok|].
Qed.
Lemma GetVolumeInfo_answers b path : answers (well_typed (Backend.GetVolumeInfo path)) (GetVolumeInfo b path).
Proof.
  apply (answers_bind (fun r => in_int64 r.1.2 /\ lun_ok r.2.2)).
  - apply answers_runPS. intros s a. apply (unmarshal_inv (fun r => in_int64 r.1.2 /\ lun_ok r.2.2)); [|done].
    intros f Hf j r [H1 H2].
    assert (lun_ok (set_int_ptr 32 j r.2.2).1) as Hp.
    { assert (in_int32 (match r.2.2 with Some z => z | None => 0%Z end)) as H by by destruct r.2.2.
      unfold set_int_ptr.
      destruct j; try done;
        match goal with |- context [set_int 32 ?x ?y] => pose proof (set_int32 x y H); by destruct (set_int 32 x y) end. }
    repeat (destruct Hf as [<-|Hf]; [cbn [snd]|]); [..|destruct Hf]; unfold on_fst, on_snd.
    all: repeat match goal with
         | |- context [set_int 64 ?j ?z] => pose proof (set_int64 j z); destruct (set_int 64 j z)
         | |- context [set_string ?j ?z] => destruct (set_string j z)
         | |- context [set_list ?s ?o ?j ?z] => destruct (set_list s o j z)
         | |- context [set_int_ptr 32 ?j ?z] => destruct (set_int_ptr 32 j z)
         end; cbn in *; tauto.
  - intros [[path' size] [targets lun]] [H1 H2]. by split.
Qed.

Lemma share_answers b protocol fs script n (info : ShareOutput -> Z -> VolumeInfo) :
  (forall f, In f fs -> forall j a, share_ok a -> share_ok (f.2 j a).1) ->
  (forall o c, share_ok o -> in_int64 c -> share_info protocol (info o c)) ->
  answers (share_info protocol)
    (out ← runPS b script (unmarshal fs zero_share); capacity ← share_capacity b out n; ok (info out capacity)).
Proof.
  intros Hf Hi. apply (answers_bind share_ok); [apply answers_runPS; intros s o; by apply read_share|].
  intros o Ho. apply (answers_bind in_int64); [by apply share_capacity_answers|].
  intros c Hc. by apply Hi.
Qed.
Lemma found_share_answers b protocol fs script (info : ShareOutput -> Z -> VolumeInfo) :
  (forall f, In f fs -> forall j a, share_ok a -> share_ok (f.2 j a).1) ->
  (forall o c, share_ok o -> in_int64 c -> share_info protocol (info o c)) ->
  answers (fun r => if r.1 : bool then share_info protocol r.2 else r.2 = zero_VolumeInfo)
    (out ← runPS b script (unmarshal fs zero_share);
     ok (if so_exists out then (true, info out (so_capacity out)) else (false, zero_VolumeInfo))).
Proof.
  intros Hf Hi. apply (answers_bind share_ok); [apply answers_runPS; intros s o; by apply read_share|].
  intros o Ho. unfold answers. cbn. destruct (so_exists o); [|done]. apply Hi; [done|]. apply Ho.
Qed.
Lemma nfs_info_ok o c : share_ok o -> in_int64 c -> share_info ProtocolNFS (nfs_info o c).
Proof. intros [H _] Hc. by split_and!. Qed.
Lemma smb_info_ok o c : share_ok o -> in_int64 c -> share_info ProtocolSMB (smb_info o c).
Proof. intros [H _] Hc. by split_and!. Qed.
Lemma unused_ok s e f :
  In f (("protocol", unused set_string "") :: share_fields s e) -> forall j a, share_ok a -> share_ok (f.2 j a).1.
Proof. intros [<-|Hf]; [done|by eapply share_fields_ok]. Qed.

Lemma decoded_handle_answers p id r :
  decodeFileShareSnapshotHandle p id = Some r -> answers (fun _ => True) (lift r).
Proof.
  unfold decodeFileShareSnapshotHandle. destruct (negb _); [done|]. intros [= <-].
  repeat case_match; exact I.
Qed.

(** [run_ok] behind the checks of a method. *)
Ltac plain_answers :=
  cbv zeta;
  lazymatch goal with
  | |- answers _ (run_ok _ _) => apply answers_run_ok
  | |- answers _ (runPS _ _ _) => apply answers_runPS
  | H : decodeFileShareSnapshotHandle _ _ = Some ?r |- answers _ (lift ?r) => exact (decoded_handle_answers _ _ _ H)
  | |- answers _ (lift _) => exact I
  | |- answers _ (ok _) => exact I
  | |- answers _ (if ?c then _ else _) => destruct c
  | |- answers _ (mbind _ _) => apply (answers_bind (fun _ => True)); [|intros ? _]
  | |- answers _ (match ?x with _ => _ end) => destruct x eqn:?
  end.

(** C26: whatever the host prints, no method of the back end panics, and what it returns
    without an error fits the types of the interface. *)
Theorem winrm_method_answers parse_time b o :
  answers (well_typed o) (winrm_method parse_time b o).
Proof.
  destruct o; cbn [winrm_method well_typed].
  all: lazymatch goal with
    | |- answers _ (EnsureTarget _ _ _) => apply EnsureTarget_answers
    | |- answers _ (GetVolumeByName _ _ _) => apply GetVolumeByName_answers
    | |- answers _ (CreateSnapshot _ _ _ _) => apply CreateSnapshot_answers
    | |- answers _ (ListSnapshots _ _ _) => apply ListSnapshots_answers
    | |- answers _ (GetVolumeInfo _ ?p) => apply GetVolumeInfo_answers
    | |- answers _ (ResizeFileShare _ _ _) => apply ResizeFileShare_answers
    | |- answers _ (CreateNfsShare _ _ _ _ _ _) =>
        unfold CreateNfsShare; apply share_answers; [apply unused_ok|apply nfs_info_ok]
    | |- answers _ (CreateSmbShare _ _ _ _ _ _ _ _) =>
        unfold CreateSmbShare; case_match; apply share_answers; [apply share_fields_ok|apply smb_info_ok]
    | |- answers _ (GetNfsShare _ _ _) =>
        unfold GetNfsShare; apply found_share_answers; [apply exists_field_ok|apply nfs_info_ok]
    | |- answers _ (GetSmbShare _ _ _) =>
        unfold GetSmbShare; apply found_share_answers; [apply exists_field_ok|apply smb_info_ok]
    | |- _ =>
        unfold ConfigureTargetChap, CreateVirtualDisk, MapDiskToTarget, UnmapDiskFromTarget, DeleteVirtualDisk,
          LookupTargetNameByIQN, DeleteTarget, AllowInitiator, DenyInitiator, GetDirectoryFreeCapacity,
          DeleteSnapshot, ExportSnapshotAsVirtualDisk, ResizeVirtualDisk, GetTargetInitiators, DeleteNfsShare,
          DeleteSmbShare, RestoreSnapshotAsFileShare, MountFileShareVirtualDisk, UnmountFileShareVirtualDisk;
        repeat plain_answers
    end.
  all: try (intros s a H; first [exact I | by eapply read_int64 | by eapply read_int32 | by eapply read_pair]).
Qed.

(** ** Configuration *)

Lemma winrm_port_range env tls port : winrm_port env tls = Ok port -> (1 <= port <= maxTCPPort)%Z.
Proof.
  unfold winrm_port, maxTCPPort. cbv zeta. destruct (getenvDefault _ _ _ == "").
  - destruct tls; intros [= <-]; lia.
  - destruct (Atoi _); [|done]. destruct (Z.leb_spec z 0); [done|]. destruct (Z.ltb_spec 65535 z); [done|].
    intros [= <-]. lia.
Qed.
Lemma winrm_timeout_range env t : winrm_timeout env = Ok t -> (0 < t)%Z /\ in_int64 t.
Proof.
  unfold winrm_timeout. cbv zeta. destruct (TrimSpace _ == ""); [by intros [= <-]|].
  destruct (ParseDuration _) eqn:E; [|done]. destruct (Z.leb_spec z 0); [done|]. intros [= <-].
  split; [done|]. by eapply ParseDuration_int64.
Qed.

(** A configuration that is accepted names a host, an account, a port and a time limit
    that make sense, and a transport the client has. *)
Definition usable (b : WinRMBackend) : Prop :=
  (exists ep, wEndpoint b = Some ep /\ Host ep <> "" /\ (1 <= Port ep <= maxTCPPort)%Z /\ eTimeout ep = wTimeout b)
  /\ User b <> "" /\ Pass b <> "" /\ (0 < wTimeout b)%Z /\ in_int64 (wTimeout b)
  /\ PSModuleImport b <> "" /\ clientParameters b = Ok (Auth b == "ntlm").

Lemma with_import_usable imp b : imp <> "" -> usable b -> usable (with_import imp b).
Proof. intros Hi (He & Hu & Hp & Ht & Ht' & _ & Hc). by split_and!. Qed.
Lemma NewWinRMBackend_usable host port tls insecure user pass timeout auth :
  host <> "" -> (1 <= port <= maxTCPPort)%Z -> user <> "" -> pass <> "" -> (0 < timeout)%Z -> in_int64 timeout ->
  auth = "basic" \/ auth = "ntlm" ->
  usable (with_auth auth (NewWinRMBackend host port tls insecure user pass timeout)).
Proof.
  intros Hh Hp Hu Hpw Ht Ht' Ha. unfold NewWinRMBackend. cbv zeta.
  destruct (Z.leb_spec timeout 0); [lia|]. split_and!; cbn; try done; [by eexists|].
  by destruct Ha as [-> | ->]; vm_compute.
Qed.
Lemma newWinRMBackendFromEnv_Ok env b : newWinRMBackendFromEnv env = Ok b -> usable b.
Proof.
  unfold newWinRMBackendFromEnv. cbv zeta.
  set (host := getenvDefault env "WINRM_HOST" ""). destruct (String.eqb_spec host "") as [|Hh]; [done|].
  destruct (parseBoolEnv env "WINRM_TLS" false) as [tls|?|]; [|done..].
  destruct (parseBoolEnv env "WINRM_INSECURE" true) as [insecure|?|]; [|done..]. cbn.
  destruct (winrm_port env tls) as [port|?|] eqn:Ep; [|done..]. cbn.
  set (user := getenvDefault env "WINRM_USER" ""). destruct (String.eqb_spec user "") as [|Hu]; [done|].
  destruct (String.eqb_spec (param env "WINRM_PASSWORD") "") as [|Hp]; [done|]. cbn.
  destruct (winrm_timeout env) as [timeout|?|] eqn:Et; [|done..]. cbn.
  set (auth := normalizeWinRMAuth _). intros H.
  destruct (negb _) eqn:Ea; [done|]. apply negb_false_iff, orb_true_iff in Ea. rewrite !String.eqb_eq in Ea.
  apply winrm_timeout_range in Et as []. apply winrm_port_range in Ep.
  pose proof (NewWinRMBackend_usable host port tls insecure user _ timeout auth Hh Ep Hu Hp H0 H1 Ea) as Hb.
  destruct (String.eqb_spec (TrimSpace (param env "WINRM_PS_IMPORT")) "") as [Ei|Ei]; injection H as <-; [done|].
  by apply with_import_usable.
Qed.

Example newWinRMBackendFromEnv_example :
  newWinRMBackendFromEnv (list_to_map [("WINRM_HOST", " storage1 "); ("WINRM_TLS", "Yes"); ("WINRM_USER", "csi");
                                       ("WINRM_PASSWORD", "secret"); ("WINRM_TIMEOUT", "30s"); ("WINRM_AUTH", "Negotiate")])
  = Ok (with_auth "ntlm" (NewWinRMBackend "storage1" 5986 true true "csi" "secret" (30 * second)))
  /\ newWinRMBackendFromEnv (list_to_map [("WINRM_HOST", "h"); ("WINRM_PORT", "65536")])
     = Err (PlainErr "invalid WINRM_PORT: %q").
Proof. by vm_compute. Qed.

(** ** Snapshot handles *)

(** A handle that JSON can carry, of a shadow copy. *)
Definition handle_ok (h : fileShareSnapshotHandle) : Prop :=
  valid_utf8 (SnapshotType h) /\ EqualFold (SnapshotType h) "vss" = true /\ TrimSpace (SnapshotType h) <> ""
  /\ valid_utf8 (ShadowID h) /\ TrimSpace (ShadowID h) <> "" /\ valid_utf8 (ShadowDeviceObject h)
  /\ valid_utf8 (ShadowPath h) /\ valid_utf8 (SourceRelativePath h) /\ valid_utf8 (hOriginalPath h)
  /\ valid_utf8 (hDescription h) /\ in_int64 (hSizeBytes h).

Lemma unmarshal_handle parse_time time h :
  handle_ok h -> valid_utf8 time -> parse_time time = Some (hCreatedAt h) ->
  unmarshal (handle_fields parse_time) zero_handle (json_text (JObj (handle_members time h))) = Some h.
Proof.
  intros (H1 & _ & _ & H2 & _ & H3 & H4 & H5 & H6 & H7 & H8) Ht Hp. unfold unmarshal.
  unfold handle_members.
  rewrite parse_json_object by flat_members. store_all.
  erewrite store_member; [|vm_compute; reflexivity|reflexivity
                          |cbn [snd]; rewrite (set_time_text _ _ _ _ Ht Hp); cbn; reflexivity].
  erewrite store_member; [|vm_compute; reflexivity|reflexivity
                          |cbn [snd]; rewrite set_int_text by exact H8; cbn; reflexivity].
  cbn. by destruct h.
Qed.
(** A handle is decoded to what it was made from. *)
Lemma decode_encode_handle time_text parse_time h id :
  (forall t s, time_text t = Some s -> valid_utf8 s /\ parse_time s = Some t) ->
  handle_ok h -> encodeFileShareSnapshotHandle time_text h = Ok id ->
  decodeFileShareSnapshotHandle parse_time id = Some (Ok h).
Proof.
  intros Ht Hh. pose proof Hh as (_ & Hf & Hn & _ & Hi & _). unfold encodeFileShareSnapshotHandle.
  rewrite (proj2 (String.eqb_neq _ _) Hn). destruct (time_text (hCreatedAt h)) as [s|] eqn:Es; [|done].
  destruct (Ht _ _ Es) as [Hs Hp].
  generalize (DecodeString_EncodeToString (json_text (JObj (handle_members s h)))).
  generalize (EncodeToString (json_text (JObj (handle_members s h)))) as encoded. intros encoded Hd [= <-].
  unfold decodeFileShareSnapshotHandle.
  assert (HasPrefix encoded "" = true) as He by by destruct encoded.
  unfold TrimPrefix. cbn [HasPrefix fileShareSnapshotIDPrefix Ascii.eqb Bool.eqb andb]. rewrite He.
  cbn [negb String.length str_drop fileShareSnapshotIDPrefix]. rewrite Hd, (unmarshal_handle _ _ _ Hh Hs Hp).
  rewrite (proj2 (String.eqb_neq _ _) Hn), Hf, (proj2 (String.eqb_neq _ _) Hi). by destruct h.
Qed.
