(* ===== verification/Cmdlets.v ===== *)
(** * What the scripts of the WinRM back end do: disks and targets
    ([pkg/iscsi/backend_winrm.go])

    A script of [WinRMScripts] is a text to the back end.  Here each script of the methods
    for disks and targets is also a program, over the cmdlets it calls: a pipeline becomes
    a function on lists, an [if] stays one, [throw] and a cmdlet that stops the script are
    errors.  A cmdlet with [-ErrorAction SilentlyContinue] gives nothing when it fails.  PowerShell
    compares texts without regard to case, by their foldings. *)
From S2P Require Import Prelude GoStrings GoStrconv VolumeID VolumeTypes Params Prog Driver WinRM Backend.

(** ** Cmdlets *)

(** An initiator of a target: a text, or an object with some of these properties. *)
Record initiator_id := {
  id_text : option string; id_IQN : option string; id_Value : option string; id_Method : string
}.
Record server_target := {
  tgName : string; tgIqn : string; LunMappings : list string; InitiatorIds : list initiator_id
}.

(** A disk of the server: number, offline, read-only, without a partition table. *)
Record win_disk := { dkNumber : Z; IsOffline : bool; IsReadOnly : bool; IsRaw : bool }.
Record partition := {
  ptDisk : Z; ptNumber : Z; ptReserved : bool; ptSize : Z; AccessPaths : list string
}.
Inductive share_kind := NfsShare | SmbShare.
Record disk_snapshot := { dsId : string; dsDescription : string; dsCreationTime : option Z }.
Record shadow_copy := { shadow_ID : string; DeviceObject : string }.
(** What the file of a snapshot says; a property that is not there is empty. *)
Record snapshot_meta := {
  sm_snapshotType : string; sm_shadowId : string; sm_shadowPath : string;
  sm_sourceRelativePath : string; sm_snapshotId : string
}.

(** The optional parameters of new shares; an empty text or list, or no limit, is not given. *)
Record nfs_share_params := {
  np_Authentication : option (list string); np_AnonymousUid : option Z; np_AnonymousGid : option Z;
  np_LanguageEncoding : string; np_EnableAnonymousAccess : option bool; np_EnableUnmappedAccess : option bool
}.
Record smb_share_params := {
  sp_FullAccess : list string; sp_ChangeAccess : list string; sp_ReadAccess : list string;
  sp_NoAccess : option (list string); sp_Description : string; sp_EncryptData : option bool;
  sp_CompressData : option bool; sp_ContinuouslyAvailable : option bool; sp_CachingMode : string;
  sp_FolderEnumerationMode : string; sp_ConcurrentUserLimit : Z
}.

Inductive cmdlet :=
(* the environment and the file system *)
| GetEnvironmentVariable (name scope : string)
| SystemDrive
| ComputerName
| GetDate
| Sleep
| HasCommand (name : string)
| HasParameter (command name : string)
| ImportModule (name : string)
| NewDirectory (path : string)
| GetFullName (path : string)
| GetFullPath (path : string)
| GetDrive (path : string)
| GetFreeSpace (drive : string)
| TestPath (path : string)
| TestLeaf (path : string)
| TestContainer (path : string)
| GetChildItems (path : string)
| CopyItem (path destination : string)
| Robocopy (source destination : string)
| RemoveItem (path : string)
| RemoveTree (path : string)
| GetCapacityFile (path : string)
| SetCapacityFile (path : string) (capacityBytes : Z) (quotaEnforced : bool)
| GetSnapshotFile (path : string)
(* virtual disks *)
| NewIscsiVirtualDisk (path : string) (size : Z)
| GetIscsiVirtualDisk (path : string)
| ResizeIscsiVirtualDisk (path : string) (size : Z)
| RemoveIscsiVirtualDisk (path : string)
(* targets *)
| GetIscsiServerTarget (name : string)
| GetIscsiServerTargets
| NewIscsiServerTarget (name : string)
| SetTargetIqn (name iqn : string)
| SetTargetChap (name : string) (chap reverse : option (string * string))
| SetInitiatorIds (name : string) (ids : list string)
| RemoveIscsiServerTarget (name : string)
| AddTargetMapping (name path : string)
| RemoveTargetMapping (name path : string)
(* snapshots *)
| CheckpointIscsiVirtualDisk (path description : string)
| GetIscsiVirtualDiskSnapshots (path : string)
| GetIscsiVirtualDiskSnapshot (id : string)
| RemoveIscsiVirtualDiskSnapshot (id : string)
| ExportIscsiVirtualDiskSnapshot (id : string)
| GetShadowCopies
| RemoveShadowCopy (id : string)
(* images, disks and partitions *)
| GetDiskImage (path : string)
| MountDiskImage (path : string)
| DismountDiskImage (path : string)
| GetImageDisk (path : string)
| SetDiskOnline (number : Z)
| SetDiskWritable (number : Z)
| InitializeDisk (number : Z)
| GetPartitions
| GetDiskPartitions (disk : Z)
| GetPartition (disk number : Z)
| NewPartition (disk : Z)
| GetFileSystem (disk number : Z)
| FormatVolume (disk number : Z)
| GetPartitionSizeMax (disk number : Z)
| ResizePartition (disk number size : Z)
| AddPartitionAccessPath (disk number : Z) (path : string)
| RemovePartitionAccessPath (disk number : Z) (path : string)
(* shares and quotas *)
| GetShare (kind : share_kind) (name : string)
| NewNfsShare (name path permission : string) (allowRootAccess : bool) (params : nfs_share_params)
| GrantNfsSharePermission (name client clientType permission : string) (allowRootAccess : bool)
| NewSmbShare (name path : string) (params : smb_share_params)
| RemoveShare (kind : share_kind) (name : string)
| GetFsrmQuota (path : string)
| SetFsrmQuota (path : string) (size : Z)
| NewFsrmQuota (path : string) (size : Z)
| RemoveFsrmQuota (path : string)
(* whether the output gets back to the driver *)
| Deliver.

Definition cmdlet_result (o : cmdlet) : Type :=
  match o with
  | GetEnvironmentVariable _ _ | SystemDrive | ComputerName | GetFullName _ | GetFullPath _ | GetDrive _ => string
  | MountDiskImage _ | GetDate | GetFreeSpace _ | Robocopy _ _ | GetCapacityFile _ | GetPartitionSizeMax _ _ => Z
  | TestPath _ | TestLeaf _ | TestContainer _ | HasParameter _ _ | GetDiskImage _ => bool
  | GetChildItems _ => list string
  | GetSnapshotFile _ => snapshot_meta
  | GetIscsiVirtualDiskSnapshots _ => list disk_snapshot
  | GetShadowCopies => list shadow_copy
  | ExportIscsiVirtualDiskSnapshot _ | GetFileSystem _ _ | GetShare _ _ => string
  | GetImageDisk _ => win_disk
  | GetPartitions | GetDiskPartitions _ => list partition
  | GetPartition _ _ | NewPartition _ => partition
  | NewIscsiVirtualDisk _ _ | GetIscsiVirtualDisk _ | ResizeIscsiVirtualDisk _ _ => Z
  | GetIscsiServerTarget _ | NewIscsiServerTarget _ => server_target
  | GetIscsiServerTargets => list server_target
  | SetTargetIqn _ _ => option server_target
  | _ => unit
  end.
(** A cmdlet may fail. *)
Definition powershell : service := Service cmdlet (fun o => option (cmdlet_result o)).

Definition stopping_error {A} : go powershell A := lift (Err (PlainErr "Write-Error $_; exit 1")).
(** [$ErrorActionPreference='Stop']. *)
Definition stops (o : cmdlet) : go powershell (cmdlet_result o) :=
  r ← call (E := powershell) o;
  match r with Some a => ok a | None => stopping_error end.
(** [-ErrorAction SilentlyContinue]. *)
Definition silently (o : cmdlet) : go powershell (option (cmdlet_result o)) := call (E := powershell) o.

(** A script is run; its output may be lost after all has been done. *)
Definition runs {A} (script : go powershell A) : go powershell A :=
  catch script (fun r =>
    delivered ← call (E := powershell) Deliver;
    match delivered with Some _ => lift r | None => lift (Err (PlainErr "winrm run failed: %w; stderr=%s")) end).

(** ** Safety of scripts *)

Lemma safe_stops {M} (m : monitor powershell M) s (o : cmdlet) Q :
  allowed m s o ->
  (forall r, assumed m s o r -> match r with
                                | Some a => Q (Ok a) (step m s o r)
                                | None => forall e, Q (Err e) (step m s o r)
                                end) ->
  safe m s (stops o) Q.
Proof.
  intros Ha HQ. unfold stops. apply safe_bind. split; [done|]. intros r Hr. specialize (HQ r Hr).
  destruct r; cbn; [exact HQ|apply HQ].
Qed.
Lemma safe_silently {M} (m : monitor powershell M) s (o : cmdlet) Q :
  allowed m s o -> (forall r, assumed m s o r -> Q (Ok r) (step m s o r)) -> safe m s (silently o) Q.
Proof. intros Ha HQ. by split. Qed.
Lemma safe_runs {M A} (m : monitor powershell M) s (p : go powershell A) Q :
  (forall s, allowed m s Deliver) -> (forall s r, step m s Deliver r = s) ->
  safe m s p (fun r s' => Q r s' /\ forall e, Q (Err e) s') -> safe m s (runs p) Q.
Proof.
  intros Ha Hstep H. unfold runs, catch. apply safe_prog_bind. eapply safe_mono; [exact H|].
  intros r s' [HQ HE]. apply safe_bind. split; [apply Ha|]. intros d _. rewrite Hstep.
  destruct d; cbn; [destruct r; exact HQ|apply HE].
Qed.

Lemma only_stops (P : op powershell -> Prop) (o : cmdlet) : P o -> only P (stops o).
Proof. intros Ho. apply only_bind; [by split|]. by intros []. Qed.
Lemma only_silently (P : op powershell -> Prop) (o : cmdlet) : P o -> only P (silently o).
Proof. intros Ho. by split. Qed.
Lemma only_runs {A} (P : op powershell -> Prop) (p : go powershell A) : P Deliver -> only P p -> only P (runs p).
Proof.
  intros Hd Hp. unfold only, runs, catch. apply safe_prog_bind. eapply safe_mono; [exact Hp|].
  intros r [] _. apply only_bind; [by split|]. by intros [].
Qed.

(** [script_only] walks a script; a cmdlet that is not decided at once is left as a goal. *)
Ltac script_step :=
  match goal with
  | |- forall _, _ => intros
  | |- only _ (stops ?o) => apply (only_stops _ o)
  | |- only _ (silently ?o) => apply (only_silently _ o)
  | |- only _ (runs _) => apply only_runs
  | |- only _ (_ ≫= _) => apply only_bind
  | |- only _ (lift _) => exact I
  | |- only _ (ok _) => exact I
  | |- only _ stopping_error => exact I
  | |- only _ (let '(_, _) := ?x in _) => destruct x
  | |- only _ (match ?x with _ => _ end) => destruct x
  end.
Ltac script_only := repeat (cbv zeta; script_step).

Section scripts.
(** The case folding of PowerShell's comparisons, and [Join-Path]. *)
Context (fold : string -> string) (JoinPath : string -> string -> string).
Definition ps_eq (a b : string) : bool := fold a == fold b.
Definition blank (s : string) : bool := TrimSpace s == "".   (* [string]::IsNullOrWhiteSpace *)

(** ** Functions the scripts share *)

Definition Resolve_CsiVHDXParentPath (ParentDir : string) : go powershell string :=
  path ← (if blank ParentDir then stops (GetEnvironmentVariable "CSI_VHDX_PARENT_PATH" "Machine") else ok ParentDir);
  path ← (if blank path then stops (GetEnvironmentVariable "CSI_VHDX_PARENT_PATH" "Process") else ok path);
  path ← (if blank path then
            systemDrive ← stops SystemDrive;
            let systemDrive := if blank systemDrive then "C:" else systemDrive in
            ok (TrimRight systemDrive "\" +:+ "\iSCSIVirtualDisks")
          else ok path);
  _ ← stops (NewDirectory path);
  full ← stops (GetFullName path);
  ok (TrimRight full "\/").

Definition mapped (t : server_target) (path : string) : bool := existsb (fun p => ps_eq p path) (LunMappings t).
(** The targets with a mapping of the disk, once per mapping: name and IQN. *)
Definition Get_MappedIscsiTargets (path : string) : go powershell (list (string * string)) :=
  targets ← silently GetIscsiServerTargets;
  ok (flat_map (fun t => map (fun _ => (tgName t, tgIqn t)) (List.filter (fun p => ps_eq p path) (LunMappings t)))
        (default [] targets)).
Definition Get_MappedIscsiTargetNames (path : string) : go powershell (list string) :=
  targets ← Get_MappedIscsiTargets path; ok (map fst targets).

(** [-like 'IQN:*']. *)
Definition like_IQN (s : string) : bool := HasPrefix (fold s) (fold "IQN:").
Definition initiator_value (i : initiator_id) : option string :=
  let by_value := match id_Value i with
                  | Some v => if ps_eq (id_Method i) "Iqn" then v else ""
                  | None => ""
                  end in
  let raw := match id_text i, id_IQN i with
             | Some t, _ => t
             | None, Some iqn => if iqn != "" then iqn else by_value
             | None, None => by_value
             end in
  if blank raw then None else Some (if like_IQN raw then str_drop 4 raw else raw).
Definition Get_IscsiInitiatorIQNValues (ids : list initiator_id) : list string := omap initiator_value ids.
Definition initiatorIds (iqns : list string) : list string :=
  map (fun i => if like_IQN i then i else "IQN:" +:+ i) iqns.

(** ** The scripts *)

Definition EnsureTarget_run (targetName targetIQN : string) : go powershell (string * string) :=
  t ← silently (GetIscsiServerTarget targetName);
  t ← match t with Some t => ok t | None => stops (NewIscsiServerTarget targetName) end;
  t ← (if (negb (blank targetIQN) && negb (ps_eq (tgIqn t) targetIQN))%bool then
         t ← stops (SetTargetIqn targetName targetIQN);
         match t with Some t => ok t | None => stops (GetIscsiServerTarget targetName) end
       else ok t);
  ok (tgName t, tgIqn t).

Definition credential (user secret : string) : option (string * string) :=
  if blank user then None else Some (user, secret).
Definition ConfigureTargetChap_run (targetName : string) (opts : TargetChapOptions) : go powershell unit :=
  stops (SetTargetChap targetName (credential (ChapUser opts) (ChapSecret opts))
           (credential (ReverseChapUser opts) (ReverseChapSecret opts))).

Definition CreateVirtualDisk_run (name parentDir : string) (sizeBytes : Z) : go powershell (string * Z) :=
  parentDir ← Resolve_CsiVHDXParentPath parentDir;
  let path := JoinPath parentDir (name +:+ ".vhdx") in
  there ← stops (TestPath path);
  _ ← (if there : bool then ok tt else _ ← stops (NewIscsiVirtualDisk path sizeBytes); ok tt);
  size ← stops (GetIscsiVirtualDisk path);
  ok (path, size).

Definition MapDiskToTarget_run (targetName vhdxPath : string) : go powershell Z :=
  _ ← stops (GetIscsiVirtualDisk vhdxPath);
  mappedTargets ← Get_MappedIscsiTargetNames vhdxPath;
  _ ← (if existsb (fun t => ps_eq t targetName) mappedTargets then ok tt
       else stops (AddTargetMapping targetName vhdxPath));
  ok 0.

Definition UnmapDiskFromTarget_run (targetName path : string) : go powershell unit :=
  target ← silently (GetIscsiServerTarget targetName);
  if match target with Some t => mapped t path | None => false end then
    _ ← stops (RemoveTargetMapping targetName path);
    target ← silently (GetIscsiServerTarget targetName);
    if match target with Some t => mapped t path | None => false end then stopping_error else ok tt
  else ok tt.

Definition DeleteVirtualDisk_run (path : string) : go powershell unit :=
  vd ← silently (GetIscsiVirtualDisk path);
  _ ← match vd with Some _ => stops (RemoveIscsiVirtualDisk path) | None => ok tt end;
  there ← stops (TestPath path);
  _ ← (if there : bool then stops (RemoveItem path) else ok tt);
  there ← stops (TestPath path);
  if there : bool then stopping_error else ok tt.

Definition LookupTargetNameByIQN_run (targetIQN : string) : go powershell string :=
  targets ← silently GetIscsiServerTargets;
  ok (match List.find (fun t => ps_eq (tgIqn t) targetIQN) (default [] targets) with
      | Some t => tgName t
      | None => ""
      end).

Definition DeleteTarget_run (targetName : string) : go powershell unit :=
  target ← silently (GetIscsiServerTarget targetName);
  match target with
  | Some t =>
      if (0 <? length (LunMappings t))%nat then stopping_error
      else
        _ ← stops (RemoveIscsiServerTarget targetName);
        target ← silently (GetIscsiServerTarget targetName);
        match target with Some _ => stopping_error | None => ok tt end
  | None => ok tt
  end.

Definition GetVolumeByName_run (name parentDir : string) : go powershell FoundVolume :=
  parentDir ← Resolve_CsiVHDXParentPath parentDir;
  let path := JoinPath parentDir (name +:+ ".vhdx") in
  there ← stops (TestPath path);
  if there : bool then
    size ← stops (GetIscsiVirtualDisk path);
    targets ← Get_MappedIscsiTargets path;
    let '(targetName, targetIQN, lun) :=
      match targets with t :: _ => (fst t, snd t, 0) | [] => ("", "", -1) end in
    ok {| fv_exists := true; fv_vhdxPath := path; fv_sizeBytes := size; fv_targetName := targetName;
          fv_targetIQN := targetIQN; fv_lun := lun |}
  else ok no_volume.

Definition AllowInitiator_run (targetName initiatorIQN : string) : go powershell unit :=
  t ← stops (GetIscsiServerTarget targetName);
  let iqns := Get_IscsiInitiatorIQNValues (InitiatorIds t) in
  if existsb (fun i => ps_eq i initiatorIQN) iqns then ok tt
  else stops (SetInitiatorIds targetName (initiatorIds (iqns ++ [initiatorIQN]))).

Definition DenyInitiator_run (targetName initiatorIQN : string) : go powershell unit :=
  t ← silently (GetIscsiServerTarget targetName);
  match t with
  | Some t =>
      let iqns := List.filter (fun i => negb (ps_eq i initiatorIQN)) (Get_IscsiInitiatorIQNValues (InitiatorIds t)) in
      stops (SetInitiatorIds targetName (initiatorIds iqns))
  | None => ok tt
  end.

Definition GetTargetInitiators_run (targetName : string) : go powershell (list string) :=
  t ← silently (GetIscsiServerTarget targetName);
  ok (match t with Some t => Get_IscsiInitiatorIQNValues (InitiatorIds t) | None => [] end).

Definition disk_info (path : string) (sizeBytes : Z) (targets : list string) (lun : option Z) : VolumeInfo :=
  {| iVolumeName := ""; iProtocol := ""; iTargetPortal := ""; iTargetName := ""; iTargetIQN := "";
     iLUN := LUNPtrInt32 lun; iVHDXPath := path; iSharePath := ""; iNfsServer := "";
     iNfsExportPath := ""; iSmbServer := ""; iSmbShareName := ""; iCapacityBytes := 0;
     iCreatedAt := zero_time; iSizeBytes := sizeBytes; iTargets := targets |}.
Definition GetVolumeInfo_run (vhdxPath : string) : go powershell VolumeInfo :=
  there ← stops (TestPath vhdxPath);
  if there : bool then
    size ← stops (GetIscsiVirtualDisk vhdxPath);
    targets ← Get_MappedIscsiTargetNames vhdxPath;
    ok (disk_info vhdxPath size targets (if (0 <? length targets)%nat then Some 0 else None))
  else ok (disk_info "" 0 [] None).

Definition ResizeVirtualDisk_run (vhdxPath : string) (newSizeBytes : Z) : go powershell Z :=
  _ ← stops (ResizeIscsiVirtualDisk vhdxPath newSizeBytes);
  stops (GetIscsiVirtualDisk vhdxPath).
End scripts.
