(* ===== verification/ShareCmdlets.v ===== *)
(** * What the scripts of the WinRM back end do: snapshots and file shares
    ([pkg/iscsi/backend_winrm.go], [backend_fileshare.go])

    The other scripts as programs over cmdlets, as in [Cmdlets], and with all of them the
    methods of the back end, [windows_backend]. *)
From S2P Require Import Prelude GoStrings GoStrconv VolumeID VolumeTypes Params Prog Driver WinRMScripts WinRM Backend Cmdlets.

Section scripts.
(** The case folding of PowerShell's comparisons, [Join-Path], [[guid]::TryParse] and the
    JSON text of a time. *)
Context (fold : string -> string) (JoinPath : string -> string -> string).
Context (is_guid : string -> bool) (parse_time : string -> option Z).
Abbreviation eq := (ps_eq fold).

Definition GetDirectoryFreeCapacity_run (parentDir : string) : go powershell Z :=
  parentDir ← Resolve_CsiVHDXParentPath parentDir;
  drive ← stops (GetDrive parentDir);
  stops (GetFreeSpace drive).

(** ** Snapshots *)

(** Which of two comes first by creation, the later one; no time is before all times. *)
Definition later (a b : disk_snapshot) : bool :=
  match dsCreationTime a, dsCreationTime b with
  | Some x, Some y => x <? y
  | None, Some _ => true
  | _, None => false
  end.
Definition newest (l : list disk_snapshot) : option disk_snapshot :=
  fold_left (fun best s => match best with
                           | None => Some s
                           | Some b => Some (if later b s then s else b)
                           end) l None.
(** Twenty times at most, a quarter of a second apart. *)
Fixpoint find_snapshot (n : nat) (vhdxPath description : string) : go powershell (option disk_snapshot) :=
  match n with
  | O => ok None
  | S n =>
      l ← silently (GetIscsiVirtualDiskSnapshots vhdxPath);
      match newest (List.filter (fun s => eq (dsDescription s) description) (default [] l)) with
      | Some g => ok (Some g)
      | None => _ ← stops Sleep; find_snapshot n vhdxPath description
      end
  end.
Definition snapshot_info (vhdxPath : string) (s : disk_snapshot) (now : Z) : SnapshotInfo :=
  {| SnapshotID := dsId s; OriginalPath := vhdxPath; SourceVolume := ""; Description := dsDescription s;
     sCreatedAt := default now (dsCreationTime s); sSizeBytes := 0; ReadyToUse := false |}.
Definition CreateSnapshot_run (vhdxPath description : string) : go powershell SnapshotInfo :=
  _ ← stops (CheckpointIscsiVirtualDisk vhdxPath description);
  g ← find_snapshot 20 vhdxPath description;
  match g with
  | None => stopping_error
  | Some g => now ← stops GetDate; ok (snapshot_info vhdxPath g now)
  end.

Definition Get_CsiShadowCopy (ShadowId : string) : go powershell (option shadow_copy) :=
  l ← silently GetShadowCopies;
  ok (List.find (fun s => eq (shadow_ID s) ShadowId) (default [] l)).
Definition Remove_CsiShadowCopy (ShadowId : string) : go powershell unit :=
  shadow ← Get_CsiShadowCopy ShadowId;
  match shadow with
  | Some s => _ ← silently (RemoveShadowCopy (shadow_ID s)); ok tt
  | None => ok tt
  end.
Definition Join_CsiShadowPath (DeviceObject RelativePath : string) : string :=
  let root := TrimRight DeviceObject "\" in
  if blank RelativePath then root +:+ "\" else root +:+ "\" +:+ TrimLeft RelativePath "\".

Definition DeleteSnapshot_run (snapshotID : string) : go powershell unit :=
  known ← (if is_guid snapshotID then silently (GetIscsiVirtualDiskSnapshot snapshotID) else ok None);
  match known with
  | Some _ => _ ← silently (RemoveIscsiVirtualDiskSnapshot snapshotID); ok tt
  | None =>
      leaf ← stops (TestLeaf snapshotID);
      if leaf : bool then
        meta ← stops (GetSnapshotFile snapshotID);
        _ ← (if (eq (sm_snapshotType meta) "vss" && (sm_shadowId meta != ""))%bool
             then Remove_CsiShadowCopy (sm_shadowId meta) else ok tt);
        _ ← silently (RemoveItem snapshotID); ok tt
      else
        container ← stops (TestContainer snapshotID);
        if container : bool then _ ← silently (RemoveTree snapshotID); ok tt else ok tt
  end.

Definition snapshot_row (vhdxPath : string) (s : disk_snapshot) : go powershell SnapshotInfo :=
  match dsCreationTime s with
  | Some t => ok (snapshot_info vhdxPath s t)
  | None => now ← stops GetDate; ok (snapshot_info vhdxPath s now)
  end.
Fixpoint snapshot_rows (vhdxPath : string) (l : list disk_snapshot) : go powershell (list SnapshotInfo) :=
  match l with
  | [] => ok []
  | s :: rest => row ← snapshot_row vhdxPath s; rows ← snapshot_rows vhdxPath rest; ok (row :: rows)
  end.
Definition ListSnapshots_run (vhdxPath : string) : go powershell (list SnapshotInfo) :=
  l ← silently (GetIscsiVirtualDiskSnapshots vhdxPath);
  snapshot_rows vhdxPath (default [] l).

(** ** Disks behind shares *)

Definition Get_CsiAccessPath (Path : string) : go powershell string :=
  if blank Path then ok ""
  else
    full ← stops (GetFullPath Path);
    ok (if HasSuffix full "\" then full else full +:+ "\").
Definition has_access (accessPath : string) (p : partition) : bool :=
  existsb (fun a => eq a accessPath) (AccessPaths p).
Definition Get_CsiPartitionByAccessPath (Path : string) : go powershell (option partition) :=
  accessPath ← Get_CsiAccessPath Path;
  if blank accessPath then ok None
  else
    l ← silently GetPartitions;
    ok (List.find (has_access accessPath) (default [] l)).
Definition Test_CsiPartitionAccessPath (Path : string) : go powershell bool :=
  p ← Get_CsiPartitionByAccessPath Path;
  ok (match p with Some _ => true | None => false end).
Definition Expand_CsiPartitionToDisk (p : partition) : go powershell unit :=
  supported ← silently (GetPartitionSizeMax (ptDisk p) (ptNumber p));
  match supported with
  | Some max => if ptSize p <? max then stops (ResizePartition (ptDisk p) (ptNumber p) max) else ok tt
  | None => ok tt
  end.

(** The first partition by number that is not reserved. *)
Definition first_partition (l : list partition) : option partition :=
  fold_left (fun best p => if ptReserved p then best
                           else match best with
                                | None => Some p
                                | Some b => Some (if ptNumber p <? ptNumber b then p else b)
                                end) l None.
(** The partition of a disk that is to be mounted, made and formatted if need be. *)
Definition prepared_partition (disk : win_disk) : go powershell partition :=
  let n := dkNumber disk in
  _ ← (if IsOffline disk then stops (SetDiskOnline n) else ok tt);
  _ ← (if IsReadOnly disk then stops (SetDiskWritable n) else ok tt);
  _ ← (if IsRaw disk then stops (InitializeDisk n) else ok tt);
  l ← silently (GetDiskPartitions n);
  p ← (match first_partition (default [] l) with Some p => ok p | None => stops (NewPartition n) end);
  fs ← silently (GetFileSystem (ptDisk p) (ptNumber p));
  _ ← (if blank (default "" fs) then stops (FormatVolume (ptDisk p) (ptNumber p)) else ok tt);
  p ← stops (GetPartition n (ptNumber p));
  _ ← Expand_CsiPartitionToDisk p;
  stops (GetPartition n (ptNumber p)).
Definition Mount_CsiFileShareVirtualDisk (VhdxPath MountPath : string) : go powershell unit :=
  _ ← stops (NewDirectory MountPath);
  image ← silently (GetDiskImage VhdxPath);
  _ ← (if default false image then ok tt else _ ← stops (MountDiskImage VhdxPath); ok tt);
  _ ← stops (GetDiskImage VhdxPath);
  disk ← stops (GetImageDisk VhdxPath);
  p ← prepared_partition disk;
  accessPath ← Get_CsiAccessPath MountPath;
  if has_access accessPath p then ok tt
  else stops (AddPartitionAccessPath (dkNumber disk) (ptNumber p) accessPath).

Definition remove_access_path (MountPath : string) : go powershell unit :=
  accessPath ← Get_CsiAccessPath MountPath;
  p ← Get_CsiPartitionByAccessPath MountPath;
  match p with
  | None => ok tt
  | Some p =>
      _ ← stops (RemovePartitionAccessPath (ptDisk p) (ptNumber p) accessPath);
      p ← silently (GetPartition (ptDisk p) (ptNumber p));
      if match p with Some p => has_access accessPath p | None => false end then stopping_error else ok tt
  end.
Definition detach_image (VhdxPath : string) : go powershell unit :=
  image ← silently (GetDiskImage VhdxPath);
  if default false image then
    _ ← stops (DismountDiskImage VhdxPath);
    image ← silently (GetDiskImage VhdxPath);
    if default false image then stopping_error else ok tt
  else ok tt.
Definition remove_folder (MountPath : string) : go powershell unit :=
  there ← (if MountPath != "" then stops (TestPath MountPath) else ok false);
  if there : bool then
    _ ← stops (RemoveItem MountPath);
    there ← stops (TestPath MountPath);
    if there : bool then stopping_error else ok tt
  else ok tt.
Definition Dismount_CsiFileShareVirtualDisk (VhdxPath MountPath : string) : go powershell unit :=
  _ ← remove_access_path MountPath;
  _ ← detach_image VhdxPath;
  remove_folder MountPath.

(** ** Shares *)

(** The values of a [psStringArray]. *)
Definition array (values : list string) : list string :=
  List.filter (fun v => v != "") (map TrimSpace values).
Definition given_array (values : list string) : option (list string) :=
  match values with [] => None | l => Some (array l) end.
Definition nfs_params (opt : NfsShareOptions) : nfs_share_params :=
  {| np_Authentication := given_array (Authentication opt); np_AnonymousUid := AnonymousUID opt;
     np_AnonymousGid := AnonymousGID opt; np_LanguageEncoding := LanguageEncoding opt;
     np_EnableAnonymousAccess := EnableAnonymousAccess opt; np_EnableUnmappedAccess := EnableUnmappedAccess opt |}.
(** [CompressData] is given only if the cmdlet of this server has it. *)
Definition smb_params (full change read : list string) (has_compress : bool) (opt : SmbShareOptions) : smb_share_params :=
  {| sp_FullAccess := array full; sp_ChangeAccess := array change; sp_ReadAccess := array read;
     sp_NoAccess := given_array (NoAccess opt); sp_Description := smbDescription opt;
     sp_EncryptData := EncryptData opt; sp_CompressData := if has_compress then CompressData opt else None;
     sp_ContinuouslyAvailable := ContinuouslyAvailable opt; sp_CachingMode := CachingMode opt;
     sp_FolderEnumerationMode := FolderEnumerationMode opt; sp_ConcurrentUserLimit := ConcurrentUserLimit opt |}.

(** What a script says of a share: its name, the computer and its folder. *)
Definition nfs_output (name server path : string) (capacity : Z) : ShareOutput :=
  {| so_exists := true; so_name := name; so_server := server; so_export := "/" +:+ name; so_path := path;
     so_size := 0; so_capacity := capacity |}.
Definition smb_output (name server path : string) (capacity : Z) : ShareOutput :=
  {| so_exists := true; so_name := name; so_server := server; so_export := name; so_path := path;
     so_size := 0; so_capacity := capacity |}.

Fixpoint grant_clients (name clientType permission : string) (root : bool) (clients : list string) : go powershell unit :=
  match clients with
  | [] => ok tt
  | c :: rest =>
      _ ← silently (GrantNfsSharePermission name c clientType permission root);
      grant_clients name clientType permission root rest
  end.
Definition CreateNfsShare_run (name parentDir permission clientType : string) (root : bool)
  (clients : list string) (sizeBytes : Z) (opt : NfsShareOptions) : go powershell ShareOutput :=
  _ ← stops (ImportModule "NFS");
  let path := JoinPath parentDir name in
  _ ← stops (NewDirectory path);
  share ← silently (GetShare NfsShare name);
  _ ← match share with
      | Some _ => ok tt
      | None => stops (NewNfsShare name path permission root (nfs_params opt))
      end;
  _ ← grant_clients name clientType permission root (array clients);
  server ← stops ComputerName;
  ok (nfs_output name server path sizeBytes).

Definition CreateSmbShare_run (name parentDir : string) (sizeBytes : Z) (full change read : list string)
  (opt : SmbShareOptions) : go powershell ShareOutput :=
  _ ← stops (ImportModule "SmbShare");
  let path := JoinPath parentDir name in
  _ ← stops (NewDirectory path);
  share ← silently (GetShare SmbShare name);
  _ ← match share with
      | Some _ => ok tt
      | None =>
          has_compress ← match CompressData opt with
                         | Some _ => stops (HasParameter "New-SmbShare" "CompressData")
                         | None => ok false
                         end;
          stops (NewSmbShare name path (smb_params full change read has_compress opt))
      end;
  server ← stops ComputerName;
  ok (smb_output name server path sizeBytes).

(** What a lookup finds: the folder of the share and the capacity in its file. *)
Definition found_share (kind : share_kind) (name : string) (output : string -> string -> Z -> ShareOutput)
  : go powershell ShareOutput :=
  share ← silently (GetShare kind name);
  match share with
  | None => ok zero_share
  | Some path =>
      let metaPath := JoinPath path ".csi-volume.json" in
      there ← stops (TestPath metaPath);
      cap ← (if there : bool then stops (GetCapacityFile metaPath) else ok 0);
      server ← stops ComputerName;
      ok (output server path cap)
  end.
Definition GetNfsShare_run (name parentDir : string) : go powershell ShareOutput :=
  _ ← stops (ImportModule "NFS"); found_share NfsShare name (nfs_output name).
Definition GetSmbShare_run (name : string) : go powershell ShareOutput :=
  _ ← stops (ImportModule "SmbShare"); found_share SmbShare name (smb_output name).

(** The share goes first, then the quota of its folder, then the folder, unless a disk is
    mounted there. *)
Definition remove_share (kind : share_kind) (name : string) : go powershell (option string) :=
  share ← silently (GetShare kind name);
  match share with
  | None => ok None
  | Some path =>
      _ ← stops (RemoveShare kind name);
      share' ← silently (GetShare kind name);
      match share' with Some _ => stopping_error | None => ok (Some path) end
  end.
Definition remove_quota (path : string) : go powershell unit :=
  command ← silently (HasCommand "Remove-FsrmQuota");
  quota ← match command with Some _ => silently (GetFsrmQuota path) | None => ok None end;
  match quota with
  | None => ok tt
  | Some _ =>
      _ ← stops (RemoveFsrmQuota path);
      quota ← silently (GetFsrmQuota path);
      match quota with Some _ => stopping_error | None => ok tt end
  end.
Definition remove_tree (path : string) : go powershell unit :=
  mounted ← Test_CsiPartitionAccessPath path;
  if mounted : bool then stopping_error
  else
    _ ← stops (RemoveTree path);
    there ← stops (TestPath path);
    if there : bool then stopping_error else ok tt.
Definition DeleteShare_run (kind : share_kind) (name path : string) : go powershell unit :=
  _ ← stops (ImportModule (match kind with NfsShare => "NFS" | SmbShare => "SmbShare" end));
  share ← remove_share kind name;
  let path := if path != "" then path else default "" share in
  there ← (if path != "" then stops (TestPath path) else ok false);
  if there : bool then _ ← remove_quota path; remove_tree path else ok tt.

(** A quota that cannot be set is no error. *)
Definition set_quota (path : string) (bytes : Z) : go powershell unit :=
  quota ← silently (GetFsrmQuota path);
  match quota with
  | Some _ => stops (SetFsrmQuota path bytes)
  | None => stops (NewFsrmQuota path bytes)
  end.
Definition ResizeFileShare_run (path : string) (bytes : Z) : go powershell Z :=
  _ ← stops (NewDirectory path);
  command ← silently (HasCommand "New-FsrmQuota");
  quotaEnforced ← match command with
                  | Some _ =>
                      _ ← silently (ImportModule "FileServerResourceManager");
                      catch (set_quota path bytes) (fun r => ok (match r with Ok _ => true | _ => false end))
                  | None => ok false
                  end;
  _ ← stops (SetCapacityFile (JoinPath path ".csi-volume.json") bytes quotaEnforced);
  ok bytes.

(** ** Restoring *)

Fixpoint copy_items (items : list string) (d : string) : go powershell unit :=
  match items with
  | [] => ok tt
  | i :: rest => _ ← stops (CopyItem i d); copy_items rest d
  end.
Definition Copy_CsiDirectoryTree (s d : string) : go powershell unit :=
  _ ← stops (NewDirectory d);
  items ← stops (GetChildItems s);
  copy_items items d.
Definition Copy_CsiDirectoryMirror (s d : string) : go powershell unit :=
  _ ← stops (NewDirectory d);
  c ← stops (Robocopy s d);
  if 7 <? c then stopping_error else ok tt.

Definition RestoreSnapshotAsFileShare_vss_run (h : fileShareSnapshotHandle) (destinationPath : string)
  : go powershell unit :=
  shadow ← Get_CsiShadowCopy (ShadowID h);
  match shadow with
  | None => stopping_error
  | Some s =>
      let sourcePath := if negb (blank (SourceRelativePath h))
                        then Join_CsiShadowPath (DeviceObject s) (SourceRelativePath h) else ShadowPath h in
      container ← stops (TestContainer sourcePath);
      if container : bool then Copy_CsiDirectoryTree sourcePath destinationPath else stopping_error
  end.
(** The folder of a snapshot, and whether it is a shadow copy. *)
Definition snapshot_folder (snapshotID : string) : go powershell (string * bool) :=
  leaf ← stops (TestLeaf snapshotID);
  if leaf : bool then
    meta ← stops (GetSnapshotFile snapshotID);
    if eq (sm_snapshotType meta) "vss" then
      shadow ← Get_CsiShadowCopy (sm_shadowId meta);
      match shadow with
      | None => stopping_error
      | Some s =>
          ok (if (blank (sm_shadowPath meta) && (sm_sourceRelativePath meta != ""))%bool
              then Join_CsiShadowPath (DeviceObject s) (sm_sourceRelativePath meta) else sm_shadowPath meta, true)
      end
    else ok (if sm_snapshotId meta != "" then sm_snapshotId meta else snapshotID, false)
  else ok (snapshotID, false).
Definition RestoreSnapshotAsFileShare_run (snapshotID destinationPath : string) : go powershell unit :=
  '(sourcePath, isVssSnapshot) ← snapshot_folder snapshotID;
  container ← stops (TestContainer sourcePath);
  if container : bool then
    if isVssSnapshot : bool then Copy_CsiDirectoryTree sourcePath destinationPath
    else Copy_CsiDirectoryMirror sourcePath destinationPath
  else stopping_error.

(** ** The methods

    What the Go code does before and after a script, as in [WinRM]. *)

(** The capacity of a new share: what its quota was set to, if a size was asked for. *)
Definition sized_share (out : ShareOutput) (sizeBytes : Z) : go powershell Z :=
  if 0 <? sizeBytes then runs (ResizeFileShare_run (so_path out) sizeBytes) else ok (so_capacity out).

Definition windows_method (o : backend_op) : go powershell (backend_result o) :=
  match o return go powershell (backend_result o) with
  | EnsureTarget targetName targetIQN =>
      let targetName := TrimSpace targetName in
      if targetName == "" then lift (Err (PlainErr "target name is required"))
      else
        '(_, iqn) ← runs (EnsureTarget_run fold targetName (TrimSpace targetIQN));
        if blank iqn then lift (Err (PlainErr "target %q has no TargetIqn")) else ok iqn
  | ConfigureTargetChap targetName opts =>
      let targetName := TrimSpace targetName in
      if targetName == "" then lift (Err (PlainErr "target name is required"))
      else if negb (Enabled opts) then ok tt
      else runs (ConfigureTargetChap_run targetName opts)
  | CreateVirtualDisk name parentDir sizeBytes => runs (CreateVirtualDisk_run JoinPath name parentDir sizeBytes)
  | MapDiskToTarget targetName vhdxPath => runs (MapDiskToTarget_run fold targetName vhdxPath)
  | UnmapDiskFromTarget targetName vhdxPath => runs (UnmapDiskFromTarget_run fold targetName vhdxPath)
  | DeleteVirtualDisk vhdxPath => runs (DeleteVirtualDisk_run vhdxPath)
  | LookupTargetNameByIQN targetIQN =>
      let targetIQN := TrimSpace targetIQN in
      if targetIQN == "" then ok ""
      else name ← runs (LookupTargetNameByIQN_run fold targetIQN); ok (TrimSpace name)
  | DeleteTarget targetName =>
      let targetName := TrimSpace targetName in
      if targetName == "" then ok tt else runs (DeleteTarget_run targetName)
  | GetVolumeByName name parentDir => runs (GetVolumeByName_run fold JoinPath name parentDir)
  | AllowInitiator targetName initiatorIQN => runs (AllowInitiator_run fold targetName initiatorIQN)
  | DenyInitiator targetName initiatorIQN => runs (DenyInitiator_run fold targetName initiatorIQN)
  | GetTargetInitiators targetName => runs (GetTargetInitiators_run fold targetName)
  | ResizeVirtualDisk vhdxPath newSizeBytes => runs (ResizeVirtualDisk_run vhdxPath newSizeBytes)
  | GetVolumeInfo vhdxPath => runs (GetVolumeInfo_run fold vhdxPath)
  | GetDirectoryFreeCapacity parentDir => runs (GetDirectoryFreeCapacity_run parentDir)
  | CreateSnapshot vhdxPath description =>
      if is_vhdx vhdxPath then runs (CreateSnapshot_run vhdxPath description)
      else lift (Err (PlainErr "directory-backed file-share snapshots are not supported; use a VHDX-backed NFS/SMB driver"))
  | DeleteSnapshot snapshotID =>
      match decodeFileShareSnapshotHandle parse_time snapshotID with
      | Some r => handle ← lift r; runs (Remove_CsiShadowCopy (ShadowID handle))
      | None => runs (DeleteSnapshot_run snapshotID)
      end
  | ListSnapshots vhdxPath => if is_vhdx vhdxPath then runs (ListSnapshots_run vhdxPath) else ok []
  | ExportSnapshotAsVirtualDisk snapshotID => runs (stops (ExportIscsiVirtualDiskSnapshot snapshotID))
  | CreateNfsShare name parentDir sizeBytes clients opt =>
      let clients := match clients with [] => ["*"] | l => l end in
      let permission := TrimSpace (Permission opt) in
      let permission := if permission == "" then "readwrite" else permission in
      let clientType := TrimSpace (ClientType opt) in
      let clientType := if clientType == "" then "host" else clientType in
      let allowRootAccess := match AllowRootAccess opt with Some x => x | None => true end in
      out ← runs (CreateNfsShare_run name parentDir permission clientType allowRootAccess clients sizeBytes opt);
      capacity ← sized_share out sizeBytes;
      ok (nfs_info out capacity)
  | GetNfsShare name parentDir =>
      out ← runs (GetNfsShare_run name parentDir);
      ok (if so_exists out then (true, nfs_info out (so_capacity out)) else (false, zero_VolumeInfo))
  | DeleteNfsShare name path => runs (DeleteShare_run NfsShare name path)
  | CreateSmbShare name parentDir sizeBytes full change read opt =>
      let '(full, change) :=
        match full, change, read with [], [], [] => (["Administrators"], ["Everyone"]) | _, _, _ => (full, change) end in
      out ← runs (CreateSmbShare_run name parentDir sizeBytes full change read opt);
      capacity ← sized_share out sizeBytes;
      ok (smb_info out capacity)
  | GetSmbShare name parentDir =>
      out ← runs (GetSmbShare_run name);
      ok (if so_exists out then (true, smb_info out (so_capacity out)) else (false, zero_VolumeInfo))
  | DeleteSmbShare name path => runs (DeleteShare_run SmbShare name path)
  | ResizeFileShare path newSizeBytes => runs (ResizeFileShare_run path newSizeBytes)
  | RestoreSnapshotAsFileShare snapshotID destinationPath =>
      match decodeFileShareSnapshotHandle parse_time snapshotID with
      | Some r => handle ← lift r; runs (RestoreSnapshotAsFileShare_vss_run handle destinationPath)
      | None => runs (RestoreSnapshotAsFileShare_run snapshotID destinationPath)
      end
  | MountFileShareVirtualDisk vhdxPath mountPath => runs (Mount_CsiFileShareVirtualDisk vhdxPath mountPath)
  | UnmountFileShareVirtualDisk vhdxPath mountPath => runs (Dismount_CsiFileShareVirtualDisk vhdxPath mountPath)
  end.
Definition windows_backend (o : op backend) : prog powershell (resp backend o) :=
  prog_bind (windows_method o) (fun r =>
    Ret (match r with Ok a => Returned a false | _ => Returned (zero_result o) true end)).
End scripts.
