(* ===== verification/WindowsServer.v ===== *)
(** * The life of an iSCSI volume on a Windows server

    The controller, linked with the scripts of [Cmdlets], on a server the cmdlets of which
    do what is documented of them, or fail and do nothing.  Scripts fail half-way and their
    output may be lost: still, a volume that was deleted with success has left nothing. *)
From S2P Require Import Prelude GoStrings GoStrconv GoJsonFacts VolumeID VolumeTypes LegacyID Params Chap Prog Driver.
From S2P Require Import WinRM Backend Controller ControllerFacts StorageContract LifeCycle Cmdlets ShareCmdlets.

(** ** The server *)

(** Disks, files, made folders and targets by their folded names; the targets with
    credentials. *)
Record windows := {
  win_disks : gmap string Z; win_files : gset string; win_folders : gset string;
  win_targets : gmap string server_target; win_chap : gset string
}.
Definition with_disks (d : gmap string Z) (f : gset string) (s : windows) : windows :=
  {| win_disks := d; win_files := f; win_folders := win_folders s; win_targets := win_targets s; win_chap := win_chap s |}.
Definition with_targets (t : gmap string server_target) (c : gset string) (s : windows) : windows :=
  {| win_disks := win_disks s; win_files := win_files s; win_folders := win_folders s; win_targets := t; win_chap := c |}.
Definition with_folder (p : string) (s : windows) : windows :=
  {| win_disks := win_disks s; win_files := win_files s; win_folders := win_folders s ∪ {[p]};
     win_targets := win_targets s; win_chap := win_chap s |}.
Definition with_iqn (iqn : string) (t : server_target) : server_target :=
  {| tgName := tgName t; tgIqn := iqn; LunMappings := LunMappings t; InitiatorIds := InitiatorIds t |}.
Definition with_mappings (l : list string) (t : server_target) : server_target :=
  {| tgName := tgName t; tgIqn := tgIqn t; LunMappings := l; InitiatorIds := InitiatorIds t |}.
Definition iqn_id (value : string) : initiator_id :=
  {| id_text := None; id_IQN := None; id_Value := Some value; id_Method := "Iqn" |}.
Definition with_initiators (l : list string) (t : server_target) : server_target :=
  {| tgName := tgName t; tgIqn := tgIqn t; LunMappings := LunMappings t; InitiatorIds := map iqn_id l |}.

Section server.
Context (fold : string -> string) (JoinPath : string -> string -> string).
Context (is_guid : string -> bool) (parse_time : string -> option Z).
(** The environment of the server, and the full names of its directories. *)
Context (env : string -> string -> string) (drive : string) (full : string -> string).

Definition set_target (n : string) (f : server_target -> server_target) (s : windows) : windows :=
  with_targets (alter f (fold n) (win_targets s)) (win_chap s) s.
Definition win_step (s : windows) (o : cmdlet) : option (cmdlet_result o) -> windows :=
  match o with
  | NewDirectory p => fun r => match r with Some _ => with_folder (fold p) s | None => s end
  | RemoveItem p => fun r =>
      match r with Some _ => with_disks (win_disks s) (win_files s ∖ {[fold p]}) s | None => s end
  | NewIscsiVirtualDisk p _ => fun r =>
      match r with Some z => with_disks (<[fold p := z]> (win_disks s)) (win_files s ∪ {[fold p]}) s | None => s end
  | ResizeIscsiVirtualDisk p _ => fun r =>
      match r with Some z => with_disks (<[fold p := z]> (win_disks s)) (win_files s) s | None => s end
  | RemoveIscsiVirtualDisk p => fun r =>
      match r with Some _ => with_disks (delete (fold p) (win_disks s)) (win_files s) s | None => s end
  | NewIscsiServerTarget n => fun r =>
      match r with Some t => with_targets (<[fold n := t]> (win_targets s)) (win_chap s) s | None => s end
  | SetTargetIqn n iqn => fun r => match r with Some _ => set_target n (with_iqn iqn) s | None => s end
  | SetTargetChap n _ _ => fun r =>
      match r with Some _ => with_targets (win_targets s) (win_chap s ∪ {[fold n]}) s | None => s end
  | SetInitiatorIds n ids => fun r => match r with Some _ => set_target n (with_initiators ids) s | None => s end
  | RemoveIscsiServerTarget n => fun r =>
      match r with
      | Some _ => with_targets (delete (fold n) (win_targets s)) (win_chap s ∖ {[fold n]}) s
      | None => s
      end
  | AddTargetMapping n p => fun r =>
      match r with Some _ => set_target n (fun t => with_mappings (LunMappings t ++ [p]) t) s | None => s end
  | RemoveTargetMapping n p => fun r =>
      match r with
      | Some _ => set_target n (fun t => with_mappings (List.filter (fun q => negb (ps_eq fold q p)) (LunMappings t)) t) s
      | None => s
      end
  | _ => fun _ => s
  end.

(** The cmdlets that only look. *)
Definition looks_only (o : cmdlet) : Prop :=
  match o with
  | GetEnvironmentVariable _ _ | SystemDrive | GetFullName _ | TestPath _ | GetIscsiVirtualDisk _
  | GetIscsiServerTarget _ | GetIscsiServerTargets | Deliver => True
  | _ => False
  end.
(** The cmdlets for disks and targets; no other is run. *)
Definition iscsi_cmdlet (o : cmdlet) : Prop :=
  match o with
  | NewDirectory _ | RemoveItem _ | NewIscsiVirtualDisk _ _ | ResizeIscsiVirtualDisk _ _ | RemoveIscsiVirtualDisk _
  | NewIscsiServerTarget _ | SetTargetIqn _ _ | SetTargetChap _ _ _ | SetInitiatorIds _ _
  | RemoveIscsiServerTarget _ | AddTargetMapping _ _ | RemoveTargetMapping _ _ => True
  | o => looks_only o
  end.
(** What is documented: a lookup of a disk or a target finds what is there, and fails for
    what is not; nothing is made twice, and nothing is changed that is not there.  Sizes are
    of 63 bits, texts Unicode. *)
Definition win_answers (s : windows) (o : cmdlet) : option (cmdlet_result o) -> Prop :=
  match o with
  | GetEnvironmentVariable n scope => fun r => forall v, r = Some v -> v = env n scope
  | SystemDrive => fun r => forall v, r = Some v -> v = drive
  | GetFullName p => fun r => forall v, r = Some v -> v = full p
  | TestPath p => fun r => forall b, r = Some b -> b = bool_decide (fold p ∈ win_files s)
  | NewIscsiVirtualDisk p _ => fun r => forall z, r = Some z -> fold p ∉ win_files s
  | GetIscsiVirtualDisk p => fun r => r = win_disks s !! fold p /\ forall z, r = Some z -> 0 <= z < 2 ^ 63
  | ResizeIscsiVirtualDisk p _ => fun r => forall z, r = Some z -> is_Some (win_disks s !! fold p)
  | GetIscsiServerTarget n => fun r =>
      r = win_targets s !! fold n /\ forall t, r = Some t -> valid_utf8 (tgIqn t)
  | GetIscsiServerTargets => fun r =>
      forall l, r = Some l -> forall t, t ∈ l -> valid_utf8 (tgIqn t) /\ exists n, win_targets s !! n = Some t
  | NewIscsiServerTarget n => fun r => forall t, r = Some t ->
      win_targets s !! fold n = None /\ tgName t = n /\ valid_utf8 (tgIqn t)
  | SetTargetIqn n iqn => fun r => forall t, r = Some (Some t) -> valid_utf8 (tgIqn t)
  | SetTargetChap n _ _ => fun r => r = Some tt -> is_Some (win_targets s !! fold n)
  | _ => fun _ => True
  end.
Definition windows_server : monitor powershell windows :=
  Monitor powershell windows (fun _ => iscsi_cmdlet) win_answers win_step.

(** The folder that a [parentDir] stands for, and the file of a volume. *)
Definition chosen (dir : string) : string :=
  let dir := if blank dir then env "CSI_VHDX_PARENT_PATH" "Machine" else dir in
  let dir := if blank dir then env "CSI_VHDX_PARENT_PATH" "Process" else dir in
  if blank dir then TrimRight (if blank drive then "C:" else drive) "\" +:+ "\iSCSIVirtualDisks" else dir.
Definition resolved (dir : string) : string := TrimRight (full (chosen dir)) "\/".
Definition volume_path (name dir : string) : string := JoinPath (resolved dir) (name +:+ ".vhdx").

(** ** What belongs to a volume *)

Section volume.
Context (cs : ControllerServer) (req : CreateVolumeRequest) (st : IscsiSettings) (s0 : windows).
Abbreviation own := (targetName st).
Abbreviation path := (volume_path (cr_Name req) (parentDir st)).
Abbreviation folder := (fold (chosen (parentDir st))).

(** Nothing of it is there: no file, no disk, no target, no mapping. *)
Record nothing_there : Prop := {
  no_file : fold path ∉ win_files s0;
  no_disk : win_disks s0 !! fold path = None;
  no_target : win_targets s0 !! fold own = None;
  no_chap : fold own ∉ win_chap s0;
  no_mapping : forall n t, win_targets s0 !! n = Some t -> mapped fold t path = false
}.
Context (Hnone : nothing_there).

(** The server differs from what it was in the volume's own things only. *)
Record own_only (s : windows) : Prop := {
  oo_disks : delete (fold path) (win_disks s) = win_disks s0;
  oo_files : win_files s ∖ {[fold path]} = win_files s0;
  oo_folders : win_folders s ∪ {[folder]} = win_folders s0 ∪ {[folder]};
  oo_targets : delete (fold own) (win_targets s) = win_targets s0;
  oo_name : forall t, win_targets s !! fold own = Some t -> tgName t = own;
  oo_chap : win_chap s ∖ {[fold own]} = win_chap s0;
  oo_chap_target : win_targets s !! fold own = None -> fold own ∉ win_chap s
}.
Definition disk_away (s : windows) : Prop := win_disks s !! fold path = None /\ fold path ∉ win_files s.
Definition target_away (s : windows) : Prop := win_targets s !! fold own = None.

Lemma own_only_start : own_only s0.
Proof.
  destruct Hnone as [Hf Hd Ht Hc _]. split; try done; [by apply delete_id|set_solver|by apply delete_id|
    by intros t; rewrite Ht|set_solver].
Qed.
Lemma own_only_end s : own_only s -> disk_away s -> target_away s -> with_folder folder s = with_folder folder s0.
Proof.
  intros [E1 E2 Ef0 E3 _ E5 E6] [Hd Hf] Ht. specialize (E6 Ht). rewrite delete_id in E1 by done. rewrite delete_id in E3 by done.
  assert (win_files s = win_files s0) as Ef by set_solver. assert (win_chap s = win_chap s0) as Ec by set_solver.
  destruct s, s0. unfold with_folder. cbn in *. congruence.
Qed.

(** The cmdlets that change nothing, or something of the volume. *)
Definition own_cmdlet (o : op powershell) : Prop :=
  match (o : cmdlet) with
  | NewDirectory p => fold p = folder
  | RemoveItem p | NewIscsiVirtualDisk p _ | ResizeIscsiVirtualDisk p _ | RemoveIscsiVirtualDisk p => fold p = fold path
  | NewIscsiServerTarget n => n = own
  | SetTargetIqn n _ | SetTargetChap n _ _ | SetInitiatorIds n _ | RemoveIscsiServerTarget n
  | AddTargetMapping n _ | RemoveTargetMapping n _ => fold n = fold own
  | o => looks_only o
  end.
Lemma own_iscsi o : own_cmdlet o -> iscsi_cmdlet o.
Proof. by destruct o. Qed.
Definition makes_disk (o : op powershell) : Prop :=
  match (o : cmdlet) with NewIscsiVirtualDisk _ _ => True | _ => False end.
Definition makes_target (o : op powershell) : Prop :=
  match (o : cmdlet) with NewIscsiServerTarget _ => True | _ => False end.

Lemma own_only_target s f :
  (forall t, tgName (f t) = tgName t) -> own_only s ->
  own_only (with_targets (alter f (fold own) (win_targets s)) (win_chap s) s).
Proof.
  intros Hf [E1 E2 Ef E3 E4 E5 E6]. split; cbn; try done.
  - by rewrite delete_alter_eq.
  - intros t. rewrite lookup_alter_eq. destruct (win_targets s !! fold own) as [t0|]; [|done].
    intros [= <-]. rewrite Hf. by apply E4.
  - rewrite lookup_alter_eq. destruct (win_targets s !! fold own); [done|]. intros _. by apply E6.
Qed.
Lemma own_only_disks s d f :
  delete (fold path) d = delete (fold path) (win_disks s) -> f ∖ {[fold path]} = win_files s ∖ {[fold path]} ->
  own_only s -> own_only (with_disks d f s).
Proof. intros Hd Hf [E1 E2 Ef E3 E4 E5 E6]. split; cbn; try done; [by rewrite Hd|by rewrite Hf]. Qed.

Lemma own_only_folder s : own_only s -> own_only (with_folder folder s).
Proof. intros [E1 E2 Ef E3 E4 E5 E6]. split; cbn; try done. set_solver. Qed.
Lemma own_only_step s (o : cmdlet) r :
  own_cmdlet o -> win_answers s o r -> own_only s -> own_only (win_step s o r).
Proof.
  intros Ho Hr A. destruct o; cbn [own_cmdlet] in Ho; try exact A; cbn [win_step win_answers] in *;
    (destruct r as [r|]; [|exact A]); unfold set_target; rewrite ?Ho; try (by apply own_only_target).
  - by apply own_only_folder.
  - apply own_only_disks; [done|set_solver|done].
  - apply own_only_disks; [by rewrite delete_insert_eq|set_solver|done].
  - apply own_only_disks; [by rewrite delete_insert_eq|done|done].
  - apply own_only_disks; [by rewrite delete_delete_eq|done|done].
  - destruct A as [E1 E2 Ef E3 E4 E5 E6]. subst name. destruct (Hr r eq_refl) as (Hn & Hname & _).
    split; cbn; try done; [by rewrite delete_insert_eq| |by rewrite lookup_insert_eq].
    intros t. rewrite lookup_insert_eq. by intros [= <-].
  - destruct A as [E1 E2 Ef E3 E4 E5 E6]. destruct r. destruct (Hr eq_refl) as [t Ht]. rewrite Ho in Ht.
    split; cbn; try done; [set_solver|by rewrite Ht].
  - destruct A as [E1 E2 Ef E3 E4 E5 E6]. split; cbn; try done;
      [by rewrite delete_delete_eq|by intros t; rewrite lookup_delete_eq|set_solver|set_solver].
Qed.
Lemma disk_away_step s (o : cmdlet) r :
  ~ makes_disk o -> win_answers s o r -> disk_away s -> disk_away (win_step s o r).
Proof.
  intros Hn Hr [Hd Hf]. destruct o; try done; cbn [win_step]; (destruct r as [r|]; [|done]); split; cbn; try done.
  - set_solver.
  - destruct (Hr r eq_refl) as [z Hz]. rewrite lookup_insert_ne; [done|]. intros E. by rewrite E, Hd in Hz.
  - apply lookup_delete_None. by right.
Qed.
Lemma target_away_step s (o : cmdlet) r :
  ~ makes_target o -> target_away s -> target_away (win_step s o r).
Proof.
  intros Hn Ht. unfold target_away in *. destruct o; try done; cbn [win_step]; (destruct r as [r|]; [|done]);
    cbn; try (by apply lookup_delete_None; right); try done.
  all: destruct (decide (fold name = fold own)) as [->|]; [rewrite lookup_alter_eq, Ht; done|by rewrite lookup_alter_ne].
Qed.

(** ** Scripts on the volume's own things *)

Lemma only_backend (P : op powershell -> Prop) o :
  only P (windows_method fold JoinPath is_guid parse_time o) -> only P (windows_backend fold JoinPath is_guid parse_time o).
Proof. intros H. unfold only, windows_backend. apply safe_prog_bind. eapply safe_mono; [exact H|]. done. Qed.

Definition quiet (o : op powershell) : Prop := own_cmdlet o /\ ~ makes_disk o /\ ~ makes_target o.
Ltac harmless := split; [done|split; intros []].
Hypothesis Hown : TrimSpace own = own /\ own <> "".

Lemma mapped_quiet p : only quiet (Get_MappedIscsiTargets fold p).
Proof. unfold Get_MappedIscsiTargets. script_only; harmless. Qed.

(** What is known of the volume: that its disk and its target have been deleted. *)
Record knowledge := { disk_deleted : bool; target_deleted : bool }.
Definition known (k : knowledge) (s : windows) : Prop :=
  own_only s /\ (disk_deleted k = true -> disk_away s) /\ (target_deleted k = true -> target_away s).
Definition knowledge_step (k : knowledge) (o : backend_op) : returned (backend_result o) -> knowledge :=
  match o with
  | CreateVirtualDisk _ _ _ => fun _ => {| disk_deleted := false; target_deleted := target_deleted k |}
  | EnsureTarget _ _ => fun _ => {| disk_deleted := disk_deleted k; target_deleted := false |}
  | DeleteVirtualDisk _ => fun r =>
      {| disk_deleted := (disk_deleted k || negb (failed r))%bool; target_deleted := target_deleted k |}
  | DeleteTarget _ => fun r =>
      {| disk_deleted := disk_deleted k; target_deleted := (target_deleted k || negb (failed r))%bool |}
  | _ => fun _ => k
  end.
Definition volume_op (o : op backend) : Prop :=
  match (o : backend_op) with
  | CreateVirtualDisk n d _ | GetVolumeByName n d => n = cr_Name req /\ d = parentDir st
  | o => own_op st path o
  end.
Definition volume_answers (k : knowledge) (o : backend_op) : returned (backend_result o) -> Prop :=
  match o with
  | CreateVirtualDisk _ _ _ => fun r => failed r = false -> (value r).1 = path /\ 0 <= (value r).2 < 2 ^ 63
  | GetVolumeByName n d => fun r =>
      failed r = false -> fv_exists (value r) = true ->
      fv_vhdxPath (value r) = path /\ (fv_targetName (value r) = own \/ fv_targetName (value r) = "")
      /\ 0 <= fv_sizeBytes (value r) < 2 ^ 63 /\ -1 <= fv_lun (value r) < 2 ^ 31
  | EnsureTarget _ _ => fun r => failed r = false -> valid_utf8 (value r)
  | MapDiskToTarget _ _ => fun r => failed r = false -> 0 <= value r < 2 ^ 31
  | _ => fun _ => True
  end.
Definition volume_requests : monitor backend knowledge :=
  Monitor backend knowledge (fun _ o => volume_op o) volume_answers knowledge_step.

Lemma only_invariant {A} (P : op powershell -> Prop) (J : windows -> Prop) (p : prog powershell A) :
  (forall o, P o -> iscsi_cmdlet o) ->
  (forall s (o : cmdlet) r, P o -> win_answers s o r -> J s -> J (win_step s o r)) ->
  only P p -> forall s, J s -> safe windows_server s p (fun _ s' => J s').
Proof.
  intros HP HJ. unfold only. induction p as [a|o k IH]; intros Hp s Hs; [exact Hs|]. destruct Hp as [Ho Hk].
  split; [by apply HP|]. intros r Hr. apply IH; [by apply Hk|by apply (HJ s o r)].
Qed.
Lemma quiet_known {A} (p : prog powershell A) k s :
  only quiet p -> known k s -> safe windows_server s p (fun _ s' => known k s').
Proof.
  intros Hp Hk. apply (only_invariant quiet (known k)); [intros o [Ho _]; by apply own_iscsi| |done|done]. intros s1 o r (Ho & Hd & Ht) Hr (H1 & H2 & H3).
  split; [by apply own_only_step|split]; intros H; [apply disk_away_step|apply target_away_step]; auto.
Qed.
Lemma disk_known {A} (p : prog powershell A) k s :
  only (fun o => own_cmdlet o /\ ~ makes_target o) p -> known k s ->
  safe windows_server s p (fun _ s' => known {| disk_deleted := false; target_deleted := target_deleted k |} s').
Proof.
  intros Hp (H1 & _ & H3). eapply (only_invariant (fun o => own_cmdlet o /\ ~ makes_target o) (known _)); [intros o [Ho _]; by apply own_iscsi| |exact Hp|by split_and!].
  intros s1 o r (Ho & Ht) Hr (A1 & _ & A3). split; [by apply own_only_step|]. split; [done|].
  intros H'. apply target_away_step; auto.
Qed.
Lemma target_known {A} (p : prog powershell A) k s :
  only (fun o => own_cmdlet o /\ ~ makes_disk o) p -> known k s ->
  safe windows_server s p (fun _ s' => known {| disk_deleted := disk_deleted k; target_deleted := false |} s').
Proof.
  intros Hp (H1 & H2 & _). eapply (only_invariant (fun o => own_cmdlet o /\ ~ makes_disk o) (known _)); [intros o [Ho _]; by apply own_iscsi| |exact Hp|by split_and!].
  intros s1 o r (Ho & Hd) Hr (A1 & A2 & _). split; [by apply own_only_step|]. split; [|done].
  intros H'. apply disk_away_step; auto.
Qed.

(** ** Answers of the scripts *)

Definition outcome (o : backend_op) (r : res (backend_result o)) : returned (backend_result o) :=
  match r with Ok a => Returned a false | _ => Returned (zero_result o) true end.
Definition served (k : knowledge) (o : backend_op) (r : res (backend_result o)) (s : windows) : Prop :=
  volume_answers k o (outcome o r) /\ known (knowledge_step k o (outcome o r)) s.

Lemma resolve_safe s dir :
  safe windows_server s (Resolve_CsiVHDXParentPath dir)
    (fun r s' => (s' = s \/ s' = with_folder (fold (chosen dir)) s) /\ forall p, r = Ok p -> p = resolved dir).
Proof.
  assert (forall (b : bool) name scope d v s1, d = v -> 
    safe windows_server s1 (if b then stops (GetEnvironmentVariable name scope) else ok d)
      (fun r s' => s' = s1 /\ forall p, r = Ok p -> p = if b then env name scope else v)) as Henv.
  { intros b name scope d v s1 ->. destruct b; [|by split; [|intros p [= <-]]]. apply safe_stops; [done|].
    intros [a|] Hr; [|done]. split; [done|]. intros p [= <-]. by apply Hr. }
  unfold Resolve_CsiVHDXParentPath. apply safe_bind. eapply safe_mono; [by apply Henv|].
  intros [d1|e|] s1 [-> H1]; [|by split; [left|]..]. apply safe_bind. eapply safe_mono; [by apply Henv; apply H1|].
  intros [d2|e|] s2 [-> H2]; [|by split; [left|]..]. specialize (H2 _ eq_refl). specialize (H1 _ eq_refl). subst d1. apply safe_bind.
  assert (safe windows_server s
    (if blank d2 then systemDrive ← stops SystemDrive;
       let systemDrive := if blank systemDrive then "C:" else systemDrive in
       ok (TrimRight systemDrive "\" +:+ "\iSCSIVirtualDisks")
     else ok d2) (fun r s' => s' = s /\ forall p, r = Ok p -> p = chosen dir)) as H3.
  { assert (chosen dir = if blank d2 then TrimRight (if blank drive then "C:" else drive) "\" +:+ "\iSCSIVirtualDisks" else d2)
      as -> by (by subst d2). destruct (blank d2); [|by split; [|intros p [= <-]]].
    apply safe_bind, safe_stops; [done|]. intros [a|] Hr; [|done]. split; [done|]. intros p [= <-].
    by rewrite (Hr a eq_refl). }
  eapply safe_mono; [exact H3|]. intros [d3|e|] s3 [-> H4]; [|by split; [left|]..]. specialize (H4 _ eq_refl). subst d3.
  apply safe_bind, safe_stops; [done|]. intros [[]|] _; [|by split; [left|]]. apply safe_bind, safe_stops; [done|].
  intros [f|] Hf; (split; [by right|]); [|done]. intros p [= <-]. by rewrite (Hf f eq_refl).
Qed.

Lemma folder_known k s s' : s' = s \/ s' = with_folder folder s -> known k s -> known k s'.
Proof. intros [->| ->]; [done|]. intros (H1 & H2 & H3). split; [by apply own_only_folder|by split]. Qed.

Lemma served_runs {A} (Q : res A -> windows -> Prop) s (p : go powershell A) :
  safe windows_server s p (fun r s' => Q r s' /\ forall e, Q (Err e) s') -> safe windows_server s (runs p) Q.
Proof. by apply safe_runs. Qed.

(** The methods that make nothing, not even a folder. *)
Definition changes_only (o : op backend) : Prop :=
  match (o : backend_op) with
  | CreateVirtualDisk _ _ _ | EnsureTarget _ _ | GetVolumeByName _ _ => False
  | _ => True
  end.
Lemma method_quiet (o : backend_op) :
  volume_op o -> changes_only o -> only quiet (windows_method fold JoinPath is_guid parse_time o).
Proof.
  intros Ho Hc. destruct Hown as [Htr _].
  destruct o; cbn [volume_op own_op changes_only] in Ho, Hc; try done; cbn [windows_method]; try exact I;
    try match type of Ho with
        | _ /\ _ => destruct Ho as [-> ->]
        | ?x = _ => subst x
        end; rewrite ?Htr; script_only; try harmless.
  - unfold ConfigureTargetChap_run. script_only; harmless.
  - unfold MapDiskToTarget_run, Get_MappedIscsiTargetNames. script_only; try harmless; apply mapped_quiet.
  - unfold UnmapDiskFromTarget_run. script_only; harmless.
  - unfold DeleteVirtualDisk_run. script_only; harmless.
  - unfold DeleteTarget_run. script_only; harmless.
  - unfold AllowInitiator_run. script_only; harmless.
  - unfold DenyInitiator_run. script_only; harmless.
  - unfold ResizeVirtualDisk_run. script_only; harmless.
Qed.

(** Each lookup shows what is there. *)
Ltac looks := first [apply safe_bind, safe_silently; [done|] | apply safe_bind, safe_stops; [done|]];
  cbn [assumed step windows_server win_answers win_step].
Lemma ensure_answer s t iqn :
  safe windows_server s (windows_method fold JoinPath is_guid parse_time (EnsureTarget t iqn)) (fun r _ => forall a, r = Ok a -> valid_utf8 a).
Proof.
  cbn [windows_method]. cbv zeta. destruct (_ == ""); [done|]. apply safe_bind, served_runs. unfold EnsureTarget_run.
  assert (forall s1 (p : go powershell server_target), safe windows_server s1 p (fun r _ => forall t, r = Ok t -> valid_utf8 (tgIqn t)) ->
    safe windows_server s1 (t ← p; ok (tgName t, tgIqn t)) (fun r _ => forall x, r = Ok x -> valid_utf8 x.2)) as Hend.
  { intros s1 p H. apply safe_bind. eapply safe_mono; [exact H|]. intros [x|e|] s2 Hx; [|done..].
    intros y [= <-]. by apply Hx. }
  eapply safe_mono with (Q := fun r _ => forall x, r = Ok x -> valid_utf8 x.2).
  - looks. intros r [_ Hr]. set (s1 := s). clearbody s1. apply safe_bind.
    eapply safe_mono with (Q := fun r' _ => forall t', r' = Ok t' -> valid_utf8 (tgIqn t')).
    + destruct r as [x|]; [by intros t' [= <-]; apply Hr|]. apply safe_stops; [done|].
      intros [x|] Hx; [|done]. intros t' [= <-]. by destruct (Hx x eq_refl) as (_ & _ & H).
    + intros [x|e|] s2 Hx; [|done..]. apply Hend. destruct (_ && _)%bool; [|by intros y [= <-]; apply Hx].
      looks. intros [[y|]|] Hy; [by intros z [= <-]; apply Hy| |done]. apply safe_stops; [done|].
      intros [y'|] [_ Hy']; [|done]. intros z [= <-]. by apply Hy'.
  - intros [[n i]|e|] s2 Hx; [|by split..]. split; [|done]. destruct (blank i); [done|]. intros a [= <-]. by apply (Hx _ eq_refl).
Qed.

Lemma create_served k s z :
  known k s -> safe windows_server s (windows_method fold JoinPath is_guid parse_time (CreateVirtualDisk (cr_Name req) (parentDir st) z))
                 (served k (CreateVirtualDisk (cr_Name req) (parentDir st) z)).
Proof.
  intros Hk. cbn [windows_method]. apply served_runs. unfold CreateVirtualDisk_run. apply safe_bind.
  assert (forall s', known k s' -> known {| disk_deleted := false; target_deleted := target_deleted k |} s') as Hless.
  { intros s' (H1 & _ & H3). by split. }
  eapply safe_mono; [apply resolve_safe|]. intros r0 s1 [Hs1 Hd]. apply (folder_known k) in Hs1; [|done]. clear Hk.
  rename Hs1 into Hk. destruct r0 as [d|e|]; [|by apply Hless in Hk..].
  rewrite (Hd d eq_refl). cbv zeta. fold path. eapply safe_mono; [apply safe_conj|].
  - apply (disk_known _ k); [|done]. script_only; (split; [done|intros []]).
  - instantiate (1 := fun r _ => forall a, r = Ok a -> a.1 = path /\ 0 <= a.2 < 2 ^ 63).
    apply safe_bind, safe_stops; [done|]. intros [there|] _; [|done].
    assert (forall s', safe windows_server s' (size ← stops (GetIscsiVirtualDisk path); ok (path, size))
              (fun r _ => forall a, r = Ok a -> a.1 = path /\ 0 <= a.2 < 2 ^ 63)) as Hget.
    { intros s'. apply safe_bind, safe_stops; [done|]. intros [y|] [_ Hy]; [|done]. intros a [= <-]. by split; [|apply Hy]. }
    apply safe_bind. destruct there; [apply Hget|]. apply safe_bind, safe_stops; [done|]. intros [y|] _; [apply Hget|done].
  - intros r s2 [Hk2 Ha]. split; [|by split]. split; [|by destruct r]. destruct r as [a|e|]; [|done..]. intros _. by apply Ha.
Qed.

Lemma find_served s k :
  known k s -> safe windows_server s (windows_method fold JoinPath is_guid parse_time (GetVolumeByName (cr_Name req) (parentDir st)))
    (served k (GetVolumeByName (cr_Name req) (parentDir st))).
Proof.
  intros Hk. cbn [windows_method]. apply served_runs. unfold GetVolumeByName_run. apply safe_bind.
  eapply safe_mono; [apply resolve_safe|]. intros r0 s1 [Hs1 Hp]. apply (folder_known k) in Hs1; [|done]. clear Hk.
  rename Hs1 into Hk. destruct r0 as [p|e|]; [|by (split; [split; [intros [=]|]|])..].
  rewrite (Hp p eq_refl). cbv zeta. fold path. eapply safe_mono; [apply safe_conj; [apply (quiet_known _ k); [|done]|]|].
  { script_only; try harmless; apply mapped_quiet. }
  { instantiate (1 := fun r _ => forall f, r = Ok f -> fv_exists f = true ->
      fv_vhdxPath f = path /\ (fv_targetName f = own \/ fv_targetName f = "")
      /\ 0 <= fv_sizeBytes f < 2 ^ 63 /\ -1 <= fv_lun f < 2 ^ 31). destruct Hk as [Hs _].
    apply safe_bind, safe_stops; [done|]. intros [[]|] _; [|by intros f [= <-]|done].
    apply safe_bind, safe_stops; [done|]. intros [z|] [_ Hz]; [|done]. apply safe_bind. unfold Get_MappedIscsiTargets.
    apply safe_bind, safe_silently; [done|]. intros r Hr. cbv beta iota.
    destruct (flat_map _ _) as [|[tn ti] rest] eqn:E; intros f [= <-] _; cbn; [split_and!; (done || lia || by right || by apply Hz)|].
    split_and!; try (done || lia || by apply Hz).
    left. assert ((tn, ti) ∈ (tn, ti) :: rest) as Hin by left. rewrite <- E in Hin. destruct r as [l|]; [|by apply not_elem_of_nil in Hin].
    apply list_elem_of_In, in_flat_map in Hin as (t & Ht & Hin). apply in_map_iff in Hin as (q & [= <- <-] & Hq).
    apply filter_In in Hq as [Hq Hm]. apply list_elem_of_In in Ht.
    destruct (Hr l eq_refl t Ht) as (_ & key & Hkey). destruct (decide (key = fold own)) as [-> | Hne]; [by apply (oo_name s1)|].
    destruct Hnone as [_ _ _ _ Hno]. assert (mapped fold t path = false) as Hf.
    { apply (Hno key). rewrite <- (oo_targets s1 Hs). by rewrite lookup_delete_ne. }
    assert (mapped fold t path = true); [|congruence]. apply existsb_exists. by exists q. }
  intros r s2 [Hk2 Ha]. split; [|by split]. split; [|by destruct r]. destruct r as [f|e|]; [|done..]. intros _. by apply Ha.
Qed.

Lemma delete_disk_answer s :
  safe windows_server s (windows_method fold JoinPath is_guid parse_time (DeleteVirtualDisk path)) (fun r s' => forall u, r = Ok u -> disk_away s').
Proof.
  cbn [windows_method]. apply served_runs.
  assert (forall s1, win_disks s1 !! fold path = None ->
    safe windows_server s1 (there ← stops (TestPath path); _ ← (if there : bool then stops (RemoveItem path) else ok tt);
                            there ← stops (TestPath path); if there : bool then stopping_error else ok tt)
      (fun r s' => (forall u, r = Ok u -> disk_away s') /\ forall e u, @Err unit e = Ok u -> disk_away s')) as Hrest.
  { intros s1 H1. assert (forall s2, win_disks s2 !! fold path = None ->
      safe windows_server s2 (there ← stops (TestPath path); if there : bool then stopping_error else ok tt)
        (fun r s' => (forall u, r = Ok u -> disk_away s') /\ forall e u, @Err unit e = Ok u -> disk_away s')) as Hlast.
    { intros s2 H2. apply safe_bind, safe_stops; [done|]. intros [[]|] Hr; [done| |done]. split; [|done]. intros u _.
      split; [exact H2|]. specialize (Hr false eq_refl). symmetry in Hr. by apply bool_decide_eq_false in Hr. }
    apply safe_bind, safe_stops; [done|]. intros [[]|] _; [| |done]; apply safe_bind; [|by apply Hlast].
    apply safe_stops; [done|]. intros [[]|] _; [by apply Hlast|done]. }
  unfold DeleteVirtualDisk_run. apply safe_bind, safe_silently; [done|]. intros [z|] [Hz _]; apply safe_bind.
  - apply safe_stops; [done|]. intros [[]|] _; [|done]. apply Hrest. apply lookup_delete_eq.
  - by apply Hrest.
Qed.
Lemma delete_target_answer s :
  safe windows_server s (windows_method fold JoinPath is_guid parse_time (DeleteTarget own)) (fun r s' => forall u, r = Ok u -> target_away s').
Proof.
  cbn [windows_method]. cbv zeta. destruct Hown as [-> Hne]. apply String.eqb_neq in Hne as ->. apply served_runs.
  unfold DeleteTarget_run. apply safe_bind, safe_silently; [done|]. intros [t|] [Ht _]; [|by split].
  destruct (0 <? _)%nat; [done|]. apply safe_bind, safe_stops; [done|]. intros [[]|] _; [|done].
  apply safe_bind, safe_silently; [done|]. intros [t'|] [Ht' _]; [done|]. by split.
Qed.
Lemma map_answer s t p :
  safe windows_server s (windows_method fold JoinPath is_guid parse_time (MapDiskToTarget t p)) (fun r _ => forall lun, r = Ok lun -> lun = 0).
Proof.
  cbn [windows_method]. apply served_runs. unfold MapDiskToTarget_run, Get_MappedIscsiTargetNames, Get_MappedIscsiTargets.
  apply safe_bind, safe_stops; [done|]. intros [z|] _; [|done]. apply safe_bind, safe_bind, safe_bind, safe_silently; [done|].
  intros r _. apply safe_bind. destruct (existsb _ _); [by split; [intros lun [= <-]|]|].
  apply safe_stops; [done|]. intros [[]|] _; [by split; [intros lun [= <-]|]|done].
Qed.

(** Each method does what is required of it, whatever cmdlets fail. *)
Lemma method_served k s (o : backend_op) :
  volume_op o -> known k s -> safe windows_server s (windows_method fold JoinPath is_guid parse_time o) (served k o).
Proof.
  intros Ho Hk.
  assert (changes_only o -> safe windows_server s (windows_method fold JoinPath is_guid parse_time o) (fun _ s' => known k s')) as Hq
    by (intros Hc; by apply quiet_known; [apply method_quiet|]).
  destruct o; try (eapply safe_mono; [by apply Hq|]; by intros).
  - eapply safe_mono; [apply safe_conj; [apply (target_known _ k); [|done]|apply ensure_answer]|].
    + cbn [windows_method]. cbv zeta. cbn in Ho. subst. destruct Hown as [-> _]. unfold EnsureTarget_run. script_only;
        (split; [done|intros []]).
    + intros r s' [Hk' Ha]. split; [|by destruct r]. destruct r; [|done..]. intros _. by apply Ha.
  - destruct Ho as [-> ->]. by apply create_served.
  - eapply safe_mono; [apply safe_conj; [by apply Hq|apply map_answer]|]. intros r s' [Hk' Ha].
    split; [|done]. destruct r as [lun|e|]; [|done..]. intros _. cbn. rewrite (Ha _ eq_refl). lia.
  - cbn in Ho. subst. eapply safe_mono; [apply safe_conj; [by apply Hq|apply delete_disk_answer]|].
    intros r s' [(H1 & H2 & H3) Ha]. split; [done|]. split_and!; [done| |done]. destruct r; cbn; rewrite ?orb_false_r; auto.
    intros _. by eapply Ha.
  - cbn in Ho. subst. eapply safe_mono; [apply safe_conj; [by apply Hq|apply delete_target_answer]|].
    intros r s' [(H1 & H2 & H3) Ha]. split; [done|]. split_and!; [done..|]. destruct r; cbn; rewrite ?orb_false_r; auto.
    intros _. by eapply Ha.
  - destruct Ho as [-> ->]. by apply find_served.
Qed.
Lemma backend_served k s (o : op backend) :
  volume_op o -> known k s ->
  safe windows_server s (windows_backend fold JoinPath is_guid parse_time o)
    (fun r s' => volume_answers k o r /\ known (knowledge_step k o r) s').
Proof.
  intros Ho Hk. unfold windows_backend. apply safe_prog_bind. eapply safe_mono; [by apply method_served|].
  intros r s' H. by destruct r.
Qed.

(** ** The requests of the controller *)

Lemma only_volume {A} (p : controller A) k : only volume_op p -> safe volume_requests k p (fun _ _ => True).
Proof.
  unfold only. revert k. induction p as [a|o c IH]; intros k; [done|]. intros [Ho Hc]. split; [exact Ho|].
  intros r _. by apply IH, Hc.
Qed.
Lemma own_volume o : own_op st path o -> volume_op o.
Proof. by destruct o. Qed.

Context (Htexts : valid_utf8 (cr_Name req) /\ valid_utf8 (targetPortalWithPort st) /\ valid_utf8 own /\ valid_utf8 path).
Context (Hpath : path <> "").

(** What is returned names the volume. *)
Definition named (vol : Volume) : Prop := exists v, VolumeId vol = encodeVolID v /\ names st path v.

Lemma ensure_requests k iqn format :
  safe volume_requests k (ensure_target cs own iqn format) (fun r _ => forall i, r = Ok i -> valid_utf8 i).
Proof.
  unfold ensure_target. apply safe_bind. must_step; [done|done|]. intros [i []] Hi; [done|]. cbn [failed value].
  destruct (i == ""); [done|]. intros j [= <-]. by apply Hi.
Qed.
Lemma named_id iqn lun z :
  valid_utf8 iqn -> - 2 ^ 31 <= lun < 2 ^ 31 -> 0 <= z < 2 ^ 63 -> names st path (iscsi_volID req st own iqn lun path z).
Proof. intros Hi Hl Hz. destruct Htexts as (? & ? & ? & ?). split; [|done]. split_and!; cbn; (done || lia). Qed.

Lemma creation_requests k :
  GetSnapshot (cr_ContentSource req) = None -> iscsi_settings req = Ok st ->
  safe volume_requests k (createIscsiVolume cs req) (fun r _ => forall vol, r = Ok vol -> named vol).
Proof.
  intros Hsrc Hst. unfold createIscsiVolume. rewrite Hst, Hsrc. unfold lift.
  change (Ret (Ok st) ≫= ?f) with (f st). cbv beta. apply safe_bind. must_step; [done|done|].
  intros [f []] Hf; [done|]. specialize (Hf eq_refl). cbn [failed value] in *.
  destruct (fv_exists f).
  - destruct (Hf eq_refl) as (Hp & Ht & Hz & Hl). unfold createIscsiExisting. rewrite Hp.
    destruct (_ && _ && _)%bool; [done|].
    assert ((if fv_targetName f == "" then own else fv_targetName f) = own) as ->.
    { destruct Ht as [-> | ->]; [|done]. by destruct (own == "") eqn:E. }
    apply safe_bind. eapply safe_mono; [apply ensure_requests|]. intros [i|e|] s1 Hi; [|done..]. specialize (Hi i eq_refl).
    apply safe_bind. destruct (fv_lun f <? 0)%Z eqn:El.
    + must_step; [done|done|]. intros [lun []] Hm; [done|]. specialize (Hm eq_refl). cbn [failed value] in *.
      intros vol [= <-]. eexists. split; [done|]. apply named_id; [done|lia|done].
    + go_bool. intros vol [= <-]. eexists. split; [done|]. apply named_id; [done|lia|done].
  - unfold createIscsiNew. apply safe_bind. must_step; [done|done|].
    intros [[p z] []] Hd; [done|]. destruct (Hd eq_refl) as [Hp Hz]. cbn [value fst snd] in *. subst p.
    apply safe_bind. eapply safe_mono; [apply ensure_requests|]. intros [i|e|] s1 Hi; [|done..]. specialize (Hi i eq_refl).
    apply safe_bind. eapply safe_mono.
    { apply only_volume. eapply only_weaken; [apply own_volume|]. eapply only_weaken; [apply (uses_own st path)|].
      by apply chap_uses. }
    intros [[]|e|] s2 _; [|done..]. apply safe_bind. must_step; [done|done|].
    intros [lun []] Hm; [done|]. specialize (Hm eq_refl). cbn [failed value] in *.
    intros vol [= <-]. eexists. split; [done|]. apply named_id; [done|lia|done].
Qed.

Context (v : volID) (Hv : names st path v).
(** A deletion that succeeds has deleted the disk and the target. *)
Lemma deletion_requests k :
  safe volume_requests k (DeleteVolume cs (encodeVolID v))
    (fun r k' => r = Ok tt -> disk_deleted k' = true /\ target_deleted k' = true).
Proof.
  unfold DeleteVolume. destruct (_ == ""); [|rewrite (decode_own st path) by done]; [done|].
  change (vProtocol (of_legacy v)) with ProtocolISCSI. cbv iota beta.
  change (ProtocolISCSI == ProtocolNFS) with false. change (ProtocolISCSI == ProtocolSMB) with false. cbv iota.
  unfold deleteIscsiVolume, deleteTargetNameForVolume. rewrite (own_target st path) by done.
  destruct Hv as (_ & -> & ->), Hown as [-> Ho]. apply String.eqb_neq in Ho as Ho', Hpath as Hp'. rewrite Ho', Hp'.
  cbn [negb andb]. unfold ok. apply safe_bind. must_step; [done|done|]. intros [[] []] _; [done|]. cbn [failed value].
  change (Ret (Ok own) ≫= ?f) with (f own). cbv beta. rewrite Ho'. cbn [negb].
  apply safe_bind. must_step; [done|done|]. intros [[] []] _; [done|]. cbn [failed value].
  must_step; [done|done|]. intros [[] []] _; [done|]. intros _. cbn. by rewrite !orb_true_r.
Qed.
Lemma request_requests k u :
  GetSnapshot (cr_ContentSource req) = None -> iscsi_settings req = Ok st ->
  safe volume_requests k (serve_request cs req (encodeVolID v) u) (fun r _ => r = Ok tt).
Proof.
  intros Hsrc Hst.
  assert (forall A (p : controller A), safe volume_requests k p (fun _ _ => True) ->
    safe volume_requests k (forget p) (fun r _ => r = Ok tt)) as Hforget.
  { intros A p H. apply safe_prog_bind. eapply safe_mono; [exact H|]. done. }
  destruct u; apply Hforget;
    [by eapply safe_mono; [by apply creation_requests|]|apply only_volume; eapply only_weaken; [apply own_volume|]..].
  - by apply deletion_own.
  - eapply only_weaken; [apply (uses_own st path)|]. by apply (publish_uses cs st path v).
  - eapply only_weaken; [apply (uses_own st path)|]. by apply (unpublish_uses cs st path v).
  - eapply only_weaken; [apply (uses_own st path)|]. by apply (expand_uses cs st path v).
Qed.
Lemma requests_requests l :
  GetSnapshot (cr_ContentSource req) = None -> iscsi_settings req = Ok st ->
  forall k, safe volume_requests k (serve_requests cs req (encodeVolID v) l) (fun r _ => r = Ok tt).
Proof.
  intros Hsrc Hst. induction l as [|u l IH]; intros k; [done|]. cbn [serve_requests]. apply safe_bind.
  eapply safe_mono; [by apply request_requests|]. intros r s ->. apply IH.
Qed.
End volume.

(** ** A life *)

Section life.
Context (cs : ControllerServer) (req : CreateVolumeRequest) (st : IscsiSettings) (l1 l2 : list request).
Abbreviation path := (volume_path (cr_Name req) (parentDir st)).

Lemma life_requests k :
  GetSnapshot (cr_ContentSource req) = None -> iscsi_settings req = Ok st ->
  TrimSpace (targetName st) = targetName st /\ targetName st <> "" ->
  valid_utf8 (cr_Name req) /\ valid_utf8 (targetPortalWithPort st) /\ valid_utf8 (targetName st) /\ valid_utf8 path ->
  path <> "" ->
  safe (volume_requests req st) k (life cs req l1 l2)
    (fun r k' => r = Ok tt -> disk_deleted k' = true /\ target_deleted k' = true).
Proof.
  intros Hsrc Hst Hown Htexts Hpath. unfold life. apply safe_bind.
  eapply safe_mono; [by apply creation_requests|]. intros [vol|e|] s1 Hb; [|done..].
  destruct (Hb vol eq_refl) as (v & -> & Hv). apply safe_bind.
  eapply safe_mono; [by apply requests_requests|]. intros r s2 ->. apply safe_bind.
  eapply safe_mono; [by apply requests_requests|]. intros r s3 ->. by apply deletion_requests.
Qed.
End life.
End server.


(** ** A server in memory *)

Definition backslash (parent child : string) : string := parent +:+ "\" +:+ child.
Definition no_variable (name scope : string) : string := "".
Definition same_name (path : string) : string := path.
(** The cmdlets work; a new target has Microsoft's IQN. *)
Definition machine_answer (s : windows) (o : cmdlet) : option (cmdlet_result o) :=
  match o return option (cmdlet_result o) with
  | GetEnvironmentVariable _ _ => Some ""
  | SystemDrive => Some "C:"
  | GetFullName p => Some p
  | TestPath p => Some (bool_decide (ToLower p ∈ win_files s))
  | NewIscsiVirtualDisk p size => if decide (ToLower p ∈ win_files s) then None else Some size
  | GetIscsiVirtualDisk p => win_disks s !! ToLower p
  | ResizeIscsiVirtualDisk p size => fmap (fun _ => size) (win_disks s !! ToLower p)
  | GetIscsiServerTarget n => win_targets s !! ToLower n
  | GetIscsiServerTargets => Some (map snd (map_to_list (win_targets s)))
  | NewIscsiServerTarget n =>
      match win_targets s !! ToLower n with
      | Some _ => None
      | None => Some {| tgName := n; tgIqn := "iqn.1991-05.com.microsoft:srv-" +:+ n +:+ "-target";
                        LunMappings := []; InitiatorIds := [] |}
      end
  | SetTargetIqn n iqn => fmap (fun t => Some (with_iqn iqn t)) (win_targets s !! ToLower n)
  | SetTargetChap n _ _ | SetInitiatorIds n _ | RemoveIscsiServerTarget n | AddTargetMapping n _
  | RemoveTargetMapping n _ => fmap (fun _ => tt) (win_targets s !! ToLower n)
  | RemoveIscsiVirtualDisk p => fmap (fun _ => tt) (win_disks s !! ToLower p)
  | NewDirectory _ | RemoveItem _ | Deliver => Some tt
  | _ => None
  end.
Definition machine : handler powershell windows :=
  fun o s => (machine_answer s o, win_step ToLower s o (machine_answer s o)).

(** Another volume is there already, and published. *)
Definition other_target : server_target :=
  {| tgName := "pvc-0"; tgIqn := "iqn.1991-05.com.microsoft:srv-pvc-0-target"; LunMappings := ["D:\v\pvc-0.vhdx"];
     InitiatorIds := [iqn_id node_iqn] |}.
Definition other_windows : windows :=
  {| win_disks := {["d:\v\pvc-0.vhdx" := 5]}; win_files := {["d:\v\pvc-0.vhdx"]}; win_folders := {["d:\v"]};
     win_targets := {["pvc-0" := other_target]}; win_chap := {["pvc-0"]} |}.

Definition no_guid (text : string) : bool := false.
Definition no_time (text : string) : option Z := None.
Definition volume_folder : string := ToLower (chosen no_variable "C:" (parentDir example_settings)).

(** A lookup that fails is taken for a target that is not there: while targets cannot be
    looked up, their deletion succeeds and leaves them. *)
Definition blind_answer (s : windows) (o : cmdlet) : option (cmdlet_result o) :=
  match o return option (cmdlet_result o) with GetIscsiServerTarget _ => None | o => machine_answer s o end.
Definition blind : handler powershell windows :=
  fun o s => (blind_answer s o, win_step ToLower s o (blind_answer s o)).
Lemma target_overlooked :
  (run blind (windows_backend ToLower backslash no_guid no_time (DeleteTarget "pvc-0")) other_windows).1
  = (Returned tt false, other_windows).
Proof. vm_compute. reflexivity. Qed.
