(* ===== verification/Startup.v ===== *)
(** * The process from its command line to its first request
    ([cmd/csiplugin/main.go], [pkg/iscsi/driver.go], [backend_winrm.go])

    [main] with its parts linked: the flags and the node id, the driver and its mode, the
    back end from the environment, and the probe of the storage server, down to the
    commands that reach the host. *)
From S2P Require Import Prelude GoStrings GoJson Params Prog Driver PowerShell WinRMScripts WinRM WinRMFacts Main.

(** What is left outside: the steps of a start, and the WinRM client. *)
Inductive boot_op := Step (o : run_op) | OnHost (o : winrm_op).
Definition boot_resp (o : boot_op) : Type :=
  match o with Step o => run_resp o | OnHost o => winrm_resp o end.
Definition boot : service := Service boot_op boot_resp.

Definition on_host {A} (p : prog winrm A) : prog boot A :=
  interp (E := winrm) (F := boot) (fun o => Do (E := boot) (OnHost o) Ret) p.

(** [validateBackendStartup]: the back end has a [Validate] method. *)
Definition validate_backend (b : res WinRMBackend) : prog boot bool :=
  match b with
  | Ok b => prog_bind (on_host (ValidateConnection (Some b)))
              (fun r => Ret (match r with Ok _ => false | _ => true end))
  | _ => Ret true
  end.
Definition boot_handler (env : Params) (o : run_op) : prog boot (resp run_service o) :=
  match o return prog boot (resp run_service o) with
  | NewBackendFromEnv => Ret (negb (is_Ok (newWinRMBackendFromEnv env)))
  | ValidateBackend => validate_backend (newWinRMBackendFromEnv env)
  | o => Do (E := boot) (Step o) Ret
  end.

Definition main (env : Params) (hostname : res string) (readFile : string -> res string) (flags : Flags)
  : prog boot (res unit) :=
  match handle env readFile flags with
  | Ok (d, opts) =>
      interp (E := run_service) (F := boot) (boot_handler env)
        (RunWithOptions env hostname d (ro_Mode opts) (ro_LeaderElection opts))
  | Err (PlainErr format) => Do (E := boot) (Step (Fatalf format)) (fun _ => Ret Panicked)
  | _ => Ret Panicked
  end.

(** ** Properties *)

(** The storage server has answered the probe with [ok]. *)
Definition read_probe : string -> option (bool * (string * string)) :=
  unmarshal [("ok", on_fst set_bool); ("computerName", on_snd (on_fst set_string));
             ("userName", on_snd (on_snd set_string))] (false, ("", "")).
Definition probe_ok (out : run_outcome) : bool :=
  match out with
  | RunEnded stdout code =>
      ((code =? 0)%Z && match read_probe stdout with Some (true, _) => true | _ => false end)%bool
  | _ => false
  end.
Definition is_probe (b : WinRMBackend) (o : winrm_op) : Prop :=
  match o with
  | NewClient endpoint user password ntlm =>
      endpoint = wEndpoint b /\ user = User b /\ password = Pass b /\ clientParameters b = Ok ntlm
  | RunCommand command text =>
      command = "Invoke-Expression ([Console]::In.ReadToEnd())"
      /\ text = render (wrapped_script (module_import b) validation_script)
  end.

Record boot_state := { probed : bool; dead : bool }.
Definition boot_allowed (env : Params) (opts : res (driver * RunOptions)) (s : boot_state) (o : boot_op) : Prop :=
  dead s = false
  /\ match o with
     | Step (StartServer identity controller node) =>
         identity = true
         /\ exists d run, opts = Ok (d, run)
         /\ (controller = true -> ro_Mode run = DriverModeController /\ probed s = true
             /\ exists b, newWinRMBackendFromEnv env = Ok b /\ usable b)
         /\ (node = true -> ro_Mode run = DriverModeNode /\ nodeID d <> "")
     | Step NewBackendFromEnv | Step ValidateBackend => False
     | Step _ => True
     | OnHost o => exists b, newWinRMBackendFromEnv env = Ok b /\ is_probe b o
                   /\ exists d run, opts = Ok (d, run) /\ ro_Mode run = DriverModeController
     end.
Definition boot_step (s : boot_state) (o : boot_op) : boot_resp o -> boot_state :=
  match o with
  | OnHost (RunCommand _ _) => fun out => {| probed := probe_ok out; dead := dead s |}
  | Step (Fatalf _) => fun _ => {| probed := probed s; dead := true |}
  | _ => fun _ => s
  end.
Definition boot_monitor (env : Params) (opts : res (driver * RunOptions)) : monitor boot boot_state :=
  {| allowed := (boot_allowed env opts : boot_state -> op boot -> Prop);
     assumed := fun _ _ _ => True; step := boot_step |}.

Section start.
Context (env : Params) (d : driver) (run : RunOptions).
Abbreviation outside := (boot_monitor env (Ok (d, run))).

(** The steps of a start, related to what reaches the host. *)
Definition reaches (s : startup) (t : boot_state) : Prop :=
  ended s = dead t
  /\ (validated s = true -> probed t = true /\ exists b, newWinRMBackendFromEnv env = Ok b).

Lemma validate_backend_probes t :
  dead t = false -> ro_Mode run = DriverModeController ->
  safe outside t (validate_backend (newWinRMBackendFromEnv env)) (fun failed t' =>
    dead t' = false /\ (failed = false -> probed t' = true /\ exists b, newWinRMBackendFromEnv env = Ok b)).
Proof.
  intros Hd Hm. unfold validate_backend. destruct (newWinRMBackendFromEnv env) as [b|e|] eqn:Eb; [|done..].
  destruct (newWinRMBackendFromEnv_Ok env b Eb) as ((ep & Hep & _) & _ & _ & _ & _ & _ & Hc).
  unfold ValidateConnection. rewrite Hep. unfold on_host, catch, runPS. rewrite Hc.
  assert (is_probe b (RunCommand "Invoke-Expression ([Console]::In.ReadToEnd())"
                        (render (wrapped_script (module_import b) validation_script)))) as Hp by done.
  revert Hp. generalize (render (wrapped_script (module_import b) validation_script)) as text. intros text Hp.
  assert (forall o s, dead s = false -> is_probe b o -> boot_allowed env (Ok (d, run)) s (OnHost o)) as Ha.
  { intros o s Hs Ho. split; [done|]. exists b. split_and!; [done..|by exists d, run]. }
  split; [by apply Ha|]. intros client _. destruct client; [|done]. split; [by apply Ha|]. intros out _. cbn.
  destruct out as [| |stdout code]; [done..|]. cbn. destruct (code =? 0)%Z; [|done]. cbn.
  destruct (TrimSpace stdout != ""); [|done]. fold (read_probe stdout).
  destruct (read_probe stdout) as [[[] ?]|]; [|done..]. cbn. split; [done|]. intros _. split; [done|]. by exists b.
Qed.
Lemma boot_handler_safe s t o :
  (ro_Mode run = DriverModeNode -> nodeID d <> "") ->
  reaches s t -> allowed (startup_monitor (ro_Mode run)) s o ->
  safe outside t (boot_handler env o) (fun r t' => assumed (startup_monitor (ro_Mode run)) s o r
    /\ reaches (step (startup_monitor (ro_Mode run)) s o r) t').
Proof.
  intros Hn [He Hv] [Hd Ho]. rewrite He in Hd.
  destruct o; cbn in *; try (split; [by split|]; intros r _; by split).
  - by split; [|split].
  - eapply safe_mono; [by apply validate_backend_probes|]. intros failed t' [H1 H2]. split; [done|].
    split; [cbn; congruence|]. cbn. intros Hf. apply H2. by destruct failed.
  - destruct Ho as (-> & Hc & Hnode). split; [|intros r _; by split].
    split; [done|]. split; [done|]. exists d, run. split_and!; [done|intros H..].
    + destruct (Hc H) as [Hm H']. destruct (Hv H') as [Hp (b & Hb)]. split_and!; [done..|].
      exists b. split; [done|by eapply newWinRMBackendFromEnv_Ok].
    + split; [by apply Hnode|]. by apply Hn, Hnode.
Qed.
End start.

(** C29: from the command line on, and whatever the host answers: nothing is sent to the
    storage server but the probe, and that in controller mode only; the controller
    service is served in that mode only, with a back end whose configuration makes sense
    and whose probe was answered with [ok]; the node service is served in node mode only,
    with a node id; nothing follows a fatal error. *)
Theorem main_safe (env : Params) (hostname : res string) (readFile : string -> res string) (flags : Flags) :
  safe (boot_monitor env (handle env readFile flags)) {| probed := false; dead := false |}
    (main env hostname readFile flags) (fun _ _ => True).
Proof.
  unfold main. destruct (handle env readFile flags) as [[d run]|e|] eqn:Eh; [|by destruct e|done].
  eapply safe_mono; [|done].
  refine (safe_interp (startup_monitor (ro_Mode run)) _ (boot_handler env) (reaches env) fresh_startup _ _ (fun _ _ => True) _ _ _).
  - intros s t o HR Ho. apply (boot_handler_safe env d run s t o); [|done..]. intros Hm. by eapply handle_node.
  - by split.
  - apply RunWithOptions_safe.
Qed.
