(* ===== verification/Runtime.v ===== *)
(** * What surrounds the services ([pkg/iscsi/utils.go], [leader_election.go], [driver.go],
    [internal_kubernetes.go], [fsstats_unsupported.go])

    The interceptor that logs each RPC, the leader election, the run directory, and the
    two built-in endpoints with the goroutines that serve and end them. *)
From S2P Require Import Prelude GoStrings GoPath Params Prog Threads Driver Server KubeEvents.

(** ** [logGRPC] *)

Section interceptor.
Context {E : service} {Req Resp : Type}.
(** [protosanitizer.StripSecrets], as text. *)
Context (StripRequest : Req -> string) (StripResponse : Resp -> string).

Inductive grpc_line :=
| GrpcCall (method : string) | GrpcRequest (text : string) | GrpcError (e : error) | GrpcResponse (text : string).
Inductive logged_op := LogLine (l : grpc_line) | Handled (o : op E).
Definition logged : service :=
  Service logged_op (fun o => match o with LogLine _ => unit | Handled o => resp E o end).
Definition handled {A} (p : prog E A) : prog logged A :=
  interp (E := E) (F := logged) (fun o => Do (E := logged) (Handled o) Ret) p.

Definition logGRPC (FullMethod : string) (handler : Req -> go E Resp) (req : Req) : go logged Resp :=
  _ ← call (E := logged) (LogLine (GrpcCall FullMethod));
  _ ← call (E := logged) (LogLine (GrpcRequest (StripRequest req)));
  catch (handled (handler req)) (fun r =>
    match r with
    | Err e => _ ← call (E := logged) (LogLine (GrpcError e)); lift (Err e)
    | Ok resp => _ ← call (E := logged) (LogLine (GrpcResponse (StripResponse resp))); ok resp
    | Panicked => lift Panicked
    end).

(** A service with a log on the side. *)
Definition with_log {S} (h : handler E S) : handler logged (S * list grpc_line) := fun o '(s, lines) =>
  match o return resp logged o * (S * list grpc_line) with
  | LogLine l => (tt, (s, lines ++ [l]))
  | Handled o => let '(r, s') := h o s in (r, (s', lines))
  end.
Definition closing_line (r : res Resp) : list grpc_line :=
  match r with
  | Err e => [GrpcError e]
  | Ok resp => [GrpcResponse (StripResponse resp)]
  | Panicked => []
  end.

Lemma run_handled {S A} (h : handler E S) (p : prog E A) s lines :
  run (with_log h) (handled p) (s, lines) =
  let '(a, s', log) := run h p s in (a, (s', lines), map Handled log).
Proof.
  revert s. induction p as [a|o k IH]; intros s; [done|]. cbn. destruct (h o s) as [r s1]. unfold handled in IH.
  rewrite IH. by destruct (run h (k r) s1) as [[a s2] log].
Qed.

(** The handler gets the request, and its result is the result; three lines frame it,
    with what is left of the request and the response once secrets are stripped. *)
Lemma logGRPC_transparent {S} (h : handler E S) FullMethod handler0 req s lines :
  let '(r, s', log) := run h (handler0 req) s in
  run (with_log h) (logGRPC FullMethod handler0 req) (s, lines) =
  (r, (s', lines ++ [GrpcCall FullMethod; GrpcRequest (StripRequest req)] ++ closing_line r),
   LogLine (GrpcCall FullMethod) :: LogLine (GrpcRequest (StripRequest req)) :: map Handled log
     ++ map LogLine (closing_line r)).
Proof.
  destruct (run h (handler0 req) s) as [[r s'] log] eqn:Er. unfold logGRPC, catch. cbn.
  rewrite run_bind, run_handled, Er, <- !app_assoc. cbn. by destruct r; cbn; rewrite <- ?app_assoc.
Qed.
End interceptor.

(** ** Leader election *)

(** What [leaderelection.RunOrDie] is given; its callbacks are [election_callback]. *)
Record election := {
  lock_Name : string;
  lock_Namespace : string;
  lock_Identity : string;
  el_LeaseDuration : Z;
  el_RenewDeadline : Z;
  el_RetryPeriod : Z;
  ReleaseOnCancel : bool
}.
Inductive election_op := InClusterConfig | NewForConfig | RunOrDie (e : election).
Definition election_service : service :=
  Service election_op (fun o => match o with RunOrDie _ => unit | _ => bool end).

Definition election_of (config : LeaderElectionConfig) : election :=
  {| lock_Name := LeaseName config; lock_Namespace := LeaseNamespace config; lock_Identity := Identity config;
     el_LeaseDuration := LeaseDuration config; el_RenewDeadline := RenewDeadline config;
     el_RetryPeriod := RetryPeriod config; ReleaseOnCancel := true |}.
Definition runLeaderElection (config : LeaderElectionConfig) : go election_service unit :=
  inside ← call (E := election_service) InClusterConfig;
  if negb (inside : bool) then lift (Err (PlainErr "build in-cluster Kubernetes client config: %w")) else
  client ← call (E := election_service) NewForConfig;
  if negb (client : bool) then lift (Err (PlainErr "create Kubernetes client: %w")) else
  call (E := election_service) (RunOrDie (election_of config)).

Inductive election_event := OnStartedLeading | OnStoppedLeading | OnNewLeader (identity : string).
Definition election_callback (run : go run_service unit) (e : election_event) : go run_service unit :=
  match e with
  | OnStartedLeading => run
  | OnStoppedLeading => fatalf "lost leadership for lease %s/%s"
  | OnNewLeader _ => ok tt
  end.
(** The line that [OnNewLeader] writes, by its format. *)
Definition new_leader_line (config : LeaderElectionConfig) (identity : string) : string :=
  if identity == Identity config then "acquired leadership for lease %s/%s"
  else "leader elected for lease %s/%s: %s".

(** [Run]: no election, no debugging, no Kubernetes agent. *)
Definition no_election : LeaderElectionConfig :=
  {| leEnabled := false; LeaseName := ""; LeaseNamespace := ""; Identity := ""; LeaseDuration := 0;
     RenewDeadline := 0; RetryPeriod := 0 |}.
Definition Run (env : Params) (hostname : res string) (d : driver) (mode : DriverMode) : go run_service unit :=
  RunWithOptions env hostname d mode no_election.

(** A retry period just below the deadline is accepted. *)
Definition tight_election : LeaderElectionConfig :=
  {| leEnabled := true; LeaseName := "lease"; LeaseNamespace := "csi"; Identity := "node-1";
     LeaseDuration := 15 * second; RenewDeadline := 11 * second; RetryPeriod := 10 * second |}.
Lemma withDefaults_tight d : withDefaults ∅ (Ok "host") d tight_election = Ok tight_election.
Proof. vm_compute. reflexivity. Qed.

(** ** The run directory *)

Definition driverRunDirEnv : string := "CSI_DRIVER_RUN_DIR".
Definition run_directory (env : Params) (d : driver) : string :=
  let baseDir := TrimSpace (param env driverRunDirEnv) in
  PathJoin [if baseDir == "" then "/var/run" else baseDir; name d].
Inductive directory_op := MkdirAll (path : string) | Warn (format : string).
Definition directories : service :=
  Service directory_op (fun o => match o with MkdirAll _ => bool | Warn _ => unit end).
Definition ensureRunDirectory (env : Params) (d : driver) : prog directories unit :=
  Do (E := directories) (MkdirAll (run_directory env d)) (fun made =>
    if made : bool then Ret tt
    else Do (E := directories) (Warn "failed to create driver run directory: %v") Ret).

(** ** The registration socket's service *)

Inductive registration_line := Registered (driverName : string) | NotRegistered (driverName err : string).
(** The status is acknowledged, whatever it says. *)
Definition NotifyRegistrationStatus (driverName : string) (PluginRegistered : bool) (err : string)
  : registration_line * res unit :=
  (if PluginRegistered then Registered driverName else NotRegistered driverName err, Ok tt).

(** ** File system statistics where they are not supported *)

Definition fsUsage_unsupported (path : string) : res (Z * Z * Z * Z * Z * Z) :=
  Err (PlainErr "filesystem stats not supported on this OS").

(** ** The two endpoints

    Each has a goroutine that waits for the end of the context and one that serves. *)

(** How serving ends: without an error; with the one that says that the server was shut
    down ([http.ErrServerClosed], [grpc.ErrServerStopped]); with another one. *)
Inductive end_of_serving := EndedNil | EndedShutDown | EndedFailed.
Inductive endpoint_op :=
| ContextDone                 (* [<-ctx.Done()] *)
| ShutDown                    (* [Shutdown], [GracefulStop] *)
| CloseSocket | RemoveSocketFile (path : string)
| ServeEndpoint               (* [ListenAndServe], [Serve] *)
| ContextErr                  (* [ctx.Err() != nil] *)
| EndpointFatal.
Definition endpoint_resp (o : endpoint_op) : Type :=
  match o with ServeEndpoint => end_of_serving | ContextErr => bool | _ => unit end.
Definition endpoints : service := Service endpoint_op endpoint_resp.
Abbreviation at_endpoint := (fun o k => Do (E := endpoints) o k).

(** [/healthz] and [/readyz] are answered by 200 and a text, other paths by the 404 of
    the multiplexer ([None]). *)
Definition health_answer (path : string) : option (Z * string) :=
  if one_of path ["/healthz"; "/readyz"] then Some (200, "ok" +:+ String (ascii_of_N 10) "") else None.

Definition health_stopper : prog endpoints unit :=
  at_endpoint ContextDone (fun _ => at_endpoint ShutDown (fun _ => Ret tt)).
Definition health_server : prog endpoints unit :=
  at_endpoint ServeEndpoint (fun e =>
    match e with
    | EndedFailed => at_endpoint EndpointFatal (fun _ => Ret tt)
    | _ => Ret tt
    end).

Definition registrar_stopper (socketPath : string) : prog endpoints unit :=
  at_endpoint ContextDone (fun _ =>
  at_endpoint ShutDown (fun _ =>
  at_endpoint CloseSocket (fun _ =>
  at_endpoint (RemoveSocketFile socketPath) (fun _ => Ret tt)))).
Definition registrar_server : prog endpoints unit :=
  at_endpoint ServeEndpoint (fun e =>
    match e with
    | EndedNil => Ret tt
    | _ => at_endpoint ContextErr (fun done =>
             if done : bool then Ret tt else at_endpoint EndpointFatal (fun _ => Ret tt))
    end).

Record endpoint_state := EndpointState {
  ctx_done : bool; shut : bool; broken : bool; dead_end : bool }.
Definition endpoint_step (s : endpoint_state) (o : endpoint_op) : endpoint_resp o -> endpoint_state :=
  let '(EndpointState c s0 b x) := s in
  match o with
  | ContextDone => fun _ => EndpointState true s0 b x
  | ShutDown => fun _ => EndpointState c true b x
  | ServeEndpoint => fun e => EndpointState c s0 (match e with EndedFailed => true | _ => b end) x
  | EndpointFatal => fun _ => EndpointState c s0 b true
  | _ => fun _ => s
  end.
(** Serving ends in order only when the server was shut down. *)
Definition endpoint_assumed (s : endpoint_state) (o : endpoint_op) : endpoint_resp o -> Prop :=
  fun r => dead_end s = false /\
  match o return endpoint_resp o -> Prop with
  | ServeEndpoint => fun e => e <> EndedFailed -> shut s = true
  | ContextErr => fun done => done = ctx_done s
  | _ => fun _ => True
  end r.
Definition endpoint_monitor : monitor endpoints endpoint_state :=
  {| allowed := fun _ _ => True;
     assumed := (endpoint_assumed : endpoint_state -> forall o : op endpoints, resp endpoints o -> Prop);
     step := endpoint_step |}.

Inductive endpoint_thread := Stopper | Server.
(** The server is shut down once the context is done, and the process is ended only when
    serving has failed of itself. *)
Definition endpoint_may (t : endpoint_thread) (s : endpoint_state) (o : endpoint_op) : Prop :=
  match t, o with
  | Stopper, (ContextDone | RemoveSocketFile _ | CloseSocket) => True
  | Stopper, ShutDown => ctx_done s = true
  | Server, (ServeEndpoint | ContextErr) => True
  | Server, EndpointFatal => broken s = true
  | _, _ => False
  end.
Definition endpoint_rely (t : endpoint_thread) (s s' : endpoint_state) : Prop :=
  match t with
  | Stopper => ctx_done s = true -> ctx_done s' = true
  | Server => broken s' = broken s /\ (ctx_done s = true -> ctx_done s' = true)
      /\ ((shut s = true -> ctx_done s = true) -> shut s' = true -> ctx_done s' = true)
  end.
Definition endpoint_guar (t : endpoint_thread) (s s' : endpoint_state) : Prop :=
  forall t', t <> t' -> endpoint_rely t' s s'.

Lemma endpoint_agree :
  threads_agree endpoint_monitor (fun _ : op endpoints => @None (endpoint_thread * prog endpoints unit))
    endpoint_may (fun _ _ => True) (fun _ _ => True) endpoint_rely endpoint_guar.
Proof.
  split; [|intros t t' s s' Hne H; by apply H|done|done].
  intros t. split; [intros s; destruct t; cbn; tauto|]. intros s1 s2 s3. destruct t; cbn; [tauto|].
  intros (H1 & H2 & H3) (H4 & H5 & H6). split; [congruence|tauto].
Qed.

Abbreviation endpoint_fine :=
  (thread_ok endpoint_monitor endpoint_may (fun _ _ => True) endpoint_rely endpoint_guar).
Definition orderly (s : endpoint_state) : Prop := shut s = true -> ctx_done s = true.

Ltac endpoint_guarantees := intros [] Hne; try done; cbn; intuition congruence.

Lemma stopper_fine s (k : unit -> prog endpoints unit) :
  (forall s, ctx_done s = true -> endpoint_fine Stopper s (k tt)) ->
  endpoint_fine Stopper s (at_endpoint ContextDone (fun _ => at_endpoint ShutDown k)).
Proof.
  intros Hk s1 _. split; [done|]. intros u _. split; [destruct s1; cbn; endpoint_guarantees|].
  intros s2 H2. assert (ctx_done s2 = true) as Hd by (apply H2; by destruct s1). split; [exact Hd|].
  intros [] _. split; [destruct s2; cbn in *; endpoint_guarantees|]. apply Hk. by destruct s2.
Qed.
Lemma health_stopper_fine s : endpoint_fine Stopper s health_stopper.
Proof. by apply stopper_fine. Qed.
Lemma registrar_stopper_fine s path : endpoint_fine Stopper s (registrar_stopper path).
Proof.
  apply stopper_fine. intros s1 _ s2 _. split; [done|]. intros u _. split; [destruct s2; endpoint_guarantees|].
  intros s3 _. split; [done|]. intros u' _. split; [destruct s3; endpoint_guarantees|]. done.
Qed.
Lemma fatal_fine s : broken s = true -> endpoint_fine Server s (at_endpoint EndpointFatal (fun _ => Ret tt)).
Proof.
  intros Hb s1 (H1 & _ & _). split; [by rewrite <- H1 in Hb|]. intros u _. split; [|done].
  destruct s1; endpoint_guarantees.
Qed.
Lemma health_server_fine s : endpoint_fine Server s health_server.
Proof.
  intros s1 _. split; [done|]. intros e [_ He]. split; [destruct s1; endpoint_guarantees|].
  destruct e; [done..|]. apply fatal_fine. by destruct s1.
Qed.
Lemma registrar_server_fine s : orderly s -> endpoint_fine Server s registrar_server.
Proof.
  intros Hs s1 (_ & _ & H1). split; [done|]. intros e [_ He]. split; [destruct s1; endpoint_guarantees|].
  destruct e; [done| |]; intros s2 (Hb & Hd & _); (split; [done|]); intros done [_ ->];
    (split; [destruct s2; endpoint_guarantees|]).
  - assert (ctx_done s1 = true) as Hc by (apply (H1 Hs), He; done).
    rewrite (Hd ltac:(by destruct s1)). done.
  - destruct (ctx_done s2) eqn:Ec; [done|]. apply fatal_fine. destruct s1, s2. cbn in *. congruence.
Qed.

Definition endpoint0 : endpoint_state := EndpointState false false false false.
Definition endpoint_pool (stopper server : prog endpoints unit) : endpoint_state * pool :=
  (endpoint0, [(Stopper, stopper); (Server, server)]).

(** Neither endpoint ends the process unless it fails to serve of itself, whenever the
    context ends; and neither is shut down before that. *)
Lemma endpoints_orderly path stopper server s l :
  (stopper, server) ∈ [(health_stopper, health_server); (registrar_stopper path, registrar_server)] ->
  reachable endpoint_monitor (fun _ => None) (endpoint_pool stopper server) (s, l) ->
  forall t o k, (t, Do o k) ∈ l -> endpoint_may t s o.
Proof.
  intros Hp H t o k Hin. eapply (pool_ok_may _ _ _ _ _ _ _ endpoint_agree); [|exact Hin].
  eapply (pool_ok_reachable _ _ _ _ _ _ _ endpoint_agree); [exact H|].
  split; [apply NoDup_cons; split; [by intros [=]%list_elem_of_singleton|apply NoDup_singleton]|].
  repeat (apply elem_of_cons in Hp as [[= -> ->]|Hp]); [..|by apply not_elem_of_nil in Hp].
  all: apply Forall_cons; split; [split; [done|]|apply Forall_singleton; split; [done|]];
    auto using health_stopper_fine, health_server_fine, registrar_stopper_fine.
  by apply registrar_server_fine.
Qed.
